(* ===== verification/_CoqProject ===== *)
-Q . S2P
Prelude.v
GoStrings.v
GoSort.v
GoPath.v
Consts.v
Types.v
Sysfs.v
Accel.v
Video.v
Enumerate.v
DeviceNodes.v
DiscoveryProps.v
Json.v
JsonRound.v
Codec.v
Ranges.v
GoFloat.v
Effects.v
Metrics.v
Health.v
Resources.v
Cdi.v
Checkpoint.v
Flags.v
State.v
StateLemmas.v
StateInv.v
System.v
PkgFlags.v
Store.v
Driver.v
DriverInv.v
DriverMon.v
Main.v
Cli.v
Node.v
Api.v
Fixture.v
Returns.v
DriverLive.v
Accepts.v
StateProps.v
StoreProps.v
FileProps.v
DeviceProps.v
DriverProps.v
MainProps.v
CliProps.v
NodeProps.v
