(* ===== verification/Prelude.v ===== *)
(** * rockchip-dra-driver: a verification development

    The program is a Kubernetes DRA kubelet plugin for Rockchip boards.  It
    discovers the node's accelerators in sysfs, publishes them as a ResourceSlice,
    prepares and unprepares resource claims for the kubelet through CDI spec files, and
    watches the health of what it published.  It must survive being killed at any
    moment: what it promised is in two JSON files.

    ** The parts and how they interact

    - Discovery (src/internal/discovery): [Enumerate] maps sysfs to a list of
      devices.  Files: [Consts], [Types], [Sysfs] (soc.go), [Accel] (npu.go, gpu.go),
      [Video] (v4l.go, vpu.go, rga.go), [Enumerate] (discovery.go).
    - Health (src/cmd/kubeletplugin/reconcile.go): [trackedDevice] and its
      assessment.  File [Health].
    - Publication (devices.go): [Resources].  CDI (cdi.go): [Cdi].
    - The two files (state.go): [Codec], their JSON; [Checkpoint], reading,
      writing, pruning.
    - The plugin's state (state.go, and the methods of reconcile.go): [State], with
      [Prepare], [Unprepare], [Reconcile] and [NewDeviceState] composed of all the
      above.
    - The metrics (src/pkg/metrics/metrics.go, driver.go): [Metrics].
    - The goroutines (driver.go): [Driver], their definitions; [DriverInv], the
      invariant, the streams and the simulation; [DriverMon], metrics, cancellation and
      calls seen whole; [DriverLive], executions and their end.
    - The configuration (main.go): [Flags].  The client and logging flags
      (src/pkg/flags): [PkgFlags].  The life of the process ([RunPlugin] of main.go,
      [NewDriver] and [Shutdown] of driver.go, src/pkg/metrics/server.go): [Main].  The
      command line ([newApp] and [main] of main.go): [Cli].
    - The parameter kinds (src/api/resource.rockchip.com/v1alpha1): [Api].

    Under them lie models of what the code uses of Go: [GoStrings] (strings, strconv),
    [GoPath] (path/filepath), [GoSort] (slices.SortFunc), [GoFloat] (float64, float32),
    [Json] and [JsonRound] (encoding/json), and [Effects], system calls.  Names are the source's; where
    Rocq's keywords or another file's names forbid it, a prefix or suffix is added
    ([DType], [Function_], [exists_], [td_], [ds_], [ar_], [rd_]).

    ** State and operations

    A Go function without effects is a Rocq function.  A function with effects is
    a [prog] (see [Effects]): a tree of system calls, run on a [World] (the text of
    the files and the CDI specs) against a list of [Answer]s, which decide whether
    each call fails, how much of a failed write reaches the disk, what [os.Stat]
    finds, what the clock reads and in which order a map is iterated.  When the answers
    run out inside the function the process was killed there; the disk stays.  The
    memory of the plugin, [DeviceState], is passed explicitly.  Errors are values of
    [result].

    [System] is the plugin over time at the grain of its mutex: starts, kills and
    whole operations in any order ([sys_step], [reachable]), from any disk that earlier
    runs left, under other flags perhaps ([left_disk]).  Above it is the
    abstract specification of [Store], a map of the prepared claims, which [System]
    refines; below it is [Driver], which refines [System]: [driver_step] interleaves the
    main goroutine, the rediscovery loop (which reads sysfs outside the mutex), the
    kubelet's calls, any number of health streams, errors of the helper and signals.  A step
    is one critical section, one operation on a channel, one update of a metric or one
    cancellation; a goroutine in the middle of something is in a phase ([loop_phase],
    [main_phase], [watch_phase], [thread]).  They share the mutex, the two channels of
    capacity one, [rediscoveryDone], which the loop closes and [Shutdown] waits for, the
    registry of metrics and the main context.  Progress is proved of fair executions
    ([DriverLive]): a goroutine that can move again and again does, which includes that a
    call of the helper or the kernel returns, and a [select] does not pass over a ready
    [ctx.Done] for ever.  A signal cancels the context with an error that names it, as
    [signal.NotifyContext] does in the Go of go.mod.
    [Main] is the order of the calls from the start of [RunPlugin] to its end, as a
    trace of events; it reaches [driver_init] where the helper starts.  [Cli] runs
    it from a command line and an environment to an exit status.

    [Node] composes all of these over the life of a node: processes are started from
    command lines, run as [Driver]s, are killed inside any operation and started again.
    Its steps carry what the kubelet is told, at the critical section that decides it, and
    its specification ([spec_step]) is the abstract store changed by those observations.

    ** What the theorems show

    - [NodeProps]: what the kubelet was told is durable, the plugin recovers from
      everything but a checkpoint that was cut short, after which it never serves again,
      and the whole node refines the abstract store.
    - [StateProps]: the safety property of the plugin, that a device of a prepared
      claim is never withdrawn, whatever fails or is killed, and what each operation
      returns and leaves on disk, in success and in error; [StateInv] has the invariant
      and [StateLemmas] the stages of the disk it is proved by.
    - [Returns], [Accepts]: each operation returns after a computable number of
      system calls; what is enough for it to succeed.
    - [FileProps]: round trips of both files, refusal of texts cut short, atomic
      replacement.
    - [StoreProps]: the two files implement the abstract store through every start,
      kill and failure; a device that left the node is kept exactly as long as a claim
      of the store has it.
    - [DriverProps]: the driver refines [System]; published resources and device set
      agree in every interleaving, no wake-up is lost while one stream is open, [Shutdown]
      returns once the context is cancelled, what the counters and the cancellation cause
      say, the answers to the kubelet, the type flags.
    - [MainProps]: what the process opens it closes, in order, but for the helper when
      the first publication fails; the driver it starts is an initial one of [Driver], and
      reachable from there.
    - [CliProps]: what every command line leads to, the defaults, the flags' names.
      [Api] ends with the theorems on deep copies and registration.
    - [DeviceProps]: taint times, health comparison, the published device and its
      share policy, CDI names and environment variables.
    - [DiscoveryProps]: names are unique and no two devices share a node
      ([DeviceNodes]), devices are well formed, numbering and choice of nodes independent
      of directory order and sorting algorithm.
    - [Ranges] and [JsonRound] serve these; [Fixture] is a concrete node on which
      the theorems are instantiated.

    ** Parameters

    Code outside the repository is a class, with what the driver relies on as laws:
    [GoSort] (a sorted permutation), [CDIAPI] (the CDI cache, name generation and
    version functions), [QuantityAPI] (resource.Quantity), [ResourceJSON] (the
    marshaller of Kubernetes types), [MetricsAPI] (the registry and its series),
    [KubeletPlugin] (the helper's sentinel error), [ClientGo] and [ClientSource] (client
    configurations), [LogsAPI] (component-base's logging options), [CLIAPI] (the parser
    of urfave/cli) and [SchemeAPI] (the scheme of API machinery).  [Fixture], and
    [CliProps] and [Api] for the last five, have an instance of each.  File
    systems may change while they are enumerated ([Reading]).  Of the kernel,
    [answer_ok] says the clock is not Go's zero time, [fs_ok] that group ids are 32 bit
    and directory listings fit an [int], and [listings_ok] that a listing has each name
    once; [config_in_range] says flags are Go [int]s.  A claim's UID is UTF-8, since it
    arrives as JSON.

    ** Bounds and fuel

    The JSON reader recurses on fuel, one more than the length of the text; every value
    it reads consumes a byte, so it never runs out, and [parse_print] and
    [parse_torn] hold at that fuel.  [TrimLeft] likewise takes the length of its string.
    Every other recursion is structural.  Integers are [Z]; [wrap64] and [is_int64] appear
    where Go's arithmetic could overflow.

    ** Not modelled

    Logging, and the deployment files (Helm chart, scripts, images), which are not
    program code.  The libraries are the interfaces above: what net/http does with a
    request for the metrics, client-go with a configuration and urfave/cli with
    [os.Args] is theirs.  A call of the kubelet runs to its end even when the context is
    cancelled, as in the code, which passes the context to no system call.  [errors.Is(err, context.Canceled)] in [RunPlugin] only chooses whether a line is logged
    ([reportsCause]).  A kill leaves
    the files as the system calls made them; that they reach the medium before a loss of
    power is the kernel's.  A successful [PublishResources] means that the helper took
    the resources; that it brings them to the API server is the helper's promise. *)

From Stdlib Require Import Ascii.
From stdpp Require Export base tactics gmap strings list pretty sorting.
From stdpp Require Import options.

(** ** Go's [(value, error)] results

    A Go function that returns [(T, error)] is modelled as [result E T]; the
    early return [if err != nil { return ... }] is [try]. *)
Inductive result (E A : Type) : Type :=
  | Ok (a : A)
  | Err (e : E).
Arguments Ok {E A} a.
Arguments Err {E A} e.

Definition is_ok {E A} (r : result E A) : bool :=
  match r with Ok _ => true | Err _ => false end.

#[export] Instance result_eq_dec {E A} `{EqDecision E} `{EqDecision A} :
  EqDecision (result E A).
Proof. solve_decision. Defined.

Declare Scope go_scope.
Delimit Scope go_scope with go.
Open Scope go_scope.

(** ** Shared automation

    [inv_eq] destructs the equations and conjunctions a case analysis leaves;
    [split_cases] opens every [match] and [if] of the goal. *)
Ltac inv_eq := repeat (simplify_eq/=; destruct_and?).
Ltac split_cases := repeat (case_match; simplify_eq/=; try done).
Ltac split_hyp H := repeat (case_match; simplify_eq/=; try done; try (by inversion H)).

(** Closes a decidable closed proposition by evaluating its decision. *)
Ltac by_compute := apply (bool_decide_unpack _); vm_compute; exact I.

(** Closes a closed equation by evaluating both sides, without printing them. *)
Ltac by_vm := lazymatch goal with |- ?a = ?b => vm_cast_no_check (@eq_refl _ b) end.

Create HintDb go discriminated.
Create Rewrite HintDb go_rw.

(** ** Lists *)

Lemma NoDup_fmap_elem {A B} (f : A → B) (l : list A) x y :
  NoDup (f <$> l) → x ∈ l → y ∈ l → f x = f y → x = y.
Proof.
  induction l as [|z l IH]; simpl; [by intros _ ?%elem_of_nil|].
  rewrite NoDup_cons. intros [Hz Hl] [->|Hx]%elem_of_cons [->|Hy]%elem_of_cons Heq.
  - done.
  - destruct Hz. rewrite Heq. by apply list_elem_of_fmap_2.
  - destruct Hz. rewrite <-Heq. by apply list_elem_of_fmap_2.
  - by apply IH.
Qed.

Lemma Forall_elem {A} (l : list A) : Forall (λ x, x ∈ l) l.
Proof. by apply Forall_forall. Qed.

Lemma NoDup_app_fmap {A B} (f : A → B) (l k : list A) :
  NoDup (f <$> l) → NoDup (f <$> k) →
  (∀ x y, x ∈ l → y ∈ k → f x ≠ f y) →
  NoDup (f <$> l ++ k).
Proof.
  intros Hl Hk Hne. rewrite fmap_app. apply NoDup_app. split_and!; [done| |done].
  intros b (x & -> & Hx)%list_elem_of_fmap (y & Heq & Hy)%list_elem_of_fmap.
  by eapply Hne.
Qed.

(** Filters that agree on the elements of the list. *)
Lemma filter_agree {A} (P Q : A → Prop) `{∀ x, Decision (P x)} `{∀ x, Decision (Q x)} (l : list A) :
  (∀ x, x ∈ l → P x ↔ Q x) → filter P l = filter Q l.
Proof.
  induction l as [|x l IH]; intros HPQ; [done|]. rewrite !filter_cons.
  rewrite IH by (intros y Hy; apply HPQ; by right).
  pose proof (HPQ x ltac:(by left)). destruct (decide (P x)), (decide (Q x)); naive_solver.
Qed.

Lemma filter_none {A} (P : A → Prop) `{∀ x, Decision (P x)} (l : list A) :
  (∀ x, x ∈ l → ¬ P x) → filter P l = [].
Proof.
  induction l as [|x l IH]; intros HP; [done|].
  rewrite filter_cons_False by (apply HP; by left). apply IH. intros y Hy. apply HP. by right.
Qed.

Lemma filter_head_part {A} (P Q : A → Prop) `{∀ x, Decision (P x)} `{∀ x, Decision (Q x)}
    (l k : list A) :
  (∀ x, x ∈ l → P x ↔ Q x) → (∀ x, x ∈ k → ¬ Q x) → filter P l = filter Q (l ++ k).
Proof.
  intros HPQ HQ. rewrite filter_app, (filter_none Q k), app_nil_r by done. by apply filter_agree.
Qed.

#[export] Hint Resolve NoDup_nil_2 Forall_nil_2 : go.
