(* ===== verification/GoStrings.v ===== *)
(** The parts of Go's [strings] and [strconv] packages the driver calls, on
    byte strings: a Go string is a sequence of bytes, and so is Rocq's
    [string].  Nothing here is specific to the driver; the components that use
    these functions are in the later files.

    [ToLower] and [ToUpper] map the ASCII letters and, for [ToLower], the two
    non-ASCII code points whose lower case is ASCII (U+212A and U+0130).  Every
    other code point is kept; Go may replace it by another non-ASCII one, which
    no caller can observe: the driver only searches the result of [ToLower] for
    ASCII needles, and applies [ToUpper] to its own ASCII constants. *)

From Stdlib Require Import Ascii ZArith.
From stdpp Require Import options.
From S2P Require Import Prelude.

(** A string from its bytes. *)
Fixpoint bytes (l : list N) : string :=
  match l with
  | [] => ""
  | n :: l => String (ascii_of_N n) (bytes l)
  end.

(** ** Search and cutting *)

(** [strings.CutPrefix]: the rest of [s] after [p], when [s] starts with [p]. *)
Fixpoint CutPrefix (p s : string) : option string :=
  match p, s with
  | EmptyString, _ => Some s
  | String a p', String b s' => if Ascii.eqb a b then CutPrefix p' s' else None
  | String _ _, EmptyString => None
  end.

Definition HasPrefix (s p : string) : bool :=
  match CutPrefix p s with Some _ => true | None => false end.

Fixpoint Contains (s sub : string) : bool :=
  HasPrefix s sub ||
  match s with
  | EmptyString => false
  | String _ s' => Contains s' sub
  end.

(** [strings.Cut] at a one-byte separator: the text before and after its first
    occurrence. *)
Fixpoint Cut (sep : ascii) (s : string) : option (string * string) :=
  match s with
  | EmptyString => None
  | String c s' =>
      if Ascii.eqb c sep then Some ("", s')
      else match Cut sep s' with
           | Some (b, a) => Some (String c b, a)
           | None => None
           end
  end.

(** [strings.Split] at a one-byte separator; never the empty list. *)
Fixpoint Split (sep : ascii) (s : string) : list string :=
  match s with
  | EmptyString => [""]
  | String c s' =>
      if Ascii.eqb c sep then "" :: Split sep s'
      else match Split sep s' with
           | [] => [String c ""]
           | h :: t => String c h :: t
           end
  end.

(** [strings.Join]. *)
Fixpoint Join (l : list string) (sep : string) : string :=
  match l with
  | [] => ""
  | [s] => s
  | s :: l' => s +:+ sep +:+ Join l' sep
  end.

(** [strings.ReplaceAll] of one byte by one byte. *)
Fixpoint ReplaceAll (old new : ascii) (s : string) : string :=
  match s with
  | EmptyString => ""
  | String c s' => String (if Ascii.eqb c old then new else c) (ReplaceAll old new s')
  end.

(** ** Case *)
Definition lower_byte (c : ascii) : ascii :=
  let n := N_of_ascii c in
  if (65 <=? n)%N && (n <=? 90)%N then ascii_of_N (n + 32) else c.

Definition upper_byte (c : ascii) : ascii :=
  let n := N_of_ascii c in
  if (97 <=? n)%N && (n <=? 122)%N then ascii_of_N (n - 32) else c.

(** U+212A KELVIN SIGN and U+0130 LATIN CAPITAL LETTER I WITH DOT ABOVE are the
    only non-ASCII code points that [unicode.ToLower] maps to ASCII. *)
Fixpoint ToLower (s : string) : string :=
  match s with
  | String "226" (String "132" (String "170" s')) => String "k" (ToLower s')
  | String "196" (String "176" s') => String "i" (ToLower s')
  | String c s' => String (lower_byte c) (ToLower s')
  | EmptyString => ""
  end.

Fixpoint ToUpper (s : string) : string :=
  match s with
  | EmptyString => ""
  | String c s' => String (upper_byte c) (ToUpper s')
  end.

(** ** Trimming

    The UTF-8 encodings of the runes [unicode.IsSpace] accepts. *)
Definition space_runes : list string :=
  bytes <$> [[9]; [10]; [11]; [12]; [13]; [32]; [194; 133]; [194; 160];
             [225; 154; 128];
             [226; 128; 128]; [226; 128; 129]; [226; 128; 130]; [226; 128; 131];
             [226; 128; 132]; [226; 128; 133]; [226; 128; 134]; [226; 128; 135];
             [226; 128; 136]; [226; 128; 137]; [226; 128; 138];
             [226; 128; 168]; [226; 128; 169]; [226; 128; 175];
             [226; 129; 159]; [227; 128; 128]]%N.

(** The rest of [s] after one of the prefixes [ps], when there is one. *)
Fixpoint cut_any (ps : list string) (s : string) : option string :=
  match ps with
  | [] => None
  | p :: ps' =>
      match CutPrefix p s with
      | Some r => Some r
      | None => cut_any ps' s
      end
  end.

Fixpoint trim_left (fuel : nat) (ps : list string) (s : string) : string :=
  match fuel with
  | O => s
  | S fuel' =>
      match cut_any ps s with
      | Some r => trim_left fuel' ps r
      | None => s
      end
  end.

(** [strings.TrimSpace].  The right-hand side is trimmed on the reversed
    string; an encoded rune is a suffix of [s] exactly when its reversed bytes
    are a prefix of the reversed string. *)
Definition TrimLeft (ps : list string) (s : string) : string := trim_left (String.length s) ps s.

Definition TrimSpace (s : string) : string :=
  String.rev (TrimLeft (String.rev <$> space_runes)
    (String.rev (TrimLeft space_runes s))).

(** ** Comparison and numbers *)

(** [strings.Compare]: bytewise lexicographic order. *)
Definition Compare (a b : string) : Z :=
  match String.compare a b with Lt => -1 | Eq => 0 | Gt => 1 end.

Definition digit (c : ascii) : option Z :=
  let n := N_of_ascii c in
  if (48 <=? n)%N && (n <=? 57)%N then Some (Z.of_N (n - 48)) else None.

Fixpoint digits (acc : Z) (s : string) : option Z :=
  match s with
  | EmptyString => Some acc
  | String c s' =>
      match digit c with
      | Some d => digits (10 * acc + d) s'
      | None => None
      end
  end.

Definition min_int64 : Z := - 2 ^ 63.
Definition max_int64 : Z := 2 ^ 63 - 1.

Definition is_int64 (z : Z) : bool := (min_int64 <=? z)%Z && (z <=? max_int64)%Z.

(** Go's [int] and [int64] are 64-bit two's complement on the supported
    platforms: arithmetic wraps around. *)
Definition wrap64 (z : Z) : Z := (z + 2 ^ 63) `mod` 2 ^ 64 - 2 ^ 63.

(** [strconv.Atoi]: an optional sign and at least one digit, in the range of
    [int]. *)
Definition Atoi (s : string) : option Z :=
  let '(neg, body) :=
    match s with
    | String "-" s' => (true, s')
    | String "+" s' => (false, s')
    | _ => (false, s)
    end in
  match body with
  | EmptyString => None
  | _ =>
      match digits 0 body with
      | Some n =>
          let z := if (neg : bool) then (- n)%Z else n in
          if is_int64 z then Some z else None
      | None => None
      end
  end.

(** [fmt.Sprintf] of [%d], and [strconv.Itoa]. *)
Definition Itoa (z : Z) : string := pretty z.

(** ** Lemmas *)

Lemma app_nil_r_str (s : string) : s +:+ "" = s.
Proof. induction s as [|c s IH]; [done|]. change (String c (s +:+ "") = String c s). by rewrite IH. Qed.

Lemma app_assoc_str (a b c : string) : a +:+ b +:+ c = (a +:+ b) +:+ c.
Proof.
  induction a as [|x a IH]; [done|].
  change (String x (a +:+ b +:+ c) = String x ((a +:+ b) +:+ c)). by rewrite IH.
Qed.

Lemma app_cons_str c (a b : string) : String c a +:+ b = String c (a +:+ b).
Proof. done. Qed.

Lemma length_app_str (a b : string) :
  String.length (a +:+ b) = String.length a + String.length b.
Proof. induction a as [|x a IH]; [done|]. rewrite app_cons_str. simpl. by rewrite IH. Qed.

Lemma CutPrefix_Some p s r : CutPrefix p s = Some r ↔ s = p +:+ r.
Proof.
  revert s. induction p as [|a p IH]; intros s; simpl.
  - split; intros; by simplify_eq.
  - destruct s as [|b s].
    + split; [done|]. intros H. rewrite app_cons_str in H. done.
    + rewrite app_cons_str. destruct (Ascii.eqb_spec a b) as [->|Hne].
      * rewrite IH. split; intros; by simplify_eq.
      * split; intros; by simplify_eq.
Qed.

Lemma HasPrefix_spec s p : HasPrefix s p = true ↔ ∃ r, s = p +:+ r.
Proof.
  unfold HasPrefix. setoid_rewrite <-CutPrefix_Some.
  destruct (CutPrefix p s) as [r|]; split; [eauto|done|done|by intros []].
Qed.

Lemma Contains_spec s sub :
  Contains s sub = true ↔ ∃ a b, s = a +:+ sub +:+ b.
Proof.
  revert sub. induction s as [|c s IH]; intros sub; simpl.
  - rewrite orb_false_r, HasPrefix_spec. split.
    + intros [r ->]. by exists "", r.
    + intros (a & b & H). destruct a; [|done]. by exists b.
  - rewrite orb_true_iff, HasPrefix_spec, IH. split.
    + intros [[r ->]|(a & b & ->)]; [by exists "", r|by exists (String c a), b].
    + intros (a & b & H). destruct a as [|x a]; [left; by exists b|].
      rewrite app_cons_str in H. simplify_eq. right. eauto.
Qed.

(** Cutting at a separator and joining again gives the string back. *)
Lemma Cut_Some sep s a b :
  Cut sep s = Some (a, b) → s = a +:+ String sep b.
Proof.
  revert a b. induction s as [|c s IH]; intros a b; simpl; [done|].
  destruct (Ascii.eqb_spec c sep) as [->|Hne]; [intros; by simplify_eq|].
  destruct (Cut sep s) as [[a' b']|]; [|done].
  intros ?; simplify_eq. by rewrite app_cons_str, (IH a' b).
Qed.

Lemma Split_ne_nil sep s : Split sep s ≠ [].
Proof. destruct s as [|c s]; simpl; [done|]. repeat case_match; discriminate. Qed.

Lemma Join_cons2 x y l sep : Join (x :: y :: l) sep = x +:+ sep +:+ Join (y :: l) sep.
Proof. done. Qed.

Lemma Join_Split sep s : Join (Split sep s) (String sep "") = s.
Proof.
  induction s as [|c s IH]; [done|]. simpl.
  destruct (Split sep s) as [|h t] eqn:E; [by apply Split_ne_nil in E|].
  destruct (Ascii.eqb_spec c sep) as [->|Hne].
  - rewrite Join_cons2, IH. done.
  - destruct t as [|h' t].
    + simpl in *. by rewrite IH.
    + rewrite Join_cons2, app_cons_str. rewrite Join_cons2 in IH. by rewrite IH.
Qed.

(** A string without the byte [sep]. *)
Fixpoint no_byte (sep : ascii) (s : string) : bool :=
  match s with
  | EmptyString => true
  | String c s' => negb (Ascii.eqb c sep) && no_byte sep s'
  end.

Lemma Split_no_byte sep s : Forall (λ c, no_byte sep c = true) (Split sep s).
Proof.
  induction s as [|c s IH]; [repeat constructor|]. simpl.
  destruct (Ascii.eqb c sep) eqn:Hc; [by constructor|].
  destruct (Split sep s) as [|h t].
  - repeat constructor. simpl. by rewrite Hc.
  - inversion IH; subst. constructor; [|done]. simpl. by rewrite Hc.
Qed.

Lemma Split_single sep s : no_byte sep s = true → Split sep s = [s].
Proof.
  induction s as [|c s IH]; simpl; [done|].
  rewrite andb_true_iff, negb_true_iff. intros [Hc Hs].
  by rewrite Hc, IH.
Qed.

Lemma Split_app sep a b :
  no_byte sep a = true → Split sep (a +:+ String sep b) = a :: Split sep b.
Proof.
  induction a as [|c a IH]; simpl.
  - intros _. change ("" +:+ String sep b) with (String sep b). simpl.
    by rewrite Ascii.eqb_refl.
  - rewrite andb_true_iff, negb_true_iff. intros [Hc Ha].
    by rewrite Hc, IH.
Qed.

Lemma Split_Join sep l :
  l ≠ [] → Forall (λ c, no_byte sep c = true) l →
  Split sep (Join l (String sep "")) = l.
Proof.
  induction l as [|x l IH]; [done|]. intros _ Hl. inversion Hl; subst.
  destruct l as [|y l]; [by apply Split_single|].
  rewrite Join_cons2.
  change (String sep "" +:+ Join (y :: l) (String sep ""))
    with (String sep (Join (y :: l) (String sep ""))).
  by rewrite Split_app, IH.
Qed.

Lemma Split_app_sep sep a b :
  Split sep (a +:+ String sep b) = Split sep a ++ Split sep b.
Proof.
  induction a as [|c a IH].
  - change ("" +:+ String sep b) with (String sep b). simpl. by rewrite Ascii.eqb_refl.
  - rewrite app_cons_str. simpl. rewrite IH. case_match; [done|].
    destruct (Split sep a) as [|h t] eqn:E; [by apply Split_ne_nil in E|done].
Qed.

(** ** Comparison lemmas *)

Lemma Compare_neg a b : (Compare a b < 0)%Z ↔ ¬ String.le b a.
Proof.
  unfold Compare, String.le, String.leb.
  rewrite (String.compare_antisym b a). destruct (String.compare a b); simpl; split;
    first [lia | naive_solver].
Qed.

Lemma Compare_nonneg a b : ¬ (Compare b a < 0)%Z ↔ String.le a b.
Proof. rewrite Compare_neg. destruct (decide (String.le a b)); naive_solver. Qed.

Lemma wrap64_small z : (- 2 ^ 63 ≤ z < 2 ^ 63)%Z → wrap64 z = z.
Proof. intros Hz. unfold wrap64. rewrite Z.mod_small; lia. Qed.

Lemma Itoa_inj m n : Itoa m = Itoa n → m = n.
Proof. apply (inj pretty). Qed.

(** A decimal number is a non-empty text without ['-'] when it is not negative. *)
Lemma app_str_inv_head a b c : a +:+ b = a +:+ c → b = c.
Proof. apply (inj (String.append a)). Qed.
