(* ===== verification/GoSort.v ===== *)
(** Go's [slices.SortFunc].

    Its documentation promises a permutation sorted for the comparison function
    when that function is a strict weak ordering, and no stability.  The class
    [GoSort] states that promise; the components that sort are written against
    it, so their theorems hold for every implementation.  The instance
    [insertion_sort] is the algorithm of [slices.insertionSortCmpFunc], which
    the standard library runs for slices of at most 12 elements. *)

From stdpp Require Import options.
From S2P Require Import Prelude.

(** [a] may come before [b]. *)
Definition cmp_le {A} (cmp : A → A → Z) (a b : A) : Prop := ¬ (cmp b a < 0)%Z.

#[export] Instance cmp_le_dec {A} (cmp : A → A → Z) a b : Decision (cmp_le cmp a b).
Proof. unfold cmp_le. apply _. Defined.

(** [cmp] is a strict weak ordering on the elements of [l]. *)
Record weak_order {A} (cmp : A → A → Z) (l : list A) : Prop := {
  wo_asym a b : a ∈ l → b ∈ l → (cmp a b < 0)%Z → ¬ (cmp b a < 0)%Z;
  wo_trans a b c : a ∈ l → b ∈ l → c ∈ l →
    cmp_le cmp a b → cmp_le cmp b c → cmp_le cmp a c
}.

Class GoSort := {
  SortFunc {A} (cmp : A → A → Z) (l : list A) : list A;
  SortFunc_perm {A} (cmp : A → A → Z) (l : list A) : SortFunc cmp l ≡ₚ l;
  SortFunc_sorted {A} (cmp : A → A → Z) (l : list A) :
    weak_order cmp l → StronglySorted (cmp_le cmp) (SortFunc cmp l)
}.

(** ** Two implementations agree when the comparison separates the elements. *)

Lemma sorted_perm_unique {A} (cmp : A → A → Z) (l k : list A) :
  (∀ a b, a ∈ l → b ∈ l → cmp_le cmp a b → cmp_le cmp b a → a = b) →
  StronglySorted (cmp_le cmp) l → StronglySorted (cmp_le cmp) k → l ≡ₚ k → l = k.
Proof.
  intros Hanti Hl Hk Hp. apply (StronglySorted_unique_strong (cmp_le cmp)); [|done..].
  intros a b Ha Hb. apply Hanti; [done|]. by rewrite Hp.
Qed.

Lemma weak_order_perm {A} (cmp : A → A → Z) (l k : list A) :
  l ≡ₚ k → weak_order cmp l → weak_order cmp k.
Proof.
  intros Hp [H1 H2]. split; intros *.
  - rewrite <-!Hp. apply H1.
  - rewrite <-!Hp. apply H2.
Qed.

Lemma SortFunc_unique {A} (S1 S2 : GoSort) (cmp : A → A → Z) (l k : list A) :
  l ≡ₚ k → weak_order cmp l →
  (∀ a b, a ∈ l → b ∈ l → cmp_le cmp a b → cmp_le cmp b a → a = b) →
  SortFunc (GoSort := S1) cmp l = SortFunc (GoSort := S2) cmp k.
Proof.
  intros Hp Hw Hanti. apply sorted_perm_unique with cmp.
  - intros a b. rewrite !SortFunc_perm. apply Hanti.
  - by apply SortFunc_sorted.
  - apply SortFunc_sorted. by eapply weak_order_perm.
  - by rewrite !SortFunc_perm.
Qed.

(** ** Insertion sort *)

(** The inner loop: [x] moves left past the elements it is smaller than; the
    prefix is kept in reverse. *)
Fixpoint insert_left {A} (cmp : A → A → Z) (x : A) (rprefix : list A) : list A :=
  match rprefix with
  | [] => [x]
  | y :: r => if (cmp x y <? 0)%Z then y :: insert_left cmp x r else x :: rprefix
  end.

Definition insertionSortCmpFunc {A} (cmp : A → A → Z) (l : list A) : list A :=
  reverse (foldl (λ r x, insert_left cmp x r) [] l).

Lemma insert_left_perm {A} (cmp : A → A → Z) x l : insert_left cmp x l ≡ₚ x :: l.
Proof.
  induction l as [|y l IH]; simpl; [done|]. case_match; [|done].
  rewrite IH. by constructor.
Qed.

Lemma foldl_insert_perm {A} (cmp : A → A → Z) l r :
  foldl (λ r x, insert_left cmp x r) r l ≡ₚ l ++ r.
Proof.
  revert r. induction l as [|x l IH]; intros r; simpl; [done|].
  rewrite IH, insert_left_perm. by rewrite Permutation_middle.
Qed.

Lemma insertionSort_perm {A} (cmp : A → A → Z) l : insertionSortCmpFunc cmp l ≡ₚ l.
Proof.
  unfold insertionSortCmpFunc. rewrite reverse_Permutation, foldl_insert_perm.
  by rewrite app_nil_r.
Qed.

(** The reversed prefix stays sorted downwards. *)
Lemma insert_left_sorted {A} (cmp : A → A → Z) (l : list A) x r :
  weak_order cmp l → x ∈ l → (∀ y, y ∈ r → y ∈ l) →
  StronglySorted (flip (cmp_le cmp)) r →
  StronglySorted (flip (cmp_le cmp)) (insert_left cmp x r).
Proof.
  intros Hw Hx. induction r as [|y r IH]; intros Hr Hs; simpl.
  - repeat constructor.
  - apply StronglySorted_cons in Hs as [Hy Hs].
    destruct (Z.ltb_spec (cmp x y) 0) as [Hlt|Hge].
    + apply StronglySorted_cons. split.
      * rewrite insert_left_perm. constructor; [|done].
        unfold flip, cmp_le. apply (wo_asym _ _ Hw); [done| |done].
        apply Hr. by left.
      * apply IH; [|done]. intros z Hz. apply Hr. by right.
    + apply StronglySorted_cons. split; [|by apply StronglySorted_cons].
      assert (Hyx : cmp_le cmp y x) by (unfold cmp_le; lia).
      constructor; [done|]. rewrite Forall_forall in Hy |- *.
      intros z Hz. unfold flip in *.
      apply (wo_trans _ _ Hw) with y; [apply Hr; by right|apply Hr; by left|done| |done].
      by apply Hy.
Qed.

Lemma StronglySorted_snoc {A} (R : relation A) (l : list A) x :
  StronglySorted R l → Forall (λ y, R y x) l → StronglySorted R (l ++ [x]).
Proof.
  intros Hl Hx. apply StronglySorted_app. split_and!; [|done|repeat constructor].
  intros y z Hy Hz%list_elem_of_singleton. subst.
  rewrite Forall_forall in Hx. by apply Hx.
Qed.

Lemma StronglySorted_reverse {A} (R : relation A) (l : list A) :
  StronglySorted (flip R) l → StronglySorted R (reverse l).
Proof.
  induction l as [|x l IH]; [constructor|].
  rewrite StronglySorted_cons, reverse_cons. intros [Hx Hl].
  apply StronglySorted_snoc; [by apply IH|].
  rewrite Forall_forall in Hx |- *. intros y Hy. apply Hx.
  by rewrite elem_of_reverse in Hy.
Qed.

Lemma foldl_insert_sorted {A} (cmp : A → A → Z) (l k r : list A) :
  weak_order cmp l → (∀ y, y ∈ k → y ∈ l) → (∀ y, y ∈ r → y ∈ l) →
  StronglySorted (flip (cmp_le cmp)) r →
  StronglySorted (flip (cmp_le cmp)) (foldl (λ r x, insert_left cmp x r) r k).
Proof.
  intros Hw. revert r. induction k as [|x k IH]; intros r Hk Hr Hs; simpl; [done|].
  apply IH.
  - intros y Hy. apply Hk. by right.
  - intros y. rewrite insert_left_perm, elem_of_cons. intros [->|Hy].
    + apply Hk. by left.
    + by apply Hr.
  - apply (insert_left_sorted _ l); [done| |done..]. apply Hk. by left.
Qed.

Lemma insertionSort_sorted {A} (cmp : A → A → Z) (l : list A) :
  weak_order cmp l → StronglySorted (cmp_le cmp) (insertionSortCmpFunc cmp l).
Proof.
  intros Hw. apply StronglySorted_reverse, (foldl_insert_sorted _ l); [done..| |constructor].
  by intros y ?%elem_of_nil.
Qed.

Definition insertion_sort : GoSort := {|
  SortFunc := @insertionSortCmpFunc;
  SortFunc_perm := @insertionSort_perm;
  SortFunc_sorted := @insertionSort_sorted
|}.
