(* ===== verification/GoPath.v ===== *)
(** Go's [path/filepath] on Unix, as the driver calls it: [Clean], [Join],
    [Base] and [Dir], and the name [os.CreateTemp] gives a temporary file. *)

From Stdlib Require Import Ascii ZArith.
From stdpp Require Import options.
From S2P Require Import Prelude GoStrings.

Definition slash : ascii := "/".

(** One path element met by [Clean]: the stack holds the elements kept so far,
    the last one first. *)
Definition clean_push (rooted : bool) (stack : list string) (c : string) : list string :=
  if bool_decide (c = "") || bool_decide (c = ".") then stack
  else if bool_decide (c = "..") then
    match stack with
    | [] => if rooted then [] else [".."]
    | top :: rest => if bool_decide (top = "..") then ".." :: stack else rest
    end
  else c :: stack.

Definition clean_stack (rooted : bool) (cs : list string) : list string :=
  foldl (clean_push rooted) [] cs.

(** [filepath.Clean]. *)
Definition Clean (path : string) : string :=
  let rooted := HasPrefix path "/" in
  let out := GoStrings.Join (rev (clean_stack rooted (Split slash path))) "/" in
  if rooted then "/" +:+ out else if bool_decide (out = "") then "." else out.

Fixpoint drop_empty (l : list string) : list string :=
  match l with
  | "" :: l' => drop_empty l'
  | _ => l
  end.

(** [filepath.Join]: leading empty elements are ignored. *)
Definition Join (elem : list string) : string :=
  match drop_empty elem with
  | [] => ""
  | l => Clean (GoStrings.Join l "/")
  end.

(** [filepath.Base]: the last non-empty element. *)
Definition Base (path : string) : string :=
  if bool_decide (path = "") then "."
  else default "/" (last (filter (λ c, c ≠ "") (Split slash path))).

(** [filepath.Dir]: everything before the last element, cleaned. *)
Definition Dir (path : string) : string :=
  match rev (Split slash path) with
  | _ :: (_ :: _) as r => Clean (GoStrings.Join (rev r) "/" +:+ "/")
  | _ => Clean ""
  end.

(** The candidate name [os.CreateTemp dir (prefix ++ "*")] tries for the random
    number [n]. *)
Definition temp_name (dir prefix : string) (n : Z) : string :=
  match rev (Split slash dir) with
  | "" :: _ :: _ => dir +:+ prefix +:+ Itoa n
  | _ => dir +:+ "/" +:+ prefix +:+ Itoa n
  end.

(** ** Lemmas *)

(** A file name that is one path element. *)
Definition simple (n : string) : Prop :=
  n ≠ "" ∧ n ≠ "." ∧ n ≠ ".." ∧ no_byte slash n = true.

#[export] Instance simple_dec n : Decision (simple n).
Proof. unfold simple. apply _. Defined.

Lemma clean_push_no_slash rooted st c :
  no_byte slash c = true → Forall (λ c, no_byte slash c = true) st →
  Forall (λ c, no_byte slash c = true) (clean_push rooted st c).
Proof.
  intros Hc Hst. unfold clean_push.
  destruct (_ || _); [done|]. destruct (bool_decide (c = "..")); [|by constructor].
  destruct Hst as [|top rest]; [by destruct rooted; repeat constructor|].
  case_bool_decide; [|done]. by repeat constructor.
Qed.

Lemma clean_stack_no_slash rooted cs :
  Forall (λ c, no_byte slash c = true) cs →
  Forall (λ c, no_byte slash c = true) (clean_stack rooted cs).
Proof.
  intros Hcs. unfold clean_stack. generalize (Forall_nil_2 (λ c, no_byte slash c = true)).
  generalize (@nil string). induction Hcs as [|c cs Hc Hcs IH]; intros st Hst; simpl; [done|].
  apply IH, clean_push_no_slash; done.
Qed.

Lemma clean_push_simple rooted st n : simple n → clean_push rooted st n = n :: st.
Proof. intros (? & ? & ? & _). unfold clean_push. by rewrite !bool_decide_eq_false_2. Qed.

Lemma last_filter_snoc (l : list string) n :
  n ≠ "" → last (filter (λ c, c ≠ "") (l ++ [n])) = Some n.
Proof. intros Hn. rewrite filter_app, filter_cons_True by done. apply last_snoc. Qed.

Lemma Base_Split p l n :
  Split slash p = l ++ [n] → simple n → Base p = n.
Proof.
  intros Hs (Hn & _). unfold Base. rewrite Hs, last_filter_snoc by done.
  case_bool_decide as Hp; [|done]. subst p. simpl in Hs.
  destruct l as [|? [|??]]; simpl in Hs; congruence.
Qed.

Lemma Base_app dir n : simple n → Base (dir +:+ "/" +:+ n) = n.
Proof.
  intros Hn. apply (Base_Split _ (Split slash dir)); [|done].
  change ("/" +:+ n) with (String slash n). rewrite Split_app_sep. f_equal. apply Split_single, Hn.
Qed.

Lemma Base_Clean_snoc p l n :
  Split slash p = l ++ [n] → simple n → Base (Clean p) = n.
Proof.
  intros Hs Hn. unfold Clean. set (rooted := HasPrefix p "/").
  rewrite Hs. unfold clean_stack. rewrite foldl_app. simpl.
  rewrite clean_push_simple by done. fold (clean_stack rooted l).
  pose proof (Split_no_byte slash p) as Hno. rewrite Hs in Hno.
  apply Forall_app in Hno as [Hno Hn1].
  pose proof (clean_stack_no_slash rooted l Hno) as Hst. simpl.
  set (out := GoStrings.Join (rev (clean_stack rooted l) ++ [n]) "/").
  assert (Hout : Split slash out = rev (clean_stack rooted l) ++ [n]).
  { apply Split_Join.
    - intros H. by apply app_nil in H as [_ ?].
    - apply Forall_app. split; [|done]. by apply Forall_rev. }
  destruct rooted.
  - apply (Base_Split _ ("" :: rev (clean_stack true l))); [|done].
    change ("/" +:+ out) with (String slash out). simpl. by rewrite Hout.
  - rewrite bool_decide_eq_false_2; [by eapply Base_Split|].
    intros H. rewrite H in Hout. simpl in Hout.
    destruct (rev (clean_stack false l)) as [|? [|??]]; simpl in Hout; try congruence.
    destruct Hn as [Hn _]. congruence.
Qed.

Lemma Join_snoc l n :
  l ≠ [] → GoStrings.Join (l ++ [n]) "/" = GoStrings.Join l "/" +:+ String slash n.
Proof.
  intros Hl. induction l as [|x l IH]; [done|]. simpl app. destruct l as [|y l]; [done|].
  simpl app in *. rewrite !GoStrings.Join_cons2, IH by done. by rewrite !app_assoc_str.
Qed.

Lemma drop_empty_snoc l n : n ≠ "" → drop_empty (l ++ [n]) = drop_empty l ++ [n].
Proof. intros Hn. induction l as [|[|c x] l IH]; [by destruct n|done|done]. Qed.

(** The file name of a joined path is its last element. *)
Lemma Base_Join_snoc l n : simple n → Base (Join (l ++ [n])) = n.
Proof.
  intros Hn. pose proof Hn as (Hne & _ & _ & Hno). unfold Join. rewrite drop_empty_snoc by done.
  destruct (drop_empty l) as [|x k]; simpl app.
  - apply (Base_Clean_snoc _ []); [|done]. by apply Split_single.
  - apply (Base_Clean_snoc _ (Split slash (GoStrings.Join (x :: k) "/"))); [|done].
    rewrite app_comm_cons, Join_snoc, Split_app_sep by done. f_equal. by apply Split_single.
Qed.

Lemma Base_Join p n : simple n → Base (Join [p; n]) = n.
Proof. apply (Base_Join_snoc [p]). Qed.

(** A temporary file is named after its prefix. *)
Lemma Base_temp_name dir prefix n :
  simple (prefix +:+ Itoa n) → Base (temp_name dir prefix n) = prefix +:+ Itoa n.
Proof.
  intros Hs. unfold temp_name.
  destruct (rev (Split slash dir)) as [|[|x y] [|z k]] eqn:E; try by apply Base_app.
  apply (f_equal (@rev string)) in E. rewrite rev_involutive in E. simpl in E.
  apply (Base_Split _ (rev k ++ [z])); [|done].
  pose proof (Join_Split slash dir) as Hj. rewrite E in Hj.
  assert (Hd : ∃ d, dir = d +:+ "/" ∧ Split slash d = rev k ++ [z]).
  { exists (GoStrings.Join (rev k ++ [z]) "/"). split.
    - rewrite <-Hj. apply Join_snoc. intros H. by apply app_nil in H as [_ ?].
    - apply Split_Join; [intros H; by apply app_nil in H as [_ ?]|].
      pose proof (Split_no_byte slash dir) as Hno. rewrite E in Hno.
      by apply Forall_app in Hno as [? _]. }
  destruct Hd as (d & -> & Hd). rewrite <-app_assoc_str.
  change ("/" +:+ prefix +:+ Itoa n) with (String slash (prefix +:+ Itoa n)).
  rewrite Split_app_sep, Hd. f_equal. apply Split_single, Hs.
Qed.

Lemma Clean_ne p : Clean p ≠ "".
Proof. unfold Clean. case_match; [done|]. by case_bool_decide. Qed.

(** [Join] only returns the empty path when every element is empty. *)
Lemma Join_ne l : Exists (λ s, s ≠ "") l → Join l ≠ "".
Proof.
  intros Hl. unfold Join. assert (drop_empty l ≠ []) as Hd.
  { induction Hl as [x l Hx|x l Hl IH]; destruct x; simpl; done. }
  destruct (drop_empty l) as [|x k]; [done|]. apply Clean_ne.
Qed.

Ltac join_ne := apply Join_ne; repeat first [by constructor 1 | constructor 2].
