(* ===== verification/Consts.v ===== *)
(** [pkg/consts/consts.go]: driver identity, ResourceSlice attribute names and
    the device vocabulary shared by discovery and the kubelet plugin. *)

From stdpp Require Import options.
From S2P Require Import Prelude.

Definition DriverName := "dra.rockchip.com".
Definition CapacityShares := "shares".
Definition DefaultGPUMaxAllocations : Z := 8.
Definition DefaultVPUMaxAllocations : Z := 1.
Definition DefaultRGAMaxAllocations : Z := 1.

Definition TaintUnhealthy := "dra.rockchip.com/unhealthy".
Definition TaintValueNodeMissing := "node-missing".
Definition TaintValueNotDiscovered := "not-discovered".

Definition AttrType := "type".
Definition AttrSoC := "soc".
Definition AttrVendor := "vendor".
Definition AttrModel := "model".
Definition AttrKMD := "kmd".
Definition AttrCoreCount := "coreCount".
Definition AttrShaderCores := "shaderCores".
Definition AttrDeviceNode := "deviceNode".
Definition AttrDeviceGID := "deviceGid".
Definition AttrFunction := "function".
Definition AttrBlock := "block".

Definition TypeNPU := "npu".
Definition TypeGPU := "gpu".
Definition TypeVPU := "vpu".
Definition TypeRGA := "rga".

Definition KMDRocket := "rocket".
Definition KMDPanthor := "panthor".
Definition KMDRkvdec := "rkvdec".
Definition KMDHantro := "hantro-vpu".
Definition KMDRGA := "rockchip-rga".

Definition FunctionDecode := "decode".
Definition FunctionEncode := "encode".

Definition BlockRkvdec := "rkvdec".
Definition BlockHantroDec := "hantro-dec".
Definition BlockHantroEnc := "hantro-enc".
Definition BlockHantroAV1 := "hantro-av1".

Definition VendorRockchip := "rockchip".
Definition VendorARM := "arm".
