(* ===== verification/Types.v ===== *)
(** [internal/discovery/types.go]: the discovery configuration, the device
    record every other component exchanges, and the default share counts. *)

From stdpp Require Import options.
From S2P Require Import Prelude GoStrings Consts.

(** [Config].  Go [int] fields are integers; [config_in_range] says they are in
    the range of [int]. *)
Record Config := mkConfig {
  SysfsRoot : string;
  DevRoot : string;
  Mock : bool;
  NPUEnabled : bool;
  GPUEnabled : bool;
  VPUEnabled : bool;
  RGAEnabled : bool;
  NPUMaxAllocations : Z;
  GPUMaxAllocations : Z;
  VPUMaxAllocations : Z;
  RGAMaxAllocations : Z
}.

(** [Device].  The field [Type] is a Rocq keyword, hence [DType]. *)
Record Device := mkDevice {
  Name : string;
  DType : string;
  SoC : string;
  Vendor : string;
  Model : string;
  KMD : string;
  CoreCount : Z;
  ShaderCores : Z;
  DeviceNode : string;
  MaxAllocations : Z;
  Function_ : string;
  Block : string;
  DeviceGID : Z;
  DeviceGIDKnown : bool
}.

#[export] Instance Device_eq_dec : EqDecision Device.
Proof. solve_decision. Defined.

Definition config_in_range (c : Config) : Prop :=
  is_int64 (NPUMaxAllocations c) = true ∧ is_int64 (GPUMaxAllocations c) = true ∧
  is_int64 (VPUMaxAllocations c) = true ∧ is_int64 (RGAMaxAllocations c) = true.

Definition defaultConfig (c : Config) : Config :=
  let all := negb (NPUEnabled c) && negb (GPUEnabled c) && negb (VPUEnabled c)
             && negb (RGAEnabled c) in
  {| SysfsRoot := if bool_decide (SysfsRoot c = "") then "/sys" else SysfsRoot c;
     DevRoot := if bool_decide (DevRoot c = "") then "/dev" else DevRoot c;
     Mock := Mock c;
     NPUEnabled := if all then true else NPUEnabled c;
     GPUEnabled := if all then true else GPUEnabled c;
     VPUEnabled := if all then true else VPUEnabled c;
     RGAEnabled := if all then true else RGAEnabled c;
     NPUMaxAllocations := NPUMaxAllocations c;
     GPUMaxAllocations := GPUMaxAllocations c;
     VPUMaxAllocations := VPUMaxAllocations c;
     RGAMaxAllocations := RGAMaxAllocations c |}.

Definition defaultNPUMaxAllocations (soc : string) (coreCount : Z) : Z :=
  if (coreCount >? 0)%Z then coreCount
  else if bool_decide (soc = "rk3588") || bool_decide (soc = "rk3588s") then 3
  else 1.

Definition defaultGPUMaxAllocations : Z := DefaultGPUMaxAllocations.

(** The override rule every discovery function repeats:
    [maxAlloc := int64(override); if maxAlloc <= 0 { maxAlloc = default }]. *)
Definition maxAllocOr (override default : Z) : Z :=
  if (override <=? 0)%Z then default else override.

(** Changing the gid fields in place, as [applyNodeGID] does. *)
Definition set_gid (d : Device) (gid : Z) : Device :=
  {| Name := Name d; DType := DType d; SoC := SoC d; Vendor := Vendor d;
     Model := Model d; KMD := KMD d; CoreCount := CoreCount d;
     ShaderCores := ShaderCores d; DeviceNode := DeviceNode d;
     MaxAllocations := MaxAllocations d; Function_ := Function_ d; Block := Block d;
     DeviceGID := gid; DeviceGIDKnown := true |}.

(** ** Lemmas *)

Lemma defaultConfig_roots c :
  SysfsRoot (defaultConfig c) ≠ "" ∧ DevRoot (defaultConfig c) ≠ "".
Proof. split; simpl; by case_bool_decide. Qed.

Lemma maxAllocOr_pos override default :
  (1 ≤ default)%Z → (1 ≤ maxAllocOr override default)%Z.
Proof. unfold maxAllocOr. destruct (Z.leb_spec override 0); lia. Qed.

Lemma defaultNPU_pos soc n : (1 ≤ defaultNPUMaxAllocations soc n)%Z.
Proof.
  unfold defaultNPUMaxAllocations. rewrite Z.gtb_ltb.
  destruct (Z.ltb_spec 0 n); [lia|]. case_match; lia.
Qed.

#[export] Hint Resolve maxAllocOr_pos defaultNPU_pos : go.
