(* ===== verification/Sysfs.v ===== *)
(** [internal/discovery/soc.go]: what discovery reads from sysfs and /dev.

    The record [FS] holds the answers of [os.ReadFile], [os.ReadDir],
    [os.Readlink] and [os.Stat] on absolute paths, [None] for an error.  No two
    answers need to agree with each other, so a file system that changes between
    two calls on different paths is an [FS] like any other.  Only a path that is
    read twice can give two answers: [Reading] has one [FS] for every time that
    discovery comes back to a path. *)

From Stdlib Require Import Ascii ZArith.
From stdpp Require Import options.
From S2P Require Import Prelude GoStrings GoPath.
From S2P Require Import Types.

(** What the driver uses of [os.FileInfo]; [fi_gid] is [None] when [Sys()] is
    not a [*syscall.Stat_t]. *)
Record FileInfo := mkFileInfo {
  IsDir : bool;
  fi_gid : option Z
}.

Record FS := mkFS {
  ReadFile : string → option string;
  ReadDir : string → option (list string);
  Readlink : string → option string;
  Stat : string → option FileInfo
}.

(** What one call of [Enumerate] reads.  [isRocketAccel] reads the uevent file of
    a device twice, for [DRIVER] and for [MODALIAS]; [applyNodeGID] stats a node
    that [exists] has already looked at; and [discoverRGA] scans the video nodes
    that [discoverVPU] has already scanned. *)
Record Reading := mkReading {
  r_probe : FS;     (* the first read of every path *)
  r_modalias : FS;  (* the second read of a device's uevent *)
  r_gid : FS;       (* the stat of a node for its group *)
  r_rga : FS;       (* the second scan of the video nodes *)
  r_rgaGID : FS     (* the stat of an RGA node for its group *)
}.

(** A file system that does not change during the enumeration. *)
Definition still (fs : FS) : Reading := mkReading fs fs fs fs fs.

(** A group id is a [uint32], and a directory listing fits in memory. *)
Definition snapshot_ok (fs : FS) : Prop :=
  (∀ p fi g, Stat fs p = Some fi → fi_gid fi = Some g → (0 ≤ g < 2 ^ 32)%Z) ∧
  (∀ p l, ReadDir fs p = Some l → (Z.of_nat (length l) < 2 ^ 63)%Z).

Definition fs_ok (r : Reading) : Prop :=
  snapshot_ok (r_probe r) ∧ snapshot_ok (r_modalias r) ∧ snapshot_ok (r_gid r) ∧
  snapshot_ok (r_rga r) ∧ snapshot_ok (r_rgaGID r).

(** A file system given by finite tables, to run the model on examples. *)
Definition table_fs (files : list (string * string)) (dirs : list (string * list string))
    (links : list (string * string)) (nodes : list (string * FileInfo)) : FS :=
  let look {A} (l : list (string * A)) (p : string) : option A :=
    (list_to_map l : gmap string A) !! p in
  {| ReadFile := look files; ReadDir := look dirs; Readlink := look links;
     Stat := look nodes |}.

(** The byte 0 that separates device-tree strings. *)
Definition nul : ascii := "000".
Definition newline : ascii := "010".

Definition knownSoCs : list string :=
  ["rk3588s"; "rk3588"; "rk3576"; "rk3568"; "rk3566"; "rk3562"].

(** The [for _, soc := range knownSoCs] loop. *)
Fixpoint firstSoC (compat : string) (socs : list string) : string :=
  match socs with
  | [] => ""
  | soc :: rest => if Contains compat soc then soc else firstSoC compat rest
  end.

Definition detectSoC (fs : FS) (sysfsRoot : string) : string :=
  match ReadFile fs (Join [sysfsRoot; "firmware"; "devicetree"; "base"; "compatible"]) with
  | None => ""
  | Some data => firstSoC (ToLower (ReplaceAll nul "," data)) knownSoCs
  end.

(** The [for _, line := range strings.Split(data, "\n")] loop. *)
Fixpoint ueventLines (key : string) (lines : list string) : string :=
  match lines with
  | [] => ""
  | line :: rest =>
      match Cut "=" line with
      | Some (k, val) => if bool_decide (k = key) then TrimSpace val else ueventLines key rest
      | None => ueventLines key rest
      end
  end.

Definition ueventValue (fs : FS) (path key : string) : string :=
  match ReadFile fs (Join [path; "uevent"]) with
  | None => ""
  | Some data => ueventLines key (Split newline data)
  end.

Definition ueventDriver (fs : FS) (path : string) : string := ueventValue fs path "DRIVER".

Definition exists_ (fs : FS) (path : string) : bool :=
  match Stat fs path with Some _ => true | None => false end.

(** [nodeGID]: the gid and whether it is known. *)
Definition nodeGID (fs : FS) (path : string) : Z * bool :=
  if bool_decide (path = "") then (0, false)%Z
  else match Stat fs path with
       | None => (0, false)%Z
       | Some info =>
           match fi_gid info with
           | None => (0, false)%Z
           | Some gid => (gid, true)
           end
       end.

Definition applyNodeGID (fs : FS) (d : Device) : Device :=
  let '(gid, ok) := nodeGID fs (DeviceNode d) in
  if (ok : bool) then set_gid d gid else d.

(** ** Lemmas *)

Lemma firstSoC_spec compat socs :
  (firstSoC compat socs = "" ∧ ∀ s, s ∈ socs → s ≠ "" → Contains compat s = false) ∨
  (∃ pre post, socs = pre ++ firstSoC compat socs :: post ∧
     Contains compat (firstSoC compat socs) = true ∧
     ∀ s, s ∈ pre → Contains compat s = false).
Proof.
  induction socs as [|s socs IH]; simpl.
  - left. split; [done|]. by intros s ?%elem_of_nil.
  - destruct (Contains compat s) eqn:Hs.
    + right. exists [], socs. split_and!; [done..|]. by intros x ?%elem_of_nil.
    + destruct IH as [[-> IH]|(pre & post & Hsocs & Hc & IH)].
      * left. split; [done|]. intros x [->|Hx]%elem_of_cons; [done|by apply IH].
      * right. exists (s :: pre), post. split_and!; [by rewrite <-app_comm_cons, <-Hsocs|done|].
        intros x [->|Hx]%elem_of_cons; [done|by apply IH].
Qed.

(** [applyNodeGID] only touches the gid fields. *)
Lemma applyNodeGID_cases fs d :
  applyNodeGID fs d = d ∨ ∃ gid, applyNodeGID fs d = set_gid d gid.
Proof.
  unfold applyNodeGID. destruct (nodeGID fs (DeviceNode d)) as [gid []]; [|by left].
  right. by exists gid.
Qed.

(** The group depends on [Stat] only. *)
Definition same_stats (fs fs' : FS) : Prop := ∀ p, Stat fs p = Stat fs' p.

Lemma applyNodeGID_same fs fs' d :
  same_stats fs fs' → applyNodeGID fs d = applyNodeGID fs' d.
Proof. intros Hstat. unfold applyNodeGID, nodeGID. by rewrite Hstat. Qed.

Ltac gid_cases d := let E := fresh in
  destruct (applyNodeGID_cases _ d) as [E|[? E]]; rewrite E; clear E.

Lemma applyNodeGID_Name fs d : Name (applyNodeGID fs d) = Name d.
Proof. unfold applyNodeGID. by repeat case_match. Qed.

#[export] Hint Rewrite applyNodeGID_Name : go_rw.

Lemma still_ok fs : snapshot_ok fs → fs_ok (still fs).
Proof. unfold fs_ok. intros. by split_and!. Qed.

(** A line [key=...] of a uevent file. *)
Definition keyLine (key line : string) : Prop := ∃ val, line = key +:+ String "=" val.

Lemma Cut_key key line :
  no_byte "=" key = true →
  (∀ val, Cut "=" line = Some (key, val) ↔ line = key +:+ String "=" val).
Proof.
  intros Hkey val. split; [apply Cut_Some|]. intros ->.
  induction key as [|c key IH]; [done|].
  apply andb_true_iff in Hkey as [Hc Hkey]. apply negb_true_iff in Hc.
  rewrite app_cons_str. simpl. by rewrite Hc, IH.
Qed.

Lemma ueventLines_spec key lines :
  no_byte "=" key = true →
  (ueventLines key lines = "" ∧ ∀ l, l ∈ lines → ¬ keyLine key l) ∨
  (∃ pre val post, lines = pre ++ (key +:+ String "=" val) :: post ∧
     (∀ l, l ∈ pre → ¬ keyLine key l) ∧ ueventLines key lines = TrimSpace val).
Proof.
  intros Hkey. induction lines as [|line lines IH]; simpl.
  - left. split; [done|]. by intros l ?%elem_of_nil.
  - assert (Hskip : ¬ keyLine key line → ueventLines key (line :: lines) = ueventLines key lines).
    { intros Hn. simpl. destruct (Cut "=" line) as [[k val]|] eqn:Hc; [|done].
      case_bool_decide; [|done]. subst. destruct Hn. exists val. by apply Cut_key. }
    destruct (Cut "=" line) as [[k val]|] eqn:Hc; [destruct (decide (k = key)) as [->|Hne]|].
    + right. exists [], val, lines. rewrite bool_decide_eq_true_2 by done.
      split_and!; [by apply Cut_Some in Hc as ->| |done]. by intros l ?%elem_of_nil.
    + assert (¬ keyLine key line) as Hn by (intros [v Hv%Cut_key]; [congruence|done]).
      rewrite bool_decide_eq_false_2 by done.
      destruct IH as [[-> IH]|(pre & v & post & -> & Hpre & ->)].
      * left. split; [done|]. by intros l [->|?]%elem_of_cons; auto.
      * right. exists (line :: pre), v, post. split_and!; [done| |done].
        by intros l [->|?]%elem_of_cons; auto.
    + assert (¬ keyLine key line) as Hn by (intros [v Hv%Cut_key]; [congruence|done]).
      destruct IH as [[-> IH]|(pre & v & post & -> & Hpre & ->)].
      * left. split; [done|]. by intros l [->|?]%elem_of_cons; auto.
      * right. exists (line :: pre), v, post. split_and!; [done| |done].
        by intros l [->|?]%elem_of_cons; auto.
Qed.
