(* ===== verification/Accel.v ===== *)
(** [internal/discovery/npu.go] and [gpu.go]: the DRM devices.  Mainline rocket
    binds one platform device per NPU core and exposes one accel node; panthor
    exposes one render node. *)

From stdpp Require Import options.
From S2P Require Import Prelude GoStrings GoPath Consts Types.
From S2P Require Import Sysfs.

(** ** NPU *)

Definition isRocketAccel (r : Reading) (classPath : string) : bool :=
  if bool_decide (ueventDriver (r_probe r) classPath = KMDRocket) then true
  else
    let device := Join [classPath; "device"] in
    if bool_decide (ueventDriver (r_probe r) device = KMDRocket) then true
    else Contains (ToLower (ueventValue (r_modalias r) device "MODALIAS")) "rknn".

(** The node advertised for the accel class entry [name]: under [DevRoot] when
    it exists there, else under /dev, since udev may still create it. *)
Definition accelDevNode (fs : FS) (cfg : Config) (name : string) : string :=
  let devNode := Join [DevRoot cfg; "accel"; name] in
  if exists_ fs devNode then devNode else Join ["/dev/accel"; name].

Fixpoint rocketAccelLoop (r : Reading) (cfg : Config) (accelDir : string)
    (entries : list string) (fallback : string) : string :=
  match entries with
  | [] => if bool_decide (fallback = "") then "/dev/accel/accel0" else fallback
  | name :: rest =>
      if negb (HasPrefix name "accel") then rocketAccelLoop r cfg accelDir rest fallback
      else
        let devNode := accelDevNode (r_probe r) cfg name in
        let fallback := if bool_decide (fallback = "") then devNode else fallback in
        if isRocketAccel r (Join [accelDir; name]) then devNode
        else rocketAccelLoop r cfg accelDir rest fallback
  end.

Definition rocketAccelNode (r : Reading) (cfg : Config) : string :=
  let accelDir := Join [SysfsRoot cfg; "class"; "accel"] in
  match ReadDir (r_probe r) accelDir with
  | None => "/dev/accel/accel0"
  | Some entries => rocketAccelLoop r cfg accelDir entries ""
  end.

(** Entries of the driver directory that are not bound devices. *)
Definition isDriverControl (name : string) : bool :=
  bool_decide (name = "bind") || bool_decide (name = "unbind") ||
  bool_decide (name = "uevent") || HasPrefix name "module".

Fixpoint countCores (entries : list string) (n : Z) : Z :=
  match entries with
  | [] => n
  | name :: rest => countCores rest (if isDriverControl name then n else n + 1)
  end.

Definition countRocketCores (fs : FS) (sysfsRoot : string) : Z :=
  match ReadDir fs (Join [sysfsRoot; "bus"; "platform"; "drivers"; "rocket"]) with
  | None => 0
  | Some entries => countCores entries 0
  end.

Definition discoverNPU (r : Reading) (cfg : Config) (soc : string) : list Device :=
  let cores := countRocketCores (r_probe r) (SysfsRoot cfg) in
  if (cores =? 0)%Z then []
  else
    let devNode := rocketAccelNode r cfg in
    let maxAlloc :=
      maxAllocOr (NPUMaxAllocations cfg) (defaultNPUMaxAllocations soc cores) in
    [applyNodeGID (r_gid r)
       {| Name := "npu-0"; DType := TypeNPU; SoC := soc; Vendor := VendorRockchip;
          Model := "rknn"; KMD := KMDRocket; CoreCount := cores; ShaderCores := 0;
          DeviceNode := devNode; MaxAllocations := maxAlloc;
          Function_ := ""; Block := ""; DeviceGID := 0; DeviceGIDKnown := false |}].

(** ** GPU *)

Definition gpuModelForSoC (soc : string) : string * Z :=
  if bool_decide (soc = "rk3588") || bool_decide (soc = "rk3588s")
  then ("Mali-G610", 4%Z) else ("Mali", 0%Z).

(** The loop over /sys/class/drm: the first render node bound to panthor. *)
Fixpoint panthorNode (fs : FS) (cfg : Config) (drmDir : string) (entries : list string) : string :=
  match entries with
  | [] => ""
  | name :: rest =>
      if negb (HasPrefix name "renderD") then panthorNode fs cfg drmDir rest
      else
        let classPath := Join [drmDir; name] in
        let driver := ueventDriver fs classPath in
        let driver :=
          if bool_decide (driver = "") then ueventDriver fs (Join [classPath; "device"])
          else driver in
        if bool_decide (driver ≠ KMDPanthor) then panthorNode fs cfg drmDir rest
        else
          let devNode := Join [DevRoot cfg; "dri"; name] in
          if exists_ fs devNode then devNode else Join ["/dev/dri"; name]
  end.

Definition discoverGPU (r : Reading) (cfg : Config) (soc : string) : list Device :=
  let drmDir := Join [SysfsRoot cfg; "class"; "drm"] in
  match ReadDir (r_probe r) drmDir with
  | None => []
  | Some entries =>
      let renderNode := panthorNode (r_probe r) cfg drmDir entries in
      if bool_decide (renderNode = "") then []
      else
        let maxAlloc := maxAllocOr (GPUMaxAllocations cfg) defaultGPUMaxAllocations in
        let '(model, shaderCores) := gpuModelForSoC soc in
        [applyNodeGID (r_gid r)
           {| Name := "gpu-0"; DType := TypeGPU; SoC := soc; Vendor := VendorARM;
              Model := model; KMD := KMDPanthor; CoreCount := 0;
              ShaderCores := shaderCores; DeviceNode := renderNode;
              MaxAllocations := maxAlloc; Function_ := ""; Block := "";
              DeviceGID := 0; DeviceGIDKnown := false |}]
  end.

(** ** Lemmas *)

Lemma accelDevNode_ne fs cfg name : accelDevNode fs cfg name ≠ "".
Proof. unfold accelDevNode. case_match; join_ne. Qed.

Lemma rocketAccelLoop_ne r cfg dir entries fallback :
  rocketAccelLoop r cfg dir entries fallback ≠ "".
Proof.
  revert fallback. induction entries as [|e es IH]; intros fallback; simpl.
  - by case_bool_decide.
  - case_match; [apply IH|]. case_match; [apply accelDevNode_ne|apply IH].
Qed.

Lemma rocketAccelNode_ne r cfg : rocketAccelNode r cfg ≠ "".
Proof. unfold rocketAccelNode. case_match; [apply rocketAccelLoop_ne|done]. Qed.

(** The count is the number of entries that are not driver controls. *)
Lemma countCores_length entries n :
  countCores entries n =
    (n + Z.of_nat (length (filter (λ e, isDriverControl e = false) entries)))%Z.
Proof.
  revert n. induction entries as [|e es IH]; intros n; simpl; [lia|].
  rewrite IH, filter_cons. case_decide; destruct (isDriverControl e); simpl; done || lia.
Qed.

Lemma countRocketCores_nonneg fs root : (0 ≤ countRocketCores fs root)%Z.
Proof. unfold countRocketCores. case_match; [|done]. rewrite countCores_length. lia. Qed.

(** ** Reference definitions of the node searches *)

(** The first accel entry of the rocket driver, else the first accel entry,
    else the default name. *)
Definition rocketChoice (r : Reading) (cfg : Config) (entries : list string) : string :=
  let accels := filter (λ e, HasPrefix e "accel" = true) entries in
  let rocket :=
    filter (λ e, isRocketAccel r (Join [Join [SysfsRoot cfg; "class"; "accel"]; e]) = true) accels in
  match head (rocket ++ accels) with
  | Some e => accelDevNode (r_probe r) cfg e
  | None => "/dev/accel/accel0"
  end.

(** The driver of a DRM class entry: its own uevent, else its device's. *)
Definition drmDriver (fs : FS) (classPath : string) : string :=
  if bool_decide (ueventDriver fs classPath = "")
  then ueventDriver fs (Join [classPath; "device"]) else ueventDriver fs classPath.

(** The first render node whose driver is panthor. *)
Definition panthorChoice (fs : FS) (cfg : Config) (entries : list string) : option string :=
  head (filter (λ e, HasPrefix e "renderD" = true ∧
    drmDriver fs (Join [Join [SysfsRoot cfg; "class"; "drm"]; e]) = KMDPanthor) entries).

Lemma rocketAccelLoop_spec r cfg entries fallback :
  rocketAccelLoop r cfg (Join [SysfsRoot cfg; "class"; "accel"]) entries fallback =
    let accels := filter (λ e, HasPrefix e "accel" = true) entries in
    let rocket :=
      filter (λ e, isRocketAccel r (Join [Join [SysfsRoot cfg; "class"; "accel"]; e]) = true) accels in
    match head rocket with
    | Some e => accelDevNode (r_probe r) cfg e
    | None =>
        if bool_decide (fallback = "") then
          match head accels with Some e => accelDevNode (r_probe r) cfg e | None => "/dev/accel/accel0" end
        else fallback
    end.
Proof.
  revert fallback. induction entries as [|e es IH]; intros fallback; [done|].
  cbn [rocketAccelLoop]. cbv zeta in *. rewrite (filter_cons (λ e, HasPrefix e "accel" = true)).
  case_decide as Hp.
  - rewrite Hp. cbn [negb head]. rewrite filter_cons. case_decide as Hr.
    + by rewrite Hr.
    + apply not_true_is_false in Hr. rewrite Hr, IH. case_match; [done|].
      pose proof (accelDevNode_ne (r_probe r) cfg e) as Hne. destruct (decide (fallback = "")) as [->|Hf].
      * rewrite (bool_decide_eq_true_2 (""="")), bool_decide_eq_false_2 by done. done.
      * by rewrite !(bool_decide_eq_false_2 (fallback = "")).
  - apply not_true_is_false in Hp. by rewrite Hp, IH.
Qed.

Lemma panthorNode_spec fs cfg entries :
  panthorNode fs cfg (Join [SysfsRoot cfg; "class"; "drm"]) entries =
    match panthorChoice fs cfg entries with
    | Some e =>
        if exists_ fs (Join [DevRoot cfg; "dri"; e]) then Join [DevRoot cfg; "dri"; e]
        else Join ["/dev/dri"; e]
    | None => ""
    end.
Proof.
  unfold panthorChoice. induction entries as [|e es IH]; [done|].
  cbn [panthorNode]. rewrite filter_cons, IH. cbv zeta.
  fold (drmDriver fs (Join [Join [SysfsRoot cfg; "class"; "drm"]; e])).
  destruct (HasPrefix e "renderD") eqn:Hp; cbn [negb].
  - case_decide as Hd.
    + destruct Hd as [_ ->]. rewrite bool_decide_eq_false_2; [done|by intros []].
    + rewrite bool_decide_eq_true_2; [done|naive_solver].
  - rewrite decide_False; [done|]. by intros [? _].
Qed.
