(* ===== verification/Video.v ===== *)
(** [internal/discovery/v4l.go], [vpu.go] and [rga.go]: the video4linux nodes.
    The index of /dev/videoN is not a stable name, so devices are named after
    their block and numbered in index order. *)

From Stdlib Require Import Ascii ZArith.
From stdpp Require Import options.
From S2P Require Import Prelude GoStrings GoPath GoSort Consts Types.
From S2P Require Import Sysfs.

(** ** v4l.go *)

Record v4lNode := mkV4l {
  v4l_Index : Z;
  v4l_Driver : string;
  v4l_CardName : string;
  v4l_Compatible : string;
  v4l_DeviceNode : string
}.

#[export] Instance v4lNode_eq_dec : EqDecision v4lNode.
Proof. solve_decision. Defined.

Definition videoIndex (name : string) : option Z :=
  match CutPrefix "video" name with
  | None | Some "" => None
  | Some rest => Atoi rest
  end.

Definition driverSymlink (fs : FS) (devicePath : string) : string :=
  match Readlink fs (Join [devicePath; "driver"]) with
  | None => ""
  | Some target => Base target
  end.

(** The NUL-separated strings, trimmed, without the empty ones. *)
Fixpoint keptParts (parts : list string) : list string :=
  match parts with
  | [] => []
  | p :: rest =>
      let p := TrimSpace p in
      if bool_decide (p = "") then keptParts rest else p :: keptParts rest
  end.

Definition readCompatible (fs : FS) (devicePath : string) : string :=
  match ReadFile fs (Join [devicePath; "of_node"; "compatible"]) with
  | None => ""
  | Some data => GoStrings.Join (keptParts (Split nul data)) ","
  end.

Definition readTrimmed (fs : FS) (path : string) : string :=
  match ReadFile fs path with
  | None => ""
  | Some data => TrimSpace data
  end.

(** One class entry. *)
Definition v4lEntry (fs : FS) (cfg : Config) (classDir name : string) : option v4lNode :=
  match videoIndex name with
  | None => None
  | Some index =>
      let classPath := Join [classDir; name] in
      let devicePath := Join [classPath; "device"] in
      let driver := ueventDriver fs classPath in
      let driver := if bool_decide (driver = "") then ueventDriver fs devicePath else driver in
      let driver := if bool_decide (driver = "") then driverSymlink fs devicePath else driver in
      let devNode := Join [DevRoot cfg; name] in
      let devNode := if exists_ fs devNode then devNode else Join ["/dev"; name] in
      Some {| v4l_Index := index; v4l_Driver := driver;
              v4l_CardName := readTrimmed fs (Join [classPath; "name"]);
              v4l_Compatible := readCompatible fs devicePath;
              v4l_DeviceNode := devNode |}
  end.

Definition discoverV4L (fs : FS) (cfg : Config) : list v4lNode :=
  let classDir := Join [SysfsRoot cfg; "class"; "video4linux"] in
  match ReadDir fs classDir with
  | None => []
  | Some entries => omap (v4lEntry fs cfg classDir) entries
  end.

(** ** vpu.go *)

Record vpuMatch := mkMatch {
  vm_node : v4lNode;
  vm_block : string;
  vm_function : string
}.

#[export] Instance vpuMatch_eq_dec : EqDecision vpuMatch.
Proof. solve_decision. Defined.

Definition classifyVPU (n : v4lNode) : option (string * string) :=
  let compat := ToLower (v4l_Compatible n) in
  let card := ToLower (v4l_CardName n) in
  if bool_decide (v4l_Driver n = KMDRkvdec) then Some (BlockRkvdec, FunctionDecode)
  else if bool_decide (v4l_Driver n = KMDHantro) then
    if Contains compat "av1" || Contains card "av1" then Some (BlockHantroAV1, FunctionDecode)
    else if Contains compat "vepu" || Contains card "vepu" then Some (BlockHantroEnc, FunctionEncode)
    else if Contains compat "vpu121" || Contains card "vpu-dec" then Some (BlockHantroDec, FunctionDecode)
    else None
  else None.

Definition vpuMatches (nodes : list v4lNode) : list vpuMatch :=
  omap (λ n, match classifyVPU n with
             | Some (block, function) => Some (mkMatch n block function)
             | None => None
             end) nodes.

(** The comparison [discoverVPU] sorts with; the index difference is Go [int]
    arithmetic. *)
Definition vpuCompare (a b : vpuMatch) : Z :=
  if bool_decide (vm_block a ≠ vm_block b) then Compare (vm_block a) (vm_block b)
  else wrap64 (v4l_Index (vm_node a) - v4l_Index (vm_node b)).

Definition vpuName (block : string) (n : Z) : string :=
  "vpu-" +:+ block +:+ "-" +:+ Itoa n.

Definition vpuDevice (fs : FS) (soc : string) (maxAlloc : Z) (m : vpuMatch) (n : Z) : Device :=
  applyNodeGID fs
    {| Name := vpuName (vm_block m) n; DType := TypeVPU; SoC := soc;
       Vendor := VendorRockchip; Model := v4l_Compatible (vm_node m);
       KMD := v4l_Driver (vm_node m); CoreCount := 0; ShaderCores := 0;
       DeviceNode := v4l_DeviceNode (vm_node m); MaxAllocations := maxAlloc;
       Function_ := vm_function m; Block := vm_block m;
       DeviceGID := 0; DeviceGIDKnown := false |}.

(** The naming loop; [counts] maps a block to the number of its devices so far. *)
Fixpoint vpuDevices (fs : FS) (soc : string) (maxAlloc : Z) (counts : gmap string Z)
    (matches : list vpuMatch) : list Device :=
  match matches with
  | [] => []
  | m :: rest =>
      let n := default 0%Z (counts !! vm_block m) in
      vpuDevice fs soc maxAlloc m n ::
      vpuDevices fs soc maxAlloc (<[vm_block m := (n + 1)%Z]> counts) rest
  end.

Section sorted.
Context `{GoSort}.

Definition discoverVPU (r : Reading) (cfg : Config) (soc : string) : list Device :=
  let matches := SortFunc vpuCompare (vpuMatches (discoverV4L (r_probe r) cfg)) in
  let maxAlloc := maxAllocOr (VPUMaxAllocations cfg) DefaultVPUMaxAllocations in
  vpuDevices (r_gid r) soc maxAlloc ∅ matches.

(** ** rga.go *)

Definition rgaCompare (a b : v4lNode) : Z := wrap64 (v4l_Index a - v4l_Index b).

Definition rgaNodes (nodes : list v4lNode) : list v4lNode :=
  filter (λ n, v4l_Driver n = KMDRGA) nodes.

Definition rgaName (i : nat) : string := "rga-" +:+ Itoa (Z.of_nat i).

Definition rgaDevice (fs : FS) (soc : string) (maxAlloc : Z) (i : nat) (n : v4lNode) : Device :=
  applyNodeGID fs
    {| Name := rgaName i; DType := TypeRGA; SoC := soc; Vendor := VendorRockchip;
       Model := v4l_Compatible n; KMD := v4l_Driver n; CoreCount := 0; ShaderCores := 0;
       DeviceNode := v4l_DeviceNode n; MaxAllocations := maxAlloc;
       Function_ := ""; Block := ""; DeviceGID := 0; DeviceGIDKnown := false |}.

Definition discoverRGA (r : Reading) (cfg : Config) (soc : string) : list Device :=
  let nodes := SortFunc rgaCompare (rgaNodes (discoverV4L (r_rga r) cfg)) in
  let maxAlloc := maxAllocOr (RGAMaxAllocations cfg) DefaultRGAMaxAllocations in
  imap (rgaDevice (r_rgaGID r) soc maxAlloc) nodes.

End sorted.

(** ** Classification *)

Definition vpu_blocks : list string :=
  [BlockRkvdec; BlockHantroDec; BlockHantroEnc; BlockHantroAV1].

Lemma classifyVPU_block n b f :
  classifyVPU n = Some (b, f) →
  b ∈ vpu_blocks ∧ f = (if bool_decide (b = BlockHantroEnc) then FunctionEncode else FunctionDecode) ∧
  v4l_Driver n = (if bool_decide (b = BlockRkvdec) then KMDRkvdec else KMDHantro).
Proof.
  unfold classifyVPU, vpu_blocks. intros H.
  repeat case_match; simplify_eq; rewrite ?bool_decide_eq_true in *;
    (split_and!; [set_solver|done|done]).
Qed.

Lemma vpuMatches_elem m nodes :
  m ∈ vpuMatches nodes ↔
  vm_node m ∈ nodes ∧ classifyVPU (vm_node m) = Some (vm_block m, vm_function m).
Proof.
  unfold vpuMatches. rewrite list_elem_of_omap. split.
  - intros (n & Hn & Hm). repeat case_match; by simplify_eq/=.
  - intros [Hn Hc]. exists (vm_node m). rewrite Hc. by destruct m.
Qed.

(** ** Names *)

Lemma vpuName_inj b b' n n' :
  b ∈ vpu_blocks → b' ∈ vpu_blocks → vpuName b n = vpuName b' n' → b = b' ∧ n = n'.
Proof.
  assert (Hdec : Forall (λ b, Forall (λ b', vpuName b n = vpuName b' n' → b = b') vpu_blocks)
            vpu_blocks).
  { repeat constructor; lazy [vpuName String.append]; intros H; simplify_eq; done. }
  rewrite !Forall_forall in Hdec. intros Hb Hb' Heq.
  assert (b = b') as ->.
  { specialize (Hdec _ Hb). rewrite Forall_forall in Hdec. by apply Hdec. }
  split; [done|]. unfold vpuName in Heq. by do 3 apply app_str_inv_head in Heq; apply Itoa_inj.
Qed.

Lemma rgaName_inj i j : rgaName i = rgaName j → i = j.
Proof. intros H%app_str_inv_head%Itoa_inj. lia. Qed.

(** ** The naming loop

    Reference definition: the number in a device's name is the number of
    earlier matches of the same block. *)
Definition sameBlock (b : string) (ms : list vpuMatch) : list vpuMatch :=
  filter (λ m, vm_block m = b) ms.

Definition vpuRank (counts : gmap string Z) (ms : list vpuMatch) (i : nat) (b : string) : Z :=
  default 0%Z (counts !! b) + Z.of_nat (length (sameBlock b (take i ms))).

Lemma vpuDevices_lookup fs soc ma counts ms i :
  vpuDevices fs soc ma counts ms !! i =
    (λ m, vpuDevice fs soc ma m (vpuRank counts ms i (vm_block m))) <$> ms !! i.
Proof.
  revert counts i. induction ms as [|m ms IH]; intros counts i; [done|].
  destruct i as [|i]; simpl.
  - unfold vpuRank. simpl. by rewrite Z.add_0_r.
  - rewrite IH. destruct (ms !! i) as [m'|]; [|done]. simpl. do 2 f_equal.
    unfold vpuRank, sameBlock. simpl. rewrite filter_cons.
    destruct (decide (vm_block m = vm_block m')) as [->|Hne].
    + rewrite lookup_insert_eq. simpl. lia.
    + by rewrite lookup_insert_ne by done.
Qed.

Lemma vpuRank_lt counts ms i j m :
  ms !! i = Some m → i < j →
  (vpuRank counts ms i (vm_block m) < vpuRank counts ms j (vm_block m))%Z.
Proof.
  intros Hi Hj. unfold vpuRank, sameBlock.
  rewrite <-(take_drop i (take j ms)), take_take, Nat.min_l by lia.
  rewrite filter_app, length_app.
  enough (1 ≤ length (filter (λ m0, vm_block m0 = vm_block m) (drop i (take j ms)))) by lia.
  assert (Hd : drop i (take j ms) !! 0 = Some m).
  { by rewrite lookup_drop, Nat.add_0_r, lookup_take_lt. }
  destruct (drop i (take j ms)) as [|m' l]; simplify_eq/=.
  rewrite filter_cons_True by done. simpl. lia.
Qed.

Lemma vpuDevice_Name fs soc ma m n : Name (vpuDevice fs soc ma m n) = vpuName (vm_block m) n.
Proof. unfold vpuDevice. by autorewrite with go_rw. Qed.

Lemma rgaDevice_Name fs soc ma i n : Name (rgaDevice fs soc ma i n) = rgaName i.
Proof. unfold rgaDevice. by autorewrite with go_rw. Qed.

#[export] Hint Rewrite vpuDevice_Name rgaDevice_Name : go_rw.

Lemma vpuDevices_NoDup fs soc ma counts ms :
  Forall (λ m, vm_block m ∈ vpu_blocks) ms →
  NoDup (Name <$> vpuDevices fs soc ma counts ms).
Proof.
  intros Hms. apply NoDup_alt. intros i j x. rewrite !list_lookup_fmap, !vpuDevices_lookup.
  destruct (ms !! i) as [mi|] eqn:Hi; [|done]. destruct (ms !! j) as [mj|] eqn:Hj; [|done].
  simpl. autorewrite with go_rw. intros [= Hx] [= Heq]. rewrite <-Hx in Heq.
  rewrite Forall_lookup in Hms.
  apply vpuName_inj in Heq as [Hb Hr]; [|by eapply Hms..].
  destruct (Nat.lt_trichotomy i j) as [Hlt|[Heq|Hlt]]; [|done|].
  - pose proof (vpuRank_lt counts ms i j mi Hi Hlt). rewrite Hb in *. lia.
  - pose proof (vpuRank_lt counts ms j i mj Hj Hlt). rewrite Hb in *. lia.
Qed.

Lemma imap_rga_NoDup fs soc ma nodes : NoDup (Name <$> imap (rgaDevice fs soc ma) nodes).
Proof.
  apply NoDup_alt. intros i j x. rewrite !list_lookup_fmap, !list_lookup_imap.
  destruct (nodes !! i); [|done]. destruct (nodes !! j); [|done].
  simpl. autorewrite with go_rw. intros [= Hx] [= Heq]. apply rgaName_inj. congruence.
Qed.

(** ** The sort orders *)

Definition index_ok (n : v4lNode) : Prop := (- 2 ^ 62 ≤ v4l_Index n < 2 ^ 62)%Z.

#[export] Instance index_ok_dec n : Decision (index_ok n).
Proof. unfold index_ok. apply _. Defined.

Lemma index_diff a b :
  index_ok a → index_ok b →
  wrap64 (v4l_Index a - v4l_Index b) = (v4l_Index a - v4l_Index b)%Z.
Proof. unfold index_ok. intros ??. apply wrap64_small. lia. Qed.

Lemma vpuCompare_le a b :
  index_ok (vm_node a) → index_ok (vm_node b) →
  cmp_le vpuCompare a b ↔
    (vm_block a = vm_block b ∧ (v4l_Index (vm_node a) ≤ v4l_Index (vm_node b))%Z) ∨
    (vm_block a ≠ vm_block b ∧ String.le (vm_block a) (vm_block b)).
Proof.
  intros Ha Hb. unfold cmp_le, vpuCompare. case_bool_decide as Hne.
  - rewrite Compare_nonneg. naive_solver.
  - rewrite index_diff by done. split; [left; split; [done|lia]|].
    intros [[??]|[??]]; [lia|congruence].
Qed.

Lemma vpuCompare_order ms :
  Forall (λ m, index_ok (vm_node m)) ms → weak_order vpuCompare ms.
Proof.
  rewrite Forall_forall. intros Hok. split.
  - intros a b Ha Hb Hab. destruct (decide (cmp_le vpuCompare a b)) as [Hle|Hle]; [done|].
    exfalso. unfold cmp_le in Hle. apply dec_stable in Hle.
    assert (¬ cmp_le vpuCompare b a) as Hba by (unfold cmp_le; naive_solver).
    assert (¬ cmp_le vpuCompare a b) as Hab' by (unfold cmp_le; naive_solver).
    rewrite vpuCompare_le in Hba, Hab' by auto.
    destruct (decide (vm_block a = vm_block b)) as [Heq|Hne].
    + destruct (Z.le_ge_cases (v4l_Index (vm_node a)) (v4l_Index (vm_node b)));
        [apply Hab'|apply Hba]; left; split; done || lia.
    + destruct (total String.le (vm_block a) (vm_block b));
        [apply Hab'|apply Hba]; right; by split.
  - intros a b c Ha Hb Hc. rewrite !vpuCompare_le by auto.
    intros [[-> ?]|[? ?]] [[<- ?]|[? ?]]; [left; split; [done|lia]|by right|by right|].
    right. split; [|by etrans]. intros Heq. rewrite Heq in *.
    assert (vm_block b = vm_block c) by by apply (anti_symm String.le). congruence.
Qed.

Lemma vpuCompare_anti (ms : list vpuMatch) a b :
  Forall (λ m, index_ok (vm_node m)) ms →
  a ∈ ms → b ∈ ms → cmp_le vpuCompare a b → cmp_le vpuCompare b a →
  vm_block a = vm_block b ∧ v4l_Index (vm_node a) = v4l_Index (vm_node b).
Proof.
  rewrite Forall_forall. intros Hok Ha Hb. rewrite !vpuCompare_le by auto.
  intros [[??]|[??]] [[??]|[??]]; try congruence; [split; [done|lia]|].
  assert (vm_block a = vm_block b) by by apply (anti_symm String.le). congruence.
Qed.

Lemma rgaCompare_le a b :
  index_ok a → index_ok b → cmp_le rgaCompare a b ↔ (v4l_Index a ≤ v4l_Index b)%Z.
Proof. intros Ha Hb. unfold cmp_le, rgaCompare. rewrite index_diff by done. lia. Qed.

Lemma rgaCompare_order ns : Forall index_ok ns → weak_order rgaCompare ns.
Proof.
  rewrite Forall_forall. intros Hok. split.
  - intros a b Ha Hb. unfold rgaCompare. rewrite !index_diff by auto. lia.
  - intros a b c Ha Hb Hc. rewrite !rgaCompare_le by auto. lia.
Qed.

Lemma v4lEntry_node fs cfg dir name n : v4lEntry fs cfg dir name = Some n → v4l_DeviceNode n ≠ "".
Proof.
  unfold v4lEntry. destruct name as [|c name]; [done|].
  destruct (videoIndex (String c name)); [|done]. intros ?; simplify_eq/=.
  case_match; join_ne.
Qed.

Lemma discoverV4L_node fs cfg n : n ∈ discoverV4L fs cfg → v4l_DeviceNode n ≠ "".
Proof.
  unfold discoverV4L. case_match; [|by intros ?%elem_of_nil].
  rewrite list_elem_of_omap. intros (e & _ & He). by eapply v4lEntry_node.
Qed.
