(* ===== verification/Enumerate.v ===== *)
(** [internal/discovery/discovery.go]: [Enumerate], the entry point of
    discovery, and the mock device set. *)

From stdpp Require Import options.
From S2P Require Import Prelude GoStrings GoSort Consts Types.
From S2P Require Import Sysfs Accel Video.

Definition mockDevices (cfg : Config) : list Device :=
  let soc := "rk3588" in
  (if NPUEnabled cfg then
     [{| Name := "npu-0"; DType := TypeNPU; SoC := soc; Vendor := VendorRockchip;
         Model := "rknn"; KMD := KMDRocket; CoreCount := 3; ShaderCores := 0;
         DeviceNode := "/dev/accel/accel0";
         MaxAllocations := maxAllocOr (NPUMaxAllocations cfg) (defaultNPUMaxAllocations soc 3);
         Function_ := ""; Block := ""; DeviceGID := 0; DeviceGIDKnown := false |}]
   else []) ++
  (if GPUEnabled cfg then
     [{| Name := "gpu-0"; DType := TypeGPU; SoC := soc; Vendor := VendorARM;
         Model := "Mali-G610"; KMD := KMDPanthor; CoreCount := 0; ShaderCores := 4;
         DeviceNode := "/dev/dri/renderD128";
         MaxAllocations := maxAllocOr (GPUMaxAllocations cfg) defaultGPUMaxAllocations;
         Function_ := ""; Block := ""; DeviceGID := 0; DeviceGIDKnown := false |}]
   else []) ++
  (if VPUEnabled cfg then
     [{| Name := "vpu-rkvdec-0"; DType := TypeVPU; SoC := soc; Vendor := VendorRockchip;
         Model := "rockchip,rk3588-vdec"; KMD := KMDRkvdec; CoreCount := 0; ShaderCores := 0;
         DeviceNode := "/dev/video2";
         MaxAllocations := maxAllocOr (VPUMaxAllocations cfg) DefaultVPUMaxAllocations;
         Function_ := FunctionDecode; Block := BlockRkvdec;
         DeviceGID := 0; DeviceGIDKnown := false |}]
   else []) ++
  (if RGAEnabled cfg then
     [{| Name := "rga-0"; DType := TypeRGA; SoC := soc; Vendor := VendorRockchip;
         Model := "rockchip,rk3588-rga"; KMD := KMDRGA; CoreCount := 0; ShaderCores := 0;
         DeviceNode := "/dev/video0";
         MaxAllocations := maxAllocOr (RGAMaxAllocations cfg) DefaultRGAMaxAllocations;
         Function_ := ""; Block := ""; DeviceGID := 0; DeviceGIDKnown := false |}]
   else []).

Section enumerate.
Context `{GoSort}.

(** [Enumerate] never returns an error. *)
Definition Enumerate (r : Reading) (cfg : Config) : list Device :=
  let cfg := defaultConfig cfg in
  if Mock cfg then mockDevices cfg
  else
    let soc := detectSoC (r_probe r) (SysfsRoot cfg) in
    (if NPUEnabled cfg then discoverNPU r cfg soc else []) ++
    (if GPUEnabled cfg then discoverGPU r cfg soc else []) ++
    (if VPUEnabled cfg then discoverVPU r cfg soc else []) ++
    (if RGAEnabled cfg then discoverRGA r cfg soc else []).

End enumerate.

(** ** What discovery promises of a device *)

(** The four shapes a discovered device can have. *)
Inductive device_kind (d : Device) : Prop :=
  | kind_npu : Name d = "npu-0" → DType d = TypeNPU → KMD d = KMDRocket →
      Block d = "" → Function_ d = "" → (1 ≤ CoreCount d)%Z → device_kind d
  | kind_gpu : Name d = "gpu-0" → DType d = TypeGPU → KMD d = KMDPanthor →
      Block d = "" → Function_ d = "" → device_kind d
  | kind_vpu n : Name d = vpuName (Block d) n → (0 ≤ n)%Z → DType d = TypeVPU →
      Block d ∈ vpu_blocks →
      Function_ d =
        (if bool_decide (Block d = BlockHantroEnc) then FunctionEncode else FunctionDecode) →
      KMD d = (if bool_decide (Block d = BlockRkvdec) then KMDRkvdec else KMDHantro) →
      device_kind d
  | kind_rga i : Name d = rgaName i → DType d = TypeRGA → KMD d = KMDRGA →
      Block d = "" → Function_ d = "" → device_kind d.

Record device_wf (d : Device) : Prop := {
  wf_kind : device_kind d;
  wf_node : DeviceNode d ≠ "";
  wf_max : (1 ≤ MaxAllocations d)%Z;
  wf_gid : DeviceGIDKnown d = false → DeviceGID d = 0%Z
}.

(** The gid assignment keeps a device well formed. *)
Lemma set_gid_kind d gid : device_kind d → device_kind (set_gid d gid).
Proof.
  destruct 1; [by apply kind_npu|by apply kind_gpu|by eapply kind_vpu|by eapply kind_rga].
Qed.

Lemma applyNodeGID_wf fs d : device_wf d → device_wf (applyNodeGID fs d).
Proof.
  intros Hd. destruct (applyNodeGID_cases fs d) as [->|[gid ->]]; [done|].
  destruct Hd. split; [by apply set_gid_kind|done..].
Qed.

Lemma discoverNPU_wf r cfg soc : Forall device_wf (discoverNPU r cfg soc).
Proof.
  unfold discoverNPU. destruct (Z.eqb_spec (countRocketCores (r_probe r) (SysfsRoot cfg)) 0); [done|].
  constructor; [|done]. apply applyNodeGID_wf.
  pose proof (countRocketCores_nonneg (r_probe r) (SysfsRoot cfg)).
  split; simpl; [|apply rocketAccelNode_ne|auto with go|done].
  apply kind_npu; simpl; done || lia.
Qed.

Lemma discoverGPU_wf r cfg soc : Forall device_wf (discoverGPU r cfg soc).
Proof.
  unfold discoverGPU. case_match; [|done]. case_bool_decide; [done|].
  destruct (gpuModelForSoC soc) as [model cores]. constructor; [|done].
  apply applyNodeGID_wf. split; simpl; [by apply kind_gpu|done|by apply maxAllocOr_pos|done].
Qed.

Lemma vpuRank_nonneg ms i b : (0 ≤ vpuRank ∅ ms i b)%Z.
Proof. unfold vpuRank. rewrite lookup_empty. simpl. lia. Qed.

Section wf.
Context `{GoSort}.

Definition sortedMatches (r : Reading) (cfg : Config) : list vpuMatch :=
  SortFunc vpuCompare (vpuMatches (discoverV4L (r_probe r) cfg)).

Lemma sortedMatches_elem r cfg m :
  m ∈ sortedMatches r cfg ↔
  vm_node m ∈ discoverV4L (r_probe r) cfg ∧ classifyVPU (vm_node m) = Some (vm_block m, vm_function m).
Proof. unfold sortedMatches. by rewrite SortFunc_perm, vpuMatches_elem. Qed.

Lemma sortedMatches_blocks r cfg :
  Forall (λ m, vm_block m ∈ vpu_blocks) (sortedMatches r cfg).
Proof.
  rewrite Forall_forall. intros m [_ Hc]%sortedMatches_elem. by apply classifyVPU_block in Hc as [? _].
Qed.

Lemma discoverVPU_wf r cfg soc : Forall device_wf (discoverVPU r cfg soc).
Proof.
  rewrite Forall_lookup. intros i d. unfold discoverVPU. fold (sortedMatches r cfg).
  rewrite vpuDevices_lookup.
  destruct (sortedMatches r cfg !! i) as [m|] eqn:Hm; [|done]. intros ?; simplify_eq/=.
  apply list_elem_of_lookup_2, sortedMatches_elem in Hm as [Hn Hc].
  apply classifyVPU_block in Hc as (Hb & Hf & Hk).
  apply applyNodeGID_wf. split; simpl; [|by eapply discoverV4L_node|by apply maxAllocOr_pos|done].
  eapply kind_vpu; simpl; [done|apply vpuRank_nonneg|done..].
Qed.

Lemma discoverRGA_wf r cfg soc : Forall device_wf (discoverRGA r cfg soc).
Proof.
  rewrite Forall_lookup. intros i d. unfold discoverRGA. rewrite list_lookup_imap.
  destruct (SortFunc _ _ !! i) as [n|] eqn:Hn; [|done]. intros ?; simplify_eq/=.
  apply list_elem_of_lookup_2 in Hn. rewrite SortFunc_perm in Hn.
  apply list_elem_of_filter in Hn as [Hk Hn].
  apply applyNodeGID_wf. split; simpl; [|by eapply discoverV4L_node|by apply maxAllocOr_pos|done].
  by eapply kind_rga.
Qed.

Lemma mockDevices_wf cfg : Forall device_wf (mockDevices cfg).
Proof.
  unfold mockDevices. rewrite !Forall_app.
  split_and!; case_match; try done; apply Forall_singleton;
    (split; simpl; [|done|by apply maxAllocOr_pos|done]).
  - by apply kind_npu.
  - by apply kind_gpu.
  - apply (kind_vpu _ 0); simpl; try done. by left.
  - by apply (kind_rga _ 0).
Qed.

Lemma Enumerate_wf_all r cfg : Forall device_wf (Enumerate r cfg).
Proof.
  unfold Enumerate. case_match; [apply mockDevices_wf|]. rewrite !Forall_app.
  split_and!; case_match; try done;
    [apply discoverNPU_wf|apply discoverGPU_wf|apply discoverVPU_wf|apply discoverRGA_wf].
Qed.

(** ** Distinct names *)

Lemma discoverVPU_NoDup r cfg soc : NoDup (Name <$> discoverVPU r cfg soc).
Proof. apply vpuDevices_NoDup, sortedMatches_blocks. Qed.

Lemma discoverRGA_NoDup r cfg soc : NoDup (Name <$> discoverRGA r cfg soc).
Proof. apply imap_rga_NoDup. Qed.

(** A device name determines the device type. *)
Lemma device_kind_type d e :
  device_kind d → device_kind e → Name d = Name e → DType d = DType e.
Proof.
  intros [Hn Ht|Hn Ht|n Hn _ Ht|i Hn Ht]; rewrite Hn, Ht;
  intros [Hn' Ht'|Hn' Ht'|n' Hn' _ Ht'|i' Hn' Ht']; rewrite Hn', Ht';
  try done; by lazy [vpuName rgaName String.append].
Qed.

(** The type of the devices of each discovery function, and its share override. *)
Definition overrideOf (cfg : Config) (t : string) : Z :=
  if bool_decide (t = TypeNPU) then NPUMaxAllocations cfg
  else if bool_decide (t = TypeGPU) then GPUMaxAllocations cfg
  else if bool_decide (t = TypeVPU) then VPUMaxAllocations cfg
  else RGAMaxAllocations cfg.

Definition enabledOf (cfg : Config) (t : string) : bool :=
  if bool_decide (t = TypeNPU) then NPUEnabled cfg
  else if bool_decide (t = TypeGPU) then GPUEnabled cfg
  else if bool_decide (t = TypeVPU) then VPUEnabled cfg
  else RGAEnabled cfg.

Definition typed (cfg : Config) (t : string) (d : Device) : Prop :=
  DType d = t ∧ ((0 < overrideOf cfg t)%Z → MaxAllocations d = overrideOf cfg t).

Lemma maxAllocOr_override o d : (0 < o)%Z → maxAllocOr o d = o.
Proof. intros Ho. unfold maxAllocOr. destruct (Z.leb_spec o 0); [lia|done]. Qed.

Lemma applyNodeGID_typed fs cfg t d : typed cfg t d → typed cfg t (applyNodeGID fs d).
Proof. destruct (applyNodeGID_cases fs d) as [->|[gid ->]]; done. Qed.

Ltac solve_typed := apply applyNodeGID_typed; split; [done|]; by apply maxAllocOr_override.

Lemma discoverNPU_typed r cfg soc : Forall (typed cfg TypeNPU) (discoverNPU r cfg soc).
Proof. unfold discoverNPU. case_match; [done|]. apply Forall_singleton. solve_typed. Qed.

Lemma discoverGPU_typed r cfg soc : Forall (typed cfg TypeGPU) (discoverGPU r cfg soc).
Proof.
  unfold discoverGPU. case_match; [|done]. case_match; [done|].
  destruct (gpuModelForSoC soc). apply Forall_singleton. solve_typed.
Qed.

Lemma discoverVPU_typed r cfg soc : Forall (typed cfg TypeVPU) (discoverVPU r cfg soc).
Proof.
  rewrite Forall_lookup. intros i d. unfold discoverVPU. rewrite vpuDevices_lookup.
  destruct (_ !! i); intros; simplify_eq/=. solve_typed.
Qed.

Lemma discoverRGA_typed r cfg soc : Forall (typed cfg TypeRGA) (discoverRGA r cfg soc).
Proof.
  rewrite Forall_lookup. intros i d. unfold discoverRGA. rewrite list_lookup_imap.
  destruct (_ !! i); intros; simplify_eq/=. solve_typed.
Qed.

(** The four sections of a non-mock enumeration. *)
Definition discoverType (r : Reading) (cfg : Config) (soc t : string) : list Device :=
  if bool_decide (t = TypeNPU) then discoverNPU r cfg soc
  else if bool_decide (t = TypeGPU) then discoverGPU r cfg soc
  else if bool_decide (t = TypeVPU) then discoverVPU r cfg soc
  else discoverRGA r cfg soc.

Definition deviceTypes : list string := [TypeNPU; TypeGPU; TypeVPU; TypeRGA].

Lemma discoverType_spec r cfg soc t :
  t ∈ deviceTypes →
  Forall (typed cfg t) (discoverType r cfg soc t) ∧
  Forall device_wf (discoverType r cfg soc t) ∧
  NoDup (Name <$> discoverType r cfg soc t).
Proof.
  intros Ht. repeat (apply elem_of_cons in Ht as [->|Ht]); [..|by apply elem_of_nil in Ht];
    unfold discoverType; simpl.
  - split_and!; [apply discoverNPU_typed|apply discoverNPU_wf|].
    unfold discoverNPU. case_match; [by apply NoDup_nil_2|apply NoDup_singleton].
  - split_and!; [apply discoverGPU_typed|apply discoverGPU_wf|].
    unfold discoverGPU. repeat case_match; try (by apply NoDup_nil_2); apply NoDup_singleton.
  - split_and!; [apply discoverVPU_typed|apply discoverVPU_wf|apply discoverVPU_NoDup].
  - split_and!; [apply discoverRGA_typed|apply discoverRGA_wf|apply discoverRGA_NoDup].
Qed.

Lemma Enumerate_types r cfg :
  Mock cfg = false →
  Enumerate r cfg =
    let cfg := defaultConfig cfg in
    let soc := detectSoC (r_probe r) (SysfsRoot cfg) in
    concat ((λ t, if enabledOf cfg t then discoverType r cfg soc t else []) <$> deviceTypes).
Proof.
  intros Hm. unfold Enumerate. change (Mock (defaultConfig cfg)) with (Mock cfg).
  rewrite Hm. simpl. by rewrite app_nil_r.
Qed.

(** Concatenating lists of devices of distinct types keeps the names distinct. *)
Lemma concat_types_NoDup (f : string → list Device) ts :
  NoDup ts →
  (∀ t, t ∈ ts → Forall (λ d, DType d = t ∧ device_kind d) (f t) ∧ NoDup (Name <$> f t)) →
  NoDup (Name <$> concat (f <$> ts)).
Proof.
  induction 1 as [|t ts Ht Hts IH]; intros Hf; simpl; [apply NoDup_nil_2|].
  apply NoDup_app_fmap.
  - apply Hf. by left.
  - apply IH. intros t' Ht'. apply Hf. by right.
  - intros x y Hx Hy Heq. rewrite list_elem_of_In, in_concat in Hy.
    destruct Hy as (l & Hl%list_elem_of_In & Hy%list_elem_of_In).
    apply list_elem_of_fmap in Hl as (t' & -> & Ht').
    destruct (Hf t ltac:(by left)) as [Hft _], (Hf t' ltac:(by right)) as [Hft' _].
    rewrite Forall_forall in Hft, Hft'.
    destruct (Hft _ Hx) as [Htx Hkx], (Hft' _ Hy) as [Hty Hky].
    destruct Ht. pose proof (device_kind_type _ _ Hkx Hky Heq). congruence.
Qed.

Lemma mockDevices_NoDup cfg : NoDup (Name <$> mockDevices cfg).
Proof.
  unfold mockDevices. destruct (NPUEnabled cfg), (GPUEnabled cfg), (VPUEnabled cfg), (RGAEnabled cfg);
    simpl; by_compute.
Qed.

Lemma Enumerate_NoDup r cfg : NoDup (Name <$> Enumerate r cfg).
Proof.
  destruct (Mock cfg) eqn:Hm.
  - unfold Enumerate. change (Mock (defaultConfig cfg)) with (Mock cfg). rewrite Hm.
    apply mockDevices_NoDup.
  - rewrite Enumerate_types by done. apply concat_types_NoDup.
    + by_compute.
    + intros t Ht. case_match; [|split; [done|apply NoDup_nil_2]].
      destruct (discoverType_spec r (defaultConfig cfg)
        (detectSoC (r_probe r) (SysfsRoot (defaultConfig cfg))) t Ht) as (Hty & Hwf & Hnd).
      split; [|done]. rewrite Forall_forall in Hty, Hwf |- *. intros d Hd.
      split; [by apply Hty|by apply Hwf].
Qed.

End wf.

(** ** Names do not depend on the probe order *)

(** The index of a match. *)
Definition vm_index (m : vpuMatch) : Z := v4l_Index (vm_node m).

(** The matched nodes of block [b] with a smaller index than [i]. *)
Definition smaller (b : string) (i : Z) (ms : list vpuMatch) : list vpuMatch :=
  filter (λ m, vm_block m = b ∧ (vm_index m < i)%Z) ms.

Lemma vpuMatches_index_NoDup nodes :
  NoDup (v4l_Index <$> nodes) → NoDup (vm_index <$> vpuMatches nodes).
Proof.
  induction nodes as [|n nodes IH]; [done|]. rewrite fmap_cons, NoDup_cons. intros [Hn Hnd].
  unfold vpuMatches. simpl. destruct (classifyVPU n) as [[b f]|]; [|by apply IH].
  simpl. constructor; [|by apply IH].
  intros (m & Hm & Hin)%list_elem_of_fmap. apply Hn. unfold vm_index in Hm. simpl in Hm.
  fold (vpuMatches nodes) in Hin. apply vpuMatches_elem in Hin as [Hin _].
  rewrite Hm. by apply list_elem_of_fmap_2.
Qed.

(** In a sorted list with distinct indices, the rank of a match counts the
    matches of its block with a smaller index. *)
Lemma vpuRank_smaller ms i m :
  StronglySorted (cmp_le vpuCompare) ms →
  Forall (λ m, index_ok (vm_node m)) ms → NoDup (vm_index <$> ms) → ms !! i = Some m →
  vpuRank ∅ ms i (vm_block m) = Z.of_nat (length (smaller (vm_block m) (vm_index m) ms)).
Proof.
  intros Hs Hok Hnd Hi. unfold vpuRank, sameBlock, smaller. rewrite lookup_empty, Z.add_0_l.
  rewrite <-(take_drop_middle _ _ _ Hi) in Hs, Hok, Hnd.
  rewrite <-(take_drop_middle _ _ _ Hi) at 2. do 2 f_equal.
  apply StronglySorted_app in Hs as (Hpre & _ & [Hpost _]%StronglySorted_cons).
  rewrite Forall_forall in Hpost, Hok.
  rewrite fmap_app, fmap_cons in Hnd. apply NoDup_app in Hnd as (_ & Hnd & _).
  assert (Hidx : ∀ x y, x ∈ take i ms ++ m :: drop (S i) ms →
    y ∈ take i ms ++ m :: drop (S i) ms → cmp_le vpuCompare x y →
    vm_block x = vm_block y → (vm_index x ≤ vm_index y)%Z).
  { intros x y Hx Hy. rewrite vpuCompare_le by auto. naive_solver. }
  apply filter_head_part.
  - intros x Hx. split; [|by intros [??]]. intros Hb. split; [done|].
    assert (vm_index x ≤ vm_index m)%Z.
    { apply Hidx; [set_solver..| |done]. apply Hpre; set_solver. }
    assert (vm_index x ≠ vm_index m); [|lia].
    intros Heq. apply (Hnd (vm_index x)); [by apply list_elem_of_fmap_2|rewrite Heq; by left].
  - intros x Hx [Hb Hlt]. apply elem_of_cons in Hx as [->|Hx]; [lia|].
    assert (vm_index m ≤ vm_index x)%Z; [|lia].
    apply Hidx; [set_solver..|by apply Hpost|done].
Qed.

Lemma smaller_perm b i ms ms' : ms ≡ₚ ms' → length (smaller b i ms) = length (smaller b i ms').
Proof. intros Hp. unfold smaller. by rewrite Hp. Qed.

Lemma matches_index_ok nodes :
  Forall index_ok nodes → Forall (λ m, index_ok (vm_node m)) (vpuMatches nodes).
Proof.
  rewrite !Forall_forall. intros Hok m [Hm _]%vpuMatches_elem. by apply Hok.
Qed.

Section order.
Context `{GoSort}.

(** The published VPU devices, without reference to any order: a match is
    numbered by how many matches of its block have a smaller index. *)
Lemma discoverVPU_elem r cfg soc d :
  NoDup (v4l_Index <$> discoverV4L (r_probe r) cfg) → Forall index_ok (discoverV4L (r_probe r) cfg) →
  d ∈ discoverVPU r cfg soc ↔
  ∃ n b f, n ∈ discoverV4L (r_probe r) cfg ∧ classifyVPU n = Some (b, f) ∧
    d = vpuDevice (r_gid r) soc (maxAllocOr (VPUMaxAllocations cfg) DefaultVPUMaxAllocations)
          (mkMatch n b f)
          (Z.of_nat (length (smaller b (v4l_Index n) (vpuMatches (discoverV4L (r_probe r) cfg))))).
Proof.
  intros Hnd Hok. pose proof (matches_index_ok _ Hok) as Hokm.
  set (ma := maxAllocOr _ _). unfold discoverVPU. fold (sortedMatches r cfg). fold ma.
  assert (Hperm : sortedMatches r cfg ≡ₚ vpuMatches (discoverV4L (r_probe r) cfg)) by apply SortFunc_perm.
  assert (Hrank : ∀ i m, sortedMatches r cfg !! i = Some m →
    vpuRank ∅ (sortedMatches r cfg) i (vm_block m) =
    Z.of_nat (length (smaller (vm_block m) (vm_index m) (vpuMatches (discoverV4L (r_probe r) cfg))))).
  { intros i m Hi. rewrite (vpuRank_smaller _ _ m); [|..|done].
    - f_equal. by apply smaller_perm.
    - by apply SortFunc_sorted, vpuCompare_order.
    - by rewrite Hperm.
    - rewrite Hperm. by apply vpuMatches_index_NoDup. }
  rewrite list_elem_of_lookup. setoid_rewrite vpuDevices_lookup. split.
  - intros [i Hi]. destruct (sortedMatches r cfg !! i) as [m|] eqn:Hm; [|done].
    simplify_eq/=. rewrite (Hrank _ _ Hm).
    pose proof (list_elem_of_lookup_2 _ _ _ Hm) as [Hn Hc]%sortedMatches_elem.
    exists (vm_node m), (vm_block m), (vm_function m). split_and!; [done..|]. by destruct m.
  - intros (n & b & f & Hn & Hc & ->).
    assert (mkMatch n b f ∈ sortedMatches r cfg) as [i Hi]%list_elem_of_lookup
      by by apply sortedMatches_elem.
    exists i. rewrite Hi. simpl. do 2 f_equal. by apply (Hrank i (mkMatch n b f)).
Qed.

End order.

(** Two scans that list the same video nodes, each index once and in range. *)
Definition same_nodes (cfg : Config) (fs fs' : FS) : Prop :=
  discoverV4L fs cfg ≡ₚ discoverV4L fs' cfg ∧ NoDup (v4l_Index <$> discoverV4L fs cfg) ∧
  Forall index_ok (discoverV4L fs cfg).

#[export] Instance same_nodes_dec cfg fs fs' : Decision (same_nodes cfg fs fs').
Proof. unfold same_nodes. apply _. Defined.

(** Two sorted lists of the same nodes are equal, whatever the sort. *)
Lemma sortedMatches_unique (S1 S2 : GoSort) nodes nodes' :
  nodes ≡ₚ nodes' → NoDup (v4l_Index <$> nodes) → Forall index_ok nodes →
  SortFunc (GoSort := S1) vpuCompare (vpuMatches nodes) =
  SortFunc (GoSort := S2) vpuCompare (vpuMatches nodes').
Proof.
  intros Hp Hnd Hok. apply SortFunc_unique.
  - unfold vpuMatches. by rewrite Hp.
  - by apply vpuCompare_order, matches_index_ok.
  - intros a b Ha Hb Hab Hba.
    destruct (vpuCompare_anti (vpuMatches nodes) a b) as [_ Hidx];
      [by apply matches_index_ok|done..|].
    apply (NoDup_fmap_elem vm_index (vpuMatches nodes)); [|done..].
    by apply vpuMatches_index_NoDup.
Qed.

Lemma rgaNodes_unique (S1 S2 : GoSort) nodes nodes' :
  nodes ≡ₚ nodes' → NoDup (v4l_Index <$> nodes) → Forall index_ok nodes →
  SortFunc (GoSort := S1) rgaCompare (rgaNodes nodes) =
  SortFunc (GoSort := S2) rgaCompare (rgaNodes nodes').
Proof.
  intros Hp Hnd Hok.
  assert (Hok' : Forall index_ok (rgaNodes nodes)).
  { rewrite Forall_forall in Hok |- *. intros n [_ Hn]%list_elem_of_filter. by apply Hok. }
  apply SortFunc_unique.
  - unfold rgaNodes. by rewrite Hp.
  - by apply rgaCompare_order.
  - intros a b Ha Hb. rewrite Forall_forall in Hok'. rewrite !rgaCompare_le by auto. intros ??.
    apply list_elem_of_filter in Ha as [_ Ha], Hb as [_ Hb].
    apply (NoDup_fmap_elem v4l_Index nodes); [done..|lia].
Qed.

(** Only enabled types are enumerated, with their share override. *)
Lemma Enumerate_selected `{GoSort} r cfg d :
  d ∈ Enumerate r cfg →
  enabledOf (defaultConfig cfg) (DType d) = true ∧
  ((0 < overrideOf cfg (DType d))%Z → MaxAllocations d = overrideOf cfg (DType d)).
Proof.
  intros Hd.
  change (overrideOf cfg) with (overrideOf (defaultConfig cfg)).
  destruct (Mock cfg) eqn:Hm.
  - unfold Enumerate in Hd. change (Mock (defaultConfig cfg)) with (Mock cfg) in Hd.
    rewrite Hm in Hd. unfold mockDevices in Hd. rewrite !elem_of_app in Hd.
    destruct_or! Hd; case_match; try (by apply elem_of_nil in Hd);
      apply list_elem_of_singleton in Hd as ->; (split; [done|]);
      simpl; apply maxAllocOr_override.
  - rewrite Enumerate_types in Hd by done. apply list_elem_of_In, in_concat in Hd.
    destruct Hd as (l & Hl%list_elem_of_In & Hd%list_elem_of_In).
    apply list_elem_of_fmap in Hl as (t & -> & Ht). case_match eqn:He; [|by apply elem_of_nil in Hd].
    destruct (discoverType_spec r (defaultConfig cfg)
      (detectSoC (r_probe r) (SysfsRoot (defaultConfig cfg))) t Ht) as [Hty _].
    rewrite Forall_forall in Hty. by destruct (Hty _ Hd) as [-> Hmax].
Qed.
