(* ===== verification/DeviceNodes.v ===== *)
(** [internal/discovery]: which device nodes an enumeration hands out.  A node
    under /dev is what a container gets for a device, so two devices must not have
    the same one. *)

From stdpp Require Import options.
From S2P Require Import Prelude GoStrings GoPath GoSort Consts Types.
From S2P Require Import Sysfs Accel Video Enumerate.

(** A listing has one entry per name, and a name is one path element. *)
Definition listings_ok (fs : FS) : Prop :=
  ∀ dir entries, ReadDir fs dir = Some entries → NoDup entries ∧ Forall simple entries.

Lemma table_listings files dirs links nodes :
  Forall (λ p : string * list string, NoDup p.2 ∧ Forall simple p.2) dirs →
  listings_ok (table_fs files dirs links nodes).
Proof.
  rewrite Forall_forall. intros Hdirs dir entries Hdir.
  apply (Hdirs (dir, entries)). by apply (elem_of_list_to_map_2 (M := gmap string)).
Qed.

(** Nothing moved between the two scans of the video nodes. *)
Definition video_steady (cfg : Config) (r : Reading) : Prop :=
  discoverV4L (r_rga r) cfg ≡ₚ discoverV4L (r_probe r) cfg.

Lemma still_steady cfg fs : video_steady cfg (still fs).
Proof. unfold video_steady. reflexivity. Qed.

(** The file name of a device's node starts with [p]. *)
Definition node_prefix (p : string) (path : string) : Prop := ∃ s, Base path = p +:+ s.

Lemma node_prefix_intro p path n :
  Base path = n → HasPrefix n p = true → node_prefix p path.
Proof. intros <- [s Hs]%HasPrefix_spec. by exists s. Qed.

Lemma node_prefix_ne p q x y :
  node_prefix p x → node_prefix q y → (∀ s t, p +:+ s ≠ q +:+ t) → x ≠ y.
Proof. intros [s Hs] [t Ht] Hne ->. apply (Hne s t). congruence. Qed.

(** ** DRM nodes *)

Lemma accelDevNode_Base fs cfg name :
  simple name → Base (accelDevNode fs cfg name) = name.
Proof.
  intros Hn. unfold accelDevNode. case_match; [|by apply Base_Join].
  by apply (Base_Join_snoc [_; _]).
Qed.

Lemma rocketAccelLoop_prefix r cfg dir entries fallback :
  Forall simple entries → fallback = "" ∨ node_prefix "accel" fallback →
  node_prefix "accel" (rocketAccelLoop r cfg dir entries fallback).
Proof.
  intros Hs. revert fallback. induction Hs as [|e es He Hes IH]; intros fallback Hf; cbn.
  - case_bool_decide; [by exists "0"|naive_solver].
  - destruct (HasPrefix e "accel") eqn:Hp; cbn; [|by apply IH].
    assert (node_prefix "accel" (accelDevNode (r_probe r) cfg e)).
    { by eapply node_prefix_intro; [apply accelDevNode_Base|]. }
    case_match; [done|]. apply IH. case_bool_decide; naive_solver.
Qed.

Lemma rocketAccelNode_prefix r cfg :
  listings_ok (r_probe r) → node_prefix "accel" (rocketAccelNode r cfg).
Proof.
  intros Hl. unfold rocketAccelNode. destruct (ReadDir _ _) as [es|] eqn:He; [|by exists "0"].
  apply rocketAccelLoop_prefix; [by eapply Hl|by left].
Qed.

Lemma panthorNode_prefix fs cfg dir entries :
  Forall simple entries →
  panthorNode fs cfg dir entries = "" ∨ node_prefix "renderD" (panthorNode fs cfg dir entries).
Proof.
  induction 1 as [|e es He Hes IH]; cbn [panthorNode]; [by left|].
  destruct (HasPrefix e "renderD") eqn:Hp; cbn [negb]; [|done].
  cbv zeta. destruct (bool_decide (_ ≠ KMDPanthor)); [done|]. right.
  eapply node_prefix_intro; [|exact Hp].
  destruct (exists_ fs _); [by apply (Base_Join_snoc [_; _])|by apply Base_Join].
Qed.

Lemma applyNodeGID_DeviceNode fs d : DeviceNode (applyNodeGID fs d) = DeviceNode d.
Proof. unfold applyNodeGID. by repeat case_match. Qed.

Lemma discoverNPU_prefix r cfg soc d :
  listings_ok (r_probe r) → d ∈ discoverNPU r cfg soc → node_prefix "accel" (DeviceNode d).
Proof.
  intros Hl. unfold discoverNPU. case_match; [by intros ?%elem_of_nil|].
  intros ->%list_elem_of_singleton. rewrite applyNodeGID_DeviceNode. by apply rocketAccelNode_prefix.
Qed.

Lemma discoverGPU_prefix r cfg soc d :
  listings_ok (r_probe r) → d ∈ discoverGPU r cfg soc → node_prefix "renderD" (DeviceNode d).
Proof.
  intros Hl. unfold discoverGPU. destruct (ReadDir _ _) as [es|] eqn:He; [|by intros ?%elem_of_nil].
  case_bool_decide as Hne; [by intros ?%elem_of_nil|]. destruct (gpuModelForSoC soc).
  intros ->%list_elem_of_singleton. rewrite applyNodeGID_DeviceNode. cbn.
  apply Hl in He as [_ He]. by destruct (panthorNode_prefix (r_probe r) cfg
    (Join [SysfsRoot cfg; "class"; "drm"]) es He).
Qed.

(** ** Video nodes *)

Lemma v4lEntry_Base fs cfg dir name n :
  simple name → v4lEntry fs cfg dir name = Some n → Base (v4l_DeviceNode n) = name.
Proof.
  intros Hs. unfold v4lEntry. destruct (videoIndex name); [|done]. intros ?; simplify_eq/=.
  case_match; by apply Base_Join.
Qed.

Lemma v4lEntry_prefix fs cfg dir name n :
  simple name → v4lEntry fs cfg dir name = Some n → node_prefix "video" (v4l_DeviceNode n).
Proof.
  intros Hs Hn. eapply node_prefix_intro; [by eapply v4lEntry_Base|].
  unfold v4lEntry, videoIndex in Hn. unfold HasPrefix. by destruct (CutPrefix "video" name).
Qed.

Lemma discoverV4L_nodes fs cfg :
  listings_ok fs →
  NoDup (v4l_DeviceNode <$> discoverV4L fs cfg) ∧
  ∀ n, n ∈ discoverV4L fs cfg → node_prefix "video" (v4l_DeviceNode n).
Proof.
  intros Hl. unfold discoverV4L. set (dir := Join _).
  destruct (ReadDir fs dir) as [es|] eqn:He; [|split; [apply NoDup_nil_2|by intros n ?%elem_of_nil]].
  apply Hl in He as [Hnd Hs]. rewrite Forall_forall in Hs. split.
  - induction Hnd as [|e es He Hnd IH]; [apply NoDup_nil_2|]. simpl.
    destruct (v4lEntry fs cfg dir e) as [n|] eqn:Hn; [|apply IH; set_solver].
    simpl. constructor; [|apply IH; set_solver].
    intros (n' & Heq & (e' & He' & Hn')%list_elem_of_omap)%list_elem_of_fmap.
    apply (f_equal Base) in Heq.
    rewrite (v4lEntry_Base _ _ _ e n), (v4lEntry_Base _ _ _ e' n') in Heq by set_solver.
    congruence.
  - intros n (e & He & Hn)%list_elem_of_omap. by eapply v4lEntry_prefix; [apply Hs|].
Qed.

Lemma vpuDevices_nodes fs soc ma counts ms :
  DeviceNode <$> vpuDevices fs soc ma counts ms = v4l_DeviceNode <$> (vm_node <$> ms).
Proof.
  revert counts. induction ms as [|m ms IH]; intros counts; [done|].
  cbn. rewrite IH. unfold vpuDevice. by rewrite applyNodeGID_DeviceNode.
Qed.

Lemma rgaDevices_nodes fs soc ma ns :
  DeviceNode <$> imap (rgaDevice fs soc ma) ns = v4l_DeviceNode <$> ns.
Proof.
  rewrite fmap_imap. apply list_eq. intros i. rewrite list_lookup_imap, list_lookup_fmap.
  destruct (ns !! i); [|done]. cbn. unfold rgaDevice. by rewrite applyNodeGID_DeviceNode.
Qed.

Lemma vpuMatches_sublist nodes : (vm_node <$> vpuMatches nodes) `sublist_of` nodes.
Proof.
  unfold vpuMatches. induction nodes as [|n nodes IH]; [constructor|]. simpl.
  destruct (classifyVPU n) as [[b f]|]; simpl; by constructor.
Qed.

(** A video node is not both a VPU and an RGA. *)
Lemma video_nodes_NoDup nodes :
  NoDup (v4l_DeviceNode <$> nodes) →
  NoDup (v4l_DeviceNode <$> (vm_node <$> vpuMatches nodes) ++ rgaNodes nodes).
Proof.
  intros Hnd. apply NoDup_app_fmap.
  - eapply sublist_NoDup; [exact Hnd|]. apply fmap_sublist, vpuMatches_sublist.
  - eapply sublist_NoDup; [exact Hnd|]. apply fmap_sublist, sublist_filter.
  - intros n n' (m & -> & [Hm Hc]%vpuMatches_elem)%list_elem_of_fmap [Hd Hn']%list_elem_of_filter Heq.
    assert (vm_node m = n') as <- by by eapply NoDup_fmap_elem.
    apply classifyVPU_block in Hc as (_ & _ & Hk). rewrite Hk in Hd. by case_bool_decide.
Qed.

Section nodes.
Context `{GoSort}.

Lemma discovered_video_nodes r cfg soc :
  listings_ok (r_probe r) → video_steady cfg r →
  NoDup (DeviceNode <$> discoverVPU r cfg soc ++ discoverRGA r cfg soc) ∧
  ∀ d, d ∈ discoverVPU r cfg soc ++ discoverRGA r cfg soc → node_prefix "video" (DeviceNode d).
Proof.
  intros Hl Hsteady. destruct (discoverV4L_nodes _ cfg Hl) as [Hnd Hpre].
  set (ns := discoverV4L (r_probe r) cfg) in *.
  assert (Hperm : DeviceNode <$> discoverVPU r cfg soc ++ discoverRGA r cfg soc ≡ₚ
    v4l_DeviceNode <$> (vm_node <$> vpuMatches ns) ++ rgaNodes ns).
  { unfold discoverVPU, discoverRGA. rewrite !fmap_app, vpuDevices_nodes, rgaDevices_nodes.
    rewrite !SortFunc_perm. unfold rgaNodes. by rewrite Hsteady. }
  split; [rewrite Hperm; by apply video_nodes_NoDup|].
  intros d Hd. apply (list_elem_of_fmap_2 DeviceNode) in Hd. rewrite Hperm in Hd.
  apply list_elem_of_fmap in Hd as (n & -> & Hn). apply Hpre. apply elem_of_app in Hn as [Hn|Hn].
  - eapply elem_of_submseteq; [exact Hn|]. apply sublist_submseteq, vpuMatches_sublist.
  - by apply list_elem_of_filter in Hn as [_ Hn].
Qed.

Lemma mockDevices_nodes cfg : NoDup (DeviceNode <$> mockDevices cfg).
Proof.
  unfold mockDevices. destruct (NPUEnabled cfg), (GPUEnabled cfg), (VPUEnabled cfg), (RGAEnabled cfg);
    simpl; by_compute.
Qed.

Lemma singleton_nodes (l : list Device) : length l ≤ 1 → NoDup (DeviceNode <$> l).
Proof.
  destruct l as [|d [|]]; simpl; intros Hlen; [apply NoDup_nil_2|apply NoDup_singleton|lia].
Qed.

Lemma discoverNPU_length r cfg soc : length (discoverNPU r cfg soc) ≤ 1.
Proof. unfold discoverNPU. case_match; simpl; lia. Qed.

Lemma discoverGPU_length r cfg soc : length (discoverGPU r cfg soc) ≤ 1.
Proof. unfold discoverGPU. repeat case_match; simpl; lia. Qed.

Lemma discovered_nodes r cfg soc :
  listings_ok (r_probe r) → video_steady cfg r →
  NoDup (DeviceNode <$> discoverNPU r cfg soc ++ discoverGPU r cfg soc ++
         discoverVPU r cfg soc ++ discoverRGA r cfg soc).
Proof.
  intros Hl Hsteady. destruct (discovered_video_nodes r cfg soc Hl Hsteady) as [Hnd Hvideo].
  apply NoDup_app_fmap; [apply singleton_nodes, discoverNPU_length|apply NoDup_app_fmap|].
  - apply singleton_nodes, discoverGPU_length.
  - done.
  - intros x y Hx%discoverGPU_prefix Hy%Hvideo; [|done]. by eapply node_prefix_ne; [exact Hx|exact Hy|].
  - intros x y Hx%discoverNPU_prefix [Hy%discoverGPU_prefix|Hy%Hvideo]%elem_of_app; try done;
      by eapply node_prefix_ne; [exact Hx|exact Hy|].
Qed.

Lemma Enumerate_nodes r cfg :
  listings_ok (r_probe r) → video_steady (defaultConfig cfg) r →
  NoDup (DeviceNode <$> Enumerate r cfg).
Proof.
  intros Hl Hsteady. unfold Enumerate. case_match; [apply mockDevices_nodes|].
  eapply sublist_NoDup; [by apply discovered_nodes|]. apply fmap_sublist.
  repeat apply sublist_app; case_match; first [reflexivity|apply sublist_nil_l].
Qed.

End nodes.
