(* ===== verification/DiscoveryProps.v ===== *)
(** Properties of discovery ([internal/discovery]): what [Enumerate] returns on
    every file system, also one that changes meanwhile, and that the names it
    gives, and the nodes it hands out, are not the same twice and do not depend on
    the order in which sysfs lists the nodes or on the sorting algorithm. *)

From Stdlib Require Import Ascii ZArith.
From stdpp Require Import options.
From S2P Require Import Prelude GoStrings GoPath GoSort Consts Types.
From S2P Require Import Sysfs Accel Video Enumerate DeviceNodes.

(** ** An RK3588 fixture, after the repository's tests *)

Definition nul_str : string := String nul "".
Definition nl_str : string := String newline "".

(** The files of one video4linux class entry. *)
Definition v4lFiles (v driver card compat : string) : list (string * string) :=
  let class := "/sys/class/video4linux/" +:+ v in
  [(class +:+ "/uevent", "DEVNAME=" +:+ v +:+ nl_str);
   (class +:+ "/name", card +:+ nl_str);
   (class +:+ "/device/uevent", "DRIVER=" +:+ driver +:+ nl_str);
   (class +:+ "/device/of_node/compatible", compat +:+ nul_str)].

Definition rk3588Files : list (string * string) :=
  ("/sys/firmware/devicetree/base/compatible", "rockchip,rk3588" +:+ nul_str) ::
  ("/sys/class/accel/accel0/uevent", "DEVNAME=accel/accel0" +:+ nl_str) ::
  ("/sys/class/accel/accel1/uevent", "DEVNAME=accel/accel1" +:+ nl_str) ::
  ("/sys/class/accel/accel1/device/uevent", "MODALIAS=platform:rknn" +:+ nl_str) ::
  ("/sys/class/drm/renderD129/device/uevent", "OF=x" +:+ nl_str +:+ "DRIVER=panthor") ::
  v4lFiles "video9" "rkvdec" "rkvdec" "rockchip,rk3588-vdec" ++
  v4lFiles "video1" "hantro-vpu" "hantro-vpu" "rockchip,rk3588-vpu121" ++
  v4lFiles "video7" "hantro-vpu" "hantro-vpu" "rockchip,rk3588-vpu121" ++
  v4lFiles "video0" "rockchip-rga" "rockchip-rga" "rockchip,rk3588-rga".

Definition videos : list string := ["video0"; "video1"; "video7"; "video9"].

Definition rk3588FS (videos : list string) : FS :=
  table_fs rk3588Files
    [("/sys/bus/platform/drivers/rocket", ["bind"; "fdab0000.npu"; "fdac0000.npu"; "module"]);
     ("/sys/class/accel", ["accel0"; "accel1"]);
     ("/sys/class/drm", ["card0"; "renderD128"; "renderD129"]);
     ("/sys/class/video4linux", videos)] []
    [("/dev/video7", mkFileInfo false (Some 44%Z))].

Definition rk3588Cfg : Config := mkConfig "" "" false false false false false 0 0 0 0.

(** ** Properties *)

(** C22: whatever sysfs holds, and however it changes during the enumeration, the
    devices [Enumerate] returns have pairwise distinct names, so a name
    identifies one device in [foundByName], in the tracked set and in the
    published ResourceSlice.  When a directory lists each entry once and the video
    nodes stay what they are between the scan for VPUs and the scan for RGAs,
    no two devices have the same node under /dev either: what one claim is given
    is not given to another. *)
Theorem Enumerate_distinct `{GoSort} r cfg :
  NoDup (Name <$> Enumerate r cfg) ∧
  (listings_ok (r_probe r) → video_steady (defaultConfig cfg) r →
   NoDup (DeviceNode <$> Enumerate r cfg)).
Proof. split; [apply Enumerate_NoDup|apply Enumerate_nodes]. Qed.

Lemma Enumerate_distinct_witness :
  let found := Enumerate (H := insertion_sort) (still (rk3588FS videos)) rk3588Cfg in
  NoDup (DeviceNode <$> found) ∧
  DeviceNode <$> found = ["/dev/accel/accel1"; "/dev/dri/renderD129"; "/dev/video1";
    "/dev/video7"; "/dev/video9"; "/dev/video0"].
Proof.
  intros found. split; [|vm_compute; reflexivity].
  apply (proj2 (Enumerate_distinct (H := insertion_sort) (still (rk3588FS videos)) rk3588Cfg)).
  - apply table_listings. by_compute.
  - apply still_steady.
Defined.

(** The steadiness is needed: when another driver takes video1 between the two
    scans, its node is handed out as a VPU and as an RGA. *)
Example moved_node_twice :
  let moved := table_fs (v4lFiles "video1" "rockchip-rga" "rockchip-rga" "rockchip,rk3588-rga")
    [("/sys/class/video4linux", ["video1"])] [] [] in
  let r := mkReading (rk3588FS videos) moved moved moved moved in
  let nodes := DeviceNode <$> Enumerate (H := insertion_sort) r rk3588Cfg in
  length (filter (λ n, n = "/dev/video1") nodes) = 2.
Proof. vm_compute. reflexivity. Qed.

(** C36: every enumerated device is well formed: it has one of the four
    shapes (name, type, kernel driver, block and function agree), a non-empty
    device node, at least one share, and gid 0 when its gid is unknown.  Its class
    is enabled in the effective configuration, and a positive share override of
    that class is its share count. *)
Theorem Enumerate_sound `{GoSort} r cfg d :
  d ∈ Enumerate r cfg →
  device_wf d ∧ enabledOf (defaultConfig cfg) (DType d) = true ∧
  ((0 < overrideOf cfg (DType d))%Z → MaxAllocations d = overrideOf cfg (DType d)).
Proof.
  intros Hd. pose proof (Enumerate_wf_all r cfg) as Hwf. rewrite Forall_forall in Hwf.
  split; [by apply Hwf|by eapply Enumerate_selected].
Qed.

Lemma Enumerate_sound_witness :
  device_wf (nth 1 (Enumerate (H := insertion_sort) (still (rk3588FS videos)) rk3588Cfg)
    (nth 0 (mockDevices rk3588Cfg) (mkDevice "" "" "" "" "" "" 0 0 "" 0 "" "" 0 false))).
Proof.
  refine (proj1 (Enumerate_sound (H := insertion_sort) (still (rk3588FS videos)) rk3588Cfg _ _)).
  vm_compute. right. left.
Defined.

(** C37: the VPU devices are exactly one per classified video4linux node, and
    the number in a device's name is the count of nodes of the same block with a
    smaller video index; neither the directory order nor the sort shows. *)
Theorem discoverVPU_numbering `{GoSort} r cfg soc d :
  NoDup (v4l_Index <$> discoverV4L (r_probe r) cfg) → Forall index_ok (discoverV4L (r_probe r) cfg) →
  d ∈ discoverVPU r cfg soc ↔
  ∃ n b f, n ∈ discoverV4L (r_probe r) cfg ∧ classifyVPU n = Some (b, f) ∧
    d = vpuDevice (r_gid r) soc (maxAllocOr (VPUMaxAllocations cfg) DefaultVPUMaxAllocations)
          (mkMatch n b f)
          (Z.of_nat (length (smaller b (v4l_Index n) (vpuMatches (discoverV4L (r_probe r) cfg))))).
Proof. apply discoverVPU_elem. Qed.

Lemma discoverVPU_numbering_witness :
  let r := still (rk3588FS videos) in
  let cfg := defaultConfig rk3588Cfg in
  NoDup (v4l_Index <$> discoverV4L (r_probe r) cfg) ∧ Forall index_ok (discoverV4L (r_probe r) cfg) ∧
  ∃ d, d ∈ discoverVPU (H := insertion_sort) r cfg "rk3588" ∧
       Name d = "vpu-hantro-dec-1" ∧ DeviceNode d = "/dev/video7".
Proof.
  intros r cfg.
  assert (Hnd : NoDup (v4l_Index <$> discoverV4L (r_probe r) cfg)).
  { by_compute. }
  assert (Hok : Forall index_ok (discoverV4L (r_probe r) cfg)).
  { by_compute. }
  split; [exact Hnd|]. split; [exact Hok|].
  eexists. split.
  - apply (proj2 (discoverVPU_numbering (H := insertion_sort) r cfg "rk3588" _ Hnd Hok)).
    exists (mkV4l 7 "hantro-vpu" "hantro-vpu" "rockchip,rk3588-vpu121" "/dev/video7"),
      BlockHantroDec, FunctionDecode.
    split; [|split; [vm_compute; reflexivity|reflexivity]].
    vm_compute. right. right. left.
  - vm_compute. split; reflexivity.
Defined.

(** C38: the VPU and RGA devices do not depend on the order in which the
    video4linux directory is listed, nor on which correct sort
    [slices.SortFunc] is; each depends only on its own scan of the directory. *)
Theorem discovery_order_irrelevant (S1 S2 : GoSort) r1 r2 cfg soc :
  (same_nodes cfg (r_probe r1) (r_probe r2) → same_stats (r_gid r1) (r_gid r2) →
   discoverVPU (H := S1) r1 cfg soc = discoverVPU (H := S2) r2 cfg soc) ∧
  (same_nodes cfg (r_rga r1) (r_rga r2) → same_stats (r_rgaGID r1) (r_rgaGID r2) →
   discoverRGA (H := S1) r1 cfg soc = discoverRGA (H := S2) r2 cfg soc).
Proof.
  split; intros (Hp & Hnd & Hok) Hstat.
  - unfold discoverVPU. rewrite (sortedMatches_unique S1 S2 _ _ Hp Hnd Hok).
    apply list_eq. intros i. rewrite !vpuDevices_lookup. unfold vpuDevice.
    destruct (_ !! i); [|done]. simpl. by rewrite (applyNodeGID_same _ _ _ Hstat).
  - unfold discoverRGA. rewrite (rgaNodes_unique S1 S2 _ _ Hp Hnd Hok).
    apply imap_ext. intros i n _. by apply applyNodeGID_same.
Qed.

Lemma discovery_order_irrelevant_witness :
  let r1 := still (rk3588FS videos) in
  let r2 := mkReading (rk3588FS (rev videos)) (rk3588FS []) (rk3588FS [])
              (rk3588FS (rev videos)) (rk3588FS []) in
  let cfg := defaultConfig rk3588Cfg in
  discoverVPU (H := insertion_sort) r1 cfg "rk3588" =
    discoverVPU (H := insertion_sort) r2 cfg "rk3588" ∧
  discoverRGA (H := insertion_sort) r1 cfg "rk3588" =
    discoverRGA (H := insertion_sort) r2 cfg "rk3588".
Proof.
  intros r1 r2 cfg.
  assert (Hsame : same_nodes cfg (rk3588FS videos) (rk3588FS (rev videos))) by by_compute.
  destruct (discovery_order_irrelevant insertion_sort insertion_sort r1 r2 cfg "rk3588") as [Hv Hr].
  split; [apply Hv|apply Hr]; first [exact Hsame|intros p; reflexivity].
Defined.

(** The search loops of the DRM devices choose what they mean to: the NPU
    node is the first accel entry of the rocket driver, else the first accel
    entry, else accel0; the GPU is the first render node whose class or device
    uevent names panthor. *)
Theorem drm_node_selection r fs cfg :
  (rocketAccelNode r cfg =
     match ReadDir (r_probe r) (Join [SysfsRoot cfg; "class"; "accel"]) with
     | None => "/dev/accel/accel0"
     | Some entries => rocketChoice r cfg entries
     end) ∧
  (∀ entries, panthorNode fs cfg (Join [SysfsRoot cfg; "class"; "drm"]) entries =
     match panthorChoice fs cfg entries with
     | Some e =>
         if exists_ fs (Join [DevRoot cfg; "dri"; e]) then Join [DevRoot cfg; "dri"; e]
         else Join ["/dev/dri"; e]
     | None => ""
     end).
Proof.
  split; [|apply panthorNode_spec].
  unfold rocketAccelNode, rocketChoice. case_match; [|done].
  rewrite rocketAccelLoop_spec. simpl. by destruct (filter _ (filter _ _)).
Qed.

(** A uevent file is read as its first [key=value] line: the value is
    that line's, trimmed, and empty when no line has the key. *)
Theorem ueventValue_first_line fs path key data :
  no_byte "=" key = true → ReadFile fs (Join [path; "uevent"]) = Some data →
  (ueventValue fs path key = "" ∧ ∀ l, l ∈ Split newline data → ¬ keyLine key l) ∨
  (∃ pre val post, Split newline data = pre ++ (key +:+ String "=" val) :: post ∧
     (∀ l, l ∈ pre → ¬ keyLine key l) ∧ ueventValue fs path key = TrimSpace val).
Proof. intros Hkey Hdata. unfold ueventValue. rewrite Hdata. by apply ueventLines_spec. Qed.

Lemma ueventValue_first_line_witness :
  let fs := rk3588FS videos in
  let path := "/sys/class/drm/renderD129/device" in
  ueventValue fs path "DRIVER" = "panthor" ∧
  ((ueventValue fs path "DRIVER" = "" ∧
     ∀ l, l ∈ Split newline ("OF=x" +:+ nl_str +:+ "DRIVER=panthor") → ¬ keyLine "DRIVER" l) ∨
   (∃ pre val post,
     Split newline ("OF=x" +:+ nl_str +:+ "DRIVER=panthor") =
       pre ++ ("DRIVER" +:+ String "=" val) :: post ∧
     (∀ l, l ∈ pre → ¬ keyLine "DRIVER" l) ∧ ueventValue fs path "DRIVER" = TrimSpace val)).
Proof.
  intros fs path. split; [vm_compute; reflexivity|].
  apply (ueventValue_first_line fs path "DRIVER").
  - reflexivity.
  - vm_compute. reflexivity.
Defined.
