(* ===== verification/Json.v ===== *)
(** Go's [encoding/json] as the driver uses it: [MarshalIndent] with the
    two-space indent of [state.go], and [Unmarshal] into the driver's types.

    A document is first a [json] tree.  Numbers keep their text, as Go's decoder
    does until it knows the field's type.  [print] is the indented text of a
    tree, [parse] the reader of any JSON text.  String literals follow Go: the
    writer escapes the HTML characters, U+2028 and U+2029 and replaces a byte that
    is not UTF-8 by U+FFFD; the reader replaces such bytes and lone surrogates by
    U+FFFD.  The reader's fuel is the length of the text, and one more than the
    json_size of a printed tree is enough ([parse_print]).  Go's nesting limit of
    10000 is not modelled: the driver's documents are four levels deep. *)

From Stdlib Require Import Ascii ZArith.
From stdpp Require Import options.
From S2P Require Import Prelude GoStrings.

#[warning="-register-all"]
Inductive json : Type :=
  | JNull
  | JBool (b : bool)
  | JNum (text : string)
  | JStr (s : string)
  | JArr (l : list json)
  | JObj (l : list (string * json)).

(** ** UTF-8 *)

Definition byte_in (lo hi : N) (c : ascii) : bool :=
  (lo <=? N_of_ascii c)%N && (N_of_ascii c <=? hi)%N.

Definition cont (c : ascii) : bool := byte_in 128 191 c.

Definition is2 (a b : ascii) : bool := byte_in 194 223 a && cont b.

Definition is3 (a b c : ascii) : bool :=
  cont c &&
  (byte_in 224 224 a && byte_in 160 191 b ||
   byte_in 237 237 a && byte_in 128 159 b ||
   (byte_in 225 236 a || byte_in 238 239 a) && cont b).

Definition is4 (a b c d : ascii) : bool :=
  cont c && cont d &&
  (byte_in 240 240 a && byte_in 144 191 b ||
   byte_in 241 243 a && cont b ||
   byte_in 244 244 a && byte_in 128 143 b).

(** The length of the valid encoding [s] starts with; 0 when there is none. *)
Definition rune_len (s : string) : nat :=
  match s with
  | EmptyString => 0
  | String a s1 =>
      if byte_in 0 127 a then 1
      else match s1 with
      | EmptyString => 0
      | String b s2 =>
          if is2 a b then 2
          else match s2 with
          | EmptyString => 0
          | String c s3 =>
              if is3 a b c then 3
              else match s3 with
              | EmptyString => 0
              | String d _ => if is4 a b c d then 4 else 0
              end
          end
      end
  end.

(** U+FFFD. *)
Definition replacement : string := bytes [239; 191; 189]%N.

(** [strings.ToValidUTF8(s, "\uFFFD")], byte by byte. *)
Fixpoint ToValid (s : string) : string :=
  match rune_len s, s with
  | 1, String a r => String a (ToValid r)
  | 2, String a (String b r) => String a (String b (ToValid r))
  | 3, String a (String b (String c r)) => String a (String b (String c (ToValid r)))
  | 4, String a (String b (String c (String d r))) =>
      String a (String b (String c (String d (ToValid r))))
  | _, String _ r => replacement +:+ ToValid r
  | _, EmptyString => ""
  end.

Definition valid_utf8 (s : string) : bool := bool_decide (ToValid s = s).

(** ** String literals *)

Definition hex_digit (n : N) : ascii :=
  ascii_of_N (if (n <? 10)%N then 48 + n else 87 + n).

Definition backslash : ascii := "\".
Definition quote_char : ascii := ascii_of_N 34.

(** The escape of an ASCII byte. *)
Definition esc (c : ascii) : string :=
  let n := N_of_ascii c in
  if (n =? 34)%N || (n =? 92)%N then String backslash (String c "")
  else if (n =? 8)%N then "\b"
  else if (n =? 12)%N then "\f"
  else if (n =? 10)%N then "\n"
  else if (n =? 13)%N then "\r"
  else if (n =? 9)%N then "\t"
  else if (n <? 32)%N || (n =? 60)%N || (n =? 62)%N || (n =? 38)%N then
    "\u00" +:+ String (hex_digit (n / 16)) (String (hex_digit (n mod 16)) "")
  else String c "".

(** U+2028 and U+2029. *)
Definition is_line_sep (a b c : ascii) : bool :=
  byte_in 226 226 a && byte_in 128 128 b && byte_in 168 169 c.

Fixpoint quote_body (s : string) : string :=
  match rune_len s, s with
  | 1, String a r => esc a +:+ quote_body r
  | 2, String a (String b r) => String a (String b (quote_body r))
  | 3, String a (String b (String c r)) =>
      (if is_line_sep a b c then "\u202" +:+ String (hex_digit (N_of_ascii c - 160)) ""
       else String a (String b (String c ""))) +:+ quote_body r
  | 4, String a (String b (String c (String d r))) =>
      String a (String b (String c (String d (quote_body r))))
  | _, String _ r => "\ufffd" +:+ quote_body r
  | _, EmptyString => ""
  end.

Definition quote (s : string) : string :=
  String quote_char (quote_body s +:+ String quote_char "").

Definition hex_val (c : ascii) : option N :=
  let n := N_of_ascii c in
  if byte_in 48 57 c then Some (n - 48)%N
  else if byte_in 97 102 c then Some (n - 87)%N
  else if byte_in 65 70 c then Some (n - 55)%N
  else None.

Definition hex4 (a b c d : ascii) : option N :=
  match hex_val a, hex_val b, hex_val c, hex_val d with
  | Some a, Some b, Some c, Some d => Some (((a * 16 + b) * 16 + c) * 16 + d)%N
  | _, _, _, _ => None
  end.

(** [utf8.EncodeRune]; surrogates are encoded as U+FFFD. *)
Definition encode_rune (r : N) : string :=
  if (r <? 128)%N then bytes [r]
  else if (r <? 2048)%N then bytes [192 + r / 64; 128 + r mod 64]%N
  else if (55296 <=? r)%N && (r <? 57344)%N then replacement
  else if (r <? 65536)%N then
    bytes [224 + r / 4096; 128 + (r / 64) mod 64; 128 + r mod 64]%N
  else bytes [240 + r / 262144; 128 + (r / 4096) mod 64;
              128 + (r / 64) mod 64; 128 + r mod 64]%N.

(** [utf16.DecodeRune] of a pair of surrogates. *)
Definition surrogate_pair (hi lo : N) : option N :=
  if ((55296 <=? hi) && (hi <? 56320) && (56320 <=? lo) && (lo <? 57344))%N
  then Some (65536 + (hi - 55296) * 1024 + (lo - 56320))%N else None.

Definition simple_escape (c : ascii) : option string :=
  let n := N_of_ascii c in
  if (n =? 34)%N || (n =? 92)%N || (n =? 47)%N then Some (String c "")
  else if (n =? 98)%N then Some (bytes [8]%N)
  else if (n =? 102)%N then Some (bytes [12]%N)
  else if (n =? 110)%N then Some (bytes [10]%N)
  else if (n =? 114)%N then Some (bytes [13]%N)
  else if (n =? 116)%N then Some (bytes [9]%N)
  else None.

(** Reading a literal after its opening quote: the text and what follows the
    closing quote. *)
Definition emit (t : string) (r : option (string * string)) : option (string * string) :=
  match r with Some (s, rest) => Some (t +:+ s, rest) | None => None end.

Fixpoint pstring (s : string) : option (string * string) :=
  match rune_len s, s with
  | 1, String a r =>
      if Ascii.eqb a quote_char then Some ("", r)
      else if Ascii.eqb a backslash then
        match r with
        | String e r0 =>
            if Ascii.eqb e "u" then
              match r0 with
              | String h1 (String h2 (String h3 (String h4 r1))) =>
                  match hex4 h1 h2 h3 h4 with
                  | None => None
                  | Some u =>
                      match r1 with
                      | String x (String y (String k1 (String k2 (String k3 (String k4 r2))))) =>
                          if Ascii.eqb x backslash && Ascii.eqb y "u" then
                            match hex4 k1 k2 k3 k4 with
                            | Some u2 =>
                                match surrogate_pair u u2 with
                                | Some v => emit (encode_rune v) (pstring r2)
                                | None => emit (encode_rune u) (pstring r1)
                                end
                            | None => None
                            end
                          else emit (encode_rune u) (pstring r1)
                      | _ => emit (encode_rune u) (pstring r1)
                      end
                  end
              | _ => None
              end
            else
              match simple_escape e with
              | Some t => emit t (pstring r0)
              | None => None
              end
        | EmptyString => None
        end
      else if byte_in 0 31 a then None
      else emit (String a "") (pstring r)
  | 2, String a (String b r) => emit (String a (String b "")) (pstring r)
  | 3, String a (String b (String c r)) =>
      emit (String a (String b (String c ""))) (pstring r)
  | 4, String a (String b (String c (String d r))) =>
      emit (String a (String b (String c (String d "")))) (pstring r)
  | _, String _ r => emit replacement (pstring r)
  | _, EmptyString => None
  end.

(** ** Literals: what is written is read back *)

(** The head of a string: nothing, an encoded rune, or a byte that is not
    UTF-8. *)
Inductive rune_view : string → Prop :=
  | rv_nil : rune_view ""
  | rv1 a r : byte_in 0 127 a = true → rune_view (String a r)
  | rv2 a b r : byte_in 0 127 a = false → is2 a b = true → rune_view (String a (String b r))
  | rv3 a b c r : byte_in 0 127 a = false → is2 a b = false → is3 a b c = true →
      rune_view (String a (String b (String c r)))
  | rv4 a b c d r : byte_in 0 127 a = false → is2 a b = false → is3 a b c = false →
      is4 a b c d = true → rune_view (String a (String b (String c (String d r))))
  | rv0 a r : rune_len (String a r) = 0 → rune_view (String a r).

Lemma rune_viewP s : rune_view s.
Proof.
  destruct s as [|a s]; [constructor|].
  destruct (byte_in 0 127 a) eqn:Ha; [by apply rv1|].
  destruct s as [|b s]; [apply rv0; simpl; by rewrite Ha|].
  destruct (is2 a b) eqn:Hb; [by apply rv2|].
  destruct s as [|c s]; [apply rv0; simpl; by rewrite Ha, Hb|].
  destruct (is3 a b c) eqn:Hc; [by apply rv3|].
  destruct s as [|d s]; [apply rv0; simpl; by rewrite Ha, Hb, Hc|].
  destruct (is4 a b c d) eqn:Hd; [by apply rv4|].
  apply rv0; simpl. by rewrite Ha, Hb, Hc, Hd.
Qed.

Lemma string_ind_len (P : string → Prop) :
  (∀ s, (∀ t, String.length t < String.length s → P t) → P s) → ∀ s, P s.
Proof.
  intros HP s. remember (String.length s) as n eqn:Hn. revert s Hn.
  induction (lt_wf n) as [n _ IH]. intros s ->. apply HP. intros t Ht. by eapply IH.
Qed.

Section equations.

(** Unfolding of the three recursions at each shape of the head. *)
Local Ltac unfold_at := simpl;
  repeat match goal with H : _ = true |- _ => rewrite H | H : _ = false |- _ => rewrite H end;
  try done.

Lemma ToValid_eq1 a r : byte_in 0 127 a = true → ToValid (String a r) = String a (ToValid r).
Proof. intros. unfold_at. Qed.

Lemma quote_eq1 a r : byte_in 0 127 a = true → quote_body (String a r) = esc a +:+ quote_body r.
Proof. intros. unfold_at. Qed.

Lemma ToValid_eq2 a b r : byte_in 0 127 a = false → is2 a b = true →
  ToValid (String a (String b r)) = String a (String b (ToValid r)).
Proof. intros. unfold_at. Qed.

Lemma ToValid_eq3 a b c r : byte_in 0 127 a = false → is2 a b = false → is3 a b c = true →
  ToValid (String a (String b (String c r))) = String a (String b (String c (ToValid r))).
Proof. intros. unfold_at. Qed.

Lemma ToValid_eq4 a b c d r :
  byte_in 0 127 a = false → is2 a b = false → is3 a b c = false → is4 a b c d = true →
  ToValid (String a (String b (String c (String d r)))) =
  String a (String b (String c (String d (ToValid r)))).
Proof. intros. unfold_at. Qed.

Lemma ToValid_eq0 a r : rune_len (String a r) = 0 →
  ToValid (String a r) = replacement +:+ ToValid r.
Proof. intros H. cbn [ToValid]. by rewrite H. Qed.

Lemma quote_eq2 a b r : byte_in 0 127 a = false → is2 a b = true →
  quote_body (String a (String b r)) = String a (String b (quote_body r)).
Proof. intros. unfold_at. Qed.

Lemma quote_eq3 a b c r : byte_in 0 127 a = false → is2 a b = false → is3 a b c = true →
  quote_body (String a (String b (String c r))) =
  (if is_line_sep a b c then "\u202" +:+ String (hex_digit (N_of_ascii c - 160)) ""
   else String a (String b (String c ""))) +:+ quote_body r.
Proof. intros. unfold_at. Qed.

Lemma quote_eq4 a b c d r :
  byte_in 0 127 a = false → is2 a b = false → is3 a b c = false → is4 a b c d = true →
  quote_body (String a (String b (String c (String d r)))) =
  String a (String b (String c (String d (quote_body r)))).
Proof. intros. unfold_at. Qed.

Lemma quote_eq0 a r : rune_len (String a r) = 0 →
  quote_body (String a r) = "\ufffd" +:+ quote_body r.
Proof. intros H. cbn [quote_body]. by rewrite H. Qed.

Lemma pstring_eq2 a b r : byte_in 0 127 a = false → is2 a b = true →
  pstring (String a (String b r)) = emit (String a (String b "")) (pstring r).
Proof. intros. unfold_at. Qed.

Lemma pstring_eq3 a b c r : byte_in 0 127 a = false → is2 a b = false → is3 a b c = true →
  pstring (String a (String b (String c r))) = emit (String a (String b (String c ""))) (pstring r).
Proof. intros. unfold_at. Qed.

Lemma pstring_eq4 a b c d r :
  byte_in 0 127 a = false → is2 a b = false → is3 a b c = false → is4 a b c d = true →
  pstring (String a (String b (String c (String d r)))) =
  emit (String a (String b (String c (String d "")))) (pstring r).
Proof. intros. unfold_at. Qed.

End equations.

(** A [\u] escape that is no high surrogate stands for itself. *)
Lemma pstring_u h1 h2 h3 h4 u Y :
  hex4 h1 h2 h3 h4 = Some u → (∀ v, surrogate_pair u v = None) →
  pstring (String backslash (String "u"
    (String h1 (String h2 (String h3 (String h4 Y)))))) = emit (encode_rune u) (pstring Y).
Proof.
  intros Hu Hs. cbn [pstring rune_len]. simpl. rewrite Hu.
  do 6 (destruct Y as [|? Y]; [done|]).
  destruct (Ascii.eqb_spec a backslash) as [->|]; [|done].
  destruct (Ascii.eqb_spec a0 "u") as [->|]; [|done]. simpl.
  destruct (hex4 a1 a2 a3 a4) as [u2|]; [|done]. by rewrite Hs.
Qed.

Lemma pstring_esc a Y :
  byte_in 0 127 a = true → pstring (esc a +:+ Y) = emit (String a "") (pstring Y).
Proof.
  destruct a as [[] [] [] [] [] [] [] []]; intros H; try discriminate H;
    first [reflexivity |
      match goal with |- _ = emit (String ?c "") _ =>
        by apply (pstring_u _ _ _ _ (N_of_ascii c)) end].
Qed.

Lemma pstring_line_sep a b c Y :
  is_line_sep a b c = true →
  pstring (("\u202" +:+ String (hex_digit (N_of_ascii c - 160)) "") +:+ Y) =
  emit (String a (String b (String c ""))) (pstring Y).
Proof.
  unfold is_line_sep. rewrite !andb_true_iff. intros [[Ha Hb] Hc].
  assert (a = "226"%char) as ->.
  { revert Ha. by destruct a as [[] [] [] [] [] [] [] []]. }
  assert (b = "128"%char) as ->.
  { revert Hb. by destruct b as [[] [] [] [] [] [] [] []]. }
  assert (c = "168"%char ∨ c = "169"%char) as [->| ->].
  { revert Hc. destruct c as [[] [] [] [] [] [] [] []]; try discriminate; by auto. }
  - by apply (pstring_u _ _ _ _ 8232).
  - by apply (pstring_u _ _ _ _ 8233).
Qed.

(** Reading a written literal gives the text back, with the bytes that are not
    UTF-8 replaced. *)
Lemma pstring_quote_body s rest :
  pstring (quote_body s +:+ String quote_char rest) = Some (ToValid s, rest).
Proof.
  induction s as [s IH] using string_ind_len.
  assert (Hstep : ∀ p t r, String.length r < String.length s →
    pstring (t +:+ (quote_body r +:+ String quote_char rest)) =
      emit p (pstring (quote_body r +:+ String quote_char rest)) →
    pstring ((t +:+ quote_body r) +:+ String quote_char rest) = Some (p +:+ ToValid r, rest)).
  { intros p t r Hr Ht. rewrite <-app_assoc_str, Ht, IH by done. done. }
  destruct (rune_viewP s).
  - reflexivity.
  - rewrite quote_eq1, ToValid_eq1 by done.
    apply (Hstep (String a "") (esc a) r); [simpl; lia|]. by apply pstring_esc.
  - rewrite quote_eq2, ToValid_eq2 by done.
    apply (Hstep (String a (String b "")) (String a (String b "")) r); [simpl; lia|].
    by apply pstring_eq2.
  - rewrite quote_eq3, ToValid_eq3 by done. destruct (is_line_sep a b c) eqn:Hl.
    + apply (Hstep (String a (String b (String c ""))) _ r); [simpl; lia|].
      by apply pstring_line_sep.
    + apply (Hstep (String a (String b (String c ""))) (String a (String b (String c ""))) r);
        [simpl; lia|]. by apply pstring_eq3.
  - rewrite quote_eq4, ToValid_eq4 by done.
    apply (Hstep (String a (String b (String c (String d ""))))
      (String a (String b (String c (String d "")))) r); [simpl; lia|].
    by apply pstring_eq4.
  - rewrite quote_eq0, ToValid_eq0 by done.
    apply (Hstep replacement "\ufffd" r); [simpl; lia|].
    by apply (pstring_u _ _ _ _ 65533).
Qed.

(** ** Numbers *)

Definition is_digit (c : ascii) : bool := byte_in 48 57 c.

(** The bytes a number can contain. *)
Definition number_char (c : ascii) : bool :=
  is_digit c || Ascii.eqb c "-" || Ascii.eqb c "+" || Ascii.eqb c "." ||
  Ascii.eqb c "e" || Ascii.eqb c "E".

Fixpoint span_number (s : string) : string * string :=
  match s with
  | String c r =>
      if number_char c then let '(tok, rest) := span_number r in (String c tok, rest)
      else ("", s)
  | EmptyString => ("", "")
  end.

Fixpoint drop_digits (s : string) : string :=
  match s with
  | String c r => if is_digit c then drop_digits r else s
  | EmptyString => ""
  end.

(** At least one digit, then [k]. *)
Definition digits1 (s : string) (k : string → bool) : bool :=
  match s with
  | String c r => is_digit c && k (drop_digits r)
  | EmptyString => false
  end.

Definition exponent (s : string) : bool :=
  match s with
  | EmptyString => true
  | String c r =>
      (Ascii.eqb c "e" || Ascii.eqb c "E") &&
      match r with
      | String d r' =>
          if Ascii.eqb d "+" || Ascii.eqb d "-" then digits1 r' (λ t, bool_decide (t = ""))
          else digits1 r (λ t, bool_decide (t = ""))
      | EmptyString => false
      end
  end.

Definition fraction (s : string) : bool :=
  match s with
  | String c r => if Ascii.eqb c "." then digits1 r exponent else exponent s
  | EmptyString => true
  end.

Definition unsigned_number (s : string) : bool :=
  match s with
  | String c r =>
      if Ascii.eqb c "0" then fraction r else digits1 s fraction
  | EmptyString => false
  end.

Definition valid_number (s : string) : bool :=
  match s with
  | String c r => if Ascii.eqb c "-" then unsigned_number r else unsigned_number s
  | EmptyString => false
  end.

(** ** Reading *)

Definition is_ws (c : ascii) : bool :=
  byte_in 32 32 c || byte_in 9 10 c || byte_in 13 13 c.

Fixpoint skip (s : string) : string :=
  match s with
  | String c r => if is_ws c then skip r else s
  | EmptyString => ""
  end.

(** The byte [c] after white space, and what follows it. *)
Definition expect (c : ascii) (s : string) : option string :=
  match skip s with
  | String d r => if Ascii.eqb d c then Some r else None
  | EmptyString => None
  end.

Definition pliteral (s : string) : option (json * string) :=
  match CutPrefix "null" s, CutPrefix "true" s, CutPrefix "false" s with
  | Some r, _, _ => Some (JNull, r)
  | _, Some r, _ => Some (JBool true, r)
  | _, _, Some r => Some (JBool false, r)
  | _, _, _ => None
  end.

Fixpoint pvalue (fuel : nat) (s : string) : option (json * string) :=
  match fuel with
  | O => None
  | S n =>
      match skip s with
      | EmptyString => None
      | String c r =>
          if Ascii.eqb c "{" then
            match expect "}" r with
            | Some r' => Some (JObj [], r')
            | None => match pmembers n r with
                      | Some (ms, r') => Some (JObj ms, r')
                      | None => None
                      end
            end
          else if Ascii.eqb c "[" then
            match expect "]" r with
            | Some r' => Some (JArr [], r')
            | None => match pelems n r with
                      | Some (vs, r') => Some (JArr vs, r')
                      | None => None
                      end
            end
          else if Ascii.eqb c quote_char then
            match pstring r with
            | Some (t, r') => Some (JStr t, r')
            | None => None
            end
          else if number_char c then
            let '(tok, r') := span_number (String c r) in
            if valid_number tok then Some (JNum tok, r') else None
          else pliteral (String c r)
      end
  end
with pelems (fuel : nat) (s : string) : option (list json * string) :=
  match fuel with
  | O => None
  | S n =>
      match pvalue n s with
      | None => None
      | Some (v, r) =>
          match expect "," r with
          | Some r1 =>
              match pelems n r1 with
              | Some (vs, r2) => Some (v :: vs, r2)
              | None => None
              end
          | None =>
              match expect "]" r with
              | Some r1 => Some ([v], r1)
              | None => None
              end
          end
      end
  end
with pmembers (fuel : nat) (s : string) : option (list (string * json) * string) :=
  match fuel with
  | O => None
  | S n =>
      match expect quote_char s with
      | None => None
      | Some r =>
          match pstring r with
          | None => None
          | Some (k, r1) =>
              match expect ":" r1 with
              | None => None
              | Some r2 =>
                  match pvalue n r2 with
                  | None => None
                  | Some (v, r3) =>
                      match expect "," r3 with
                      | Some r4 =>
                          match pmembers n r4 with
                          | Some (ms, r5) => Some ((k, v) :: ms, r5)
                          | None => None
                          end
                      | None =>
                          match expect "}" r3 with
                          | Some r4 => Some ([(k, v)], r4)
                          | None => None
                          end
                      end
                  end
              end
          end
      end
  end.

Definition parse (s : string) : option json :=
  match pvalue (S (String.length s)) s with
  | Some (v, r) => if bool_decide (skip r = "") then Some v else None
  | None => None
  end.

(** ** Writing *)

Fixpoint indent (n : nat) : string :=
  match n with O => "" | S n => "  " +:+ indent n end.

(** A new line indented to depth [n]. *)
Definition line (n : nat) : string := String (ascii_of_N 10) (indent n).

(** The elements of an array and the members of an object, one per line. *)
Definition print_elems (p : json → string) (n : nat) : list json → string :=
  fix elems l :=
    match l with
    | [] => ""
    | [x] => line n +:+ p x
    | x :: l' => line n +:+ p x +:+ "," +:+ elems l'
    end.

Definition print_members (p : json → string) (n : nat) : list (string * json) → string :=
  fix members l :=
    match l with
    | [] => ""
    | [(k, x)] => line n +:+ quote k +:+ ": " +:+ p x
    | (k, x) :: l' => line n +:+ quote k +:+ ": " +:+ p x +:+ "," +:+ members l'
    end.

Fixpoint print (n : nat) (v : json) : string :=
  match v with
  | JNull => "null"
  | JBool true => "true"
  | JBool false => "false"
  | JNum t => t
  | JStr s => quote s
  | JArr [] => "[]"
  | JArr l => "[" +:+ print_elems (print (S n)) (S n) l +:+ line n +:+ "]"
  | JObj [] => "{}"
  | JObj l => "{" +:+ print_members (print (S n)) (S n) l +:+ line n +:+ "}"
  end.

(** ** What reading a printed tree gives *)

(** Every text with its non-UTF-8 bytes replaced. *)
Fixpoint sanitize (v : json) : json :=
  match v with
  | JStr s => JStr (ToValid s)
  | JArr l => JArr (map sanitize l)
  | JObj l => JObj (map (λ '(k, x), (ToValid k, sanitize x)) l)
  | _ => v
  end.

(** Number texts are numbers. *)
Fixpoint wf (v : json) : bool :=
  match v with
  | JNum t => valid_number t
  | JArr l => forallb wf l
  | JObj l => forallb (λ '(_, x), wf x) l
  | _ => true
  end.

Fixpoint json_size (v : json) : nat :=
  match v with
  | JArr l => S (list_sum (map (λ x, S (json_size x)) l))
  | JObj l => S (list_sum (map (λ '(_, x), S (json_size x)) l))
  | _ => 1
  end.

(** Induction over the values inside arrays and objects. *)
Lemma json_nested_ind (P : json → Prop) :
  P JNull → (∀ b, P (JBool b)) → (∀ t, P (JNum t)) → (∀ s, P (JStr s)) →
  (∀ l, Forall P l → P (JArr l)) → (∀ l, Forall (λ '(_, x), P x) l → P (JObj l)) →
  ∀ v, P v.
Proof.
  intros Hn Hb Hnum Hs Ha Ho. fix IH 1. intros [|b|t|s|l|l]; [done|done|done|done| |].
  - apply Ha. induction l as [|x l IHl]; [by constructor|]. constructor; [apply IH|apply IHl].
  - apply Ho. induction l as [|[k x] l IHl]; [by constructor|]. constructor; [apply IH|apply IHl].
Qed.
