(* ===== verification/JsonRound.v ===== *)
(** Laws of [Json.v]: what [print] writes [parse] reads back ([parse_print]),
    the reader yields UTF-8 text only ([parse_valid]), and a text cut short
    inside an object is refused ([parse_torn]). *)

From Stdlib Require Import Ascii ZArith ZifyBool Lia.
From stdpp Require Import options.
From S2P Require Import Prelude GoStrings Json.

(** ** White space and delimiters *)

Lemma skip_indent n s : skip (indent n +:+ s) = skip s.
Proof. induction n as [|n IH]; [done|]. simpl. by rewrite <-IH. Qed.

Lemma skip_line n s : skip (line n +:+ s) = skip s.
Proof. exact (skip_indent n s). Qed.

Lemma expect_line c n s : expect c (line n +:+ s) = expect c s.
Proof. unfold expect. by rewrite skip_line. Qed.

Lemma expect_head c d s : is_ws d = false →
  expect c (String d s) = if Ascii.eqb d c then Some s else None.
Proof. intros Hd. unfold expect. simpl. by rewrite Hd. Qed.

(** The first byte of a value. *)
Definition value_char (c : ascii) : bool :=
  negb (is_ws c) && negb (Ascii.eqb c "]") && negb (Ascii.eqb c "}") &&
  negb (Ascii.eqb c ",") && negb (Ascii.eqb c ":").

Definition value_start (s : string) : Prop := ∃ c r, s = String c r ∧ value_char c = true.

Lemma value_start_skip s rest : value_start s → skip (s +:+ rest) = s +:+ rest.
Proof.
  intros (c & r & -> & Hc). rewrite app_cons_str. simpl.
  unfold value_char in Hc. by destruct (is_ws c).
Qed.

Lemma value_start_expect d s rest :
  value_start s → value_char d = false → expect d (s +:+ rest) = None.
Proof.
  intros Hs Hd. unfold expect. rewrite value_start_skip by done.
  destruct Hs as (c & r & -> & Hc). rewrite app_cons_str.
  destruct (Ascii.eqb_spec c d) as [->|]; [congruence|done].
Qed.

(** ** Number tokens *)

Lemma number_value_char c : number_char c = true → value_char c = true.
Proof. by destruct c as [[] [] [] [] [] [] [] []]. Qed.

Lemma digit_number_char c : is_digit c = true → number_char c = true.
Proof. unfold number_char. by intros ->. Qed.

Fixpoint all_number (s : string) : bool :=
  match s with
  | EmptyString => true
  | String c r => number_char c && all_number r
  end.

Lemma all_number_drop s : all_number (drop_digits s) = true → all_number s = true.
Proof.
  induction s as [|c r IH]; [done|]. simpl. destruct (is_digit c) eqn:Hc; [|done].
  intros H. by rewrite (digit_number_char _ Hc), IH.
Qed.

Lemma all_number_digits1 s k :
  (∀ t, k t = true → all_number t = true) → digits1 s k = true → all_number s = true.
Proof.
  intros Hk. destruct s as [|c r]; [done|]. simpl. rewrite andb_true_iff. intros [Hc Hr].
  rewrite digit_number_char by done. by apply all_number_drop, Hk.
Qed.

Lemma all_number_eqb c d r :
  Ascii.eqb c d = true → number_char d = true → all_number r = true →
  all_number (String c r) = true.
Proof. intros ->%Ascii.eqb_eq Hd Hr. simpl. by rewrite Hd, Hr. Qed.

Lemma all_number_end t : bool_decide (t = "") = true → all_number t = true.
Proof. by intros ->%bool_decide_eq_true. Qed.

Lemma all_number_exponent s : exponent s = true → all_number s = true.
Proof.
  destruct s as [|c [|d r]]; [done|by cbn [exponent]; rewrite andb_false_r|].
  cbn [exponent]. rewrite andb_true_iff, orb_true_iff. intros [Hc Hr].
  assert (all_number (String d r) = true) as Hd.
  { revert Hr. destruct (Ascii.eqb d "+" || Ascii.eqb d "-") eqn:Hs; intros Hr.
    - apply (all_number_digits1 _ _ all_number_end) in Hr.
      apply orb_true_iff in Hs as [Hs|Hs]; by eapply all_number_eqb.
    - by apply (all_number_digits1 _ _ all_number_end) in Hr. }
  destruct Hc as [Hc|Hc]; by eapply all_number_eqb.
Qed.

Lemma all_number_fraction s : fraction s = true → all_number s = true.
Proof.
  destruct s as [|c r]; [done|]. cbn [fraction]. destruct (Ascii.eqb c ".") eqn:Hc.
  - intros H%(all_number_digits1 _ _ all_number_exponent). by eapply all_number_eqb.
  - apply all_number_exponent.
Qed.

Lemma all_number_unsigned s : unsigned_number s = true → all_number s = true.
Proof.
  destruct s as [|c r]; [done|]. cbn [unsigned_number]. destruct (Ascii.eqb c "0") eqn:Hc.
  - intros H%all_number_fraction. by eapply all_number_eqb.
  - apply (all_number_digits1 _ _ all_number_fraction).
Qed.

Lemma all_number_valid s : valid_number s = true → all_number s = true.
Proof.
  destruct s as [|c r]; [done|]. cbn [valid_number]. destruct (Ascii.eqb c "-") eqn:Hc.
  - intros H%all_number_unsigned. by eapply all_number_eqb.
  - apply all_number_unsigned.
Qed.

(** What follows a number does not continue it. *)
Definition number_end (s : string) : Prop :=
  match s with EmptyString => True | String c _ => number_char c = false end.

Lemma span_number_app t rest :
  all_number t = true → number_end rest → span_number (t +:+ rest) = (t, rest).
Proof.
  intros Ht Hr. induction t as [|c t IH].
  - change ("" +:+ rest) with rest. destruct rest as [|c r]; [done|]. simpl in *. by rewrite Hr.
  - rewrite app_cons_str. simpl in *. apply andb_true_iff in Ht as [Hc Ht].
    by rewrite Hc, IH.
Qed.

(** ** Printed values *)

Lemma print_arr n x l :
  print n (JArr (x :: l)) = "[" +:+ print_elems (print (S n)) (S n) (x :: l) +:+ line n +:+ "]".
Proof. done. Qed.

Lemma print_obj n m l :
  print n (JObj (m :: l)) = "{" +:+ print_members (print (S n)) (S n) (m :: l) +:+ line n +:+ "}".
Proof. done. Qed.

Lemma print_start n v : wf v = true → value_start (print n v).
Proof.
  destruct v as [|[]|t|s|[|x l]|[|m l]]; intros Hv;
    try (eexists _, _; split; [reflexivity|done]).
  simpl in *. apply all_number_valid in Hv as Ht. destruct t as [|c t]; [done|].
  simpl in Ht. apply andb_true_iff in Ht as [Hc _].
  exists c, t. split; [done|]. by apply number_value_char.
Qed.

Lemma number_end_line n s : number_end (line n +:+ s).
Proof. done. Qed.

Lemma number_end_comma s : number_end ("," +:+ s).
Proof. done. Qed.

Lemma expect_sep c s : is_ws c = false → expect c (String c "" +:+ s) = Some s.
Proof.
  intros Hc. change (String c "" +:+ s) with (String c s).
  by rewrite expect_head, Ascii.eqb_refl.
Qed.

(** Induction over the elements of an array: every element reads back, at
    whatever depth, when enough fuel is left. *)
Definition reads (v : json) : Prop := ∀ n lvl rest,
  wf v = true → json_size v ≤ n → number_end rest →
  pvalue n (print lvl v +:+ rest) = Some (sanitize v, rest).

Lemma pvalue_skip n s : pvalue n s = pvalue n (skip s).
Proof.
  assert (Hi : ∀ t, skip (skip t) = skip t).
  { induction t as [|c t IH]; [done|]. simpl. destruct (is_ws c) eqn:Hc; [done|].
    simpl. by rewrite Hc. }
  destruct n; [done|]. cbn [pvalue]. by rewrite Hi.
Qed.

Lemma pvalue_line n k s : pvalue n (line k +:+ s) = pvalue n s.
Proof. by rewrite pvalue_skip, skip_line, <-pvalue_skip. Qed.

Lemma pelems_print l : Forall reads l → ∀ n lvl k rest,
  l ≠ [] → forallb wf l = true → list_sum (map (λ x, S (json_size x)) l) ≤ n →
  pelems n (print_elems (print lvl) lvl l +:+ line k +:+ "]" +:+ rest) =
    Some (map sanitize l, rest).
Proof.
  induction 1 as [|x l Hx Hl IH]; intros n lvl k rest Hne Hwf Hn; [done|].
  simpl in Hwf, Hn. apply andb_true_iff in Hwf as [Hwx Hwl].
  destruct n as [|n]; [lia|]. cbn [pelems]. destruct l as [|y l].
  - change (print_elems (print lvl) lvl [x]) with (line lvl +:+ print lvl x).
    rewrite <-app_assoc_str, pvalue_line, Hx; [|done|lia|apply number_end_line].
    rewrite !expect_line. done.
  - change (print_elems (print lvl) lvl (x :: y :: l)) with
      (line lvl +:+ print lvl x +:+ "," +:+ print_elems (print lvl) lvl (y :: l)).
    rewrite <-!app_assoc_str, pvalue_line, Hx; [|done|lia|apply number_end_comma].
    rewrite expect_sep by done.
    by rewrite IH by (done || simpl in *; lia).
Qed.

Lemma pstring_quote k rest :
  pstring (quote_body k +:+ String quote_char "" +:+ rest) = Some (ToValid k, rest).
Proof. exact (pstring_quote_body k rest). Qed.

Lemma pvalue_space n s : pvalue n (String " " s) = pvalue n s.
Proof. by rewrite pvalue_skip, (pvalue_skip n s). Qed.

Lemma pmembers_key n lvl k s :
  pmembers (S n) (line lvl +:+ quote k +:+ ": " +:+ s) =
  match pvalue n s with
  | None => None
  | Some (v, r3) =>
      match expect "," r3 with
      | Some r4 => match pmembers n r4 with
                   | Some (ms, r5) => Some ((ToValid k, v) :: ms, r5)
                   | None => None
                   end
      | None => match expect "}" r3 with
                | Some r4 => Some ([(ToValid k, v)], r4)
                | None => None
                end
      end
  end.
Proof.
  cbn [pmembers]. rewrite expect_line. unfold quote. rewrite !app_cons_str.
  rewrite expect_head, Ascii.eqb_refl by done. rewrite <-app_assoc_str, pstring_quote.
  rewrite expect_head, Ascii.eqb_refl by done.
  change ("" +:+ s) with s. by rewrite pvalue_space.
Qed.

Lemma pmembers_print l : Forall (λ '(_, x), reads x) l → ∀ n lvl k rest,
  l ≠ [] → forallb (λ '(_, x), wf x) l = true →
  list_sum (map (λ '(_, x), S (json_size x)) l) ≤ n →
  pmembers n (print_members (print lvl) lvl l +:+ line k +:+ "}" +:+ rest) =
    Some (map (λ '(k, x), (ToValid k, sanitize x)) l, rest).
Proof.
  induction 1 as [|[key x] l Hx Hl IH]; intros n lvl k rest Hne Hwf Hn; [done|].
  simpl in Hwf, Hn. apply andb_true_iff in Hwf as [Hwx Hwl].
  destruct n as [|n]; [lia|]. destruct l as [|[key' y] l].
  - change (print_members (print lvl) lvl [(key, x)]) with
      (line lvl +:+ quote key +:+ ": " +:+ print lvl x).
    rewrite <-!app_assoc_str, pmembers_key, Hx; [|done|lia|apply number_end_line].
    rewrite !expect_line. done.
  - change (print_members (print lvl) lvl ((key, x) :: (key', y) :: l)) with
      (line lvl +:+ quote key +:+ ": " +:+ print lvl x +:+ "," +:+
       print_members (print lvl) lvl ((key', y) :: l)).
    rewrite <-!app_assoc_str, pmembers_key, Hx; [|done|lia|apply number_end_comma].
    rewrite expect_sep by done.
    by rewrite IH by (done || simpl in *; lia).
Qed.

Lemma pvalue_arr n s :
  pvalue (S n) ("[" +:+ s) =
  match expect "]" s with
  | Some r => Some (JArr [], r)
  | None => match pelems n s with Some (vs, r) => Some (JArr vs, r) | None => None end
  end.
Proof. done. Qed.

Lemma pvalue_obj n s :
  pvalue (S n) ("{" +:+ s) =
  match expect "}" s with
  | Some r => Some (JObj [], r)
  | None => match pmembers n s with Some (ms, r) => Some (JObj ms, r) | None => None end
  end.
Proof. done. Qed.

Lemma pvalue_str n r :
  pvalue (S n) (String quote_char r) =
  match pstring r with Some (t, r') => Some (JStr t, r') | None => None end.
Proof. done. Qed.

Lemma pvalue_num n c r : number_char c = true →
  pvalue (S n) (String c r) =
  let '(tok, r') := span_number (String c r) in
  if valid_number tok then Some (JNum tok, r') else None.
Proof.
  intros Hc. cbn [pvalue]. revert Hc.
  destruct c as [[] [] [] [] [] [] [] []]; intros Hc; first [discriminate Hc | reflexivity].
Qed.

Lemma expect_elems lvl x l rest : wf x = true →
  expect "]" (print_elems (print lvl) lvl (x :: l) +:+ rest) = None.
Proof.
  intros Hx. destruct l as [|y l].
  - change (print_elems (print lvl) lvl [x]) with (line lvl +:+ print lvl x).
    rewrite <-app_assoc_str, expect_line.
    by apply value_start_expect; [apply print_start|].
  - change (print_elems (print lvl) lvl (x :: y :: l)) with
      (line lvl +:+ print lvl x +:+ "," +:+ print_elems (print lvl) lvl (y :: l)).
    rewrite <-!app_assoc_str, expect_line.
    by apply value_start_expect; [apply print_start|].
Qed.

Lemma expect_members lvl m l rest :
  expect "}" (print_members (print lvl) lvl (m :: l) +:+ rest) = None.
Proof.
  destruct m as [k x], l as [|[k' y] l].
  - change (print_members (print lvl) lvl [(k, x)]) with
      (line lvl +:+ quote k +:+ ": " +:+ print lvl x).
    by rewrite <-app_assoc_str, expect_line.
  - change (print_members (print lvl) lvl ((k, x) :: (k', y) :: l)) with
      (line lvl +:+ quote k +:+ ": " +:+ print lvl x +:+ "," +:+
       print_members (print lvl) lvl ((k', y) :: l)).
    by rewrite <-app_assoc_str, expect_line.
Qed.

Lemma pvalue_print v : reads v.
Proof.
  induction v as [| | | |l IH|l IH] using json_nested_ind; intros n lvl rest Hwf Hn Hr;
    (destruct n as [|n]; [simpl in Hn; lia|]).
  - done.
  - by destruct b.
  - simpl in Hwf. pose proof (all_number_valid _ Hwf) as Ht.
    pose proof (span_number_app _ _ Ht Hr) as Hspan. destruct t as [|c t]; [done|].
    simpl in Ht. apply andb_true_iff in Ht as [Hc _]. rewrite app_cons_str in Hspan.
    change (print lvl (JNum (String c t)) +:+ rest) with (String c (t +:+ rest)).
    by rewrite pvalue_num, Hspan, Hwf.
  - change (print lvl (JStr s) +:+ rest) with
      (String quote_char ((quote_body s +:+ String quote_char "") +:+ rest)).
    by rewrite pvalue_str, <-app_assoc_str, pstring_quote.
  - destruct l as [|x l]; [done|]. rewrite print_arr, <-!app_assoc_str, pvalue_arr.
    rewrite expect_elems, pelems_print; [done|done|done|done|simpl in *; lia|].
    simpl in Hwf. by apply andb_true_iff in Hwf as [? _].
  - destruct l as [|m l]; [done|]. rewrite print_obj, <-!app_assoc_str, pvalue_obj.
    by rewrite expect_members, pmembers_print by (done || simpl in *; lia).
Qed.

(** Enough fuel: one unit per byte of a printed value. *)
Lemma json_size_print v lvl : wf v = true → json_size v ≤ String.length (print lvl v).
Proof.
  revert lvl. induction v as [| | | |l IH|l IH] using json_nested_ind; intros lvl Hwf.
  - simpl. lia.
  - destruct b; simpl; lia.
  - destruct (print_start lvl (JNum t) Hwf) as (c & r & -> & _). simpl. lia.
  - destruct (print_start lvl (JStr s) Hwf) as (c & r & -> & _). simpl. lia.
  - destruct l as [|x l]; [simpl; lia|]. rewrite print_arr, !length_app_str.
    enough (list_sum (map (λ x, S (json_size x)) (x :: l)) ≤
      String.length (print_elems (print (S lvl)) (S lvl) (x :: l))) by (simpl in *; lia).
    simpl in Hwf. revert Hwf. change (wf x && forallb wf l) with (forallb wf (x :: l)).
    induction IH as [|y k Hy _ IHk]; [simpl; lia|]. simpl. rewrite andb_true_iff. intros [Hwy Hwk].
    specialize (Hy (S lvl) Hwy). specialize (IHk Hwk). destruct k as [|z k].
    + simpl in *. rewrite !length_app_str. simpl. lia.
    + rewrite !length_app_str. simpl in *. lia.
  - destruct l as [|m l]; [simpl; lia|]. rewrite print_obj, !length_app_str.
    enough (list_sum (map (λ '(_, x), S (json_size x)) (m :: l)) ≤
      String.length (print_members (print (S lvl)) (S lvl) (m :: l))) by (simpl in *; lia).
    simpl in Hwf. revert Hwf.
    change (forallb (λ '(_, x), wf x) (m :: l) = true → 
      list_sum (map (λ '(_, x), S (json_size x)) (m :: l)) ≤
      String.length (print_members (print (S lvl)) (S lvl) (m :: l))).
    induction IH as [|[k y] ms Hy _ IHk]; [simpl; lia|]. simpl. rewrite andb_true_iff.
    intros [Hwy Hwk].
    specialize (Hy (S lvl) Hwy). specialize (IHk Hwk). destruct ms as [|[k' z] ms].
    + simpl in *. rewrite !length_app_str. simpl. lia.
    + rewrite !length_app_str. simpl in *. lia.
Qed.

Lemma parse_print_ws v rest : wf v = true → number_end rest → skip rest = "" →
  parse (print 0 v +:+ rest) = Some (sanitize v).
Proof.
  intros Hv Hr Hs. unfold parse. rewrite pvalue_print, Hs; [done|done| |done].
  rewrite length_app_str. pose proof (json_size_print v 0 Hv). lia.
Qed.

Lemma parse_print v : wf v = true → parse (print 0 v) = Some (sanitize v).
Proof.
  intros Hv. rewrite <-(app_nil_r_str (print 0 v)). by apply parse_print_ws.
Qed.

(** ** The reader yields UTF-8 *)

(** A text made of whole encodings. *)
Definition whole (p : string) : Prop := ∀ t, ToValid (p +:+ t) = p +:+ ToValid t.

Lemma byte_in_of lo hi n : (n < 256)%N →
  byte_in lo hi (ascii_of_N n) = ((lo <=? n) && (n <=? hi))%N.
Proof. intros Hn. unfold byte_in. by rewrite N_ascii_embedding. Qed.

Lemma whole_rune p :
  match p with
  | String a "" => byte_in 0 127 a = true
  | String a (String b "") => byte_in 0 127 a = false ∧ is2 a b = true
  | String a (String b (String c "")) =>
      byte_in 0 127 a = false ∧ is2 a b = false ∧ is3 a b c = true
  | String a (String b (String c (String d ""))) =>
      byte_in 0 127 a = false ∧ is2 a b = false ∧ is3 a b c = false ∧ is4 a b c d = true
  | _ => False
  end → whole p.
Proof.
  destruct p as [|a [|b [|c [|d [|e p]]]]]; [done|..|done]; intros H t;
    rewrite !app_cons_str; destruct_and?;
    [by apply ToValid_eq1|by apply ToValid_eq2|by apply ToValid_eq3|by apply ToValid_eq4].
Qed.

Lemma whole_replacement : whole replacement.
Proof. by apply whole_rune. Qed.

#[local] Ltac Zify.zify_post_hook ::= Z.to_euclidean_division_equations.

Lemma whole_encode r : (r < 1114112)%N → whole (encode_rune r).
Proof.
  intros Hr. unfold encode_rune.
  destruct (N.ltb_spec r 128).
  { apply whole_rune. simpl. rewrite byte_in_of by lia. lia. }
  destruct (N.ltb_spec r 2048).
  { apply whole_rune. cbn [bytes]. unfold is2, cont. rewrite !byte_in_of by lia. lia. }
  destruct ((55296 <=? r) && (r <? 57344))%N eqn:Hsur; [apply whole_replacement|].
  destruct (N.ltb_spec r 65536).
  - apply whole_rune. cbn [bytes]. unfold is2, is3, cont. rewrite !byte_in_of by lia. lia.
  - apply whole_rune. cbn [bytes]. unfold is2, is3, is4, cont. rewrite !byte_in_of by lia. lia.
Qed.

Lemma hex_val_lt c n : hex_val c = Some n → (n < 16)%N.
Proof.
  unfold hex_val, byte_in. pose proof (N_ascii_bounded c).
  repeat case_match; intros; simplify_eq; lia.
Qed.

Lemma hex4_lt a b c d u : hex4 a b c d = Some u → (u < 65536)%N.
Proof.
  unfold hex4. destruct (hex_val a) eqn:Ha, (hex_val b) eqn:Hb, (hex_val c) eqn:Hc,
    (hex_val d) eqn:Hd; intros ?; simplify_eq.
  apply hex_val_lt in Ha, Hb, Hc, Hd. lia.
Qed.

Lemma surrogate_pair_lt hi lo v : surrogate_pair hi lo = Some v → (v < 1114112)%N.
Proof. unfold surrogate_pair. case_match; intros; simplify_eq. lia. Qed.

Lemma whole_simple_escape e t : simple_escape e = Some t → whole t.
Proof.
  intros He. apply whole_rune. revert He.
  destruct e as [[] [] [] [] [] [] [] []]; intros [= <-]; reflexivity.
Qed.

Lemma emit_Some p x t r :
  emit p x = Some (t, r) → ∃ t', x = Some (t', r) ∧ t = p +:+ t'.
Proof. destruct x as [[t' r']|]; intros ?; simplify_eq/=; eauto. Qed.

(** A literal that reads has an ASCII byte, its closing quote; the encoding at
    the head of such a text is decided within it. *)
Fixpoint some_ascii (s : string) : bool :=
  match s with
  | EmptyString => false
  | String c r => byte_in 0 127 c || some_ascii r
  end.

Lemma pstring_ascii s : some_ascii s = false → pstring s = None.
Proof.
  induction s as [s IH] using string_ind_len. intros H.
  destruct (rune_viewP s) as [|a s Ha|a b s|a b c s|a b c d s|a s H0]; [done|..];
    cbn [some_ascii] in H; apply orb_false_iff in H as [H H'];
    try (apply orb_false_iff in H' as [? H']); try (apply orb_false_iff in H' as [? H']);
    try (apply orb_false_iff in H' as [? H']).
  - congruence.
  - rewrite pstring_eq2, IH; (done || simpl; lia).
  - rewrite pstring_eq3, IH; (done || simpl; lia).
  - rewrite pstring_eq4, IH; (done || simpl; lia).
  - cbn [pstring]. rewrite H0, IH; (done || simpl; lia).
Qed.

Lemma rune_len_app s q : some_ascii s = true → rune_len (s +:+ q) = rune_len s.
Proof.
  destruct s as [|a s]; [done|]. rewrite app_cons_str. simpl.
  destruct (byte_in 0 127 a) eqn:Ha; [done|].
  destruct s as [|b s]; [done|]. rewrite app_cons_str. simpl.
  destruct (is2 a b) eqn:H2; [done|].
  destruct (byte_in 0 127 b) eqn:Hb.
  { intros _. destruct (s +:+ q) as [|c [|d r]], s as [|c' [|d' r']];
      unfold is3, is4, cont, byte_in in *; repeat case_match; try done; lia. }
  destruct s as [|c s]; [done|]. rewrite app_cons_str. simpl.
  destruct (is3 a b c) eqn:H3; [done|].
  destruct (byte_in 0 127 c) eqn:Hc.
  { intros _. destruct (s +:+ q) as [|d r], s as [|d' r'];
      unfold is4, cont, byte_in in *; repeat case_match; try done; lia. }
  by destruct s as [|d s].
Qed.

(** How the reader goes on from each shape of the text: the closing quote, or a
    whole chunk followed by a shorter literal, whatever follows the text. *)
Inductive lit_step (s t r : string) : Prop :=
  | lit_end : s = String quote_char r → t = "" → lit_step s t r
  | lit_more p s' t' : whole p → String.length s' < String.length s →
      pstring s' = Some (t', r) → t = p +:+ t' →
      (∀ q, pstring (s +:+ q) = emit p (pstring (s' +:+ q))) → lit_step s t r.

Lemma lit_emit_at p s' s t r :
  emit p (pstring s') = Some (t, r) → whole p → String.length s' < String.length s →
  (pstring s' = Some (default ("", "") (pstring s')) →
    ∀ q, pstring (s +:+ q) = emit p (pstring (s' +:+ q))) →
  lit_step s t r.
Proof.
  intros (t' & Ht & ->)%emit_Some Hp Hl Hq. eapply lit_more; [done..|].
  apply Hq. by rewrite Ht.
Qed.

Lemma pstring_eq1 a r : byte_in 0 127 a = true →
  pstring (String a r) =
  if Ascii.eqb a quote_char then Some ("", r)
  else if Ascii.eqb a backslash then pstring (String backslash r)
  else if byte_in 0 31 a then None
  else emit (String a "") (pstring r).
Proof.
  intros Ha. cbn [pstring rune_len]. rewrite Ha.
  destruct (Ascii.eqb_spec a quote_char); [done|].
  destruct (Ascii.eqb_spec a backslash) as [->|]; [|done]. done.
Qed.

Lemma pstring_escape e r : e ≠ "u"%char →
  pstring (String backslash (String e r)) =
  match simple_escape e with Some t => emit t (pstring r) | None => None end.
Proof. destruct e as [[] [] [] [] [] [] [] []]; intros He; first [done | by destruct He]. Qed.

(** The text starts with another [\u] escape. *)
Definition starts_u (s : string) : bool :=
  match s with
  | String x (String y _) => Ascii.eqb x backslash && Ascii.eqb y "u"
  | _ => false
  end.

Lemma pstring_u_gen h1 h2 h3 h4 Y :
  pstring (String backslash (String "u" (String h1 (String h2 (String h3 (String h4 Y)))))) =
  match hex4 h1 h2 h3 h4 with
  | None => None
  | Some u =>
      match Y with
      | String x (String y (String k1 (String k2 (String k3 (String k4 r))))) =>
          if Ascii.eqb x backslash && Ascii.eqb y "u" then
            match hex4 k1 k2 k3 k4 with
            | Some u2 => match surrogate_pair u u2 with
                         | Some v => emit (encode_rune v) (pstring r)
                         | None => emit (encode_rune u) (pstring Y)
                         end
            | None => None
            end
          else emit (encode_rune u) (pstring Y)
      | _ => emit (encode_rune u) (pstring Y)
      end
  end.
Proof. reflexivity. Qed.

Lemma pstring_u1 h1 h2 h3 h4 Y : starts_u Y = false →
  pstring (String backslash (String "u" (String h1 (String h2 (String h3 (String h4 Y)))))) =
  match hex4 h1 h2 h3 h4 with
  | Some u => emit (encode_rune u) (pstring Y)
  | None => None
  end.
Proof.
  intros HY. rewrite pstring_u_gen. destruct (hex4 h1 h2 h3 h4); [|done].
  destruct Y as [|a [|b Y]]; [reflexivity..|]. simpl in HY. rewrite HY.
  do 4 (destruct Y as [|? Y]; [reflexivity|]). reflexivity.
Qed.

Lemma pstring_u2 h1 h2 h3 h4 k1 k2 k3 k4 Y :
  pstring (String backslash (String "u" (String h1 (String h2 (String h3 (String h4
    (String backslash (String "u" (String k1 (String k2 (String k3 (String k4 Y)))))))))))) =
  match hex4 h1 h2 h3 h4 with
  | Some u =>
      match hex4 k1 k2 k3 k4 with
      | Some u2 =>
          match surrogate_pair u u2 with
          | Some v => emit (encode_rune v) (pstring Y)
          | None => emit (encode_rune u) (pstring (String backslash (String "u"
                      (String k1 (String k2 (String k3 (String k4 Y)))))))
          end
      | None => None
      end
  | None => None
  end.
Proof. reflexivity. Qed.

Lemma starts_u_app Y q x : pstring Y = Some x → starts_u (Y +:+ q) = starts_u Y.
Proof.
  destruct Y as [|a [|b Y]]; [done| |done]. intros H. rewrite app_cons_str.
  destruct (Ascii.eqb_spec a backslash) as [->|Ha]; [done|].
  simpl. destruct ("" +:+ q); [done|]. by destruct (Ascii.eqb_spec a backslash).
Qed.

Lemma starts_u_inv Y x : pstring Y = Some x → starts_u Y = true →
  ∃ k1 k2 k3 k4 Y', Y = String backslash (String "u"
    (String k1 (String k2 (String k3 (String k4 Y'))))).
Proof.
  destruct Y as [|a [|b Y]]; [done..|]. simpl (starts_u _). intros H [Ha Hb]%andb_true_iff.
  apply Ascii.eqb_eq in Ha as ->. apply Ascii.eqb_eq in Hb as ->.
  do 4 (destruct Y as [|? Y]; [done|]). eauto 10.
Qed.

Lemma pstring_u_step h1 h2 h3 h4 Y t r :
  let s := String backslash (String "u" (String h1 (String h2 (String h3 (String h4 Y))))) in
  pstring s = Some (t, r) → lit_step s t r.
Proof.
  intros s H. destruct (starts_u Y) eqn:HY.
  - assert (∃ k1 k2 k3 k4 Y', Y = String backslash (String "u"
      (String k1 (String k2 (String k3 (String k4 Y')))))) as (k1 & k2 & k3 & k4 & Y' & ->).
    { subst s. rewrite pstring_u_gen in H. destruct (hex4 h1 h2 h3 h4); [|done].
      destruct Y as [|a [|b [|k1 [|k2 [|k3 [|k4 Y]]]]]]; [done|done|..|];
        try (apply emit_Some in H as (t' & Ht & _); by eapply starts_u_inv).
      simpl in HY. apply andb_true_iff in HY as [Ha Hb].
      apply Ascii.eqb_eq in Ha as ->. apply Ascii.eqb_eq in Hb as ->. eauto 10. }
    subst s. rewrite pstring_u2 in H.
    destruct (hex4 h1 h2 h3 h4) as [u|] eqn:Hu; [|done]. apply hex4_lt in Hu as Hu'.
    destruct (hex4 k1 k2 k3 k4) as [u2|] eqn:Hk; [|done].
    destruct (surrogate_pair u u2) as [v|] eqn:Hv; [apply surrogate_pair_lt in Hv as Hv'|].
    + apply (lit_emit_at _ _ _ _ _ H); [by apply whole_encode|simpl; lia|].
      intros _ q. rewrite !app_cons_str, pstring_u2, Hu, Hk. by rewrite Hv.
    + apply (lit_emit_at _ _ _ _ _ H); [apply whole_encode; lia|simpl; lia|].
      intros _ q. rewrite !app_cons_str, pstring_u2, Hu, Hk. by rewrite Hv.
  - subst s. rewrite pstring_u1 in H by done.
    destruct (hex4 h1 h2 h3 h4) as [u|] eqn:Hu; [|done]. apply hex4_lt in Hu as Hu'.
    apply (lit_emit_at _ _ _ _ _ H); [apply whole_encode; lia|simpl; lia|].
    intros Hs q. rewrite !app_cons_str, pstring_u1, Hu; [done|].
    by rewrite (starts_u_app _ _ _ Hs).
Qed.

Lemma pstring_step s t r : pstring s = Some (t, r) → lit_step s t r.
Proof.
  intros H. destruct (rune_viewP s) as [|a s Ha|a b s|a b c s|a b c d s|a s H0].
  - done.
  - rewrite pstring_eq1 in H by done. destruct (Ascii.eqb_spec a quote_char) as [->|].
    { simplify_eq. by apply lit_end. }
    destruct (Ascii.eqb_spec a backslash) as [->|].
    + destruct s as [|e s]; [done|]. destruct (Ascii.eqb_spec e "u") as [->|He].
      * do 4 (destruct s as [|? s]; [done|]). by apply pstring_u_step.
      * rewrite pstring_escape in H by done. destruct (simple_escape e) eqn:Hs; [|done].
        apply (lit_emit_at _ _ _ _ _ H); [by eapply whole_simple_escape|simpl; lia|].
        intros _ q. by rewrite !app_cons_str, pstring_escape, Hs.
    + destruct (byte_in 0 31 a) eqn:Hc; [done|].
      apply (lit_emit_at _ _ _ _ _ H); [by apply whole_rune|simpl; lia|].
      intros _ q. rewrite app_cons_str, pstring_eq1, Hc by done.
      by destruct (Ascii.eqb_spec a quote_char), (Ascii.eqb_spec a backslash).
  - rewrite pstring_eq2 in H by done.
    apply (lit_emit_at _ _ _ _ _ H); [by apply whole_rune|simpl; lia|].
    intros _ q. by rewrite !app_cons_str, pstring_eq2.
  - rewrite pstring_eq3 in H by done.
    apply (lit_emit_at _ _ _ _ _ H); [by apply whole_rune|simpl; lia|].
    intros _ q. by rewrite !app_cons_str, pstring_eq3.
  - rewrite pstring_eq4 in H by done.
    apply (lit_emit_at _ _ _ _ _ H); [by apply whole_rune|simpl; lia|].
    intros _ q. by rewrite !app_cons_str, pstring_eq4.
  - assert (Ha : some_ascii (String a s) = true).
    { destruct (some_ascii (String a s)) eqn:E; [done|]. by rewrite pstring_ascii in H. }
    cbn [pstring] in H. rewrite H0 in H.
    apply (lit_emit_at _ _ _ _ _ H); [apply whole_replacement|simpl; lia|].
    intros _ q. rewrite <-(rune_len_app _ q), app_cons_str in H0 by done.
    rewrite app_cons_str. cbn [pstring]. by rewrite H0.
Qed.

Lemma pstring_valid s t r : pstring s = Some (t, r) → ToValid t = t.
Proof.
  revert t. induction s as [s IH] using string_ind_len. intros t H.
  destruct (pstring_step _ _ _ H) as [_ ->|p s' t' Hp Hl Hs -> _]; [done|].
  by rewrite Hp, (IH s').
Qed.

Lemma pvalue_valid n :
  (∀ s v r, pvalue n s = Some (v, r) → sanitize v = v) ∧
  (∀ s vs r, pelems n s = Some (vs, r) → map sanitize vs = vs) ∧
  (∀ s ms r, pmembers n s = Some (ms, r) →
    map (λ '(k, x), (ToValid k, sanitize x)) ms = ms).
Proof.
  induction n as [|n (IHv & IHe & IHm)]; [done|]. split_and!; intros s v r; cbn [pvalue pelems pmembers].
  - destruct (skip s) as [|c s']; [done|].
    destruct (Ascii.eqb c "{").
    { destruct (expect _ s'); [by intros [= <- <-]|].
      destruct (pmembers n s') as [[ms r']|] eqn:E; [|done].
      intros [= <- <-]. simpl. f_equal. by eapply IHm. }
    destruct (Ascii.eqb c "[").
    { destruct (expect _ s'); [by intros [= <- <-]|].
      destruct (pelems n s') as [[ms r']|] eqn:E; [|done].
      intros [= <- <-]. simpl. f_equal. by eapply IHe. }
    destruct (Ascii.eqb c quote_char).
    { destruct (pstring s') as [[t r']|] eqn:E; [|done].
      intros [= <- <-]. simpl. f_equal. by eapply pstring_valid. }
    destruct (number_char c).
    { destruct (span_number _) as [tok r']. destruct (valid_number tok); [|done].
      by intros [= <- <-]. }
    unfold pliteral. repeat case_match; intros; by simplify_eq.
  - destruct (pvalue n s) as [[x r1]|] eqn:E; [|done]. apply IHv in E.
    destruct (expect "," r1).
    + destruct (pelems n s0) as [[vs r2]|] eqn:E2; [|done]. apply IHe in E2.
      intros [= <- <-]. simpl. by rewrite E, E2.
    + destruct (expect "]" r1); [|done]. intros [= <- <-]. simpl. by rewrite E.
  - destruct (expect quote_char s); [|done].
    destruct (pstring s0) as [[k r1]|] eqn:Ek; [|done]. apply pstring_valid in Ek.
    destruct (expect ":" r1); [|done].
    destruct (pvalue n s1) as [[x r3]|] eqn:E; [|done]. apply IHv in E.
    destruct (expect "," r3).
    + destruct (pmembers n s2) as [[ms r5]|] eqn:E2; [|done]. apply IHm in E2.
      intros [= <- <-]. simpl. by rewrite E, Ek, E2.
    + destruct (expect "}" r3); [|done]. intros [= <- <-]. simpl. by rewrite E, Ek.
Qed.

Lemma parse_valid s v : parse s = Some v → sanitize v = v.
Proof.
  unfold parse. destruct (pvalue _ s) as [[x r]|] eqn:E; [|done].
  case_match; intros [= <-]. by eapply pvalue_valid.
Qed.

(** ** A text cut short inside an object *)

Lemma pstring_app s t r q : pstring s = Some (t, r) → pstring (s +:+ q) = Some (t, r +:+ q).
Proof.
  revert t. induction s as [s IH] using string_ind_len. intros t H.
  destruct (pstring_step _ _ _ H) as [-> ->|p s' t' Hp Hl Hs -> Hq].
  - rewrite app_cons_str. reflexivity.
  - by rewrite Hq, (IH s' Hl t').
Qed.

Lemma skip_app s q c r : skip s = String c r → skip (s +:+ q) = String c (r +:+ q).
Proof.
  induction s as [|d s IH]; [done|]. rewrite app_cons_str. simpl.
  destruct (is_ws d); [done|]. intros [= -> ->]. done.
Qed.

Lemma expect_app c s r q : expect c s = Some r → expect c (s +:+ q) = Some (r +:+ q).
Proof.
  unfold expect. destruct (skip s) as [|d r'] eqn:E; [done|].
  rewrite (skip_app _ q _ _ E). destruct (Ascii.eqb d c); [|done]. by intros [= ->].
Qed.

Lemma expect_app_None c s q :
  skip s ≠ "" → expect c s = None → expect c (s +:+ q) = None.
Proof.
  unfold expect. destruct (skip s) as [|d r'] eqn:E; [done|].
  rewrite (skip_app _ q _ _ E). by destruct (Ascii.eqb d c).
Qed.

Lemma expect_skip c s r : expect c s = Some r → skip s ≠ "".
Proof. unfold expect. by destruct (skip s). Qed.

Lemma skip_ne s : skip s ≠ "" → s ≠ "".
Proof. by intros H ->. Qed.

Lemma span_number_cut s tok r q :
  span_number s = (tok, r) → r ≠ "" → span_number (s +:+ q) = (tok, r +:+ q).
Proof.
  revert tok. induction s as [|c s IH]; intros tok; [by intros [= <- <-]|].
  rewrite app_cons_str. simpl. destruct (number_char c).
  - destruct (span_number s) as [tok' r'] eqn:E. intros [= <- ->] Hr. by erewrite IH.
  - intros [= <- <-] _. by rewrite app_cons_str.
Qed.

Lemma CutPrefix_app p s r q : CutPrefix p s = Some r → CutPrefix p (s +:+ q) = Some (r +:+ q).
Proof. rewrite !CutPrefix_Some. intros ->. by rewrite app_assoc_str. Qed.

Lemma pliteral_app s v r q : pliteral s = Some (v, r) → pliteral (s +:+ q) = Some (v, r +:+ q).
Proof.
  destruct s as [|c s]; [done|]. rewrite app_cons_str. unfold pliteral.
  destruct (CutPrefix "null" (String c s)) as [r1|] eqn:E1.
  { rewrite <-app_cons_str. rewrite (CutPrefix_app _ _ _ q E1). by intros [= <- <-]. }
  destruct (CutPrefix "true" (String c s)) as [r1|] eqn:E2.
  { apply CutPrefix_Some in E2 as E3. rewrite app_cons_str in E3.
    rewrite <-app_cons_str, (CutPrefix_app _ _ _ q E2). injection E3 as -> _.
    by intros [= <- <-]. }
  destruct (CutPrefix "false" (String c s)) as [r1|] eqn:E3; [|done].
  apply CutPrefix_Some in E3 as E4. rewrite app_cons_str in E4.
  rewrite <-app_cons_str, (CutPrefix_app _ _ _ q E3). injection E4 as -> _.
  by intros [= <- <-].
Qed.

(** A number is the only value that more text can change. *)
Definition closed (v : json) : Prop := match v with JNum _ => False | _ => True end.

Lemma pvalue_app n :
  (∀ s v r q, pvalue n s = Some (v, r) → r ≠ "" ∨ closed v →
    pvalue n (s +:+ q) = Some (v, r +:+ q)) ∧
  (∀ s vs r q, pelems n s = Some (vs, r) → pelems n (s +:+ q) = Some (vs, r +:+ q)) ∧
  (∀ s ms r q, pmembers n s = Some (ms, r) → pmembers n (s +:+ q) = Some (ms, r +:+ q)).
Proof.
  assert (Hsk : ∀ n s, pelems n s ≠ None → skip s ≠ "").
  { intros [|[|m]] s; [done|done|]. cbn [pelems pvalue]. by destruct (skip s). }
  assert (Hskm : ∀ n s, pmembers n s ≠ None → skip s ≠ "").
  { intros [|m] s; [done|]. cbn [pmembers]. unfold expect. by destruct (skip s). }
  induction n as [|n (IHv & IHe & IHm)]; [done|].
  split_and!; intros s v r q; cbn [pvalue pelems pmembers].
  - destruct (skip s) as [|c s'] eqn:Es; [done|]. rewrite (skip_app _ q _ _ Es).
    destruct (Ascii.eqb c "{").
    { destruct (expect "}" s') eqn:Ee.
      - intros [= <- <-] _. by rewrite (expect_app _ _ _ q Ee).
      - destruct (pmembers n s') as [[ms r']|] eqn:E; [|done]. intros [= <- <-] _.
        rewrite expect_app_None, (IHm _ _ _ q E); [done| |done]. apply (Hskm n). by rewrite E. }
    destruct (Ascii.eqb c "[").
    { destruct (expect "]" s') eqn:Ee.
      - intros [= <- <-] _. by rewrite (expect_app _ _ _ q Ee).
      - destruct (pelems n s') as [[ms r']|] eqn:E; [|done]. intros [= <- <-] _.
        rewrite expect_app_None, (IHe _ _ _ q E); [done| |done]. apply (Hsk n). by rewrite E. }
    destruct (Ascii.eqb c quote_char).
    { destruct (pstring s') as [[t r']|] eqn:E; [|done]. intros [= <- <-] _.
      by rewrite (pstring_app _ _ _ q E). }
    destruct (number_char c).
    { destruct (span_number (String c s')) as [tok r'] eqn:E.
      destruct (valid_number tok) eqn:Hv; [|done]. intros [= <- <-] [Hr|[]].
      rewrite <-app_cons_str, (span_number_cut _ _ _ q E Hr). by rewrite Hv. }
    rewrite <-app_cons_str. intros H _. by apply pliteral_app.
  - destruct (pvalue n s) as [[x r1]|] eqn:E; [|done].
    destruct (expect "," r1) as [r2|] eqn:Ec.
    + destruct (pelems n r2) as [[vs r3]|] eqn:E2; [|done]. intros [= <- <-].
      rewrite (IHv _ _ _ q E) by (left; by eapply skip_ne, expect_skip).
      by rewrite (expect_app _ _ _ q Ec), (IHe _ _ _ q E2).
    + destruct (expect "]" r1) as [r2|] eqn:Eb; [|done]. intros [= <- <-].
      rewrite (IHv _ _ _ q E) by (left; by eapply skip_ne, expect_skip).
      by rewrite expect_app_None, (expect_app _ _ _ q Eb) by (done || by eapply expect_skip).
  - destruct (expect quote_char s) as [s1|] eqn:Eq; [|done].
    rewrite (expect_app _ _ _ q Eq).
    destruct (pstring s1) as [[k r1]|] eqn:Ek; [|done]. rewrite (pstring_app _ _ _ q Ek).
    destruct (expect ":" r1) as [r2|] eqn:Ecol; [|done]. rewrite (expect_app _ _ _ q Ecol).
    destruct (pvalue n r2) as [[x r3]|] eqn:E; [|done].
    destruct (expect "," r3) as [r4|] eqn:Ec.
    + destruct (pmembers n r4) as [[ms r5]|] eqn:E2; [|done]. intros [= <- <-].
      rewrite (IHv _ _ _ q E) by (left; by eapply skip_ne, expect_skip).
      by rewrite (expect_app _ _ _ q Ec), (IHm _ _ _ q E2).
    + destruct (expect "}" r3) as [r4|] eqn:Eb; [|done]. intros [= <- <-].
      rewrite (IHv _ _ _ q E) by (left; by eapply skip_ne, expect_skip).
      by rewrite expect_app_None, (expect_app _ _ _ q Eb) by (done || by eapply expect_skip).
Qed.

(** Fuel only helps. *)
Lemma pvalue_fuel n :
  (∀ s x m, n ≤ m → pvalue n s = Some x → pvalue m s = Some x) ∧
  (∀ s x m, n ≤ m → pelems n s = Some x → pelems m s = Some x) ∧
  (∀ s x m, n ≤ m → pmembers n s = Some x → pmembers m s = Some x).
Proof.
  induction n as [|n (IHv & IHe & IHm)]; [done|].
  split_and!; intros s x [|m] Hm; try lia; assert (Hnm : n ≤ m) by lia;
    cbn [pvalue pelems pmembers].
  - destruct (skip s) as [|c s']; [done|].
    destruct (Ascii.eqb c "{").
    { destruct (expect "}" s'); [done|].
      destruct (pmembers n s') as [[ms r']|] eqn:E; [|done]. by rewrite (IHm _ _ _ Hnm E). }
    destruct (Ascii.eqb c "["); [|done].
    destruct (expect "]" s'); [done|].
    destruct (pelems n s') as [[ms r']|] eqn:E; [|done]. by rewrite (IHe _ _ _ Hnm E).
  - destruct (pvalue n s) as [[y r1]|] eqn:E; [|done]. rewrite (IHv _ _ _ Hnm E).
    destruct (expect "," r1) as [r2|]; [|done].
    destruct (pelems n r2) as [[ms r']|] eqn:E2; [|done]. by rewrite (IHe _ _ _ Hnm E2).
  - destruct (expect quote_char s) as [s1|]; [|done].
    destruct (pstring s1) as [[k r1]|]; [|done].
    destruct (expect ":" r1) as [r2|]; [|done].
    destruct (pvalue n r2) as [[y r3]|] eqn:E; [|done]. rewrite (IHv _ _ _ Hnm E).
    destruct (expect "," r3) as [r4|]; [|done].
    destruct (pmembers n r4) as [[ms r']|] eqn:E2; [|done]. by rewrite (IHm _ _ _ Hnm E2).
Qed.

(** The empty text, and every text cut short inside a printed object, is
    refused. *)
Lemma parse_torn l p q :
  wf (JObj l) = true → print 0 (JObj l) = p +:+ q → q ≠ "" → parse p = None.
Proof.
  intros Hwf Hp Hq. destruct p as [|c p]; [done|].
  assert (c = "{"%char) as ->.
  { destruct l; [by injection Hp|]. rewrite print_obj, !app_cons_str in Hp. by injection Hp. }
  unfold parse. destruct (pvalue _ _) as [[v r]|] eqn:E; [|done]. exfalso.
  assert (Hc : closed v).
  { revert E. change (String "{" p) with ("{" +:+ p). rewrite pvalue_obj.
    destruct (expect "}" p); [by intros [= <- _]|].
    destruct (pmembers _ p) as [[ms r']|]; [|done]. by intros [= <- _]. }
  apply (proj1 (pvalue_app _)) with (q := q) in E; [|by right]. rewrite <-Hp in E.
  pose proof (pvalue_print (JObj l) (json_size (JObj l)) 0 "" Hwf (Nat.le_refl _) I) as Hfull.
  rewrite app_nil_r_str in Hfull.
  apply (proj1 (pvalue_fuel _)) with (m := json_size (JObj l) + S (String.length (String "{" p)))
    in E; [|lia].
  apply (proj1 (pvalue_fuel _)) with (m := json_size (JObj l) + S (String.length (String "{" p)))
    in Hfull; [|lia].
  rewrite Hfull in E. assert (Hr : r +:+ q = "") by congruence. by destruct r.
Qed.
