(* ===== verification/Codec.v ===== *)
(** The JSON form of the two files of [state.go]: [checkpoint] and
    [claimDevicesFile], as [json.MarshalIndent] writes them and [json.Unmarshal]
    reads them.

    A Go slice is [None] when it is nil ([null] in JSON).  The claims map is a
    [gmap]: [readClaimDevices] and [writeClaimDevices] both replace a nil map by
    an empty one.  Unmarshalling follows Go: field names match up to case, unknown
    members are ignored, [null] leaves a string, number or boolean as it is and
    makes a slice or map nil, and any mismatch of types makes the call return an
    error.  A member that occurs twice is decoded twice, onto the same place: the elements
    of a second array are decoded onto those of the first, which a [null] keeps.
    Marshalling these types cannot fail. *)

From Stdlib Require Import Ascii ZArith Lia.
From stdpp Require Import options.
From S2P Require Import Prelude GoStrings GoSort Types Sysfs Json JsonRound.

(** ** The data *)

Definition slice (A : Type) : Type := option (list A).

Definition elems {A} (s : slice A) : list A := default [] s.

(** [append(s, x)]. *)
Definition append {A} (s : slice A) (x : A) : slice A := Some (elems s ++ [x]).

Record checkpoint := mkCheckpoint { PreparedClaims : slice string }.

Record claimDevicesFile := mkClaimDevicesFile { Claims : gmap string (slice Device) }.

Definition zeroDevice : Device :=
  mkDevice "" "" "" "" "" "" 0 0 "" 0 "" "" 0 false.

(** ** Marshalling *)

Definition jint (z : Z) : json := JNum (Itoa z).

Definition encodeSlice {A} (enc : A → json) (s : slice A) : json :=
  match s with None => JNull | Some l => JArr (map enc l) end.

Definition encodeDevice (d : Device) : json :=
  JObj [("Name", JStr (Name d)); ("Type", JStr (DType d)); ("SoC", JStr (SoC d));
        ("Vendor", JStr (Vendor d)); ("Model", JStr (Model d)); ("KMD", JStr (KMD d));
        ("CoreCount", jint (CoreCount d)); ("ShaderCores", jint (ShaderCores d));
        ("DeviceNode", JStr (DeviceNode d)); ("MaxAllocations", jint (MaxAllocations d));
        ("Function", JStr (Function_ d)); ("Block", JStr (Block d));
        ("DeviceGID", jint (DeviceGID d)); ("DeviceGIDKnown", JBool (DeviceGIDKnown d))].

(** Map keys are written in increasing order. *)
Definition byKey {A} (a b : string * A) : Z := Compare (fst a) (fst b).

Definition sortedMembers {A} (m : gmap string A) : list (string * A) :=
  insertionSortCmpFunc byKey (map_to_list m).

Definition checkpointJSON (cp : checkpoint) : json :=
  JObj [("preparedClaims", encodeSlice JStr (PreparedClaims cp))].

Definition claimsJSON (f : claimDevicesFile) : json :=
  JObj [("claims",
    JObj (map (λ '(k, s), (k, encodeSlice encodeDevice s)) (sortedMembers (Claims f))))].

(** [json.MarshalIndent(cp, "", "  ")]. *)
Definition marshalCheckpoint (cp : checkpoint) : string := print 0 (checkpointJSON cp).

(** [json.MarshalIndent(file, "", "  ")] and the final newline. *)
Definition marshalClaims (f : claimDevicesFile) : string :=
  print 0 (claimsJSON f) +:+ String newline "".

(** ** Unmarshalling *)

(** [foldName]: the smallest rune of each case-folding class, as upper case;
    U+017F folds to S and U+212A to K. *)
Fixpoint foldName (s : string) : string :=
  match s with
  | String "226" (String "132" (String "170" s')) => String "K" (foldName s')
  | String "197" (String "191" s') => String "S" (foldName s')
  | String c s' => String (upper_byte c) (foldName s')
  | EmptyString => ""
  end.

Definition decodeString (old : string) (j : json) : option string :=
  match j with JStr s => Some s | JNull => Some old | _ => None end.

Definition decodeBool (old : bool) (j : json) : option bool :=
  match j with JBool b => Some b | JNull => Some old | _ => None end.

(** [strconv.ParseInt(text, 10, 64)] on the text of a JSON number. *)
Definition decodeInt (old : Z) (j : json) : option Z :=
  match j with JNum t => Atoi t | JNull => Some old | _ => None end.

(** A slice that is decoded onto: what it has, and what lies behind it in its array.  The
    elements of a JSON array are decoded onto [cells], and onto zero values after them. *)
Definition cells (A : Type) : Type := slice A * list A.

Fixpoint decodeElems {A} (dec : A → json → option A) (zero : A) (mem : list A) (l : list json)
    : option (list A) :=
  match l with
  | [] => Some []
  | j :: l =>
      a ← dec (hd zero mem) j;
      l' ← decodeElems dec zero (tl mem) l;
      Some (a :: l')
  end.

(** An empty array makes a new slice, [null] a nil one. *)
Definition decodeSlice {A} (dec : A → json → option A) (zero : A) (old : cells A) (j : json)
    : option (cells A) :=
  let mem := elems old.1 ++ old.2 in
  match j with
  | JNull => Some (None, [])
  | JArr [] => Some (Some [], [])
  | JArr l => l' ← decodeElems dec zero mem l; Some (Some l', drop (length l) mem)
  | _ => None
  end.

(** The struct field [name]: the members with its name, in order, on top of
    [old]. *)
Definition field {A} (name : string) (dec : A → json → option A) (old : A)
    (ms : list (string * json)) : option A :=
  foldl (λ acc '(k, x),
    if String.eqb (foldName k) (foldName name) then acc ≫= λ a, dec a x else acc) (Some old) ms.

Definition decodeDevice (j : json) : option Device :=
  match j with
  | JNull => Some zeroDevice
  | JObj ms =>
      name ← field "Name" decodeString "" ms;
      type ← field "Type" decodeString "" ms;
      soc ← field "SoC" decodeString "" ms;
      vendor ← field "Vendor" decodeString "" ms;
      model ← field "Model" decodeString "" ms;
      kmd ← field "KMD" decodeString "" ms;
      cores ← field "CoreCount" decodeInt 0%Z ms;
      shaders ← field "ShaderCores" decodeInt 0%Z ms;
      node ← field "DeviceNode" decodeString "" ms;
      maxAlloc ← field "MaxAllocations" decodeInt 0%Z ms;
      function ← field "Function" decodeString "" ms;
      block ← field "Block" decodeString "" ms;
      gid ← field "DeviceGID" decodeInt 0%Z ms;
      known ← field "DeviceGIDKnown" decodeBool false ms;
      Some (mkDevice name type soc vendor model kmd cores shaders node maxAlloc
              function block gid known)
  | _ => None
  end.

(** A map keeps its entries and takes the members of the object in order; a value is
    always decoded onto a zero one. *)
Definition decodeMap {A} (dec : json → option A) (old : gmap string A) (j : json)
    : option (gmap string A) :=
  match j with
  | JNull => Some ∅
  | JObj ms =>
      foldl (λ acc '(k, x), m ← acc; v ← dec x; Some (<[k := v]> m)) (Some old) ms
  | _ => None
  end.

(** A [[]Device] on a nil one: each element is decoded onto a zero device. *)
Definition decodeDevices (j : json) : option (slice Device) :=
  c ← decodeSlice (λ _, decodeDevice) zeroDevice (None, []) j;
  Some c.1.

Definition decodeCheckpoint (j : json) : option checkpoint :=
  match j with
  | JNull => Some (mkCheckpoint None)
  | JObj ms =>
      c ← field "preparedClaims" (decodeSlice decodeString "") (None, []) ms;
      Some (mkCheckpoint c.1)
  | _ => None
  end.

Definition decodeClaims (j : json) : option claimDevicesFile :=
  match j with
  | JNull => Some (mkClaimDevicesFile ∅)
  | JObj ms =>
      mkClaimDevicesFile <$> field "claims" (decodeMap decodeDevices) ∅ ms
  | _ => None
  end.

(** A [null] keeps what an earlier member left, behind the end of the slice too. *)
Example duplicate_members :
  decodeCheckpoint (JObj [("preparedClaims", JArr [JStr "a"; JStr "b"; JStr "c"]);
    ("preparedClaims", JArr [JNull]); ("preparedClaims", JArr [JNull; JNull; JStr "d"; JNull])]) =
  Some (mkCheckpoint (Some ["a"; "b"; "d"; ""])).
Proof. reflexivity. Qed.

(** [json.Unmarshal(data, &cp)] and [json.Unmarshal(data, &file)]; [None] is an
    error. *)
Definition unmarshalCheckpoint (data : string) : option checkpoint :=
  parse data ≫= decodeCheckpoint.

Definition unmarshalClaims (data : string) : option claimDevicesFile :=
  parse data ≫= decodeClaims.

(** ** Numbers read back *)

Lemma pretty_char_digit (d : N) : (d < 10)%N → digit (pretty_N_char d) = Some (Z.of_N d).
Proof.
  intros Hd. assert (d ∈ [0; 1; 2; 3; 4; 5; 6; 7; 8; 9]%N) as Hin
    by (do 10 (destruct d as [|d] using N.peano_ind; [set_solver|clear IHd]; try lia); set_solver).
  repeat (apply elem_of_cons in Hin as [->|Hin]; [done|]). by apply elem_of_nil in Hin.
Qed.

Lemma pretty_char_facts (d : N) : (d < 10)%N →
  is_digit (pretty_N_char d) = true ∧ ((0 < d)%N → pretty_N_char d ≠ "0"%char).
Proof.
  intros Hd. pose proof (pretty_char_digit d Hd) as H. unfold digit in H.
  split.
  - unfold is_digit, byte_in. by case_match.
  - intros Hp Hc. rewrite Hc in H. injection H as H. lia.
Qed.

(** The decimal text of a positive number: digits only, not starting with 0, of
    that value. *)
Lemma pretty_go x s : (0 < x)%N → drop_digits s = "" →
  ∃ c r, pretty_N_go x s = String c r ∧ c ≠ "0"%char ∧ is_digit c = true ∧
    drop_digits r = "" ∧ digits 0 (String c r) = digits (Z.of_N x) s.
Proof.
  revert s. induction (N.lt_wf_0 x) as [x _ IH]; intros s Hx Hs.
  rewrite pretty_N_go_step by done.
  assert (Hm : (x mod 10 < 10)%N) by (apply N.mod_lt; lia).
  pose proof (pretty_char_digit _ Hm) as Hd. destruct (pretty_char_facts _ Hm) as [Hi H0].
  pose proof (N.div_mod x 10 ltac:(lia)) as Hdm.
  destruct (decide (x / 10 = 0)%N) as [E|E].
  - rewrite E, pretty_N_go_0. eexists _, s. split_and!; [done|apply H0; lia|done..|].
    cbn [digits]. rewrite Hd. f_equal. lia.
  - destruct (IH (x / 10)%N) with (s := String (pretty_N_char (x mod 10)) s)
      as (c & r & -> & Hc & Hci & Hr & Hv); [apply N.div_lt; lia|lia|simpl; by rewrite Hi|].
    exists c, r. split_and!; [done..|]. rewrite Hv. cbn [digits]. rewrite Hd. f_equal. lia.
Qed.

Lemma Itoa_neg p : Itoa (Z.neg p) = String "-" (Itoa (Z.pos p)).
Proof. done. Qed.

Lemma Itoa_pos p : ∃ c r, Itoa (Z.pos p) = String c r ∧ c ≠ "0"%char ∧ is_digit c = true ∧
  drop_digits r = "" ∧ digits 0 (String c r) = Some (Z.pos p).
Proof. destruct (pretty_go (N.pos p) "") as (c & r & ? & ?); [done..|]. by exists c, r. Qed.

Lemma Atoi_digit c r : is_digit c = true →
  Atoi (String c r) = match digits 0 (String c r) with
                      | Some z => if is_int64 z then Some z else None
                      | None => None end.
Proof. destruct c as [[] [] [] [] [] [] [] []]; intros H; first [discriminate H | reflexivity]. Qed.

Lemma Atoi_Itoa z : is_int64 z = true → Atoi (Itoa z) = Some z.
Proof.
  intros Hz. destruct z as [|p|p]; [done|..].
  - destruct (Itoa_pos p) as (c & r & -> & _ & Hc & _ & Hv).
    by rewrite Atoi_digit, Hv, Hz.
  - rewrite Itoa_neg. destruct (Itoa_pos p) as (c & r & -> & _ & _ & _ & Hv).
    change (Atoi (String "-" (String c r))) with
      (match digits 0 (String c r) with
       | Some n => if is_int64 (- n) then Some (- n)%Z else None
       | None => None end). rewrite Hv. change (- Z.pos p)%Z with (Z.neg p). by rewrite Hz.
Qed.

Lemma valid_number_Itoa z : valid_number (Itoa z) = true.
Proof.
  assert (Hu : ∀ p, unsigned_number (Itoa (Z.pos p)) = true).
  { intros p. destruct (Itoa_pos p) as (c & r & -> & H0 & Hc & Hr & _). cbn [unsigned_number].
    destruct (Ascii.eqb_spec c "0"); [done|]. simpl. by rewrite Hc, Hr. }
  destruct z as [|p|p]; [done| |apply Hu].
  specialize (Hu p). destruct (Itoa_pos p) as (c & r & Hi & _ & Hc & _). rewrite Hi in *.
  cbn [valid_number]. by destruct (Ascii.eqb_spec c "-") as [->|].
Qed.

(** ** Round trips *)

(** What Go's writer keeps of a device: every byte of a text that is UTF-8. *)
Definition sanDevice (d : Device) : Device :=
  mkDevice (ToValid (Name d)) (ToValid (DType d)) (ToValid (SoC d)) (ToValid (Vendor d))
    (ToValid (Model d)) (ToValid (KMD d)) (CoreCount d) (ShaderCores d)
    (ToValid (DeviceNode d)) (MaxAllocations d) (ToValid (Function_ d)) (ToValid (Block d))
    (DeviceGID d) (DeviceGIDKnown d).

Definition sanSlice (s : slice Device) : slice Device := map sanDevice <$> s.

(** The integers of a device are Go [int64]s. *)
Definition device_ints (d : Device) : Prop :=
  is_int64 (CoreCount d) = true ∧ is_int64 (ShaderCores d) = true ∧
  is_int64 (MaxAllocations d) = true ∧ is_int64 (DeviceGID d) = true.

Lemma decodeInt_jint old z : is_int64 z = true → decodeInt old (jint z) = Some z.
Proof. apply Atoi_Itoa. Qed.

Lemma sanitize_device d :
  sanitize (encodeDevice d) =
  JObj [("Name", JStr (ToValid (Name d))); ("Type", JStr (ToValid (DType d)));
        ("SoC", JStr (ToValid (SoC d))); ("Vendor", JStr (ToValid (Vendor d)));
        ("Model", JStr (ToValid (Model d))); ("KMD", JStr (ToValid (KMD d)));
        ("CoreCount", jint (CoreCount d)); ("ShaderCores", jint (ShaderCores d));
        ("DeviceNode", JStr (ToValid (DeviceNode d)));
        ("MaxAllocations", jint (MaxAllocations d));
        ("Function", JStr (ToValid (Function_ d))); ("Block", JStr (ToValid (Block d)));
        ("DeviceGID", jint (DeviceGID d)); ("DeviceGIDKnown", JBool (DeviceGIDKnown d))].
Proof. reflexivity. Qed.

Lemma decode_encodeDevice d : device_ints d →
  decodeDevice (sanitize (encodeDevice d)) = Some (sanDevice d).
Proof.
  intros (H1 & H2 & H3 & H4). rewrite sanitize_device. cbv -[decodeInt jint ToValid is_int64].
  cbv -[decodeInt jint ToValid is_int64] in H1, H2, H3, H4.
  by rewrite !decodeInt_jint by done.
Qed.

Lemma decodeElems_encode {A} (dec : A → json → option A) zero (enc : A → json) (san : A → A)
    (P : A → Prop) l :
  (∀ old x, P x → dec old (sanitize (enc x)) = Some (san x)) → Forall P l →
  ∀ mem, decodeElems dec zero mem (map sanitize (map enc l)) = Some (map san l).
Proof.
  intros Hd. induction 1 as [|x l Hx Hl IH]; intros mem; [done|].
  cbn -[sanitize]. rewrite Hd by done. cbn -[sanitize]. by rewrite IH.
Qed.

Lemma decode_encodeSlice {A} (dec : A → json → option A) zero (enc : A → json) (san : A → A)
    (P : A → Prop) s :
  (∀ old x, P x → dec old (sanitize (enc x)) = Some (san x)) → Forall P (elems s) →
  decodeSlice dec zero (None, []) (sanitize (encodeSlice enc s)) = Some (map san <$> s, []).
Proof.
  intros Hd Hs. destruct s as [l|]; [|done].
  pose proof (decodeElems_encode dec zero enc san P l Hd Hs []) as Hl.
  destruct l as [|x l]; [done|].
  change ((l' ← decodeElems dec zero [] (map sanitize (map enc (x :: l)));
    Some (Some l', drop (length (map sanitize (map enc (x :: l)))) (@nil A))) =
    Some (Some (map san (x :: l)), [])).
  by rewrite Hl.
Qed.

Lemma wf_encodeSlice {A} (enc : A → json) s :
  (∀ x, wf (enc x) = true) → wf (encodeSlice enc s) = true.
Proof.
  intros He. destruct s as [l|]; [|done]. cbn. apply List.forallb_forall.
  intros j (x & <- & _)%in_map_iff. by rewrite He.
Qed.

Lemma wf_encodeDevice d : wf (encodeDevice d) = true.
Proof. cbn -[valid_number Itoa]. by rewrite !valid_number_Itoa. Qed.

Lemma wf_checkpoint cp : wf (checkpointJSON cp) = true.
Proof. cbn. by rewrite wf_encodeSlice. Qed.

Lemma field_one {A} name (dec : A → json → option A) old x :
  field name dec old [(name, x)] = dec old x.
Proof. unfold field. cbn [foldl]. by rewrite String.eqb_refl. Qed.

Lemma unmarshal_marshalCheckpoint cp :
  unmarshalCheckpoint (marshalCheckpoint cp) =
  Some (mkCheckpoint (map ToValid <$> PreparedClaims cp)).
Proof.
  unfold unmarshalCheckpoint, marshalCheckpoint. rewrite parse_print by apply wf_checkpoint.
  change (sanitize (checkpointJSON cp)) with
    (JObj [("preparedClaims", sanitize (encodeSlice JStr (PreparedClaims cp)))]).
  unfold mbind, option_bind, decodeCheckpoint. rewrite field_one.
  by rewrite (decode_encodeSlice _ _ _ ToValid (λ _, True)) by (done || by apply Forall_true).
Qed.

Lemma map_valid_id l : Forall (λ s, valid_utf8 s = true) l → map ToValid l = l.
Proof.
  induction 1 as [|s l Hs _ IH]; [done|]. cbn. rewrite IH. f_equal.
  by apply bool_decide_eq_true in Hs.
Qed.

(** ** Maps *)

Lemma decodeMap_foldl {A} (dec : json → option A) (enc : A → json) (san : A → A)
    (P : A → Prop) (l : list (string * A)) m :
  (∀ x, P x → dec (sanitize (enc x)) = Some (san x)) → Forall (λ kx, P kx.2) l →
  Forall (λ kx, valid_utf8 kx.1 = true) l →
  decodeMap dec m (sanitize (JObj (map (λ '(k, x), (k, enc x)) l))) =
  Some (foldl (λ m kx, <[kx.1 := san kx.2]> m) m l).
Proof.
  intros Hd. cbn. revert m. induction l as [|[k x] l IH]; intros m Hp Hk; [done|].
  apply Forall_cons in Hp as [Hx Hp], Hk as [Hkx Hk]. cbn in Hx, Hkx.
  apply bool_decide_eq_true in Hkx. cbn. rewrite Hd, Hkx by done. by apply IH.
Qed.

Lemma foldl_insert {A B} (f : A → B) (l : list (string * A)) (m : gmap string B) :
  NoDup l.*1 → (∀ k, k ∈ l.*1 → m !! k = None) →
  foldl (λ m kx, <[kx.1 := f kx.2]> m) m l = list_to_map (prod_map id f <$> l) ∪ m.
Proof.
  revert m. induction l as [|[k x] l IH]; intros m Hnd Hm; cbn; [by rewrite (left_id_L ∅ (∪))|].
  apply NoDup_cons in Hnd as [Hk Hnd]. rewrite IH; [|done|].
  - rewrite <-insert_union_l. rewrite <-insert_union_r; [done|].
    apply not_elem_of_list_to_map_1. rewrite <-list_fmap_compose.
    by erewrite list_fmap_ext.
  - intros k' Hk'. rewrite lookup_insert_ne by (by intros ->). apply Hm. by right.
Qed.

Lemma byKey_perm {A} (m : gmap string A) : sortedMembers m ≡ₚ map_to_list m.
Proof. apply insertionSort_perm. Qed.

Lemma sortedMembers_map {A B} (f : A → B) (m : gmap string A) :
  list_to_map (prod_map id f <$> sortedMembers m) = f <$> m.
Proof.
  rewrite <-(list_to_map_to_list (f <$> m)), map_to_list_fmap.
  apply list_to_map_proper; [|by rewrite byKey_perm].
  rewrite byKey_perm, <-list_fmap_compose.
  erewrite list_fmap_ext; [apply NoDup_fst_map_to_list|done].
Qed.

(** The keys of a claims file are UTF-8 and its integers [int64]s. *)
Definition claims_ok (f : claimDevicesFile) : Prop :=
  map_Forall (λ k s, valid_utf8 k = true ∧ Forall device_ints (elems s)) (Claims f).

Lemma wf_claims f : wf (claimsJSON f) = true.
Proof.
  cbn. rewrite andb_true_r. apply List.forallb_forall.
  intros [k j] ([k' x] & [= -> <-] & _)%in_map_iff.
  by rewrite (wf_encodeSlice _ _ wf_encodeDevice).
Qed.

Lemma unmarshal_marshalClaims f : claims_ok f →
  unmarshalClaims (marshalClaims f) = Some (mkClaimDevicesFile (sanSlice <$> Claims f)).
Proof.
  intros Hf. unfold unmarshalClaims, marshalClaims.
  rewrite parse_print_ws by (done || apply wf_claims).
  change (sanitize (claimsJSON f)) with (JObj [("claims",
    sanitize (JObj (map (λ '(k, s), (k, encodeSlice encodeDevice s)) (sortedMembers (Claims f)))))]).
  unfold mbind, option_bind, decodeClaims. rewrite field_one.
  assert (Hall : Forall (λ kx, valid_utf8 kx.1 = true ∧ Forall device_ints (elems kx.2))
    (sortedMembers (Claims f))).
  { rewrite byKey_perm. apply Forall_forall. intros [k s] Hks%elem_of_map_to_list.
    by apply Hf in Hks. }
  rewrite (decodeMap_foldl _ _ sanSlice (λ s, Forall device_ints (elems s))); cycle 1.
  - intros s Hs.
    change (decodeDevices (sanitize (encodeSlice encodeDevice s)) = Some (sanSlice s)).
    unfold decodeDevices. by rewrite (decode_encodeSlice (λ _, decodeDevice) zeroDevice
      encodeDevice sanDevice _ s (λ _, decode_encodeDevice) Hs).
  - eapply Forall_impl; [done|]. by intros ? [].
  - eapply Forall_impl; [done|]. by intros ? [].
  - cbn. rewrite foldl_insert, (right_id_L ∅ (∪)), sortedMembers_map; [done| |done].
    rewrite byKey_perm. apply NoDup_fst_map_to_list.
Qed.

(** ** What the reader accepts *)

Lemma sanitize_members ms : sanitize (JObj ms) = JObj ms →
  Forall (λ '(k, x), valid_utf8 k = true ∧ sanitize x = x) ms.
Proof.
  cbn. intros [= H]. induction ms as [|[k x] ms IH]; [done|].
  cbn in H. injection H as Hk Hx Hms. constructor; [|by apply IH].
  split; [by apply bool_decide_eq_true|done].
Qed.

Lemma sanitize_elements l : sanitize (JArr l) = JArr l → Forall (λ x, sanitize x = x) l.
Proof.
  cbn. intros [= H]. induction l as [|x l IH]; [done|].
  cbn in H. injection H as Hx Hl. constructor; [done|by apply IH].
Qed.

Lemma foldl_option {A B} (P : A → Prop) (Q : B → Prop) (f : option A → B → option A) l acc a :
  (∀ b, f None b = None) →
  (∀ a b a', P a → Q b → f (Some a) b = Some a' → P a') →
  (∀ a, acc = Some a → P a) → Forall Q l → foldl f acc l = Some a → P a.
Proof.
  intros Hn Hs. revert acc. induction l as [|b l IH]; intros acc Hacc Hl; cbn; [by apply Hacc|].
  apply Forall_cons in Hl as [Hb Hl]. apply IH; [|done].
  intros a' Ha'. destruct acc as [a0|]; [|by rewrite Hn in Ha'].
  by eapply Hs; [apply Hacc| |].
Qed.

Lemma field_inv {A} (P : A → Prop) name dec old ms (a : A) :
  P old → (∀ a x a', P a → sanitize x = x → dec a x = Some a' → P a') →
  Forall (λ '(k, x), valid_utf8 k = true ∧ sanitize x = x) ms →
  field name dec old ms = Some a → P a.
Proof.
  intros Hold Hdec Hms. unfold field.
  apply (foldl_option P (λ '(k, x), valid_utf8 k = true ∧ sanitize x = x)); [..|done].
  - intros [k x]. by case_match.
  - intros a0 [k x] a' Ha0 [_ Hx]. case_match; [by apply Hdec|by intros [= <-]].
  - by intros ? [= <-].
Qed.

Lemma decodeInt_range old j z :
  is_int64 old = true → decodeInt old j = Some z → is_int64 z = true.
Proof.
  intros Ho. destruct j; try done; [by intros [= <-]|]. cbn [decodeInt]. unfold Atoi.
  repeat case_match; intros; by simplify_eq.
Qed.

Lemma field_int name ms z : Forall (λ '(k, x), valid_utf8 k = true ∧ sanitize x = x) ms →
  field name decodeInt 0%Z ms = Some z → is_int64 z = true.
Proof.
  intros Hms. apply (field_inv (λ z, is_int64 z = true)); [done| |done].
  intros a x a' Ha _. by apply decodeInt_range.
Qed.

Lemma decodeString_valid old x s : valid_utf8 old = true → sanitize x = x →
  decodeString old x = Some s → valid_utf8 s = true.
Proof.
  intros Ho. destruct x; try done; cbn; [by intros _ [= <-]|].
  intros [= H] [= <-]. by apply bool_decide_eq_true.
Qed.

Lemma field_string name ms s : Forall (λ '(k, x), valid_utf8 k = true ∧ sanitize x = x) ms →
  field name decodeString "" ms = Some s → ToValid s = s.
Proof.
  intros Hms H. enough (Hs : valid_utf8 s = true) by (by apply bool_decide_eq_true in Hs). revert H.
  apply (field_inv (λ s, valid_utf8 s = true)); [done| |done].
  intros a x a' Ha. by apply decodeString_valid.
Qed.

(** A device the reader can give: UTF-8 texts and [int64] numbers. *)
Definition device_read (d : Device) : Prop := device_ints d ∧ sanDevice d = d.

Lemma decodeDevice_read j d : sanitize j = j → decodeDevice j = Some d → device_read d.
Proof.
  intros Hj. destruct j as [| | | | |ms]; try done.
  { by intros [= <-]. }
  apply sanitize_members in Hj. unfold decodeDevice, mbind, option_bind.
  repeat (match goal with |- context [field ?n ?f ?o ms] =>
    let E := fresh "E" in destruct (field n f o ms) eqn:E; [|done] end).
  intros [= <-]. split.
  - unfold device_ints. cbn. by split_and!; eapply field_int.
  - unfold sanDevice. cbn. by f_equal; eapply field_string.
Qed.

Lemma decodeElems_Forall {A} (P : A → Prop) (dec : A → json → option A) zero l :
  (∀ old x a, P old → sanitize x = x → dec old x = Some a → P a) → P zero →
  Forall (λ x, sanitize x = x) l →
  ∀ mem l', Forall P mem → decodeElems dec zero mem l = Some l' → Forall P l'.
Proof.
  intros Hd Hz. induction 1 as [|x l Hx Hl IH]; intros mem l' Hm; cbn; [by intros [= <-]|].
  destruct (dec (hd zero mem) x) as [a|] eqn:Ha; [|done].
  destruct (decodeElems dec zero (tl mem) l) as [k|] eqn:Hk; [|done].
  intros [= <-]. constructor.
  - apply (Hd (hd zero mem) x); [by destruct Hm|done..].
  - apply (IH (tl mem)); [by destruct Hm|done].
Qed.

Lemma decodeSlice_Forall {A} (P : A → Prop) (dec : A → json → option A) zero old j c :
  (∀ old x a, P old → sanitize x = x → dec old x = Some a → P a) → P zero →
  Forall P (elems old.1 ++ old.2) → sanitize j = j →
  decodeSlice dec zero old j = Some c → Forall P (elems c.1 ++ c.2).
Proof.
  intros Hd Hz Hold Hj. destruct j as [| | | |l|]; cbn [decodeSlice]; try done; [by intros [= <-]|].
  apply sanitize_elements in Hj. destruct l as [|x l]; [by intros [= <-]|].
  destruct (decodeElems dec zero _ (x :: l)) as [k|] eqn:E; [|done].
  intros [= <-]. apply Forall_app. split; [by eapply decodeElems_Forall|by apply Forall_drop].
Qed.

Lemma unmarshalCheckpoint_valid s cp :
  unmarshalCheckpoint s = Some cp → Forall (λ u, valid_utf8 u = true) (elems (PreparedClaims cp)).
Proof.
  unfold unmarshalCheckpoint. destruct (parse s) as [j|] eqn:Hj; [|done].
  apply parse_valid in Hj. cbn. destruct j as [| | | | |ms]; try done; cbn [decodeCheckpoint].
  { by intros [= <-]. }
  destruct (field _ _ _ ms) as [c|] eqn:E; [|done]. intros [= <-]. cbn.
  assert (Hall : Forall (λ u, valid_utf8 u = true) (elems c.1 ++ c.2)).
  { revert E. apply (field_inv (λ c, Forall (λ u, valid_utf8 u = true) (elems c.1 ++ c.2)));
      [done| |by apply sanitize_members].
    intros a x a' Ha Hx. apply decodeSlice_Forall; [|done..]. intros. by eapply decodeString_valid. }
  by apply Forall_app in Hall as [? _].
Qed.

Lemma decodeMap_Forall {A} (P : string → A → Prop) (dec : json → option A) m j m' :
  map_Forall P m →
  (∀ k x a, valid_utf8 k = true → sanitize x = x → dec x = Some a → P k a) →
  sanitize j = j → decodeMap dec m j = Some m' → map_Forall P m'.
Proof.
  intros Hm Hd Hj. destruct j as [| | | | |ms]; cbn [decodeMap]; try done; [by intros [= <-]|].
  apply sanitize_members in Hj.
  apply (foldl_option (map_Forall P) (λ '(k, x), valid_utf8 k = true ∧ sanitize x = x));
    [by intros []| |by intros ? [= <-]|done].
  intros m0 [k x] m1 Hm0 [Hk Hx]. cbn. destruct (dec x) as [v|] eqn:E; [|done].
  intros [= <-]. apply map_Forall_insert_2; [by eapply Hd|done].
Qed.

Definition claims_read (f : claimDevicesFile) : Prop :=
  map_Forall (λ k s, valid_utf8 k = true ∧ Forall device_read (elems s)) (Claims f).

Lemma claims_read_ok f : claims_read f → claims_ok f.
Proof.
  intros Hf k s Hk. destruct (Hf k s Hk) as [? Hs]. split; [done|].
  eapply Forall_impl; [done|]. by intros ? [].
Qed.

Lemma unmarshalClaims_read s f : unmarshalClaims s = Some f → claims_read f.
Proof.
  unfold unmarshalClaims. destruct (parse s) as [j|] eqn:Hj; [|done].
  apply parse_valid in Hj. cbn. destruct j as [| | | | |ms]; try done; cbn [decodeClaims].
  { by intros [= <-]. }
  destruct (field _ _ _ ms) as [m|] eqn:E; [|done]. intros [= <-]. unfold claims_read. cbn.
  revert E. apply (field_inv (map_Forall _)); [done| |by apply sanitize_members].
  intros a x a' Ha Hx. apply decodeMap_Forall; [done| |done].
  intros k y v Hk Hy Hv. split; [done|].
  revert Hv. unfold decodeDevices. destruct (decodeSlice _ _ _ y) as [c|] eqn:E; [|done].
  intros [= <-]. eapply (decodeSlice_Forall device_read), Forall_app in E as [Hc _]; [exact Hc|..].
  - intros. by eapply decodeDevice_read.
  - done.
  - done.
  - done.
Qed.

(** ** A checkpoint cut short *)

Lemma unmarshalCheckpoint_torn cp p q :
  marshalCheckpoint cp = p +:+ q → q ≠ "" → unmarshalCheckpoint p = None.
Proof.
  intros Hp Hq. unfold unmarshalCheckpoint.
  by rewrite (parse_torn _ p q (wf_checkpoint cp) Hp Hq).
Qed.

Lemma ToValid_idem s : ToValid (ToValid s) = ToValid s.
Proof. exact (pstring_valid _ _ _ (pstring_quote_body s "")). Qed.

Lemma valid_ToValid s : valid_utf8 (ToValid s) = true.
Proof. apply bool_decide_eq_true, ToValid_idem. Qed.

Lemma sanDevice_read d : device_ints d → device_read (sanDevice d).
Proof. intros Hd. split; [done|]. unfold sanDevice. cbn. by rewrite !ToValid_idem. Qed.
