(* ===== verification/Ranges.v ===== *)
(** What discovery promises to the components that publish and store its
    devices: names are made of lower-case letters, digits and dashes, and numbers are
    Go [int64]s. *)

From Stdlib Require Import Ascii ZArith Lia.
From stdpp Require Import options.
From S2P Require Import Prelude GoStrings GoSort Consts Types Sysfs Accel Video Enumerate.
From S2P Require Import Json JsonRound Codec.

(** ** Names *)

Definition label_char (c : ascii) : bool :=
  byte_in 97 122 c || is_digit c || Ascii.eqb c "-".

Fixpoint all_chars (p : ascii → bool) (s : string) : bool :=
  match s with
  | EmptyString => true
  | String c r => p c && all_chars p r
  end.

Lemma all_chars_app p a b : all_chars p (a +:+ b) = all_chars p a && all_chars p b.
Proof.
  induction a as [|c a IH]; [done|]. rewrite app_cons_str. cbn [all_chars].
  by rewrite IH, andb_assoc.
Qed.

Lemma all_chars_impl (p q : ascii → bool) s :
  (∀ c, p c = true → q c = true) → all_chars p s = true → all_chars q s = true.
Proof.
  intros Hpq. induction s as [|c s IH]; [done|]. cbn. rewrite !andb_true_iff. intros [Hc Hs]. auto.
Qed.

Lemma all_digits s : drop_digits s = "" → all_chars is_digit s = true.
Proof.
  induction s as [|c s IH]; [done|]. cbn. by destruct (is_digit c).
Qed.

Lemma Itoa_label n : (0 ≤ n)%Z → all_chars label_char (Itoa n) = true.
Proof.
  intros Hn. destruct n as [|p|p]; [done| |lia].
  destruct (Itoa_pos p) as (c & r & -> & _ & Hc & Hr & _).
  apply (all_chars_impl is_digit).
  - intros d Hd. unfold label_char. rewrite Hd. by rewrite orb_true_r.
  - cbn. by rewrite Hc, all_digits.
Qed.

Lemma ascii_valid s : all_chars (byte_in 0 127) s = true → valid_utf8 s = true.
Proof.
  intros H. apply bool_decide_eq_true. induction s as [|c s IH]; [done|].
  cbn [all_chars] in H. apply andb_true_iff in H as [Hc Hs].
  by rewrite ToValid_eq1, IH.
Qed.

Lemma label_valid s : all_chars label_char s = true → valid_utf8 s = true.
Proof.
  intros H. apply ascii_valid. revert H. apply all_chars_impl. intros c.
  unfold label_char, is_digit, byte_in.
  destruct (Ascii.eqb_spec c "-") as [->|]; [done|]. rewrite orb_false_r. lia.
Qed.

Lemma device_name_label d : device_wf d → Name d ≠ "" ∧ all_chars label_char (Name d) = true.
Proof.
  intros [Hk _ _ _]. destruct Hk as [-> _ _ _ _ _ | -> _ _ _ _ |n -> Hn _ Hb _ _|i -> _ _ _ _];
    [done|done| |].
  - split; [done|]. unfold vpuName. rewrite !all_chars_app, Itoa_label by done.
    assert (Hbl : Forall (λ b, all_chars label_char b = true) vpu_blocks) by (repeat constructor).
    rewrite Forall_forall in Hbl. by rewrite (Hbl _ Hb).
  - split; [done|]. unfold rgaName. rewrite all_chars_app, Itoa_label by lia. done.
Qed.

Lemma device_name_valid d : device_wf d → Name d ≠ "" ∧ valid_utf8 (Name d) = true.
Proof. intros Hd. destruct (device_name_label d Hd). split; [done|by apply label_valid]. Qed.

(** ** Numbers *)

Lemma is_int64_spec z : is_int64 z = true ↔ (- 2 ^ 63 ≤ z ≤ 2 ^ 63 - 1)%Z.
Proof. unfold is_int64, min_int64, max_int64. lia. Qed.

Lemma maxAllocOr_int64 o d :
  is_int64 o = true → is_int64 d = true → is_int64 (maxAllocOr o d) = true.
Proof. unfold maxAllocOr. by case_match. Qed.

Lemma applyNodeGID_ints fs d : snapshot_ok fs → device_ints d → device_ints (applyNodeGID fs d).
Proof.
  intros [Hgid _] Hd. unfold applyNodeGID, nodeGID.
  case_bool_decide; [done|]. destruct (Stat fs (DeviceNode d)) as [fi|] eqn:Hs; [|done].
  destruct (fi_gid fi) as [g|] eqn:Hg; [|done]. specialize (Hgid _ _ _ Hs Hg).
  destruct Hd as (? & ? & ? & _). split_and!; [done..|]. cbn. apply is_int64_spec. lia.
Qed.

Lemma countRocketCores_int64 fs root : snapshot_ok fs → is_int64 (countRocketCores fs root) = true.
Proof.
  intros [_ Hdir]. unfold countRocketCores. destruct (ReadDir fs _) as [l|] eqn:E; [|done].
  apply Hdir in E. rewrite countCores_length. apply is_int64_spec.
  pose proof (length_filter (λ e, isDriverControl e = false) l). lia.
Qed.

Lemma defaultNPU_int64 soc n : is_int64 n = true → is_int64 (defaultNPUMaxAllocations soc n) = true.
Proof. intros Hn. unfold defaultNPUMaxAllocations. by repeat case_match. Qed.

Section ranges.
Context `{GoSort}.

Lemma Enumerate_ints r cfg :
  fs_ok r → config_in_range cfg → Forall device_ints (Enumerate r cfg).
Proof.
  intros (Hp & _ & Hgid & _ & Hrgid) (Hn & Hg & Hv & Hr). unfold Enumerate.
  set (c := defaultConfig cfg). set (soc := detectSoC _ _).
  assert (Hmk : ∀ d, is_int64 (CoreCount d) = true → is_int64 (ShaderCores d) = true →
    is_int64 (MaxAllocations d) = true → DeviceGID d = 0%Z → device_ints d).
  { intros d ? ? ? Hd. split_and!; [done..|]. by rewrite Hd. }
  destruct (Mock c).
  - unfold mockDevices. rewrite !Forall_app.
    split_and!; case_match; try done; apply Forall_singleton; apply Hmk; try done; cbn;
      by apply maxAllocOr_int64.
  - rewrite !Forall_app. split_and!; case_match; try done.
    + unfold discoverNPU. case_match; [done|]. apply Forall_singleton, applyNodeGID_ints; [done|].
      apply Hmk; cbn; [by apply countRocketCores_int64|done| |done].
      apply maxAllocOr_int64; [done|]. by apply defaultNPU_int64, countRocketCores_int64.
    + unfold discoverGPU. case_match; [|done]. case_bool_decide; [done|].
      unfold gpuModelForSoC. destruct (_ || _); apply Forall_singleton, applyNodeGID_ints; try done;
        apply Hmk; cbn; try done; by apply maxAllocOr_int64.
    + apply Forall_lookup. intros i d. unfold discoverVPU. rewrite vpuDevices_lookup.
      destruct (SortFunc _ _ !! i); [|done]. intros [= <-].
      apply applyNodeGID_ints; [done|]. apply Hmk; cbn; try done. by apply maxAllocOr_int64.
    + apply Forall_lookup. intros i d. unfold discoverRGA. rewrite list_lookup_imap.
      destruct (SortFunc _ _ !! i); [|done]. intros [= <-].
      apply applyNodeGID_ints; [done|]. apply Hmk; cbn; try done. by apply maxAllocOr_int64.
Qed.

End ranges.
