(* ===== verification/GoFloat.v ===== *)
(** Go's [float64] and [float32], as far as the plugin uses them: conversions,
    [+], [/], and [time.Duration.Seconds].

    A float is a [spec_float] of the Standard Library: IEEE 754 with the precision and
    the largest exponent of the type, rounded to nearest even, and executable. *)

From Stdlib Require Import ZArith SpecFloat.
From stdpp Require Import options.
From S2P Require Import Prelude GoStrings.

Definition float64 : Type := spec_float.
Definition float32 : Type := spec_float.

#[export] Instance float_eq_dec : EqDecision spec_float.
Proof. solve_decision. Defined.

(** [float64(z)] of an integer. *)
Definition float64_of_int (z : Z) : float64 := binary_normalize 53 1024 z 0 false.

Definition add64 : float64 → float64 → float64 := SFadd 53 1024.
Definition div64 : float64 → float64 → float64 := SFdiv 53 1024.

(** [float32(x)]: the same number, rounded to 24 bits. *)
Definition float32_of (x : float64) : float32 :=
  match x with
  | S754_finite s m e => binary_normalize 24 128 (if s then Zneg m else Zpos m) e s
  | _ => x
  end.

(** ** time.Duration *)

Definition Second : Z := 1000000000.

(** [d.Seconds()]: whole seconds, and the rest divided by 1e9. *)
Definition Seconds (d : Z) : float64 :=
  let sec := Z.quot d Second in
  let nsec := Z.rem d Second in
  add64 (float64_of_int sec) (div64 (float64_of_int nsec) (float64_of_int Second)).

(** [t.Sub(u)] saturates at the bounds of [time.Duration]. *)
Definition Sub (t u : Z) : Z := Z.max min_int64 (Z.min max_int64 (t - u)).

(** [time.Since(start)], given what the clock reads. *)
Definition Since (start now : Z) : Z := Sub now start.

Lemma Since_int64 start now : is_int64 (Since start now) = true.
Proof.
  unfold is_int64, Since, Sub, min_int64, max_int64. apply andb_true_iff.
  rewrite !Z.leb_le. lia.
Qed.
