(* ===== verification/Effects.v ===== *)
(** Programs with effects, for the parts of the driver that read and write
    files.

    [prog A] is a Go function body that returns an [A]: the next system call and
    what happens with its answer.  [run] executes it on a [World], the files on
    disk and the CDI specs of the node; each effect consumes one [Answer], which says
    what the kernel does: fail, tear a write, order a map iteration, report a
    device node, tell the time.  When the answers run out the process is killed
    before the next effect, so a list of answers is also a crash point.  [wp] is the weakest
    precondition with a crash invariant: [wp I R p Q w] says that, with answers
    satisfying [R], [I] holds at every point a crash can leave the disk in, and [Q]
    at the end ([wp_run]). *)

From Stdlib Require Import ZArith.
From stdpp Require Import options.
From S2P Require Import Prelude GoStrings GoPath Types Sysfs.

(** ** Errors

    A Go [error] by its construction: a text, a wrapped error, or what a
    system call or library returns. *)
Inductive fs_error := ErrNotExist | ErrOther.

Inductive error :=
  | EText (s : string)
  | EWrap (msg : string) (e : error)
  | EFs (e : fs_error)
  | EJSON
  | ECDI.

#[export] Instance fs_error_eq_dec : EqDecision fs_error.
Proof. solve_decision. Defined.
#[export] Instance error_eq_dec : EqDecision error.
Proof. solve_decision. Defined.

(** ** CDI specs: the fields of [cdispec.Spec] the driver sets. *)
Record CDIDeviceNode := mkCDIDeviceNode { Path : string; HostPath : string }.
Record ContainerEdits := mkEdits { Env : list string; DeviceNodes : list CDIDeviceNode }.
Record CDIDevice := mkCDIDevice { cd_Name : string; cd_Edits : ContainerEdits }.
Record Spec := mkSpec { Version : string; Kind : string; SpecDevices : list CDIDevice }.

(** ** Effects *)

Inductive effect : Type → Type :=
  | EReadFile (path : string) : effect (result fs_error string)
  (** [OpenFile] with [O_CREATE|O_TRUNC], the first step of [os.WriteFile]. *)
  | ETruncate (path : string) : effect (option fs_error)
  (** [File.Write] at the end of the file. *)
  | EWrite (path data : string) : effect (option fs_error)
  | EChmod (path : string) : effect (option fs_error)
  | EClose (path : string) : effect (option fs_error)
  | ECreateTemp (dir prefix : string) : effect (result fs_error string)
  | ERename (src dst : string) : effect (option fs_error)
  | ERemove (path : string) : effect (option fs_error)
  | EStat (path : string) : effect (option FileInfo)
  | ENow : effect Z
  | EOrder : effect (list nat)
  | ESysfs : effect Reading
  | EWriteSpec (name : string) (spec : Spec) : effect (option fs_error)
  | ERemoveSpec (name : string) : effect (option fs_error).

Record World := mkWorld {
  files : gmap string string;
  specs : gmap string Spec
}.

(** What the outside does at one effect.  [ans_cut] is the number of bytes a
    failing write leaves, [ans_left] what a failing spec operation leaves under
    its name, [ans_random] the number in a temporary name, [ans_stat] the answers of
    [os.Stat] at that moment. *)
Record Answer := mkAnswer {
  ans_fail : bool;
  ans_cut : nat;
  ans_left : option Spec;
  ans_random : Z;
  ans_order : list nat;
  ans_time : Z;
  ans_stat : string → option FileInfo;
  ans_sysfs : Reading
}.

(** The clock is never Go's zero time, and the file system is in range. *)
Definition answer_ok (a : Answer) : Prop := ans_time a ≠ 0%Z ∧ fs_ok (ans_sysfs a).

Definition set_file (p : string) (c : string) (w : World) : World :=
  mkWorld (<[p := c]> (files w)) (specs w).
Definition drop_file (p : string) (w : World) : World :=
  mkWorld (delete p (files w)) (specs w).

Fixpoint take_str (n : nat) (s : string) : string :=
  match n, s with
  | S n, String c s => String c (take_str n s)
  | _, _ => ""
  end.

Definition exec {B} (e : effect B) (a : Answer) (w : World) : World * B :=
  match e in effect B return World * B with
  | EReadFile p =>
      (w, if ans_fail a then Err ErrOther
          else match files w !! p with Some c => Ok c | None => Err ErrNotExist end)
  | ETruncate p =>
      if ans_fail a then (w, Some ErrOther) else (set_file p "" w, None)
  | EWrite p data =>
      let old := default "" (files w !! p) in
      if ans_fail a then (set_file p (old +:+ take_str (ans_cut a) data) w, Some ErrOther)
      else (set_file p (old +:+ data) w, None)
  | EChmod p => (w, if ans_fail a then Some ErrOther else None)
  | EClose p => (w, if ans_fail a then Some ErrOther else None)
  | ECreateTemp dir prefix =>
      let name := temp_name dir prefix (ans_random a) in
      if ans_fail a || (ans_random a <? 0)%Z || bool_decide (is_Some (files w !! name))
      then (w, Err ErrOther) else (set_file name "" w, Ok name)
  | ERename src dst =>
      match ans_fail a, files w !! src with
      | false, Some c => (set_file dst c (drop_file src w), None)
      | _, _ => (w, Some ErrOther)
      end
  | ERemove p => if ans_fail a then (w, Some ErrOther) else (drop_file p w, None)
  | EStat p => (w, ans_stat a p)
  | ENow => (w, ans_time a)
  | EOrder => (w, ans_order a)
  | ESysfs => (w, ans_sysfs a)
  | EWriteSpec name spec =>
      if ans_fail a
      then (mkWorld (files w) (partial_alter (λ _, ans_left a) name (specs w)), Some ErrOther)
      else (mkWorld (files w) (<[name := spec]> (specs w)), None)
  | ERemoveSpec name =>
      if ans_fail a
      then (mkWorld (files w) (partial_alter (λ _, ans_left a) name (specs w)), Some ErrOther)
      else (mkWorld (files w) (delete name (specs w)), None)
  end.

(** ** Programs *)

Inductive prog (A : Type) : Type :=
  | Ret (a : A)
  | Do {B : Type} (e : effect B) (k : B → prog A).
Arguments Ret {A} a.
Arguments Do {A B} e k.

Fixpoint bind {A C} (p : prog A) (f : A → prog C) : prog C :=
  match p with
  | Ret a => f a
  | Do e k => Do e (λ b, bind (k b) f)
  end.

Definition perform {B} (e : effect B) : prog B := Do e Ret.

Notation "'let!' x := p 'in' q" := (bind p (λ x, q))
  (at level 10, x name, p at level 100, q at level 200) : go_scope.

(** [if err != nil { return ..., fmt.Errorf(msg + ": %w", err) }] and the rest. *)
Definition try {A B} (p : prog (result error A)) (wrap : error → error)
    (k : A → prog (result error B)) : prog (result error B) :=
  bind p (λ r, match r with Ok a => k a | Err e => Ret (Err (wrap e)) end).

(** The same for an operation that only returns an error. *)
Definition attempt {E B} (p : prog (option E)) (wrap : E → error)
    (k : prog (result error B)) : prog (result error B) :=
  bind p (λ r, match r with None => k | Some e => Ret (Err (wrap e)) end).

(** A [for] loop over a list. *)
Fixpoint for_each {A S} (l : list A) (s : S) (body : S → A → prog S) : prog S :=
  match l with
  | [] => Ret s
  | x :: l => bind (body s x) (λ s', for_each l s' body)
  end.

(** Executes [p]; [None] when it is killed before it returns. *)
Fixpoint run {A} (p : prog A) (answers : list Answer) (w : World) : World * option A :=
  match p with
  | Ret a => (w, Some a)
  | Do e k =>
      match answers with
      | [] => (w, None)
      | a :: rest => let '(w', b) := exec e a w in run (k b) rest w'
      end
  end.

(** A run of a sequence is a run of each part, on what the first part left of the
    answers. *)
Lemma run_bind {A C} (p : prog A) (f : A → prog C) answers w w' x :
  run (bind p f) answers w = (w', Some x) →
  ∃ a w1 rest, run p answers w = (w1, Some a) ∧ rest `suffix_of` answers ∧
    run (f a) rest w1 = (w', Some x).
Proof.
  revert answers w. induction p as [a|B e k IH]; intros answers w.
  - intros Hrun. by exists a, w, answers.
  - destruct answers as [|b rest]; [done|].
    change (run (bind (Do e k) f)) with (run (Do e (λ b, bind (k b) f))). cbn.
    destruct (exec e b w) as [w2 y]. intros (a & w1 & l & Hp & Hl & Hf)%IH.
    exists a, w1, l. split_and!; [done| |done]. by apply suffix_cons_r.
Qed.

(** A call whose value and error are only wrapped leaves the disk as it was. *)
Lemma run_try {A B} (p : prog (result error A)) wrap (k : A → prog (result error B)) g answers w :
  (∀ a, k a = Ret (Ok (g a))) →
  run (try p wrap k) answers w =
  let '(w', r) := run p answers w in
  (w', match r with
       | Some (Ok a) => Some (Ok (g a))
       | Some (Err e) => Some (Err (wrap e))
       | None => None
       end).
Proof.
  intros Hk. unfold try. revert answers w.
  induction p as [[a|e]|B' e k' IH]; intros answers w.
  - unfold bind. by rewrite Hk.
  - done.
  - destruct answers as [|a rest]; [done|].
    change (run (bind (Do e k') ?f)) with (run (Do e (λ b, bind (k' b) f))).
    cbn [run]. destruct (exec e a w) as [w1 b]. apply IH.
Qed.

(** ** Orders of map iteration *)

(** The order in which [range] visits a map: the entries permuted by [ord], which
    is ignored when it is not a permutation of the positions. *)
Definition permute {A} (ord : list nat) (l : list A) : list A :=
  if bool_decide (ord ≡ₚ seq 0 (length l)) then omap (M := list) (λ i, l !! i) ord else l.

Lemma omap_seq {A} (l : list A) : omap (M := list) (λ i, l !! i) (seq 0 (length l)) = l.
Proof.
  induction l as [|x l IH] using rev_ind; [done|].
  rewrite length_app, Nat.add_1_r, seq_S, omap_app. csimpl.
  rewrite list_lookup_middle by done. f_equal. rewrite <-IH at 2.
  assert (H : ∀ k, (∀ i, i ∈ k → i < length l) →
    omap (M := list) (λ i, (l ++ [x]) !! i) k = omap (M := list) (λ i, l !! i) k).
  { induction k as [|i k IHk]; intros Hk; [done|]. csimpl.
    rewrite lookup_app_l by (apply Hk; by left).
    rewrite IHk; [done|]. intros j Hj. apply Hk. by right. }
  apply H. intros i ?%elem_of_seq. lia.
Qed.

Lemma permute_perm {A} (ord : list nat) (l : list A) : permute ord l ≡ₚ l.
Proof.
  unfold permute. case_bool_decide as H; [|done].
  transitivity (omap (M := list) (λ i, l !! i) (seq 0 (length l))).
  - by rewrite H.
  - by rewrite omap_seq.
Qed.

(** ** Weakest preconditions *)

Section wp.
Context {I : World → Prop} {R : Answer → Prop}.

Fixpoint wp {A} (p : prog A) (Q : A → World → Prop) (w : World) : Prop :=
  I w ∧
  match p with
  | Ret a => Q a w
  | Do e k => ∀ a, R a → wp (k (exec e a w).2) Q (exec e a w).1
  end.

Lemma wp_crash {A} (p : prog A) Q w : wp p Q w → I w.
Proof. by destruct p; intros []. Qed.

Lemma wp_ret {A} (a : A) (Q : A → World → Prop) w : I w → Q a w → wp (Ret a) Q w.
Proof. by split. Qed.

Lemma wp_mono {A} (p : prog A) (Q Q' : A → World → Prop) w :
  wp p Q w → (∀ a w, I w → Q a w → Q' a w) → wp p Q' w.
Proof.
  intros H HQ. revert w H. induction p as [a|B e k IH]; intros w [HI H]; split; auto.
Qed.

Lemma wp_bind {A C} (p : prog A) (f : A → prog C) Q w :
  wp p (λ a w', wp (f a) Q w') w → wp (bind p f) Q w.
Proof.
  revert w. induction p as [a|B e k IH]; intros w [HI H]; [done|].
  split; [done|]. intros a Ha. by apply IH, H.
Qed.

Lemma wp_perform {B} (e : effect B) Q w :
  I w → (∀ a, R a → I (exec e a w).1 ∧ Q (exec e a w).2 (exec e a w).1) → wp (perform e) Q w.
Proof. intros HI H. split; [done|]. intros a Ha. destruct (H a Ha). by split. Qed.

(** One effect and the rest. *)
Lemma wp_do {B C} (e : effect B) (f : B → prog C) Q w :
  I w → (∀ a, R a → wp (f (exec e a w).2) Q (exec e a w).1) → wp (bind (perform e) f) Q w.
Proof. by split. Qed.

Lemma wp_attempt_do {E B} (e : effect (option E)) wrap (k : prog (result error B)) Q w :
  I w →
  (∀ a, R a → match (exec e a w).2 with
        | None => wp k Q (exec e a w).1
        | Some err => wp (Ret (Err (wrap err))) Q (exec e a w).1
        end) →
  wp (attempt (perform e) wrap k) Q w.
Proof.
  intros HI H. apply wp_do; [done|]. intros a Ha. specialize (H a Ha). by destruct (exec e a w).2.
Qed.

(** [wp] is sound for [run]. *)
Lemma wp_run {A} (p : prog A) Q w answers w' r :
  wp p Q w → Forall R answers → run p answers w = (w', r) →
  I w' ∧ match r with Some a => Q a w' | None => True end.
Proof.
  revert w answers. induction p as [a|B e k IH]; intros w answers [HI H]; cbn.
  - intros _ [= <- <-]. done.
  - destruct answers as [|a rest]; [by intros _ [= <- <-]|].
    intros [Ha Hrest]%Forall_cons. specialize (H a Ha). destruct (exec e a w) as [w1 b] eqn:E. by apply IH.
Qed.

Lemma wp_try {A B} (p : prog (result error A)) wrap (k : A → prog (result error B)) Q w :
  wp p (λ r w', match r with Ok a => wp (k a) Q w' | Err e => Q (Err (wrap e)) w' end) w →
  wp (try p wrap k) Q w.
Proof.
  intros H. apply wp_bind. eapply wp_mono; [exact H|].
  intros [a|e] w' HI HQ; [done|by apply wp_ret].
Qed.

Lemma wp_attempt {E B} (p : prog (option E)) wrap (k : prog (result error B)) Q w :
  wp p (λ r w', match r with None => wp k Q w' | Some e => Q (Err (wrap e)) w' end) w →
  wp (attempt p wrap k) Q w.
Proof.
  intros H. apply wp_bind. eapply wp_mono; [exact H|].
  intros [e|] w' HI HQ; [by apply wp_ret|done].
Qed.

(** The rule of the [for] loop: an invariant over the elements done. *)
Lemma wp_for {A S} (J : list A → S → World → Prop) (l : list A) (body : S → A → prog S) Q s w :
  I w → J [] s w →
  (∀ done_ x s w, I w → J done_ s w → x ∈ l →
    wp (body s x) (λ s' w', J (done_ ++ [x]) s' w') w) →
  (∀ s w, I w → J l s w → Q s w) →
  wp (for_each l s body) Q w.
Proof.
  intros HI HJ Hbody HQ.
  assert (Hgen : ∀ k d s w, l = d ++ k → I w → J d s w → wp (for_each k s body) Q w).
  { clear s w HI HJ. induction k as [|x k IH]; intros d s w Hl HI HJ.
    - rewrite app_nil_r in Hl. subst d. apply wp_ret; auto.
    - cbn. apply wp_bind. eapply wp_mono.
      + apply Hbody; [done..|]. rewrite Hl. set_solver.
      + intros s' w' HI' HJ'. apply (IH (d ++ [x])); [|done..]. by rewrite <-app_assoc. }
  by apply (Hgen l []).
Qed.

End wp.

Lemma wp_weaken {A} (J J' : World → Prop) R (p : prog A) (Q Q' : A → World → Prop) w :
  wp (I := J) (R := R) p Q w → (∀ w, J w → J' w) → (∀ a w, Q a w → Q' a w) →
  wp (I := J') (R := R) p Q' w.
Proof.
  intros H HJ HQ. revert w H. induction p as [a|B e k IH]; intros w [HI H]; split; auto.
Qed.

Arguments wp I R {A} p Q w.
#[global] Arguments wp : simpl never.
#[global] Arguments bind : simpl never.
