(* ===== verification/Metrics.v ===== *)
(** [pkg/metrics/metrics.go] and [pkg/metrics/driver.go]: the metrics of the
    driver, their registration and the two observers.

    The metrics library is an interface, [MetricsAPI]: a registry, which gives each
    registered metric its series by label values.  Its laws are the library's documented
    behaviour: registering a name twice panics, [WithLabelValues] makes a series
    on its first use, [Inc], [Add] and [Observe] change that series only. *)

From Stdlib Require Import ZArith.
From stdpp Require Import options.
From S2P Require Import Prelude GoStrings GoFloat Effects.

(** ** Descriptions *)

Definition Namespace := "rockchip_dra".
Definition Subsystem := "driver".

Definition resultSuccess := "success".
Definition resultError := "error".

Inductive metricKind := KCounter | KCounterVec (labels : list string) | KHistogramVec (labels : list string).

(** [CounterOpts] and [HistogramOpts] with the constructor used; all have
    stability [BETA], and the histograms the default buckets. *)
Record Opts := mkOpts {
  mo_Kind : metricKind;
  mo_Namespace : string;
  mo_Subsystem : string;
  mo_Name : string;
  mo_Help : string
}.

#[export] Instance metricKind_eq_dec : EqDecision metricKind.
Proof. solve_decision. Defined.
#[export] Instance Opts_eq_dec : EqDecision Opts.
Proof. solve_decision. Defined.

Definition PrepareClaimsTotal : Opts :=
  mkOpts (KCounterVec ["result"]) Namespace Subsystem "prepare_claims_total"
    "Total number of resource claim prepare operations handled by the driver.".

Definition PrepareClaimDurationSeconds : Opts :=
  mkOpts (KHistogramVec ["result"]) Namespace Subsystem "prepare_claim_duration_seconds"
    "Latency in seconds of resource claim prepare operations handled by the driver.".

Definition UnprepareClaimsTotal : Opts :=
  mkOpts (KCounterVec ["result"]) Namespace Subsystem "unprepare_claims_total"
    "Total number of resource claim unprepare operations handled by the driver.".

Definition UnprepareClaimDurationSeconds : Opts :=
  mkOpts (KHistogramVec ["result"]) Namespace Subsystem "unprepare_claim_duration_seconds"
    "Latency in seconds of resource claim unprepare operations handled by the driver.".

Definition FatalBackgroundErrorsTotal : Opts :=
  mkOpts KCounter Namespace Subsystem "fatal_background_errors_total"
    "Total number of fatal background errors reported by the driver.".

Definition driverMetrics : list Opts :=
  [PrepareClaimsTotal; PrepareClaimDurationSeconds; UnprepareClaimsTotal;
   UnprepareClaimDurationSeconds; FatalBackgroundErrorsTotal].

(** ** The metrics library *)

Class MetricsAPI := {
  registry : Type;
  fqName : Opts → string;
  registered : registry → Opts → Prop;
  (** The value of a counter's series, and what a histogram's series was given. *)
  counter : registry → Opts → list string → option nat;
  observations : registry → Opts → list string → list float64;
  (** [None]: it panics. *)
  MustRegister : Opts → registry → option registry;
  Add : Opts → list string → nat → registry → registry;
  Observe : Opts → list string → float64 → registry → registry;
  fqName_inj o o' : mo_Namespace o = mo_Namespace o' → mo_Subsystem o = mo_Subsystem o' →
    fqName o = fqName o' → mo_Name o = mo_Name o';
  register_fresh o r : (∀ o', registered r o' → fqName o' ≠ fqName o) →
    ∃ r', MustRegister o r = Some r' ∧ (∀ o', registered r' o' ↔ registered r o' ∨ o' = o) ∧
      (∀ o' l, counter r' o' l = counter r o' l) ∧
      (∀ o' l, observations r' o' l = observations r o' l);
  unregistered o r l : ¬ registered r o → counter r o l = None ∧ observations r o l = [];
  registered_Add o l n r o' : registered (Add o l n r) o' ↔ registered r o';
  registered_Observe o l x r o' : registered (Observe o l x r) o' ↔ registered r o';
  counter_Add o l n r o' l' : registered r o →
    counter (Add o l n r) o' l' =
    if bool_decide (o' = o ∧ l' = l) then Some (default 0 (counter r o l) + n) else counter r o' l';
  observations_Add o l n r o' l' : observations (Add o l n r) o' l' = observations r o' l';
  counter_Observe o l x r o' l' : counter (Observe o l x r) o' l' = counter r o' l';
  observations_Observe o l x r o' l' : registered r o →
    observations (Observe o l x r) o' l' =
    if bool_decide (o' = o ∧ l' = l) then observations r o l ++ [x] else observations r o' l'
}.

Section metrics.
Context `{MetricsAPI}.
Implicit Type (r : registry).

Definition Inc (o : Opts) (l : list string) r : registry := Add o l 1 r.

(** [init]: [None] when the process panics before [main]. *)
Definition registerAll (os : list Opts) r : option registry :=
  foldl (λ acc o, acc ≫= MustRegister o) (Some r) os.

Definition init r : option registry :=
  r ← registerAll driverMetrics r;
  Some (foldl (λ r result,
    Add UnprepareClaimsTotal [result] 0 (Add PrepareClaimsTotal [result] 0 r)) r
    [resultSuccess; resultError]).

Definition resultOf (err : option error) : string :=
  match err with None => resultSuccess | Some _ => resultError end.

(** [duration] in nanoseconds. *)
Definition ObservePrepareClaim (err : option error) (duration : Z) r : registry :=
  let result := resultOf err in
  Observe PrepareClaimDurationSeconds [result] (Seconds duration)
    (Inc PrepareClaimsTotal [result] r).

Definition ObserveUnprepareClaim (err : option error) (duration : Z) r : registry :=
  let result := resultOf err in
  Observe UnprepareClaimDurationSeconds [result] (Seconds duration)
    (Inc UnprepareClaimsTotal [result] r).

(** ** Reading the metrics *)

Definition counted r (o : Opts) (result : string) : nat := default 0 (counter r o [result]).

Definition fatalErrors r : nat := default 0 (counter r FatalBackgroundErrorsTotal []).

(** The metrics of the driver are registered; both results have a series of each
    counter, and the latency of every counted operation was observed. *)
Definition agree r (total duration : Opts) : Prop :=
  ∀ result, result ∈ [resultSuccess; resultError] →
    counter r total [result] = Some (length (observations r duration [result])).

Record metrics_ok r : Prop := {
  mk_registered : Forall (registered r) driverMetrics;
  mk_prepare : agree r PrepareClaimsTotal PrepareClaimDurationSeconds;
  mk_unprepare : agree r UnprepareClaimsTotal UnprepareClaimDurationSeconds
}.

(** Before [init]: no metric has a name of the driver's. *)
Definition fresh_registry r : Prop :=
  ∀ o o', o ∈ driverMetrics → registered r o' → fqName o' ≠ fqName o.

(** ** Lemmas *)

Lemma registerAll_snoc os o r :
  registerAll (os ++ [o]) r = registerAll os r ≫= MustRegister o.
Proof. unfold registerAll. by rewrite foldl_app. Qed.

(** Registration succeeds when the names are new and distinct. *)
Lemma registerAll_ok os r :
  NoDup (fqName <$> os) → (∀ o o', o ∈ os → registered r o' → fqName o' ≠ fqName o) →
  ∃ r', registerAll os r = Some r' ∧ (∀ o', registered r' o' ↔ registered r o' ∨ o' ∈ os) ∧
    (∀ o' l, counter r' o' l = counter r o' l) ∧
    (∀ o' l, observations r' o' l = observations r o' l).
Proof.
  induction os as [|o os IH] using rev_ind; intros Hnd Hfresh.
  - exists r. split_and!; [done| |done..]. set_solver.
  - rewrite fmap_app in Hnd. apply NoDup_app in Hnd as (Hnd & Hdis & _).
    destruct IH as (r1 & Hr1 & Hreg & Hc & Ho); [done|set_solver|].
    destruct (register_fresh o r1) as (r2 & Hr2 & Hreg2 & Hc2 & Ho2).
    { intros o' [Hold|Hin]%Hreg Heq; [by apply (Hfresh o o'); [set_solver|..]|].
      apply (Hdis (fqName o')); [by apply list_elem_of_fmap_2|]. rewrite Heq. set_solver. }
    exists r2. rewrite registerAll_snoc, Hr1. cbn. split_and!; [done| |congruence..].
    intros o'. rewrite Hreg2, Hreg. set_solver.
Qed.

Lemma driverMetrics_names : NoDup (fqName <$> driverMetrics).
Proof.
  assert (Hn : NoDup (mo_Name <$> driverMetrics)) by by_compute.
  assert (Hs : ∀ o, o ∈ driverMetrics → mo_Namespace o = Namespace ∧ mo_Subsystem o = Subsystem)
    by (intros o Ho; unfold driverMetrics in Ho; repeat (apply elem_of_cons in Ho as [->|Ho];
      [done|]); by apply elem_of_nil in Ho).
  revert Hn Hs. induction driverMetrics as [|o os IH]; [by constructor|].
  rewrite !fmap_cons, !NoDup_cons. intros [Ho Hos] Hs. split; [|apply IH; set_solver].
  intros (o' & Heq & Hin)%list_elem_of_fmap. apply Ho.
  destruct (Hs o) as [Hn1 Hs1]; [set_solver|]. destruct (Hs o') as [Hn2 Hs2]; [set_solver|].
  apply fqName_inj in Heq; [|congruence..]. rewrite Heq. by apply list_elem_of_fmap_2.
Qed.

Lemma fresh_unused r o l : fresh_registry r → o ∈ driverMetrics → counter r o l = None ∧ observations r o l = [].
Proof. intros Hf Ho. apply unregistered. intros Hr. by apply (Hf o o Ho Hr). Qed.

Lemma metric_registered r o : Forall (registered r) driverMetrics → o ∈ driverMetrics → registered r o.
Proof. rewrite Forall_forall. auto. Qed.

(** [read_series] computes what a series is after additions and observations, given that
    the metrics of the driver are registered. *)
Ltac reg := rewrite ?registered_Observe, ?registered_Add; apply metric_registered; [done|by_compute].
Ltac read_series :=
  rewrite ?observations_Add, ?counter_Observe;
  repeat first [rewrite counter_Add by reg|rewrite observations_Observe by reg];
  rewrite ?observations_Add, ?counter_Observe.

(** All series of a fresh registry are empty. *)
Ltac unused Hnone :=
  repeat match goal with
  | |- context [counter ?r ?o ?l] => rewrite (proj1 (Hnone o l ltac:(by_compute)))
  | |- context [observations ?r ?o ?l] => rewrite (proj2 (Hnone o l ltac:(by_compute)))
  end.

Ltac results Hres :=
  apply elem_of_cons in Hres as [->|[->|[]%elem_of_nil]%elem_of_cons]; vm_compute.

(** Every process starts with both results of both counters at zero. *)
Lemma init_ok r :
  fresh_registry r → ∃ r', init r = Some r' ∧ metrics_ok r' ∧ fatalErrors r' = 0 ∧
    (∀ o result, o ∈ driverMetrics → counted r' o result = 0 ∧ observations r' o [result] = []).
Proof.
  intros Hf. destruct (registerAll_ok driverMetrics r driverMetrics_names) as (r1 & Hr1 & Hreg & Hc & Ho).
  { intros o o' Hin Hr. by apply Hf. }
  assert (Hall : Forall (registered r1) driverMetrics) by (apply Forall_forall; set_solver).
  assert (Hnone : ∀ o l, o ∈ driverMetrics → counter r1 o l = None ∧ observations r1 o l = []).
  { intros o l Hin. rewrite Hc, Ho. by apply fresh_unused. }
  unfold init. rewrite Hr1. cbn [foldl mbind option_bind]. eexists. split; [reflexivity|].
  split; [split|split].
  - eapply Forall_impl; [exact Hall|]. intros o Hr. by rewrite !registered_Add.
  - intros result Hres. read_series. unused Hnone. by results Hres.
  - intros result Hres. read_series. unused Hnone. by results Hres.
  - unfold fatalErrors. read_series. by unused Hnone.
  - intros o result Hin. unfold counted. read_series.
    destruct (Hnone o [result] Hin) as [-> ->]. unused Hnone. split; [|done].
    by repeat case_bool_decide.
Qed.

(** ** What an observation changes

    [ObservePrepareClaim] and [ObserveUnprepareClaim] have the same shape. *)
Section observe.
Context (total duration : Opts) (result : string) (x : float64).
Context (Htotal : total ∈ driverMetrics) (Hduration : duration ∈ driverMetrics).

Definition observed r : registry := Observe duration [result] x (Inc total [result] r).

Lemma observed_registered r o : registered (observed r) o ↔ registered r o.
Proof. unfold observed, Inc. by rewrite registered_Observe, registered_Add. Qed.

Lemma observed_counter r o l :
  Forall (registered r) driverMetrics →
  counter (observed r) o l =
  if bool_decide (o = total ∧ l = [result]) then Some (counted r total result + 1)
  else counter r o l.
Proof using Type*.
  intros Hr. unfold observed, Inc. rewrite counter_Observe, counter_Add; [done|].
  by apply metric_registered.
Qed.

Lemma observed_observations r o l :
  Forall (registered r) driverMetrics →
  observations (observed r) o l =
  if bool_decide (o = duration ∧ l = [result]) then observations r duration [result] ++ [x]
  else observations r o l.
Proof using Type*.
  intros Hr. unfold observed, Inc. rewrite observations_Observe.
  - by rewrite !observations_Add.
  - rewrite registered_Add. by apply metric_registered.
Qed.

Lemma observed_agree r :
  Forall (registered r) driverMetrics → agree r total duration → agree (observed r) total duration.
Proof using Type*.
  intros Hr Hag k Hk. rewrite observed_counter, observed_observations by done.
  specialize (Hag k Hk). destruct (decide (k = result)) as [->|Hne].
  - rewrite !bool_decide_eq_true_2 by done. unfold counted. rewrite Hag, length_app. done.
  - by rewrite !bool_decide_eq_false_2 by (by intros [_ [= ?]]).
Qed.

Lemma observed_agree_other r total' duration' :
  Forall (registered r) driverMetrics → total' ≠ total → duration' ≠ duration →
  agree r total' duration' → agree (observed r) total' duration'.
Proof using Type*.
  intros Hr Ht Hd Hag k Hk. rewrite observed_counter, observed_observations by done.
  rewrite !bool_decide_eq_false_2 by (by intros [? _]). by apply Hag.
Qed.

(** The counter of the result goes up by one, the other stays. *)
Lemma observed_counted r k :
  Forall (registered r) driverMetrics →
  counted (observed r) total k = counted r total k + (if bool_decide (k = result) then 1 else 0).
Proof using Type*.
  intros Hr. unfold counted at 1. rewrite observed_counter by done.
  destruct (decide (k = result)) as [->|Hne].
  - by rewrite !bool_decide_eq_true_2.
  - rewrite !bool_decide_eq_false_2 by (by first [intros [_ [= ?]]|done]). unfold counted. lia.
Qed.

End observe.

Lemma ObservePrepareClaim_ok err d r : metrics_ok r → metrics_ok (ObservePrepareClaim err d r).
Proof.
  intros [Hr Hp Hu]. split.
  - eapply Forall_impl; [exact Hr|]. intros o Ho. by apply observed_registered.
  - apply observed_agree; [by_compute..|done|done].
  - by apply observed_agree_other; [by_compute..|done|done|done|].
Qed.

Lemma ObserveUnprepareClaim_ok err d r : metrics_ok r → metrics_ok (ObserveUnprepareClaim err d r).
Proof.
  intros [Hr Hp Hu]. split.
  - eapply Forall_impl; [exact Hr|]. intros o Ho. by apply observed_registered.
  - by apply observed_agree_other; [by_compute..|done|done|done|].
  - apply observed_agree; [by_compute..|done|done].
Qed.

(** A fatal error. *)
Lemma IncFatal_ok r :
  metrics_ok r → metrics_ok (Inc FatalBackgroundErrorsTotal [] r) ∧
    fatalErrors (Inc FatalBackgroundErrorsTotal [] r) = S (fatalErrors r).
Proof.
  intros [Hr Hp Hu]. unfold Inc. split; [split|].
  - eapply Forall_impl; [exact Hr|]. intros o Ho. by apply registered_Add.
  - intros k Hk. read_series. by rewrite bool_decide_eq_false_2 by (by intros [? _]); apply Hp.
  - intros k Hk. read_series. by rewrite bool_decide_eq_false_2 by (by intros [? _]); apply Hu.
  - unfold fatalErrors at 1. read_series. rewrite bool_decide_eq_true_2 by done.
    unfold fatalErrors. cbn. lia.
Qed.

End metrics.

(** ** A metrics library

    Its registry keeps the metrics registered and, by metric and label values, the
    series; nothing is kept for a metric that is not registered. *)
Record plainRegistry := mkPlain {
  pm_registered : list Opts;
  pm_counter : Opts → list string → option nat;
  pm_observations : Opts → list string → list float64
}.

Definition emptyRegistry : plainRegistry := mkPlain [] (λ _ _, None) (λ _ _, []).

Definition plainName (o : Opts) : string :=
  mo_Namespace o +:+ "_" +:+ mo_Subsystem o +:+ "_" +:+ mo_Name o.

Program Definition plainMetrics : MetricsAPI := {|
  registry := plainRegistry;
  fqName := plainName;
  registered r o := o ∈ pm_registered r;
  counter r o l := if bool_decide (o ∈ pm_registered r) then pm_counter r o l else None;
  observations r o l := if bool_decide (o ∈ pm_registered r) then pm_observations r o l else [];
  MustRegister o r :=
    if bool_decide (plainName o ∈ plainName <$> pm_registered r) then None
    else Some (mkPlain (pm_registered r ++ [o])
      (λ o' l, if bool_decide (o' = o) then None else pm_counter r o' l)
      (λ o' l, if bool_decide (o' = o) then [] else pm_observations r o' l));
  Add o l n r := mkPlain (pm_registered r)
    (λ o' l', if bool_decide (o' = o ∧ l' = l) then Some (default 0 (pm_counter r o l) + n)
              else pm_counter r o' l') (pm_observations r);
  Observe o l x r := mkPlain (pm_registered r) (pm_counter r)
    (λ o' l', if bool_decide (o' = o ∧ l' = l) then pm_observations r o l ++ [x]
              else pm_observations r o' l')
|}.
Next Obligation.
  intros o o' Hn Hs. unfold plainName. rewrite Hn, Hs.
  intros Heq. by repeat apply app_str_inv_head in Heq.
Qed.
Next Obligation.
  intros o r Hf. cbn. rewrite bool_decide_eq_false_2.
  - eexists. split; [done|]. cbn. split; [|split].
    + intros o'. by rewrite elem_of_app, list_elem_of_singleton.
    + intros o' l. assert (Ho : o ∉ pm_registered r) by (intros Ho; by apply (Hf o)).
      destruct (decide (o' = o)) as [->|Hne].
      * rewrite (bool_decide_eq_true_2 (o = o)) by done. by repeat case_bool_decide.
      * rewrite (bool_decide_eq_false_2 (o' = o)) by done.
        rewrite (bool_decide_ext _ (o' ∈ pm_registered r)); [done|set_solver].
    + intros o' l. assert (Ho : o ∉ pm_registered r) by (intros Ho; by apply (Hf o)).
      destruct (decide (o' = o)) as [->|Hne].
      * rewrite (bool_decide_eq_true_2 (o = o)) by done. by repeat case_bool_decide.
      * rewrite (bool_decide_eq_false_2 (o' = o)) by done.
        rewrite (bool_decide_ext _ (o' ∈ pm_registered r)); [done|set_solver].
  - intros (o' & Heq & Hin)%list_elem_of_fmap. by apply (Hf o' Hin).
Qed.
Next Obligation. intros o r l Ho. cbn. by rewrite !bool_decide_eq_false_2. Qed.
Next Obligation. done. Qed.
Next Obligation. done. Qed.
Next Obligation. intros o l n r o' l' Ho. cbn. by repeat case_bool_decide; destruct_and?; simplify_eq. Qed.
Next Obligation. done. Qed.
Next Obligation. done. Qed.
Next Obligation. intros o l n r o' l' Ho. cbn. by repeat case_bool_decide; destruct_and?; simplify_eq. Qed.
