(* ===== verification/Health.v ===== *)
(** Device health, from [cmd/kubeletplugin/reconcile.go]: [trackedDevice], how a
    device that is enumerated or lost is assessed, and when it may be prepared.

    A [time.Time] is an integer whose zero is Go's zero time.  [time.Now] is the
    argument [now] of the functions that may read the clock. *)

From Stdlib Require Import ZArith.
From stdpp Require Import options.
From S2P Require Import Prelude GoStrings Consts Types Effects.

(** [kubeletplugin.HealthStatus], with the empty string of a device that was
    never assessed. *)
Inductive HealthStatus :=
  | HealthStatusUnset
  | HealthStatusHealthy
  | HealthStatusUnhealthy
  | HealthStatusUnknown.

#[export] Instance HealthStatus_eq_dec : EqDecision HealthStatus.
Proof. solve_decision. Defined.

Definition Time := Z.
Definition zeroTime : Time := 0%Z.
Definition IsZero (t : Time) : bool := (t =? 0)%Z.

Record trackedDevice := mkTracked {
  td_Device : Device;
  td_status : HealthStatus;
  td_message : string;
  td_nodeSeen : bool;
  td_taintedAt : Time;
  td_taintValue : string;
  td_retained : bool
}.

#[export] Instance trackedDevice_eq_dec : EqDecision trackedDevice.
Proof. solve_decision. Defined.

(** [trackedDevice{Device: d}]. *)
Definition newTracked (d : Device) : trackedDevice :=
  mkTracked d HealthStatusUnset "" false zeroTime "" false.

Definition td_Name (td : trackedDevice) : string := Name (td_Device td).

Definition markUnavailable (now : Time) (td : trackedDevice) (value message : string)
    : trackedDevice :=
  {| td_Device := td_Device td;
     td_status := HealthStatusUnhealthy;
     td_message := message;
     td_nodeSeen := td_nodeSeen td;
     td_taintedAt := if IsZero (td_taintedAt td) then now else td_taintedAt td;
     td_taintValue := value;
     td_retained := td_retained td |}.

Definition set_retained (td : trackedDevice) : trackedDevice :=
  {| td_Device := td_Device td; td_status := td_status td; td_message := td_message td;
     td_nodeSeen := td_nodeSeen td; td_taintedAt := td_taintedAt td;
     td_taintValue := td_taintValue td; td_retained := true |}.

(** [prev, had] is the optional previous entry. *)
Definition assessEnumerated (now : Time) (d : Device) (prev : option trackedDevice)
    (nodeOK : bool) : trackedDevice :=
  let nodeSeen := match prev with Some p => td_nodeSeen p | None => false end in
  let taintedAt := match prev with Some p => td_taintedAt p | None => zeroTime end in
  if nodeOK then mkTracked d HealthStatusHealthy "" true zeroTime "" false
  else if nodeSeen then
    markUnavailable now (mkTracked d HealthStatusUnset "" nodeSeen taintedAt "" false)
      TaintValueNodeMissing "device node missing"
  else mkTracked d HealthStatusUnknown "device node not yet present" nodeSeen zeroTime "" false.

(** The assessment of a claimed device that is not enumerated any more: the
    previous entry, or the snapshot after a restart. *)
Definition assessMissing (now : Time) (snap : Device) (prev : option trackedDevice)
    : trackedDevice :=
  set_retained (markUnavailable now (default (newTracked snap) prev)
    TaintValueNotDiscovered "device no longer discovered").

(** The error of [td.prepareError(mock, nodeExists)]. *)
Definition prepareError (td : trackedDevice) (mock nodeExists : bool) : option error :=
  if bool_decide (td_status td = HealthStatusUnhealthy) then
    Some (EText ("device " +:+ td_Name td +:+ " is unhealthy (" +:+ TaintUnhealthy +:+ "=" +:+
                 td_taintValue td +:+ "): " +:+ td_message td))
  else if negb mock && negb (bool_decide (DeviceNode (td_Device td) = "")) && negb nodeExists then
    Some (EText ("device " +:+ td_Name td +:+ " node " +:+ DeviceNode (td_Device td) +:+
                 " is not available"))
  else None.

(** The list [range] produces from the map in the order [ord]. *)
Definition trackedList (ord : list nat) (m : gmap string trackedDevice) : list trackedDevice :=
  permute ord (map_to_list m).*2.

(** [healthEqual]: every key of [a] is in [b] with the same status and message. *)
Definition healthSame (da db : trackedDevice) : Prop :=
  td_status da = td_status db ∧ td_message da = td_message db.

#[export] Instance healthSame_dec da db : Decision (healthSame da db).
Proof. unfold healthSame. apply _. Defined.

Definition healthEqual (a b : gmap string trackedDevice) : bool :=
  bool_decide (size a = size b) &&
  forallb (λ '(name, da),
    match b !! name with
    | Some db => bool_decide (healthSame da db)
    | None => false
    end) (map_to_list a).

(** [kubeletplugin.DeviceHealth]. *)
Record DeviceHealth := mkHealth {
  dh_PoolName : string;
  dh_DeviceName : string;
  dh_Health : HealthStatus;
  dh_LastUpdated : Time;
  dh_HealthCheckTimeout : Z;
  dh_Message : string
}.

(** [healthLease], in nanoseconds like every [time.Duration]. *)
Definition second : Z := 1000000000.
Definition healthLease : Z := 30 * second.
Definition defaultDiscoveryInterval : Z := 10 * second.
Definition healthResendInterval : Z := 15 * second.

(** The report of [healthReport] over the list of tracked devices. *)
Definition healthReportOf (nodeName : string) (now : Time) (devices : list trackedDevice)
    : list DeviceHealth :=
  map (λ td,
    let status := match td_status td with
                  | HealthStatusUnset => HealthStatusUnknown
                  | s => s
                  end in
    mkHealth nodeName (td_Name td) status now healthLease (td_message td)) devices.

(** ** What holds of every tracked device

    Its health fields agree: only an unhealthy device has a taint, which has a
    value, a time and a message; a node that exists was seen; only a lost device is
    retained. *)
Record tracked_wf (td : trackedDevice) : Prop := {
  twf_healthy : td_status td = HealthStatusHealthy →
    td_message td = "" ∧ td_taintedAt td = zeroTime ∧ td_taintValue td = "" ∧
    td_nodeSeen td = true ∧ td_retained td = false;
  twf_unknown : td_status td = HealthStatusUnknown →
    td_taintedAt td = zeroTime ∧ td_taintValue td = "" ∧ td_nodeSeen td = false ∧
    td_retained td = false;
  twf_unhealthy : td_status td = HealthStatusUnhealthy →
    td_taintedAt td ≠ zeroTime ∧
    td_taintValue td =
      (if td_retained td then TaintValueNotDiscovered else TaintValueNodeMissing);
  twf_set : td_status td ≠ HealthStatusUnset
}.

Lemma assessEnumerated_wf now d prev nodeOK :
  now ≠ zeroTime → tracked_wf (assessEnumerated now d prev nodeOK).
Proof.
  intros Hnow. unfold assessEnumerated. destruct nodeOK; [by split|].
  destruct prev as [p|]; [|by split]. destruct (td_nodeSeen p) eqn:Hseen; [|by split].
  split; try done. intros _. cbn. split; [|done].
  unfold IsZero. by destruct (Z.eqb_spec (td_taintedAt p) 0).
Qed.

Lemma assessMissing_wf now snap prev :
  now ≠ zeroTime → tracked_wf (assessMissing now snap prev).
Proof.
  intros Hnow. split; try done. intros _. cbn. split; [|done].
  unfold IsZero. by destruct (Z.eqb_spec (td_taintedAt (default (newTracked snap) prev)) 0).
Qed.

Lemma assessEnumerated_Device now d prev nodeOK :
  td_Device (assessEnumerated now d prev nodeOK) = d.
Proof. unfold assessEnumerated. by repeat case_match. Qed.

Lemma assessMissing_Device now snap prev :
  td_Device (assessMissing now snap prev) = match prev with Some p => td_Device p | None => snap end.
Proof. by destruct prev. Qed.

Lemma trackedList_perm ord m : trackedList ord m ≡ₚ (map_to_list m).*2.
Proof. apply permute_perm. Qed.

Lemma elem_of_trackedList ord m td : td ∈ trackedList ord m ↔ ∃ n, m !! n = Some td.
Proof.
  rewrite trackedList_perm, list_elem_of_fmap. split.
  - intros ([n td'] & -> & H%elem_of_map_to_list). eauto.
  - intros [n H]. exists (n, td). split; [done|]. by apply elem_of_map_to_list.
Qed.

Lemma healthEqual_spec a b :
  healthEqual a b = true ↔
  dom a = dom b ∧ ∀ n da db, a !! n = Some da → b !! n = Some db → healthSame da db.
Proof.
  unfold healthEqual. rewrite andb_true_iff, bool_decide_eq_true, List.forallb_forall.
  setoid_rewrite <-list_elem_of_In. split.
  - intros [Hsz Hall].
    assert (Hsub : ∀ n da, a !! n = Some da → ∃ db, b !! n = Some db ∧ healthSame da db).
    { intros n da Hn. specialize (Hall (n, da)). cbn in Hall.
      destruct (b !! n) as [db|].
      - exists db. split; [done|]. apply elem_of_map_to_list in Hn.
        by apply Hall, bool_decide_eq_true in Hn.
      - apply elem_of_map_to_list in Hn. by apply Hall in Hn. }
    split.
    + apply set_subseteq_size_eq.
      * intros n [da Hn]%elem_of_dom. apply Hsub in Hn as (db & Hb & _). by apply elem_of_dom.
      * rewrite !size_dom. lia.
    + intros n da db Ha Hb. apply Hsub in Ha as (db' & Hb' & ?). by simplify_eq.
  - intros [Hdom Hall]. split; [by rewrite <-!(size_dom (D := gset string)), Hdom|].
    intros [n da] Hn%elem_of_map_to_list.
    assert (n ∈ dom b) as [db Hb]%elem_of_dom by (rewrite <-Hdom; by apply elem_of_dom).
    rewrite Hb. apply bool_decide_eq_true. by eapply Hall.
Qed.
