(* ===== verification/Resources.v ===== *)
(** [cmd/kubeletplugin/devices.go]: the ResourceSlice content published for the
    tracked devices.

    The Kubernetes types are records of the fields the driver sets.
    [resource.Quantity] is outside the repository: the class [QuantityAPI] has the two
    constructors the driver calls, and the value a quantity stands for. *)

From Stdlib Require Import ZArith.
From stdpp Require Import options.
From S2P Require Import Prelude GoStrings GoSort Consts Types Health.

(** [resource.NewQuantity(v, DecimalSI)] has the value [v], [MustParse("1")] the
    value 1. *)
Class QuantityAPI := {
  Quantity : Type;
  NewQuantity : Z → Quantity;
  MustParse : string → Quantity;
  Value : Quantity → Z;
  Value_New z : Value (NewQuantity z) = z;
  Value_one : Value (MustParse "1") = 1%Z
}.

(** Quantities as integers, for the examples. *)
Definition integerQuantity : QuantityAPI := {|
  Quantity := Z;
  NewQuantity := id;
  MustParse s := default 0%Z (Atoi s);
  Value := id;
  Value_New z := eq_refl;
  Value_one := eq_refl
|}.

(** [resourceapi.DeviceAttribute]: one of its fields is set. *)
Inductive DeviceAttribute := StringValue (s : string) | IntValue (z : Z).

#[export] Instance DeviceAttribute_eq_dec : EqDecision DeviceAttribute.
Proof. solve_decision. Defined.

Inductive TaintEffect := NoExecute.

Record DeviceTaint := mkTaint {
  Key : string;
  TaintValue : string;
  Effect : TaintEffect;
  TimeAdded : option Time
}.

Section resources.
Context `{QuantityAPI} `{GoSort}.

Record CapacityRequestPolicyRange := mkRange {
  Min : Quantity;
  Max : option Quantity;
  Step : option Quantity
}.

Record CapacityRequestPolicy := mkPolicy {
  Default : Quantity;
  ValidRange : option CapacityRequestPolicyRange
}.

Record DeviceCapacity := mkCapacity {
  CapValue : Quantity;
  RequestPolicy : option CapacityRequestPolicy
}.

Record ResourceDevice := mkResourceDevice {
  rd_Name : string;
  Attributes : gmap string DeviceAttribute;
  AllowMultipleAllocations : option bool;
  Capacity : gmap string DeviceCapacity;
  Taints : list DeviceTaint
}.

Record Slice := mkSlice { Devices : list ResourceDevice }.
Record Pool := mkPool { Slices : list Slice }.
Record DriverResources := mkResources { Pools : gmap string Pool }.

Definition shareRequestPolicy (maxAlloc : Z) : CapacityRequestPolicy :=
  let one := MustParse "1" in
  if (maxAlloc <? 1)%Z then mkPolicy one None
  else mkPolicy one (Some (mkRange (MustParse "1") (Some (NewQuantity maxAlloc))
         (if (2 <=? maxAlloc)%Z then Some (MustParse "1") else None))).

(** The assignments [attrs[...] = ...] in the order of the source. *)
Definition set_if {V} (c : bool) (k : string) (v : V) (m : gmap string V) : gmap string V :=
  if c then <[k := v]> m else m.

Definition attributes (d : Device) : gmap string DeviceAttribute :=
  let attrs : gmap string DeviceAttribute :=
    list_to_map [(AttrType, StringValue (DType d)); (AttrVendor, StringValue (Vendor d));
                 (AttrModel, StringValue (Model d)); (AttrKMD, StringValue (KMD d));
                 (AttrDeviceNode, StringValue (DeviceNode d))] in
  let attrs := set_if (DeviceGIDKnown d) AttrDeviceGID (IntValue (DeviceGID d)) attrs in
  let attrs := set_if (negb (bool_decide (SoC d = ""))) AttrSoC (StringValue (SoC d)) attrs in
  let attrs := set_if (CoreCount d >? 0)%Z AttrCoreCount (IntValue (CoreCount d)) attrs in
  let attrs := set_if (ShaderCores d >? 0)%Z AttrShaderCores (IntValue (ShaderCores d)) attrs in
  let attrs := set_if (negb (bool_decide (Function_ d = ""))) AttrFunction
                 (StringValue (Function_ d)) attrs in
  set_if (negb (bool_decide (Block d = ""))) AttrBlock (StringValue (Block d)) attrs.

Definition toResourceDevice (td : trackedDevice) : ResourceDevice :=
  let d := td_Device td in
  {| rd_Name := Name d;
     Attributes := attributes d;
     AllowMultipleAllocations := Some true;
     Capacity := {[ CapacityShares :=
       mkCapacity (NewQuantity (MaxAllocations d)) (Some (shareRequestPolicy (MaxAllocations d))) ]};
     Taints :=
       if bool_decide (td_status td = HealthStatusUnhealthy) then
         [mkTaint TaintUnhealthy (td_taintValue td) NoExecute
            (if IsZero (td_taintedAt td) then None else Some (td_taintedAt td))]
       else [] |}.

Definition nameCompare (a b : trackedDevice) : Z := Compare (td_Name a) (td_Name b).

Definition devicesToResources (nodeName : string) (devices : list trackedDevice)
    : DriverResources :=
  mkResources {[ nodeName :=
    mkPool [mkSlice (map toResourceDevice (SortFunc nameCompare devices))] ]}.

(** The devices of the only slice of the pool [nodeName]. *)
Definition published (r : DriverResources) (nodeName : string) : list ResourceDevice :=
  match Pools r !! nodeName with
  | Some p => flat_map Devices (Slices p)
  | None => []
  end.

Lemma published_devices nodeName devices :
  published (devicesToResources nodeName devices) nodeName =
  map toResourceDevice (SortFunc nameCompare devices).
Proof.
  unfold published, devicesToResources. cbn. rewrite lookup_singleton_eq. cbn.
  by rewrite app_nil_r.
Qed.

End resources.

(** ** Order *)

Lemma nameCompare_le a b : cmp_le nameCompare a b ↔ String.le (td_Name a) (td_Name b).
Proof. apply Compare_nonneg. Qed.

Lemma nameCompare_weak l : weak_order nameCompare l.
Proof.
  split.
  - intros a b _ _ H. unfold nameCompare in *. rewrite Compare_neg in *.
    destruct (total String.le (td_Name a) (td_Name b)); naive_solver.
  - intros a b c _ _ _. rewrite !nameCompare_le. by intros ? ?; etransitivity.
Qed.

Lemma nameCompare_anti (l : list trackedDevice) a b :
  NoDup (td_Name <$> l) → a ∈ l → b ∈ l →
  cmp_le nameCompare a b → cmp_le nameCompare b a → a = b.
Proof.
  rewrite !nameCompare_le. intros Hnd Ha Hb Hab Hba.
  apply (NoDup_fmap_elem td_Name l); [done..|]. by apply (anti_symm String.le).
Qed.

(** The published list depends only on the set of devices, not on the order in which
    the map was visited. *)
Lemma devicesToResources_perm `{QuantityAPI} (S1 S2 : GoSort) node l k :
  NoDup (td_Name <$> l) → l ≡ₚ k →
  devicesToResources (H0 := S1) node l = devicesToResources (H0 := S2) node k.
Proof.
  intros Hnd Hp. unfold devicesToResources. do 6 f_equal.
  apply SortFunc_unique; [done|apply nameCompare_weak|].
  intros a b. by apply nameCompare_anti.
Qed.
