(* ===== verification/Cdi.v ===== *)
(** [cmd/kubeletplugin/cdi.go]: the CDI spec written for a claim and the
    device identifiers handed to the kubelet.

    The CDI library is outside the repository; [CDIAPI] has the functions the driver
    calls.  Its laws state their documentation: the name of a transient spec
    identifies the claim (a UID has no ['/'], which the library replaces), and a
    qualified name identifies the device. *)

From Stdlib Require Import Ascii ZArith.
From stdpp Require Import options.
From S2P Require Import Prelude GoStrings GoPath Consts Types Effects Health.

Class CDIAPI := {
  GenerateTransientSpecName : string → string → string → string;
  QualifiedName : string → string → string → string;
  MinimumRequiredVersion : Spec → result error string;
  NewCache : string → option error;
  specName_inj v c a b :
    no_byte slash a = true → no_byte slash b = true →
    GenerateTransientSpecName v c a = GenerateTransientSpecName v c b → a = b;
  QualifiedName_inj v c a b : QualifiedName v c a = QualifiedName v c b → a = b
}.

Definition cdiClass := "dra".

Record preparedDevice := mkPrepared {
  RequestNames : list string;
  PoolName : string;
  DeviceName : string;
  CDIDeviceIDs : list string;
  ShareID : option string;
  discovered : Device
}.

Record CDIHandler := mkHandler { driverName : string; mock : bool }.

Definition vendor (cdi : CDIHandler) : string := "k8s." +:+ driverName cdi.

Definition kind (cdi : CDIHandler) : string := vendor cdi +:+ "/" +:+ cdiClass.

Definition cdiDeviceName (claimUID deviceName shareID : string) : string :=
  let name := claimUID +:+ "-" +:+ deviceName in
  if bool_decide (shareID = "") then name else name +:+ "-" +:+ shareID.

Definition uidString (id : option string) : string :=
  match id with None => "" | Some s => s end.

Definition cdiEnvPrefix (d : Device) : string :=
  let prefix := "DRA_ROCKCHIP_" +:+ ToUpper (DType d) in
  if bool_decide (Block d = "") then prefix
  else prefix +:+ "_" +:+ ToUpper (ReplaceAll "-" "_" (Block d)).

(** [deviceEdits]; [node] is the answer of [os.Stat(d.DeviceNode)]. *)
Definition editsEnv (d : Device) : list string :=
  let prefix := cdiEnvPrefix d in
  ["DRA_ROCKCHIP_SOC=" +:+ SoC d; prefix +:+ "_KMD=" +:+ KMD d;
   prefix +:+ "_DEVICE=" +:+ DeviceNode d] ++
  (if DeviceGIDKnown d then [prefix +:+ "_GID=" +:+ Itoa (DeviceGID d)] else []).

Definition deviceEdits (d : Device) (mock : bool) : prog ContainerEdits :=
  let env := editsEnv d in
  if negb mock && negb (bool_decide (DeviceNode d = "")) then
    let! node := perform (EStat (DeviceNode d)) in
    Ret (mkEdits env (match node with
                      | Some _ => [mkCDIDeviceNode (DeviceNode d) (DeviceNode d)]
                      | None => []
                      end))
  else Ret (mkEdits env []).

Section cdi.
Context `{CDIAPI}.

(** [NewCDIHandler]; the cache is the spec directory of the world. *)
Definition NewCDIHandler (root driverName : string) (mock : bool) : result error CDIHandler :=
  match NewCache root with
  | Some e => Err (EWrap "unable to create a new CDI cache" e)
  | None => Ok (mkHandler driverName mock)
  end.

Definition GetClaimDevices (cdi : CDIHandler) (claimUID deviceName : string)
    (shareID : option string) : list string :=
  [QualifiedName (vendor cdi) cdiClass (cdiDeviceName claimUID deviceName (uidString shareID))].

Definition specNameOf (cdi : CDIHandler) (claimUID : string) : string :=
  GenerateTransientSpecName (vendor cdi) cdiClass claimUID.

Definition specDevice (claimUID : string) (device : preparedDevice) (edits : ContainerEdits)
    : CDIDevice :=
  mkCDIDevice (cdiDeviceName claimUID (DeviceName device) (uidString (ShareID device))) edits.

Definition CreateClaimSpecFile (cdi : CDIHandler) (claimUID : string)
    (devices : list preparedDevice) : prog (result error unit) :=
  let specName := specNameOf cdi claimUID in
  let! cdiDevices := for_each devices [] (λ acc device,
    let! edits := deviceEdits (discovered device) (mock cdi) in
    Ret (acc ++ [specDevice claimUID device edits])) in
  match MinimumRequiredVersion (mkSpec "" (kind cdi) cdiDevices) with
  | Err e => Ret (Err (EWrap "failed to get minimum required CDI spec version" e))
  | Ok version =>
      attempt (perform (EWriteSpec specName (mkSpec version (kind cdi) cdiDevices)))
        (λ _, ECDI) (Ret (Ok tt))
  end.

Definition DeleteClaimSpecFile (cdi : CDIHandler) (claimUID : string) : prog (result error unit) :=
  attempt (perform (ERemoveSpec (specNameOf cdi claimUID))) (λ _, ECDI) (Ret (Ok tt)).

End cdi.

(** A CDI library for the examples. *)
Definition plainNames : CDIAPI.
Proof.
  refine {| GenerateTransientSpecName v c a := v +:+ "-" +:+ c +:+ "_" +:+ a;
            QualifiedName v c a := v +:+ "/" +:+ c +:+ "=" +:+ a;
            MinimumRequiredVersion _ := Ok "0.3.0";
            NewCache _ := None |}.
  - intros v c a b _ _ H. by do 4 apply app_str_inv_head in H.
  - intros v c a b H. by do 4 apply app_str_inv_head in H.
Defined.

(** The edits of a device when [there] says which nodes [os.Stat] finds: the node is
    injected when it is found, unless the plugin mocks its devices. *)
Definition editsFor (there : string → bool) (d : Device) (mock : bool) : ContainerEdits :=
  mkEdits (editsEnv d)
    (if negb mock && negb (bool_decide (DeviceNode d = "")) && there (DeviceNode d)
     then [mkCDIDeviceNode (DeviceNode d) (DeviceNode d)] else []).

(** Whether [os.Stat] finds [path] at the moment of [a]. *)
Definition found_at (a : Answer) (path : string) : bool := bool_decide (is_Some (ans_stat a path)).

(** What a written spec says of a prepared device; [R] are the answers it was built
    with. *)
Definition edits_of (R : Answer → Prop) (d : Device) (mock : bool) (e : ContainerEdits) : Prop :=
  ∃ there, e = editsFor there d mock ∧
    (mock = false → DeviceNode d ≠ "" → ∃ a, R a ∧ there = found_at a).

Definition spec_entry (R : Answer → Prop) (cdi : CDIHandler) (claimUID : string)
    (p : preparedDevice) (d : CDIDevice) : Prop :=
  cd_Name d = cdiDeviceName claimUID (DeviceName p) (uidString (ShareID p)) ∧
  edits_of R (discovered p) (mock cdi) (cd_Edits d).

Definition spec_for `{CDIAPI} (R : Answer → Prop) (cdi : CDIHandler) (claimUID : string)
    (devices : list preparedDevice) (spec : Spec) : Prop :=
  Kind spec = kind cdi ∧
  MinimumRequiredVersion (mkSpec "" (kind cdi) (SpecDevices spec)) = Ok (Version spec) ∧
  Forall2 (spec_entry R cdi claimUID) devices (SpecDevices spec).

(** No node of these devices comes or goes while [R] answers. *)
Definition nodes_steady (R : Answer → Prop) (there : string → bool) (devices : list preparedDevice)
    : Prop :=
  ∀ a p, R a → p ∈ devices →
    found_at a (DeviceNode (discovered p)) = there (DeviceNode (discovered p)).

(** The spec entries when [there] are the nodes there are. *)
Definition specDevicesFor (cdi : CDIHandler) (claimUID : string) (there : string → bool)
    (devices : list preparedDevice) : list CDIDevice :=
  map (λ p, specDevice claimUID p (editsFor there (discovered p) (mock cdi))) devices.

(** Then the edits are known, and so is the whole spec. *)
Lemma edits_of_steady R there d m e :
  edits_of R d m e → (∀ a, R a → found_at a (DeviceNode d) = there (DeviceNode d)) →
  e = editsFor there d m.
Proof.
  intros (th & -> & Hth) Hst. unfold editsFor. f_equal.
  destruct m; [done|]. destruct (decide (DeviceNode d = "")) as [Hn|Hn].
  - by rewrite bool_decide_eq_true_2.
  - destruct (Hth eq_refl Hn) as (a & Ha & ->). by rewrite Hst.
Qed.

Lemma spec_for_steady `{CDIAPI} R there cdi uid devices spec :
  spec_for R cdi uid devices spec → nodes_steady R there devices →
  SpecDevices spec = specDevicesFor cdi uid there devices.
Proof.
  intros (_ & _ & Hall) Hst. unfold specDevicesFor.
  induction Hall as [|p d ps ds [Hn He] _ IH]; [done|]. cbn. f_equal.
  - destruct d as [n e]. unfold specDevice. cbn in *. f_equal; [done|].
    apply edits_of_steady with (R := R); [done|]. intros a Ha. apply Hst; [done|by left].
  - apply IH. intros a q Ha Hq. apply Hst; [done|by right].
Qed.

(** Two specs of the same devices, with the same nodes there, are the same. *)
Lemma spec_for_unique `{CDIAPI} R R' there cdi uid devices spec spec' :
  spec_for R cdi uid devices spec → spec_for R' cdi uid devices spec' →
  nodes_steady R there devices → nodes_steady R' there devices → spec' = spec.
Proof.
  intros Hs Hs' Hst Hst'. pose proof (spec_for_steady _ _ _ _ _ _ Hs Hst) as Hd.
  pose proof (spec_for_steady _ _ _ _ _ _ Hs' Hst') as Hd'.
  destruct Hs as (Hk & Hv & _), Hs' as (Hk' & Hv' & _). destruct spec, spec'; cbn in *.
  subst. congruence.
Qed.

Lemma wp_deviceEdits I R d m Q w :
  I w → (∀ e, edits_of R d m e → Q e w) → wp I R (deviceEdits d m) Q w.
Proof.
  intros HI HQ. unfold deviceEdits.
  destruct (negb m && negb (bool_decide (DeviceNode d = ""))) eqn:Hc.
  - apply wp_bind, wp_perform; [done|]. intros a Ha. split; [done|]. apply wp_ret; [done|].
    apply HQ. exists (found_at a). split; [|by eauto]. unfold editsFor, found_at. rewrite Hc. cbn.
    by destruct (ans_stat a _).
  - apply wp_ret; [done|]. apply HQ. exists (λ _, false). unfold editsFor. rewrite Hc.
    split; [done|]. intros -> Hn. by rewrite bool_decide_eq_false_2 in Hc.
Qed.

(** The spec operations touch only the spec of their claim. *)
Definition only_spec (name : string) (w w' : World) : Prop :=
  files w' = files w ∧ ∀ n, n ≠ name → specs w' !! n = specs w !! n.

Lemma wp_CreateClaimSpecFile `{CDIAPI} I R cdi uid devices Q w :
  I w →
  (∀ w' : World, only_spec (specNameOf cdi uid) w w' → I w') →
  (∀ r w', only_spec (specNameOf cdi uid) w w' →
    match r with
    | Ok _ => ∃ spec, specs w' !! specNameOf cdi uid = Some spec ∧ spec_for R cdi uid devices spec
    | Err _ => True
    end → Q r w') →
  wp I R (CreateClaimSpecFile cdi uid devices) Q w.
Proof.
  intros HI HI' HQ. unfold CreateClaimSpecFile. apply wp_bind.
  apply (wp_for (λ done_ acc w', w' = w ∧
    Forall2 (spec_entry R cdi uid) done_ acc)); [done|done| |].
  - intros ds x acc w0 HI0 [-> Hacc] _. apply wp_bind, wp_deviceEdits; [done|].
    intros e He. apply wp_ret; [done|]. split; [done|]. apply Forall2_app; [done|].
    constructor; [by split|constructor].
  - intros acc w0 _ [-> Hacc].
    destruct (MinimumRequiredVersion _) as [v|e] eqn:Hv; [|apply wp_ret; [done|by apply HQ]].
    apply wp_attempt, wp_perform; [done|]. intros a _. cbn. destruct (ans_fail a); cbn.
    + assert (Ho : only_spec (specNameOf cdi uid) w
        (mkWorld (files w) (partial_alter (λ _, ans_left a) (specNameOf cdi uid) (specs w)))).
      { split; [done|]. intros n Hn. cbn. by rewrite lookup_partial_alter_ne. }
      split; [by apply HI'|by apply HQ].
    + assert (Ho : only_spec (specNameOf cdi uid) w (mkWorld (files w)
        (<[specNameOf cdi uid := mkSpec v (kind cdi) acc]> (specs w)))).
      { split; [done|]. intros n Hn. cbn. by rewrite lookup_insert_ne. }
      split; [by apply HI'|]. apply wp_ret; [by apply HI'|]. apply HQ; [done|].
      eexists. cbn. rewrite lookup_insert_eq. by split_and!.
Qed.

Lemma wp_DeleteClaimSpecFile `{CDIAPI} I R cdi uid Q w :
  I w →
  (∀ w' : World, only_spec (specNameOf cdi uid) w w' → I w') →
  (∀ r w', only_spec (specNameOf cdi uid) w w' →
    match r with Ok _ => specs w' !! specNameOf cdi uid = None | Err _ => True end → Q r w') →
  wp I R (DeleteClaimSpecFile cdi uid) Q w.
Proof.
  intros HI HI' HQ. unfold DeleteClaimSpecFile. apply wp_attempt, wp_perform; [done|].
  intros a _. cbn. destruct (ans_fail a); cbn.
  - assert (Ho : only_spec (specNameOf cdi uid) w
      (mkWorld (files w) (partial_alter (λ _, ans_left a) (specNameOf cdi uid) (specs w)))).
    { split; [done|]. intros n Hn. cbn. by rewrite lookup_partial_alter_ne. }
    split; [by apply HI'|by apply HQ].
  - assert (Ho : only_spec (specNameOf cdi uid) w
      (mkWorld (files w) (delete (specNameOf cdi uid) (specs w)))).
    { split; [done|]. intros n Hn. cbn. by rewrite lookup_delete_ne. }
    split; [by apply HI'|]. apply wp_ret; [by apply HI'|]. apply HQ; [done|].
    cbn. by rewrite lookup_delete_eq.
Qed.
