(* ===== verification/Checkpoint.v ===== *)
(** The two files of [cmd/kubeletplugin/state.go]: the checkpoint of prepared
    claims and the device snapshots of each claim; and the uses of both
    in [reconcile.go].

    [writeCheckpoint] truncates and rewrites the file in place, so a crash or a
    failing write leaves a prefix of the text.  [writeClaimDevices] writes a temporary
    file and renames it, so the file has the old or the new text. *)

From Stdlib Require Import Ascii ZArith.
From stdpp Require Import options.
From S2P Require Import Prelude GoStrings GoPath Types Sysfs Json JsonRound Codec Effects Cdi.

Definition claimDevicesFileName := "claim-devices.json".
Definition driverPluginCheckpointFile := "checkpoint.json".

(** ** Reading and writing *)

Definition readCheckpoint (path : string) : prog (result error checkpoint) :=
  let! data := perform (EReadFile path) in
  Ret (match data with
       | Err ErrNotExist => Ok (mkCheckpoint None)
       | Err e => Err (EFs e)
       | Ok data => match unmarshalCheckpoint data with
                    | Some cp => Ok cp
                    | None => Err EJSON
                    end
       end).

(** [os.WriteFile(path, data, perm)]: the error of the write, else of the close. *)
Definition WriteFile (path data : string) : prog (option fs_error) :=
  let! opened := perform (ETruncate path) in
  match opened with
  | Some e => Ret (Some e)
  | None =>
      let! written := perform (EWrite path data) in
      let! closed := perform (EClose path) in
      Ret (match written with Some e => Some e | None => closed end)
  end.

Definition writeCheckpoint (path : string) (cp : checkpoint) : prog (result error unit) :=
  attempt (WriteFile path (marshalCheckpoint cp)) EFs (Ret (Ok tt)).

Definition readClaimDevices (path : string) : prog (result error claimDevicesFile) :=
  let! data := perform (EReadFile path) in
  Ret (match data with
       | Err ErrNotExist => Ok (mkClaimDevicesFile ∅)
       | Err e => Err (EFs e)
       | Ok data => match unmarshalClaims data with
                    | Some file => Ok file
                    | None => Err EJSON
                    end
       end).

Definition tempPrefix (path : string) : string := "." +:+ Base path +:+ "-".

(** The deferred [os.Remove(tmpName)] runs unless the rename succeeded. *)
Definition writeClaimDevices (path : string) (file : claimDevicesFile) : prog (result error unit) :=
  let data := marshalClaims file in
  let! tmp := perform (ECreateTemp (Dir path) (tempPrefix path)) in
  match tmp with
  | Err e => Ret (Err (EFs e))
  | Ok tmpName =>
      let close_and_fail (e : fs_error) : prog (result error unit) :=
        let! _ := perform (EClose tmpName) in Ret (Err (EFs e)) in
      let! r :=
        (let! written := perform (EWrite tmpName data) in
         match written with
         | Some e => close_and_fail e
         | None =>
             let! chmod := perform (EChmod tmpName) in
             match chmod with
             | Some e => close_and_fail e
             | None =>
                 attempt (perform (EClose tmpName)) EFs
                   (attempt (perform (ERename tmpName path)) EFs (Ret (Ok tt)))
             end
         end) in
      match r with
      | Ok _ => Ret (Ok tt)
      | Err e => let! _ := perform (ERemove tmpName) in Ret (Err e)
      end
  end.

(** [pruneClaimDevices]: the file without the claims that are not prepared, and
    whether that changed it. *)
Definition isPrepared (cp : checkpoint) (uid : string) : Prop := uid ∈ elems (PreparedClaims cp).

#[export] Instance isPrepared_dec cp uid : Decision (isPrepared cp uid).
Proof. unfold isPrepared. apply _. Defined.

Definition pruneClaimDevices (cp : checkpoint) (file : claimDevicesFile)
    : claimDevicesFile * bool :=
  if bool_decide (size (Claims file) = 0) then (file, false)
  else (mkClaimDevicesFile (filter (λ '(uid, _), isPrepared cp uid) (Claims file)),
        existsb (λ '(uid, _), negb (bool_decide (isPrepared cp uid)))
          (map_to_list (Claims file))).

(** [claimedSnapshots]: the devices of the prepared claims by name; [ord] is the
    order in which [range file.Claims] visits the claims, and the last snapshot of a
    name wins. *)
Definition addSnapshot (out : gmap string Device) (d : Device) : gmap string Device :=
  if bool_decide (Name d = "") then out else <[Name d := d]> out.

Definition claimedSnapshots (ord : list nat) (cp : checkpoint) (file : claimDevicesFile)
    : gmap string Device :=
  foldl (λ out '(uid, devs),
    if bool_decide (isPrepared cp uid) then foldl addSnapshot out (elems devs) else out)
    ∅ (permute ord (map_to_list (Claims file))).

(** ** What is on disk *)

(** What [readCheckpoint] and [readClaimDevices] make of the files; [None] is an
    error. *)
Definition checkpointOn (path : string) (w : World) : option checkpoint :=
  match files w !! path with
  | None => Some (mkCheckpoint None)
  | Some data => unmarshalCheckpoint data
  end.

Definition claimsOn (path : string) (w : World) : option claimDevicesFile :=
  match files w !! path with
  | None => Some (mkClaimDevicesFile ∅)
  | Some data => unmarshalClaims data
  end.

(** The names of the snapshots of a claim. *)
Definition snapshotNames (f : claimDevicesFile) (uid : string) : list string :=
  match Claims f !! uid with Some s => Name <$> elems s | None => [] end.

Lemma wp_readCheckpoint I R path Q w :
  I w → (∀ cp, checkpointOn path w = Some cp → Q (Ok cp) w) → (∀ e, Q (Err e) w) →
  wp I R (readCheckpoint path) Q w.
Proof.
  intros HI Hok Herr. apply wp_bind, wp_perform; [done|]. intros a _. split; [done|].
  apply wp_ret; [done|]. cbn. unfold checkpointOn in Hok. destruct (ans_fail a); [done|].
  destruct (files w !! path) as [s|]; [|by apply Hok].
  destruct (unmarshalCheckpoint s); [by apply Hok|done].
Qed.

Lemma wp_readClaimDevices I R path Q w :
  I w → (∀ f, claimsOn path w = Some f → Q (Ok f) w) → (∀ e, Q (Err e) w) →
  wp I R (readClaimDevices path) Q w.
Proof.
  intros HI Hok Herr. apply wp_bind, wp_perform; [done|]. intros a _. split; [done|].
  apply wp_ret; [done|]. cbn. unfold claimsOn in Hok. destruct (ans_fail a); [done|].
  destruct (files w !! path) as [s|]; [|by apply Hok].
  destruct (unmarshalClaims s); [by apply Hok|done].
Qed.

Lemma take_str_app n s : ∃ q, s = take_str n s +:+ q.
Proof.
  revert s. induction n as [|n IH]; intros [|c s]; [by exists ""|by exists (String c s)|by exists ""|].
  destruct (IH s) as [q Hq]. exists q. cbn. by rewrite app_cons_str, <-Hq.
Qed.

Lemma set_file_set p a b w : set_file p a (set_file p b w) = set_file p a w.
Proof. unfold set_file. cbn. by rewrite insert_insert_eq. Qed.

(** A write in place can stop after any prefix of the text. *)
Lemma wp_WriteFile I R path data Q w :
  I w → (∀ s q, data = s +:+ q → I (set_file path s w)) →
  (∀ e, Q (Some e) w) →
  (∀ e s q, data = s +:+ q → Q (Some e) (set_file path s w)) →
  Q None (set_file path data w) →
  wp I R (WriteFile path data) Q w.
Proof.
  intros HI HI' Hw Herr Hok.
  assert (Hnil : I (set_file path "" w)) by (by apply (HI' "" data)).
  assert (Hfull : data = data +:+ "") by by rewrite app_nil_r_str.
  apply wp_do; [done|]. intros a _. cbn. destruct (ans_fail a); cbn; [by apply wp_ret|].
  apply wp_do; [done|]. intros b _. cbn. rewrite lookup_insert_eq. cbn [default].
  change ("" +:+ ?s) with s. destruct (ans_fail b); cbn; rewrite set_file_set.
  - destruct (take_str_app (ans_cut b) data) as [q Hq].
    apply wp_do; [by eapply HI'|]. intros c _. apply wp_ret; [by eapply HI'|]. by eapply Herr.
  - apply wp_do; [by eapply HI'|]. intros c _. apply wp_ret; [by eapply HI'|]. cbn.
    destruct (ans_fail c); [by eapply Herr|done].
Qed.

Lemma wp_writeCheckpoint I R path cp Q w :
  I w → (∀ s q, marshalCheckpoint cp = s +:+ q → I (set_file path s w)) →
  (∀ e, Q (Err e) w) →
  (∀ e s q, marshalCheckpoint cp = s +:+ q → Q (Err e) (set_file path s w)) →
  Q (Ok tt) (set_file path (marshalCheckpoint cp) w) →
  wp I R (writeCheckpoint path cp) Q w.
Proof.
  intros HI HI' Hw Herr Hok. apply wp_attempt, wp_WriteFile;
    [done|done|intros e; apply Hw|intros e s q; apply Herr|].
  apply wp_ret; [|done]. apply (HI' _ ""). by rewrite app_nil_r_str.
Qed.

(** ** Temporary files *)

Definition temp_of (path t : string) : Prop :=
  ∃ n, (0 ≤ n)%Z ∧ t = temp_name (Dir path) (tempPrefix path) n.

(** [w'] is [w] with one new temporary file of [path]. *)
Definition temp_left (path : string) (w w' : World) : Prop :=
  ∃ t c, temp_of path t ∧ files w !! t = None ∧ w' = set_file t c w.

Lemma wp_writeClaimDevices I R path f Q w :
  I w → (∀ w', temp_left path w w' → I w') → I (set_file path (marshalClaims f) w) →
  (∀ e, Q (Err e) w) → (∀ e w', temp_left path w w' → Q (Err e) w') →
  Q (Ok tt) (set_file path (marshalClaims f) w) →
  wp I R (writeClaimDevices path f) Q w.
Proof.
  intros HI Htmp Hdone Herr Hleft Hok. apply wp_do; [done|]. intros a _. cbn.
  destruct (_ || _) eqn:Hcr; cbn; [by apply wp_ret|].
  apply orb_false_iff in Hcr as [[Hf Hneg]%orb_false_iff Hfresh].
  apply bool_decide_eq_false, eq_None_not_Some in Hfresh. set (t := temp_name _ _ _) in *.
  assert (Ht : temp_of path t) by (exists (ans_random a); split; [lia|done]).
  assert (HT : ∀ c, temp_left path w (set_file t c w)) by (intros c; by exists t, c).
  assert (HIT : ∀ c, I (set_file t c w)) by auto.
  assert (Hdrop : ∀ c, drop_file t (set_file t c w) = w).
  { intros c. unfold drop_file, set_file. cbn. rewrite delete_insert_id by done. by destruct w. }
  (* the deferred removal after an error *)
  assert (Hrm : ∀ c e, wp I R (bind (perform (ERemove t)) (λ _, Ret (Err e))) Q (set_file t c w)).
  { intros c e. apply wp_do; [done|]. intros b _. cbn. destruct (ans_fail b); cbn.
    - apply wp_ret; [done|]. by apply Hleft.
    - rewrite Hdrop. by apply wp_ret. }
  set (fin := λ r : result error unit, _).
  assert (Hcl : ∀ c e, wp I R (bind (perform (EClose t)) (λ _, Ret (Err (EFs e))))
    (λ r w', wp I R (fin r) Q w') (set_file t c w)).
  { intros c e. apply wp_do; [done|]. intros b _. cbn. apply wp_ret; [done|]. apply Hrm. }
  apply wp_bind, wp_do; [done|]. intros b _. cbn.
  rewrite lookup_insert_eq. cbn [default]. change ("" +:+ ?s) with s.
  destruct (ans_fail b); cbn; rewrite set_file_set; [by apply Hcl|].
  apply wp_do; [done|]. intros c _. cbn. destruct (ans_fail c); cbn; [by apply Hcl|].
  apply wp_attempt_do; [done|]. intros d _. cbn.
  destruct (ans_fail d); cbn; [by apply wp_ret; [|apply Hrm]|].
  apply wp_attempt_do; [done|]. intros g _. cbn. rewrite lookup_insert_eq.
  destruct (ans_fail g); cbn; [by apply wp_ret; [|apply Hrm]|].
  rewrite Hdrop. apply wp_ret; [done|]. by apply wp_ret.
Qed.

(** ** Paths *)

Lemma no_slash_digits s : drop_digits s = "" → no_byte slash s = true.
Proof.
  induction s as [|c s IH]; [done|]. cbn [drop_digits].
  destruct (is_digit c) eqn:Hc; [|done]. intros Hs. cbn [no_byte]. rewrite IH by done.
  rewrite andb_true_r. destruct (Ascii.eqb_spec c slash) as [->|]; [done|done].
Qed.

Lemma no_slash_Itoa n : (0 ≤ n)%Z → no_byte slash (Itoa n) = true.
Proof.
  intros Hn. destruct n as [|p|p]; [done| |lia].
  destruct (Itoa_pos p) as (c & r & -> & _ & Hc & Hr & _).
  apply no_slash_digits. cbn [drop_digits]. by rewrite Hc.
Qed.

Lemma no_byte_app sep a b : no_byte sep (a +:+ b) = no_byte sep a && no_byte sep b.
Proof.
  induction a as [|c a IH]; [done|]. rewrite app_cons_str. cbn [no_byte].
  by rewrite IH, andb_assoc.
Qed.

(** A temporary file of the claims file is none of the driver's files: its name
    starts with a dot. *)
Lemma temp_of_ne path t q c r :
  Base path = claimDevicesFileName → temp_of path t → Base q = String c r → c ≠ "."%char → t ≠ q.
Proof.
  intros Hp (n & Hn & ->) Hq Hc Heq. apply (f_equal Base) in Heq. rewrite Hq in Heq.
  rewrite Base_temp_name in Heq.
  - unfold tempPrefix in Heq. rewrite Hp in Heq. by injection Heq as <- _.
  - unfold tempPrefix. rewrite Hp. split_and!; [done..|].
    by rewrite no_byte_app, no_slash_Itoa.
Qed.

(** ** Pruning and snapshots *)

Lemma prune_lookup cp f uid :
  Claims (pruneClaimDevices cp f).1 !! uid =
  if bool_decide (isPrepared cp uid) then Claims f !! uid else None.
Proof.
  unfold pruneClaimDevices. case_bool_decide as Hz; cbn.
  { apply map_size_empty_inv in Hz. rewrite Hz, lookup_empty. by case_match. }
  rewrite map_lookup_filter. destruct (Claims f !! uid) as [s|]; cbn; [|by case_match].
  case_bool_decide as Hu; cbn.
  - by rewrite option_guard_True.
  - by rewrite option_guard_False.
Qed.

Lemma prune_unchanged cp f : (pruneClaimDevices cp f).2 = false → (pruneClaimDevices cp f).1 = f.
Proof.
  destruct f as [m]. unfold pruneClaimDevices. case_bool_decide; [done|]. cbn. intros Hex. f_equal.
  apply map_filter_id. intros uid s Hs%elem_of_map_to_list.
  destruct (decide (isPrepared cp uid)) as [|Hn]; [done|]. exfalso.
  apply not_true_iff_false in Hex. apply Hex, existsb_exists. exists (uid, s).
  split; [by apply list_elem_of_In|]. by rewrite bool_decide_eq_false_2.
Qed.

(** The snapshots of all prepared claims, in the order of the iteration. *)
Definition snapshotList (ord : list nat) (cp : checkpoint) (f : claimDevicesFile) : list Device :=
  flat_map (λ '(uid, devs), if bool_decide (isPrepared cp uid) then elems devs else [])
    (permute ord (map_to_list (Claims f))).

Lemma claimedSnapshots_list ord cp f :
  claimedSnapshots ord cp f = foldl addSnapshot ∅ (snapshotList ord cp f).
Proof.
  unfold claimedSnapshots, snapshotList. generalize (∅ : gmap string Device).
  induction (permute ord _) as [|[uid devs] l IH]; intros m; cbn; [done|].
  rewrite foldl_app, <-IH. by case_bool_decide.
Qed.

Lemma elem_of_snapshotList ord cp f d :
  d ∈ snapshotList ord cp f ↔
  ∃ uid s, isPrepared cp uid ∧ Claims f !! uid = Some s ∧ d ∈ elems s.
Proof.
  unfold snapshotList. rewrite list_elem_of_In, in_flat_map. split.
  - intros ([uid s] & Hin & Hd). rewrite <-list_elem_of_In, permute_perm, elem_of_map_to_list in Hin.
    case_bool_decide; [|by cbn in Hd]. exists uid, s. split_and!; [done..|]. by apply list_elem_of_In.
  - intros (uid & s & Hp & Hf & Hd). exists (uid, s). split.
    + by rewrite <-list_elem_of_In, permute_perm, elem_of_map_to_list.
    + rewrite bool_decide_eq_true_2 by done. by apply list_elem_of_In.
Qed.

Lemma foldl_addSnapshot_inv (P : Device → Prop) l m :
  (∀ n d, m !! n = Some d → n = Name d ∧ n ≠ "" ∧ P d) → Forall P l →
  ∀ n d, foldl addSnapshot m l !! n = Some d → n = Name d ∧ n ≠ "" ∧ P d.
Proof.
  revert m. induction l as [|x l IH]; intros m Hm Hl; [done|].
  apply Forall_cons in Hl as [Hx Hl]. cbn. apply IH; [|done].
  intros n d. unfold addSnapshot. case_bool_decide; [by apply Hm|].
  destruct (decide (Name x = n)) as [<-|Hne].
  - rewrite lookup_insert_eq. intros [= <-]. done.
  - rewrite lookup_insert_ne by done. apply Hm.
Qed.

Lemma foldl_addSnapshot_dom l m :
  dom (foldl addSnapshot m l) = dom m ∪ list_to_set (filter (λ n, n ≠ "") (Name <$> l)).
Proof.
  revert m. induction l as [|x l IH]; intros m; [cbn; set_solver|].
  rewrite fmap_cons, filter_cons. cbn [foldl]. rewrite IH. unfold addSnapshot.
  case_bool_decide as Hx.
  - rewrite decide_False by naive_solver. done.
  - rewrite decide_True by done. rewrite dom_insert_L. set_solver.
Qed.

(** Every claimed snapshot belongs to a prepared claim, under its own name. *)
Lemma claimedSnapshots_Some ord cp f n d :
  claimedSnapshots ord cp f !! n = Some d →
  n = Name d ∧ n ≠ "" ∧ ∃ uid s, isPrepared cp uid ∧ Claims f !! uid = Some s ∧ d ∈ elems s.
Proof.
  rewrite claimedSnapshots_list. 
  apply (foldl_addSnapshot_inv (λ d,
    ∃ uid s, isPrepared cp uid ∧ Claims f !! uid = Some s ∧ d ∈ elems s)); [by intros ??|].
  apply Forall_forall. intros x. by rewrite elem_of_snapshotList.
Qed.

Lemma claimedSnapshots_dom ord cp f n :
  n ∈ dom (claimedSnapshots ord cp f) ↔
  n ≠ "" ∧ ∃ uid, isPrepared cp uid ∧ n ∈ snapshotNames f uid.
Proof.
  rewrite claimedSnapshots_list, foldl_addSnapshot_dom, dom_empty_L, (left_id_L ∅ (∪)).
  rewrite elem_of_list_to_set, list_elem_of_filter, list_elem_of_fmap.
  setoid_rewrite elem_of_snapshotList. unfold snapshotNames. split.
  - intros (Hn & d & -> & uid & s & Hp & Hf & Hd). split; [done|]. exists uid. split; [done|].
    rewrite Hf. by apply list_elem_of_fmap_2.
  - intros (Hn & uid & Hp & Hin). split; [done|]. destruct (Claims f !! uid) as [s|] eqn:Hf.
    + apply list_elem_of_fmap in Hin as (d & -> & Hd). eauto 10.
    + by apply elem_of_nil in Hin.
Qed.
