(* ===== verification/Flags.v ===== *)
(** The configuration of [cmd/kubeletplugin/main.go]: the flags the plugin keeps,
    their defaults, and what is derived from them.  The table of flags they come
    from is in [Cli.v], the client and logging flags are in [PkgFlags.v]. *)

From Stdlib Require Import ZArith.
From stdpp Require Import options.
From S2P Require Import Prelude GoStrings GoPath Consts Types Health.

Record Flags := mkFlags {
  nodeName : string;
  cdiRoot : string;
  kubeletRegistrarDirectoryPath : string;
  kubeletPluginsDirectoryPath : string;
  healthcheckPort : Z;
  metricsPort : Z;
  flagDriverName : string;
  podUID : string;
  mockDevices : bool;
  npuEnabled : bool;
  gpuEnabled : bool;
  vpuEnabled : bool;
  rgaEnabled : bool;
  npuMaxAllocations : Z;
  gpuMaxAllocations : Z;
  vpuMaxAllocations : Z;
  rgaMaxAllocations : Z;
  sysfsRoot : string;
  devRoot : string;
  discoveryInterval : Z
}.

Definition DriverPluginPath (f : Flags) : string :=
  Join [kubeletPluginsDirectoryPath f; flagDriverName f].

Definition discoveryConfig (f : Flags) : Config :=
  {| SysfsRoot := sysfsRoot f;
     DevRoot := devRoot f;
     Mock := mockDevices f;
     NPUEnabled := npuEnabled f;
     GPUEnabled := gpuEnabled f;
     VPUEnabled := vpuEnabled f;
     RGAEnabled := rgaEnabled f;
     NPUMaxAllocations := npuMaxAllocations f;
     GPUMaxAllocations := gpuMaxAllocations f;
     VPUMaxAllocations := vpuMaxAllocations f;
     RGAMaxAllocations := rgaMaxAllocations f |}.

(** The [Value]s of [newApp]: a run with only [--node-name] set.  The two
    kubelet directories are constants of the kubeletplugin package; no flag sets
    [devRoot]. *)
Definition defaultFlags (node registryDir pluginsDir : string) : Flags :=
  {| nodeName := node;
     cdiRoot := "/etc/cdi";
     kubeletRegistrarDirectoryPath := registryDir;
     kubeletPluginsDirectoryPath := pluginsDir;
     healthcheckPort := -1;
     metricsPort := -1;
     flagDriverName := DriverName;
     podUID := "";
     mockDevices := false;
     npuEnabled := true;
     gpuEnabled := true;
     vpuEnabled := true;
     rgaEnabled := true;
     npuMaxAllocations := 0;
     gpuMaxAllocations := 0;
     vpuMaxAllocations := 0;
     rgaMaxAllocations := 0;
     sysfsRoot := "/sys";
     devRoot := "";
     discoveryInterval := defaultDiscoveryInterval |}.
