(* ===== verification/State.v ===== *)
(** [cmd/kubeletplugin/state.go] and the [DeviceState] methods of
    [reconcile.go].

    A method takes the memory of the process, a [DeviceState], and returns the
    new one with its result; the files and CDI specs are the [World] of its
    effects.  Every method holds the mutex for its whole body (in [Reconcile], from
    the end of [Enumerate]), so a method is one program and methods do not
    interleave.  [logger] calls are left out. *)

From Stdlib Require Import ZArith.
From stdpp Require Import options.
From S2P Require Import Prelude GoStrings GoPath GoSort Consts Types Sysfs Enumerate.
From S2P Require Import Codec Effects Health Resources Cdi Checkpoint Flags.

(** The parts of [resourceapi.ResourceClaim] the driver reads. *)
Record DeviceRequestAllocationResult := mkResult {
  ar_Request : string;
  ar_Driver : string;
  ar_Pool : string;
  ar_Device : string;
  ar_ShareID : option string
}.

Record ResourceClaim := mkClaim {
  UID : string;
  Allocation : option (list DeviceRequestAllocationResult)
}.

(** [json.Marshal] of the published resources; the types are Kubernetes'. *)
Class ResourceJSON `{QuantityAPI} := MarshalResources : DriverResources → result error string.

Section state.
Context `{QuantityAPI} `{GoSort} `{CDIAPI} `{!ResourceJSON}.

Record DeviceState := mkState {
  ds_driverName : string;
  ds_nodeName : string;
  ds_mock : bool;
  ds_discCfg : Config;
  ds_cdi : CDIHandler;
  ds_driverResources : DriverResources;
  ds_tracked : gmap string trackedDevice;
  ds_checkpointPath : string;
  ds_claimDevicesPath : string
}.

Record reconcileResult := mkReconcile {
  ResourcesChanged : bool;
  HealthChanged : bool;
  rr_Resources : DriverResources
}.

Definition deviceNodeExists (s : DeviceState) (path : string) : prog bool :=
  if ds_mock s || bool_decide (path = "") then Ret (ds_mock s)
  else
    let! info := perform (EStat path) in
    Ret (match info with Some fi => negb (IsDir fi) | None => false end).

(** ** Prepare *)

(** The [for _, result := range ...Results] loop, from [prepared]. *)
Fixpoint computeResults (s : DeviceState) (uid : string)
    (results : list DeviceRequestAllocationResult) (prepared : list preparedDevice)
    : prog (result error (list preparedDevice)) :=
  match results with
  | [] => Ret (Ok prepared)
  | result :: rest =>
      if negb (bool_decide (ar_Driver result = ds_driverName s)) then
        computeResults s uid rest prepared
      else match ds_tracked s !! ar_Device result with
      | None => Ret (Err (EText ("requested device is not allocatable: " +:+ ar_Device result)))
      | Some td =>
          let! nodeExists := deviceNodeExists s (DeviceNode (td_Device td)) in
          match prepareError td (ds_mock s) nodeExists with
          | Some e => Ret (Err e)
          | None =>
              computeResults s uid rest (prepared ++ [
                {| RequestNames := [ar_Request result];
                   PoolName := ar_Pool result;
                   DeviceName := ar_Device result;
                   CDIDeviceIDs :=
                     GetClaimDevices (ds_cdi s) uid (ar_Device result) (ar_ShareID result);
                   ShareID := ar_ShareID result;
                   discovered := td_Device td |}])
          end
      end
  end.

Definition computeDevices (s : DeviceState) (claim : ResourceClaim)
    : prog (result error (list preparedDevice)) :=
  match Allocation claim with
  | None => Ret (Err (EText "claim not yet allocated"))
  | Some results => computeResults s (UID claim) results []
  end.

Definition recordClaimDevicesLocked (s : DeviceState) (uid : string) (devs : slice Device)
    : prog (result error unit) :=
  try (readClaimDevices (ds_claimDevicesPath s)) id (λ file,
    writeClaimDevices (ds_claimDevicesPath s)
      (mkClaimDevicesFile (<[uid := devs]> (Claims file)))).

Definition deleteClaimDevicesLocked (s : DeviceState) (uid : string) : prog (result error unit) :=
  try (readClaimDevices (ds_claimDevicesPath s)) id (λ file,
    match Claims file !! uid with
    | None => Ret (Ok tt)
    | Some _ =>
        writeClaimDevices (ds_claimDevicesPath s)
          (mkClaimDevicesFile (delete uid (Claims file)))
    end).

Definition deviceSnapshots (prepared : list preparedDevice) : slice Device :=
  Some (map discovered prepared).

(** [Prepare] and [Unprepare] do not change the memory. *)
Definition Prepare (s : DeviceState) (claim : ResourceClaim)
    : prog (result error (list preparedDevice)) :=
  try (readCheckpoint (ds_checkpointPath s)) (EWrap "unable to read checkpoint") (λ cp,
  try (computeDevices s claim) id (λ prepared,
  try (CreateClaimSpecFile (ds_cdi s) (UID claim) prepared)
    (EWrap "unable to create CDI spec file for claim") (λ _,
  try (recordClaimDevicesLocked s (UID claim) (deviceSnapshots prepared))
    (EWrap "unable to record prepared devices") (λ _,
  if bool_decide (isPrepared cp (UID claim)) then Ret (Ok prepared)
  else
    try (writeCheckpoint (ds_checkpointPath s)
           (mkCheckpoint (append (PreparedClaims cp) (UID claim))))
      (EWrap "unable to write checkpoint") (λ _, Ret (Ok prepared)))))).

(** [slices.DeleteFunc(s, func(u) bool { return u == uid })]. *)
Definition DeleteFunc (uid : string) (s : slice string) : slice string :=
  match s with None => None | Some l => Some (filter (λ u, u ≠ uid) l) end.

Definition Unprepare (s : DeviceState) (claimUID : string) : prog (result error unit) :=
  try (readCheckpoint (ds_checkpointPath s)) (EWrap "unable to read checkpoint") (λ cp,
  try (DeleteClaimSpecFile (ds_cdi s) claimUID)
    (EWrap "unable to delete CDI spec file for claim") (λ _,
  try (writeCheckpoint (ds_checkpointPath s)
         (mkCheckpoint (DeleteFunc claimUID (PreparedClaims cp))))
    (EWrap "unable to write checkpoint") (λ _,
  try (deleteClaimDevicesLocked s claimUID) (EWrap "unable to forget prepared devices")
    (λ _, Ret (Ok tt))))).

(** ** Reconcile *)

Definition resourcesEqual (a b : DriverResources) : bool :=
  match MarshalResources a, MarshalResources b with
  | Ok aj, Ok bj => bool_decide (aj = bj)
  | _, _ => false
  end.

Definition foundByName (found : list Device) : gmap string Device :=
  foldl (λ m d, <[Name d := d]> m) ∅ found.

(** The [for _, d := range found] loop. *)
Definition assessFound (s : DeviceState) (found : list Device)
    : prog (gmap string trackedDevice) :=
  for_each found ∅ (λ next d,
    let! nodeOK := deviceNodeExists s (DeviceNode d) in
    let! now := perform ENow in
    Ret (<[Name d := assessEnumerated now d (ds_tracked s !! Name d) nodeOK]> next)).

(** The [for name, snap := range snapshots] loop. *)
Definition assessSnapshots (s : DeviceState) (found : list Device)
    (snapshots : list (string * Device)) (next : gmap string trackedDevice)
    : prog (gmap string trackedDevice) :=
  for_each snapshots next (λ next '(name, snap),
    match foundByName found !! name with
    | Some _ => Ret next
    | None =>
        let! now := perform ENow in
        Ret (<[name := assessMissing now snap (ds_tracked s !! name)]> next)
    end).

Definition set_tracked (s : DeviceState) (next : gmap string trackedDevice)
    (r : DriverResources) : DeviceState :=
  {| ds_driverName := ds_driverName s; ds_nodeName := ds_nodeName s; ds_mock := ds_mock s;
     ds_discCfg := ds_discCfg s; ds_cdi := ds_cdi s; ds_driverResources := r;
     ds_tracked := next; ds_checkpointPath := ds_checkpointPath s;
     ds_claimDevicesPath := ds_claimDevicesPath s |}.

(** [pruneClaimDevices] and the write it asks for; the pruned file. *)
Definition pruneStep (s : DeviceState) (cp : checkpoint) (claims : claimDevicesFile)
    : prog (result error claimDevicesFile) :=
  let '(claims, changed) := pruneClaimDevices cp claims in
  if changed : bool then
    try (writeClaimDevices (ds_claimDevicesPath s) claims) (EWrap "prune claim devices")
      (λ _, Ret (Ok claims))
  else Ret (Ok claims).

Definition applyDiscoveryLocked (s : DeviceState) (found : list Device)
    : prog (result error (DeviceState * reconcileResult)) :=
  try (readCheckpoint (ds_checkpointPath s)) (EWrap "read checkpoint") (λ cp,
  try (readClaimDevices (ds_claimDevicesPath s)) (EWrap "read claim devices") (λ claims,
  try (pruneStep s cp claims) id (λ claims,
  let! ord := perform EOrder in
  let snapshots := claimedSnapshots ord cp claims in
  let! next := assessFound s found in
  let! ord := perform EOrder in
  let! next := assessSnapshots s found (permute ord (map_to_list snapshots)) next in
  let! ord := perform EOrder in
  let resources := devicesToResources (ds_nodeName s) (trackedList ord next) in
  Ret (Ok (set_tracked s next resources,
           {| ResourcesChanged := negb (resourcesEqual (ds_driverResources s) resources);
              HealthChanged := negb (healthEqual (ds_tracked s) next);
              rr_Resources := resources |}))))).

(** [Enumerate] reads the file system, which may change meanwhile; it never fails, so
    its error branch is dead. *)
Definition Reconcile (s : DeviceState) : prog (result error (DeviceState * reconcileResult)) :=
  let! fs := perform ESysfs in
  applyDiscoveryLocked s (Enumerate fs (ds_discCfg s)).

Definition Resources (s : DeviceState) : DriverResources := ds_driverResources s.

Definition healthReport (s : DeviceState) : prog (list DeviceHealth) :=
  let! ord := perform EOrder in
  let! now := perform ENow in
  Ret (healthReportOf (ds_nodeName s) now (trackedList ord (ds_tracked s))).

(** ** Start *)

Definition initialState (f : Flags) (cdi : CDIHandler) : DeviceState :=
  {| ds_driverName := flagDriverName f;
     ds_nodeName := nodeName f;
     ds_mock := mockDevices f;
     ds_discCfg := discoveryConfig f;
     ds_cdi := cdi;
     ds_driverResources := mkResources ∅;
     ds_tracked := ∅;
     ds_checkpointPath := Join [DriverPluginPath f; driverPluginCheckpointFile];
     ds_claimDevicesPath := Join [DriverPluginPath f; claimDevicesFileName] |}.

Definition NewDeviceState (f : Flags) : prog (result error DeviceState) :=
  match NewCDIHandler (cdiRoot f) (flagDriverName f) (mockDevices f) with
  | Err e => Ret (Err (EWrap "unable to create CDI handler" e))
  | Ok cdi => try (Reconcile (initialState f cdi)) id (λ '(s, _), Ret (Ok s))
  end.

End state.
