(* ===== verification/StateLemmas.v ===== *)
(** What each method of [State.v] does to the disk, at every point where it can
    stop, and what it returns.

    For [Prepare] and [Unprepare] an inductive relation lists the stages the
    disk goes through; the weakest-precondition lemmas show that every crash point is
    a stage and describe the result.  The theorems of [StateProps.v] reason
    about stages only. *)

From Stdlib Require Import ZArith.
From stdpp Require Import options.
From S2P Require Import Prelude GoStrings GoPath GoSort Consts Types Sysfs Enumerate.
From S2P Require Import Json JsonRound Codec Ranges Effects Health Resources Cdi Checkpoint Flags State.

(** ** The disk *)

Section disk.
Context (cpPath clPath : string).
Context (Hcp : Base cpPath = driverPluginCheckpointFile) (Hcl : Base clPath = claimDevicesFileName).

Lemma paths_ne : cpPath ≠ clPath.
Proof using Hcp Hcl. intros Heq. rewrite Heq, Hcl in Hcp. done. Qed.

Lemma temp_ne_cp t : temp_of clPath t → t ≠ cpPath.
Proof using Hcp Hcl. intros Ht. by eapply temp_of_ne. Qed.

Lemma temp_ne_cl t : temp_of clPath t → t ≠ clPath.
Proof using Hcl. intros Ht. by eapply temp_of_ne. Qed.

Lemma checkpointOn_files w w' : files w' = files w → checkpointOn cpPath w' = checkpointOn cpPath w.
Proof. unfold checkpointOn. by intros ->. Qed.

Lemma claimsOn_files w w' : files w' = files w → claimsOn clPath w' = claimsOn clPath w.
Proof. unfold claimsOn. by intros ->. Qed.

Lemma checkpointOn_set_ne p c w : p ≠ cpPath →
  checkpointOn cpPath (set_file p c w) = checkpointOn cpPath w.
Proof. intros Hp. unfold checkpointOn. cbn. by rewrite lookup_insert_ne. Qed.

Lemma claimsOn_set_ne p c w : p ≠ clPath → claimsOn clPath (set_file p c w) = claimsOn clPath w.
Proof. intros Hp. unfold claimsOn. cbn. by rewrite lookup_insert_ne. Qed.

Lemma checkpointOn_temp w w' : temp_left clPath w w' →
  checkpointOn cpPath w' = checkpointOn cpPath w.
Proof using Hcp Hcl. intros (t & c & Ht & _ & ->). by apply checkpointOn_set_ne, temp_ne_cp. Qed.

Lemma claimsOn_temp w w' : temp_left clPath w w' → claimsOn clPath w' = claimsOn clPath w.
Proof using Hcl. intros (t & c & Ht & _ & ->). by apply claimsOn_set_ne, temp_ne_cl. Qed.

(** A checkpoint text that was cut short is unreadable; the whole text reads back. *)
Lemma checkpointOn_set cp t q w :
  marshalCheckpoint cp = t +:+ q →
  checkpointOn cpPath (set_file cpPath t w) =
  if bool_decide (q = "") then Some (mkCheckpoint (map ToValid <$> PreparedClaims cp)) else None.
Proof.
  intros Ht. unfold checkpointOn. cbn. rewrite lookup_insert_eq. case_bool_decide as Hq.
  - subst q. rewrite app_nil_r_str in Ht. subst t. apply unmarshal_marshalCheckpoint.
  - by eapply unmarshalCheckpoint_torn.
Qed.

Lemma claimsOn_set f w : claims_ok f →
  claimsOn clPath (set_file clPath (marshalClaims f) w) =
  Some (mkClaimDevicesFile (sanSlice <$> Claims f)).
Proof.
  intros Hf. unfold claimsOn. cbn. rewrite lookup_insert_eq. by apply unmarshal_marshalClaims.
Qed.

Lemma claimsOn_read w f : claimsOn clPath w = Some f → claims_read f.
Proof.
  unfold claimsOn. destruct (files w !! clPath); [apply unmarshalClaims_read|].
  intros [= <-]. apply map_Forall_empty.
Qed.

Lemma checkpointOn_valid w cp u :
  checkpointOn cpPath w = Some cp → isPrepared cp u → valid_utf8 u = true.
Proof.
  unfold checkpointOn, isPrepared. destruct (files w !! cpPath).
  - intros Hc%unmarshalCheckpoint_valid. rewrite Forall_forall in Hc. apply Hc.
  - intros [= <-] Hu. by apply elem_of_nil in Hu.
Qed.

Lemma sanSlice_read s : Forall device_read (elems s) → sanSlice s = s.
Proof.
  destruct s as [l|]; [|done]. cbn. intros Hl. f_equal.
  induction Hl as [|d l [_ Hd] _ IH]; [done|]. cbn. by rewrite Hd, IH.
Qed.

Lemma sanClaims_read f : claims_read f → sanSlice <$> Claims f = Claims f.
Proof.
  intros Hf. apply map_eq. intros u. rewrite lookup_fmap.
  destruct (Claims f !! u) as [s|] eqn:Hu; [|done]. cbn. f_equal.
  apply sanSlice_read. by apply Hf in Hu as [_ ?].
Qed.

End disk.

(** ** Prepared devices *)

Section lemmas.
Context `{QuantityAPI} `{GoSort} `{CDIAPI} `{!ResourceJSON}.
Implicit Type (s : DeviceState) (claim : ResourceClaim) (w : World).

(** The results of a claim that name this driver. *)
Definition ownResults s (results : list DeviceRequestAllocationResult)
    : list DeviceRequestAllocationResult :=
  filter (λ r, ar_Driver r = ds_driverName s) results.

(** What [Prepare] returns for one allocation result. *)
Definition prepared_for s (uid : string) (r : DeviceRequestAllocationResult) (p : preparedDevice)
    : Prop :=
  ∃ td, ds_tracked s !! ar_Device r = Some td ∧ td_status td ≠ HealthStatusUnhealthy ∧
    p = {| RequestNames := [ar_Request r]; PoolName := ar_Pool r; DeviceName := ar_Device r;
           CDIDeviceIDs := GetClaimDevices (ds_cdi s) uid (ar_Device r) (ar_ShareID r);
           ShareID := ar_ShareID r; discovered := td_Device td |}.

Definition prepared_all s claim (prepared : list preparedDevice) : Prop :=
  ∃ results, Allocation claim = Some results ∧
    Forall2 (prepared_for s (UID claim)) (ownResults s results) prepared.

Lemma prepared_for_fun s uid r p1 p2 :
  prepared_for s uid r p1 → prepared_for s uid r p2 → p1 = p2.
Proof. intros (td & Htd & _ & ->) (td' & Htd' & _ & ->). by rewrite Htd in Htd'; injection Htd' as ->. Qed.

Lemma prepared_all_fun s claim l1 l2 : prepared_all s claim l1 → prepared_all s claim l2 → l1 = l2.
Proof.
  intros (rs & Hal & Hl1) (rs' & Hal' & Hl2). rewrite Hal in Hal'. injection Hal' as <-.
  revert l2 Hl2. induction Hl1 as [|r p rs1 ps Hp _ IH]; intros l2 Hl2; inversion Hl2; [done|].
  subst. f_equal; [by eapply prepared_for_fun|by apply IH].
Qed.

Lemma wp_deviceNodeExists I R s path Q w :
  I w → (∀ b, Q b w) → wp I R (deviceNodeExists s path) Q w.
Proof.
  intros HI HQ. unfold deviceNodeExists. case_match; [by apply wp_ret|].
  apply wp_do; [done|]. intros a _. by apply wp_ret.
Qed.

Lemma wp_computeResults I R s uid results prepared Q w :
  I w →
  (∀ more, Forall2 (prepared_for s uid) (ownResults s results) more →
    Q (Ok (prepared ++ more)) w) →
  (∀ e, Q (Err e) w) →
  wp I R (computeResults s uid results prepared) Q w.
Proof.
  intros HI. revert prepared. induction results as [|r rest IH]; intros prepared Hok Herr; cbn.
  - apply wp_ret; [done|]. rewrite <-(app_nil_r prepared). by apply Hok.
  - destruct (bool_decide (ar_Driver r = ds_driverName s)) eqn:Hd; cbn.
    + apply bool_decide_eq_true in Hd.
      destruct (ds_tracked s !! ar_Device r) as [td|] eqn:Htd; [|by apply wp_ret].
      apply wp_bind, wp_deviceNodeExists; [done|]. intros ok.
      destruct (prepareError td (ds_mock s) ok) eqn:Hp; [by apply wp_ret|].
      apply IH; [|done]. intros more Hmore. rewrite <-app_assoc. apply Hok.
      unfold ownResults. rewrite filter_cons_True by done. constructor; [|done].
      exists td. split_and!; [done| |done]. intros Hu. unfold prepareError in Hp.
      by rewrite bool_decide_eq_true_2 in Hp.
    + apply bool_decide_eq_false in Hd. apply IH; [|done]. intros more Hmore. apply Hok.
      unfold ownResults. by rewrite filter_cons_False.
Qed.

Lemma wp_computeDevices I R s claim Q w :
  I w → (∀ prepared, prepared_all s claim prepared → Q (Ok prepared) w) → (∀ e, Q (Err e) w) →
  wp I R (computeDevices s claim) Q w.
Proof.
  intros HI Hok Herr. unfold computeDevices. destruct (Allocation claim) as [rs|] eqn:Ha.
  - apply wp_computeResults; [done| |done]. intros more Hmore. apply Hok. by exists rs.
  - by apply wp_ret.
Qed.

(** ** Prepare *)

Definition specName s (uid : string) : string := specNameOf (ds_cdi s) uid.

(** The claims file with the snapshots of the prepared devices. *)
Definition recorded claim (f : claimDevicesFile) (prepared : list preparedDevice)
    : claimDevicesFile :=
  mkClaimDevicesFile (<[UID claim := deviceSnapshots prepared]> (Claims f)).

Definition checkpointed claim (c : checkpoint) : checkpoint :=
  mkCheckpoint (append (PreparedClaims c) (UID claim)).

Inductive prepare_stage s claim w : World → Prop :=
  (** the CDI spec is being written *)
  | ps_spec w1 : only_spec (specName s (UID claim)) w w1 → prepare_stage s claim w w1
  (** the claims file is being written *)
  | ps_temp w1 w2 :
      only_spec (specName s (UID claim)) w w1 → temp_left (ds_claimDevicesPath s) w1 w2 →
      prepare_stage s claim w w2
  (** the snapshots are recorded *)
  | ps_recorded w1 f prepared :
      only_spec (specName s (UID claim)) w w1 →
      claimsOn (ds_claimDevicesPath s) w = Some f → prepared_all s claim prepared →
      prepare_stage s claim w
        (set_file (ds_claimDevicesPath s) (marshalClaims (recorded claim f prepared)) w1)
  (** the checkpoint is being rewritten: [t] is on disk *)
  | ps_checkpoint w1 f prepared c t q :
      only_spec (specName s (UID claim)) w w1 →
      claimsOn (ds_claimDevicesPath s) w = Some f → prepared_all s claim prepared →
      checkpointOn (ds_checkpointPath s) w = Some c → ¬ isPrepared c (UID claim) →
      marshalCheckpoint (checkpointed claim c) = t +:+ q →
      prepare_stage s claim w (set_file (ds_checkpointPath s) t
        (set_file (ds_claimDevicesPath s) (marshalClaims (recorded claim f prepared)) w1)).

(** The end of a successful [Prepare]. *)
Definition prepare_done (R : Answer → Prop) s claim w (prepared : list preparedDevice) (w' : World) : Prop :=
  ∃ w1 f c spec, only_spec (specName s (UID claim)) w w1 ∧
    specs w1 !! specName s (UID claim) = Some spec ∧
    spec_for R (ds_cdi s) (UID claim) prepared spec ∧
    claimsOn (ds_claimDevicesPath s) w = Some f ∧
    checkpointOn (ds_checkpointPath s) w = Some c ∧
    prepared_all s claim prepared ∧
    let w2 := set_file (ds_claimDevicesPath s) (marshalClaims (recorded claim f prepared)) w1 in
    w' = if bool_decide (isPrepared c (UID claim)) then w2
         else set_file (ds_checkpointPath s) (marshalCheckpoint (checkpointed claim c)) w2.

Lemma wp_Prepare R s claim w :
  wp (prepare_stage s claim w) R (Prepare s claim)
    (λ r w', match r with
             | Ok prepared => prepare_done R s claim w prepared w'
             | Err _ => prepare_stage s claim w w'
             end) w.
Proof.
  assert (Hst : prepare_stage s claim w w) by (by apply ps_spec).
  unfold Prepare. apply wp_try, wp_readCheckpoint; [done| |done]. intros c Hc.
  apply wp_try, wp_computeDevices; [done| |done]. intros prepared Hp.
  apply wp_try, wp_CreateClaimSpecFile; [done|by apply ps_spec|].
  intros [[]|e] w1 Ho Hspec; [|by apply ps_spec]. destruct Hspec as (spec & Hs1 & Hs2).
  assert (Hcl1 : claimsOn (ds_claimDevicesPath s) w1 = claimsOn (ds_claimDevicesPath s) w)
    by (by apply claimsOn_files, Ho).
  apply wp_try, wp_try. apply wp_readClaimDevices; [by apply ps_spec| |by intros; apply ps_spec].
  intros f Hf. rewrite Hcl1 in Hf.
  apply wp_writeClaimDevices.
  - by apply ps_spec.
  - intros w2 Hw2. by eapply ps_temp.
  - by apply ps_recorded.
  - intros _. by apply ps_spec.
  - intros _ w2 Hw2. by eapply ps_temp.
  - case_bool_decide as Hin.
    + apply wp_ret; [by apply ps_recorded|].
      exists w1, f, c, spec. split_and!; try done. by rewrite bool_decide_eq_true_2.
    + apply wp_try, wp_writeCheckpoint.
      * by apply ps_recorded.
      * intros t q Ht. by eapply ps_checkpoint.
      * intros _. by apply ps_recorded.
      * intros _ t q Ht. by eapply ps_checkpoint.
      * apply wp_ret.
        { eapply ps_checkpoint with (q := ""); try done. by rewrite app_nil_r_str. }
        exists w1, f, c, spec. split_and!; try done. by rewrite bool_decide_eq_false_2.
Qed.

(** ** Unprepare *)

Definition released (uid : string) (c : checkpoint) : checkpoint :=
  mkCheckpoint (DeleteFunc uid (PreparedClaims c)).

Definition forgotten (uid : string) (f : claimDevicesFile) : claimDevicesFile :=
  mkClaimDevicesFile (delete uid (Claims f)).

Inductive unprepare_stage s (uid : string) w : World → Prop :=
  | us_spec w1 : only_spec (specName s uid) w w1 → unprepare_stage s uid w w1
  | us_checkpoint w1 c t q :
      only_spec (specName s uid) w w1 → checkpointOn (ds_checkpointPath s) w = Some c →
      marshalCheckpoint (released uid c) = t +:+ q →
      unprepare_stage s uid w (set_file (ds_checkpointPath s) t w1)
  | us_temp w1 c w2 :
      only_spec (specName s uid) w w1 → checkpointOn (ds_checkpointPath s) w = Some c →
      temp_left (ds_claimDevicesPath s)
        (set_file (ds_checkpointPath s) (marshalCheckpoint (released uid c)) w1) w2 →
      unprepare_stage s uid w w2
  | us_forgotten w1 c f :
      only_spec (specName s uid) w w1 → checkpointOn (ds_checkpointPath s) w = Some c →
      claimsOn (ds_claimDevicesPath s) w = Some f →
      unprepare_stage s uid w
        (set_file (ds_claimDevicesPath s) (marshalClaims (forgotten uid f))
          (set_file (ds_checkpointPath s) (marshalCheckpoint (released uid c)) w1)).

Definition unprepare_done s (uid : string) w (w' : World) : Prop :=
  ∃ w1 c f, only_spec (specName s uid) w w1 ∧ specs w1 !! specName s uid = None ∧
    checkpointOn (ds_checkpointPath s) w = Some c ∧
    claimsOn (ds_claimDevicesPath s) w = Some f ∧
    let w2 := set_file (ds_checkpointPath s) (marshalCheckpoint (released uid c)) w1 in
    w' = match Claims f !! uid with
         | None => w2
         | Some _ => set_file (ds_claimDevicesPath s) (marshalClaims (forgotten uid f)) w2
         end.

Lemma wp_Unprepare R s uid w :
  Base (ds_checkpointPath s) = driverPluginCheckpointFile →
  Base (ds_claimDevicesPath s) = claimDevicesFileName →
  wp (unprepare_stage s uid w) R (Unprepare s uid)
    (λ r w', match r with
             | Ok _ => unprepare_done s uid w w'
             | Err _ => unprepare_stage s uid w w'
             end) w.
Proof.
  intros Hcp Hcl.
  assert (Hst : unprepare_stage s uid w w) by (by apply us_spec).
  unfold Unprepare. apply wp_try, wp_readCheckpoint; [done| |done]. intros c Hc.
  apply wp_try, wp_DeleteClaimSpecFile; [done|by apply us_spec|].
  intros [[]|e] w1 Ho Hspec; [|by apply us_spec].
  assert (Hfull : ∀ x, x = x +:+ "") by (intros; by rewrite app_nil_r_str).
  set (w2 := set_file (ds_checkpointPath s) (marshalCheckpoint (released uid c)) w1).
  assert (Hst2 : unprepare_stage s uid w w2) by (exact (us_checkpoint s uid w w1 c _ "" Ho Hc (Hfull _))).
  apply wp_try, wp_writeCheckpoint; [by apply us_spec|..].
  { intros t q Ht. by eapply us_checkpoint. }
  { intros _. by apply us_spec. }
  { intros _ t q Ht. by eapply us_checkpoint. }
  change (mkCheckpoint _) with (released uid c). fold w2.
  assert (Hcl2 : claimsOn (ds_claimDevicesPath s) w2 = claimsOn (ds_claimDevicesPath s) w).
  { unfold w2. rewrite claimsOn_set_ne by (by apply paths_ne). apply claimsOn_files, Ho. }
  apply wp_try, wp_try, wp_readClaimDevices; [done| |done].
  intros f Hf. rewrite Hcl2 in Hf.
  destruct (Claims f !! uid) as [devs|] eqn:Hu.
  - apply wp_writeClaimDevices; [done|..].
    + intros w3 Hw3. by eapply us_temp.
    + by eapply us_forgotten.
    + done.
    + intros _ w3 Hw3. by eapply us_temp.
    + apply wp_ret; [by eapply us_forgotten|]. exists w1, c, f. split_and!; try done.
      by rewrite Hu.
  - apply wp_ret; [done|]. apply wp_ret; [done|]. exists w1, c, f. split_and!; try done.
    by rewrite Hu.
Qed.

(** ** Reconcile *)

(** The answer of [deviceNodeExists] when [os.Stat] answers [st]. *)
Definition nodePresent s (st : string → option FileInfo) (path : string) : bool :=
  if ds_mock s || bool_decide (path = "") then ds_mock s
  else match st path with Some fi => negb (IsDir fi) | None => false end.

(** How one enumerated device is assessed: with some answers of the node and the
    clock satisfying [R]. *)
Definition assessed (R : Answer → Prop) s (d : Device) (td : trackedDevice) : Prop :=
  ∃ a b, R a ∧ R b ∧
    td = assessEnumerated (ans_time b) d (ds_tracked s !! Name d)
           (nodePresent s (ans_stat a) (DeviceNode d)).

Definition missed (R : Answer → Prop) s (name : string) (snap : Device) (td : trackedDevice)
    : Prop :=
  ∃ a, R a ∧ td = assessMissing (ans_time a) snap (ds_tracked s !! name).

(** The new tracked set: the enumerated devices, and the claimed devices that are
    not enumerated. *)
Definition reconciled (R : Answer → Prop) s (found : list Device) (snaps : gmap string Device)
    (next : gmap string trackedDevice) : Prop :=
  ∀ n, match foundByName found !! n with
       | Some d => Name d = n ∧ d ∈ found ∧ ∃ td, next !! n = Some td ∧ assessed R s d td
       | None =>
           match snaps !! n with
           | Some snap => ∃ td, next !! n = Some td ∧ missed R s n snap td
           | None => next !! n = None
           end
       end.

Lemma foundByName_snoc l d : foundByName (l ++ [d]) = <[Name d := d]> (foundByName l).
Proof. unfold foundByName. by rewrite foldl_app. Qed.

Lemma foundByName_Some found n d : foundByName found !! n = Some d → Name d = n ∧ d ∈ found.
Proof.
  induction found as [|x l IH] using rev_ind; [done|].
  rewrite foundByName_snoc. destruct (decide (Name x = n)) as [<-|Hne].
  - rewrite lookup_insert_eq. intros [= <-]. split; [done|set_solver].
  - rewrite lookup_insert_ne by done. intros [? ?]%IH. split; [done|set_solver].
Qed.

Lemma foundByName_dom found n : is_Some (foundByName found !! n) ↔ n ∈ Name <$> found.
Proof.
  induction found as [|x l IH] using rev_ind.
  - split; [by intros []|by intros ?%elem_of_nil].
  - rewrite foundByName_snoc, fmap_app, elem_of_app, <-IH. cbn. rewrite list_elem_of_singleton.
    destruct (decide (Name x = n)) as [<-|Hne].
    + rewrite lookup_insert_eq. naive_solver.
    + rewrite lookup_insert_ne by done. naive_solver.
Qed.

Lemma wp_assessFound I R s found Q w :
  I w →
  (∀ next, (∀ n, match foundByName found !! n with
                 | Some d => ∃ td, next !! n = Some td ∧ assessed R s d td
                 | None => next !! n = None
                 end) → Q next w) →
  wp I R (assessFound s found) Q w.
Proof.
  intros HI HQ. unfold assessFound.
  apply (wp_for (λ l next w', w' = w ∧ ∀ n,
    match foundByName l !! n with
    | Some d => ∃ td, next !! n = Some td ∧ assessed R s d td
    | None => next !! n = None
    end)); [done|by split| |].
  - intros l d next w0 HI0 [-> Hnext] _.
    assert (Hstep : ∀ td, assessed R s d td → ∀ n,
      match foundByName (l ++ [d]) !! n with
      | Some d' => ∃ td', <[Name d := td]> next !! n = Some td' ∧ assessed R s d' td'
      | None => <[Name d := td]> next !! n = None
      end).
    { intros td Htd n. rewrite foundByName_snoc. destruct (decide (Name d = n)) as [<-|Hne].
      - rewrite !lookup_insert_eq. eauto.
      - rewrite !lookup_insert_ne by done. apply Hnext. }
    apply wp_bind. unfold deviceNodeExists. case_match eqn:Hm.
    + apply wp_ret; [done|]. apply wp_do; [done|]. intros b Hb. apply wp_ret; [done|].
      split; [done|]. apply Hstep. exists b, b. unfold nodePresent. by rewrite Hm.
    + apply wp_do; [done|]. intros a Ha. apply wp_ret; [done|].
      apply wp_do; [done|]. intros b Hb. apply wp_ret; [done|].
      split; [done|]. apply Hstep. exists a, b. unfold nodePresent. by rewrite Hm.
  - intros next w0 _ [-> Hnext]. by apply HQ.
Qed.

Lemma wp_assessSnapshots I R s found (snaps : list (string * Device)) next0 Q w :
  I w → NoDup snaps.*1 →
  (∀ next, (∀ n, match foundByName found !! n with
                 | Some d => next !! n = next0 !! n
                 | None =>
                     match (list_to_map snaps : gmap string Device) !! n with
                     | Some snap => ∃ td, next !! n = Some td ∧ missed R s n snap td
                     | None => next !! n = next0 !! n
                     end
                 end) → Q next w) →
  wp I R (assessSnapshots s found snaps next0) Q w.
Proof.
  intros HI Hnd HQ. unfold assessSnapshots.
  apply (wp_for (λ l next w', w' = w ∧ ∀ n,
    match foundByName found !! n with
    | Some d => next !! n = next0 !! n
    | None =>
        if decide (n ∈ l.*1) then
          ∃ snap td, (n, snap) ∈ l ∧ next !! n = Some td ∧ missed R s n snap td
        else next !! n = next0 !! n
    end)); [done|split; [done|]; intros n; by case_match| |].
  - intros l [name snap] next w0 HI0 [-> Hnext] Hin.
    destruct (foundByName found !! name) as [d|] eqn:Hf.
    + apply wp_ret; [done|]. split; [done|]. intros n. specialize (Hnext n).
      destruct (foundByName found !! n) eqn:Hn; [done|].
      assert (n ≠ name) by congruence. rewrite fmap_app. cbn.
      destruct (decide (n ∈ l.*1)), (decide (n ∈ l.*1 ++ [name])); set_solver.
    + apply wp_do; [done|]. intros a Ha. apply wp_ret; [done|]. split; [done|].
      intros n. specialize (Hnext n). destruct (decide (name = n)) as [<-|Hne].
      * rewrite Hf, fmap_app. rewrite decide_True by (cbn; set_solver).
        exists snap, (assessMissing (ans_time a) snap (ds_tracked s !! name)).
        rewrite lookup_insert_eq. split_and!; [set_solver|done|by exists a].
      * rewrite lookup_insert_ne by done. destruct (foundByName found !! n); [done|].
        rewrite fmap_app. cbn.
        destruct (decide (n ∈ l.*1)), (decide (n ∈ l.*1 ++ [name])); set_solver.
  - intros next w0 _ [-> Hnext]. apply HQ. intros n. specialize (Hnext n).
    destruct (foundByName found !! n); [done|].
    destruct (decide (n ∈ snaps.*1)) as [Hin|Hin].
    + destruct Hnext as (snap & td & Hs & ? & ?).
      apply (elem_of_list_to_map_1 (M := gmap string)) in Hs; [|done]. rewrite Hs. eauto.
    + apply (not_elem_of_list_to_map_1 (M := gmap string)) in Hin. by rewrite Hin.
Qed.

(** The disk while [Reconcile] runs: unchanged, or being pruned, or pruned. *)
Inductive reconcile_stage s w : World → Prop :=
  | rs_same : reconcile_stage s w w
  | rs_temp w' : temp_left (ds_claimDevicesPath s) w w' → reconcile_stage s w w'
  | rs_pruned c f :
      checkpointOn (ds_checkpointPath s) w = Some c →
      claimsOn (ds_claimDevicesPath s) w = Some f →
      reconcile_stage s w
        (set_file (ds_claimDevicesPath s) (marshalClaims (pruneClaimDevices c f).1) w).

(** The end of a successful [applyDiscoveryLocked]. *)
Definition reconcile_done (R : Answer → Prop) s (found : list Device) w
    (s' : DeviceState) (res : reconcileResult) (w' : World) : Prop :=
  ∃ c f ord ord' next,
    checkpointOn (ds_checkpointPath s) w = Some c ∧
    claimsOn (ds_claimDevicesPath s) w = Some f ∧
    w' = (if (pruneClaimDevices c f).2
          then set_file (ds_claimDevicesPath s) (marshalClaims (pruneClaimDevices c f).1) w
          else w) ∧
    reconciled R s found (claimedSnapshots ord c (pruneClaimDevices c f).1) next ∧
    let resources := devicesToResources (ds_nodeName s) (trackedList ord' next) in
    s' = set_tracked s next resources ∧
    res = {| ResourcesChanged := negb (resourcesEqual (ds_driverResources s) resources);
             HealthChanged := negb (healthEqual (ds_tracked s) next);
             rr_Resources := resources |}.

Lemma wp_pruneStep I R s c f Q w :
  I w → (∀ w', temp_left (ds_claimDevicesPath s) w w' → I w') →
  I (set_file (ds_claimDevicesPath s) (marshalClaims (pruneClaimDevices c f).1) w) →
  (∀ e w', w' = w ∨ temp_left (ds_claimDevicesPath s) w w' → Q (Err e) w') →
  Q (Ok (pruneClaimDevices c f).1)
    (if (pruneClaimDevices c f).2
     then set_file (ds_claimDevicesPath s) (marshalClaims (pruneClaimDevices c f).1) w else w) →
  wp I R (pruneStep s c f) Q w.
Proof.
  intros HI Htmp Hdone Herr HQ. unfold pruneStep.
  destruct (pruneClaimDevices c f) as [f' changed] eqn:E. cbn in *. destruct changed.
  - apply wp_try, wp_writeClaimDevices; [done..| | |].
    + intros e. apply Herr. by left.
    + intros e w' Hw'. apply Herr. by right.
    + by apply wp_ret.
  - by apply wp_ret.
Qed.

Lemma wp_applyDiscovery R s found w :
  wp (reconcile_stage s w) R (applyDiscoveryLocked s found)
    (λ r w', match r with
             | Ok (s', res) => reconcile_done R s found w s' res w'
             | Err _ => reconcile_stage s w w'
             end) w.
Proof.
  assert (Hst : reconcile_stage s w w) by constructor.
  unfold applyDiscoveryLocked. apply wp_try, wp_readCheckpoint; [done| |done]. intros c Hc.
  apply wp_try, wp_readClaimDevices; [done| |done]. intros f Hf.
  apply wp_try, wp_pruneStep; [done|by constructor|by apply rs_pruned| |].
  { intros e w' [->|Hw']; [done|by constructor]. }
  set (w1 := if (pruneClaimDevices c f).2 then _ else _).
  assert (Hw1 : reconcile_stage s w w1) by (unfold w1; case_match; [by apply rs_pruned|done]).
  apply wp_do; [done|]. intros a1 _. cbn.
  apply wp_bind, wp_assessFound; [done|]. intros next1 Hn1.
  apply wp_do; [done|]. intros a2 _. cbn.
  set (snaps := claimedSnapshots _ _ _). apply wp_bind, wp_assessSnapshots; [done| |].
  { rewrite permute_perm. apply NoDup_fst_map_to_list. }
  intros next Hn. apply wp_do; [done|]. intros a3 _. cbn. apply wp_ret; [done|].
  exists c, f, (ans_order a1), (ans_order a3), next. split_and!; try done.
  assert (Hl : (list_to_map (permute (ans_order a2) (map_to_list snaps)) : gmap string Device)
    = snaps).
  { rewrite <-(list_to_map_to_list snaps) at 2. apply list_to_map_proper.
    - rewrite permute_perm. apply NoDup_fst_map_to_list.
    - apply permute_perm. }
  rewrite Hl in Hn. intros n. specialize (Hn1 n). specialize (Hn n). fold snaps.
  destruct (foundByName found !! n) as [d|] eqn:Hd.
  - apply foundByName_Some in Hd as [? ?]. rewrite Hn. split_and!; [done..|].
    done.
  - destruct (snaps !! n); [done|]. by rewrite Hn.
Qed.

Lemma wp_Reconcile R s w :
  wp (reconcile_stage s w) R (Reconcile s)
    (λ r w', match r with
             | Ok (s', res) =>
                 ∃ a, R a ∧ reconcile_done R s (Enumerate (ans_sysfs a) (ds_discCfg s)) w s' res w'
             | Err _ => reconcile_stage s w w'
             end) w.
Proof.
  apply wp_do; [constructor|]. intros a Ha. cbn.
  eapply wp_mono; [apply wp_applyDiscovery|].
  intros [[s' res]|e] w' _ Hr; [by exists a|done].
Qed.

(** A checkpoint that does not parse stops everything at its first step. *)
Lemma wp_Reconcile_broken R s w :
  checkpointOn (ds_checkpointPath s) w = None →
  wp (λ w', w' = w) R (Reconcile s) (λ r _, is_ok r = false) w.
Proof.
  intros Hs. apply wp_do; [done|]. intros a _. cbn.
  apply wp_try, wp_readCheckpoint; [done| |done]. intros c Hc. congruence.
Qed.

Lemma wp_start_broken R f w :
  checkpointOn (Join [DriverPluginPath f; driverPluginCheckpointFile]) w = None →
  wp (λ w', w' = w) R (NewDeviceState f) (λ r _, is_ok r = false) w.
Proof.
  intros Hf. unfold NewDeviceState. destruct (NewCDIHandler _ _ _) as [cdi|e]; [|by apply wp_ret].
  apply wp_try. eapply wp_mono; [by apply wp_Reconcile_broken|]. by intros [].
Qed.

End lemmas.
