(* ===== verification/StateInv.v ===== *)
(** The invariants of the plugin's memory and disk, and that every stage of every
    method keeps them.

    [tracked_ok] is the type of the tracked set: every entry is stored under its
    device's name, is assessed, and can be written to the claims file.  [covered]
    ties the two files together: every claim in the checkpoint has its
    snapshots in the claims file, and the devices they name are among [T]. *)

From Stdlib Require Import ZArith.
From stdpp Require Import options.
From S2P Require Import Prelude GoStrings GoPath GoSort Consts Types Sysfs Enumerate.
From S2P Require Import Json JsonRound Codec Ranges Effects Health Resources Cdi Checkpoint Flags.
From S2P Require Import State StateLemmas.

(** ** The tracked set *)

Record entry_ok (n : string) (td : trackedDevice) : Prop := {
  eo_name : td_Name td = n;
  eo_ne : n ≠ "";
  eo_valid : valid_utf8 n = true;
  eo_ints : device_ints (td_Device td);
  eo_wf : tracked_wf td
}.

Definition tracked_ok (m : gmap string trackedDevice) : Prop := map_Forall entry_ok m.

(** A device discovery can report. *)
Definition found_ok (found : list Device) : Prop :=
  Forall (λ d, Name d ≠ "" ∧ valid_utf8 (Name d) = true ∧ device_ints d) found.

Lemma Enumerate_found_ok `{GoSort} r cfg :
  fs_ok r → config_in_range cfg → found_ok (Enumerate r cfg).
Proof.
  intros Hfs Hcfg. pose proof (Enumerate_wf_all r cfg) as Hwf.
  pose proof (Enumerate_ints r cfg Hfs Hcfg) as Hints.
  apply Forall_forall. intros d Hd. rewrite Forall_forall in Hwf. rewrite Forall_forall in Hints.
  destruct (device_name_valid d (Hwf d Hd)). by split_and!; [| |apply Hints].
Qed.

(** ** The disk *)

Definition covered (cpPath clPath : string) (T : string → Prop) (w : World) : Prop :=
  ∃ f, claimsOn clPath w = Some f ∧
    ∀ c, checkpointOn cpPath w = Some c → ∀ u, isPrepared c u →
      is_Some (Claims f !! u) ∧ ∀ n, n ∈ snapshotNames f u → n ≠ "" → T n.

Lemma covered_mono cpPath clPath (T T' : string → Prop) w :
  (∀ n, T n → T' n) → covered cpPath clPath T w → covered cpPath clPath T' w.
Proof.
  intros HT (f & Hf & Hc). exists f. split; [done|]. intros c Hcp u Hu.
  destruct (Hc c Hcp u Hu) as [? Hn]. split; [done|]. auto.
Qed.

Lemma covered_same cpPath clPath T w w' :
  checkpointOn cpPath w' = checkpointOn cpPath w → claimsOn clPath w' = claimsOn clPath w →
  covered cpPath clPath T w → covered cpPath clPath T w'.
Proof. intros Hcp Hcl (f & Hf & Hc). exists f. rewrite Hcl, Hcp. done. Qed.

Section inv.
Context `{QuantityAPI} `{GoSort} `{CDIAPI} `{!ResourceJSON}.
Implicit Type (s : DeviceState) (claim : ResourceClaim) (w : World).

Record state_ok s : Prop := {
  so_tracked : tracked_ok (ds_tracked s);
  so_cfg : config_in_range (ds_discCfg s);
  so_cp : Base (ds_checkpointPath s) = driverPluginCheckpointFile;
  so_cl : Base (ds_claimDevicesPath s) = claimDevicesFileName
}.

Definition on_disk s (T : string → Prop) (w : World) : Prop :=
  covered (ds_checkpointPath s) (ds_claimDevicesPath s) T w.

Definition is_tracked s (n : string) : Prop := is_Some (ds_tracked s !! n).

(** *** Prepare *)

Lemma prepared_devices s claim prepared :
  tracked_ok (ds_tracked s) → prepared_all s claim prepared →
  Forall (λ p, is_tracked s (Name (discovered p)) ∧ valid_utf8 (Name (discovered p)) = true ∧
               device_ints (discovered p) ∧ DeviceName p = Name (discovered p)) prepared.
Proof.
  intros Ht (results & _ & Hp). apply Forall_forall. intros p Hin.
  apply list_elem_of_lookup in Hin as [i Hi].
  destruct (Forall2_lookup_r _ _ _ _ _ Hp Hi) as (r & _ & td & Htd & _ & ->). cbn.
  destruct (Ht _ _ Htd) as [Hn ? Hv ? _]. unfold td_Name in Hn. rewrite Hn.
  split_and!; try done. by exists td.
Qed.

Lemma claims_ok_insert uid devs f :
  claims_ok f → valid_utf8 uid = true → Forall device_ints (elems devs) →
  claims_ok (mkClaimDevicesFile (<[uid := devs]> (Claims f))).
Proof. intros Hf Hu Hd. by apply map_Forall_insert_2. Qed.

(** What [Prepare] records is read back. *)
Lemma claimsOn_recorded s claim w0 w f prepared :
  tracked_ok (ds_tracked s) → valid_utf8 (UID claim) = true →
  claimsOn (ds_claimDevicesPath s) w0 = Some f → prepared_all s claim prepared →
  claimsOn (ds_claimDevicesPath s)
    (set_file (ds_claimDevicesPath s) (marshalClaims (recorded claim f prepared)) w) =
  Some (mkClaimDevicesFile
    (<[UID claim := Some (map sanDevice (map discovered prepared))]> (Claims f))).
Proof.
  intros Ht Hu Hf Hp. apply claimsOn_read in Hf. rewrite claimsOn_set.
  - unfold recorded. cbn. rewrite fmap_insert, sanClaims_read by done. done.
  - apply claims_ok_insert; [by apply claims_read_ok|done|]. cbn.
    apply Forall_forall. intros d (p & <- & Hin)%list_elem_of_In%in_map_iff.
    apply list_elem_of_In in Hin. pose proof (prepared_devices _ _ _ Ht Hp) as Hall.
    rewrite Forall_forall in Hall. by apply Hall.
Qed.

Lemma checkpointed_prepared claim c u :
  (∀ v, isPrepared c v → valid_utf8 v = true) → valid_utf8 (UID claim) = true →
  isPrepared (mkCheckpoint (map ToValid <$> PreparedClaims (checkpointed claim c))) u ↔
  isPrepared c u ∨ u = UID claim.
Proof.
  intros Hc Hu. unfold isPrepared, checkpointed, append. cbn.
  rewrite map_valid_id, elem_of_app, list_elem_of_singleton; [done|].
  apply Forall_app. split; [|by apply Forall_singleton].
  apply Forall_forall. exact Hc.
Qed.

Lemma snapshotNames_insert f uid l u n :
  Forall (λ d, valid_utf8 (Name d) = true) l →
  n ∈ snapshotNames (mkClaimDevicesFile (<[uid := Some (map sanDevice l)]> (Claims f))) u →
  (u = uid ∧ n ∈ Name <$> l) ∨ (u ≠ uid ∧ n ∈ snapshotNames f u).
Proof.
  intros Hl. unfold snapshotNames. cbn. destruct (decide (uid = u)) as [<-|Hne].
  - rewrite lookup_insert_eq. cbn. intros Hn. left. split; [done|].
    apply list_elem_of_fmap in Hn as (d & -> & (d' & <- & Hd')%list_elem_of_In%in_map_iff).
    apply list_elem_of_In in Hd'. rewrite Forall_forall in Hl. specialize (Hl d' Hd').
    apply bool_decide_eq_true in Hl. cbn. rewrite Hl. by apply list_elem_of_fmap_2.
  - rewrite lookup_insert_ne by done. by right.
Qed.

(** With the snapshots of [claim] recorded, every claim of the old checkpoint and
    [claim] itself are covered. *)
Lemma covered_recorded s claim w f prepared T c u :
  tracked_ok (ds_tracked s) → prepared_all s claim prepared → (∀ n, is_tracked s n → T n) →
  on_disk s T w → claimsOn (ds_claimDevicesPath s) w = Some f →
  checkpointOn (ds_checkpointPath s) w = Some c → isPrepared c u ∨ u = UID claim →
  let f' := mkClaimDevicesFile
    (<[UID claim := Some (map sanDevice (map discovered prepared))]> (Claims f)) in
  is_Some (Claims f' !! u) ∧ ∀ n, n ∈ snapshotNames f' u → n ≠ "" → T n.
Proof.
  intros Ht Hp HT (f0 & Hf0 & Hcov) Hf Hc Hu f'. rewrite Hf in Hf0. injection Hf0 as <-.
  pose proof (prepared_devices _ _ _ Ht Hp) as Hall. split.
  - unfold f'. cbn. destruct (decide (UID claim = u)) as [<-|Hne]; [by rewrite lookup_insert_eq|].
    rewrite lookup_insert_ne by done. destruct Hu as [Hu|]; [|done]. by apply (Hcov c).
  - intros n Hn Hne. apply snapshotNames_insert in Hn as [[-> Hn]|[Hnu Hn]].
    + apply list_elem_of_fmap in Hn as (d & -> & (p & <- & Hp')%list_elem_of_In%in_map_iff).
      apply list_elem_of_In in Hp'. rewrite Forall_forall in Hall. by apply HT, Hall.
    + destruct Hu as [Hu|]; [|done]. by apply (Hcov c Hc u Hu).
    + apply Forall_forall. intros d (p & <- & Hp')%list_elem_of_In%in_map_iff.
      apply list_elem_of_In in Hp'. rewrite Forall_forall in Hall. by apply Hall.
Qed.

Lemma prepare_stage_covered s claim w w' T :
  state_ok s → valid_utf8 (UID claim) = true → (∀ n, is_tracked s n → T n) →
  on_disk s T w → prepare_stage s claim w w' → on_disk s T w'.
Proof.
  intros [Ht _ Hcp Hcl] Hu HT Hcov Hst.
  assert (Hspec : ∀ w1, only_spec (specName s (UID claim)) w w1 → on_disk s T w1).
  { intros w1 [Hw1 _]. revert Hcov. apply covered_same;
      [by apply checkpointOn_files|by apply claimsOn_files]. }
  destruct Hst as [w1 Ho|w1 w2 Ho Hw2|w1 f prepared Ho Hf Hp|w1 f prepared c t q Ho Hf Hp Hc Hn Hm].
  - by apply Hspec.
  - apply Hspec in Ho. revert Ho. apply covered_same;
      [by eapply checkpointOn_temp|by eapply claimsOn_temp].
  - eexists. split; [by eapply claimsOn_recorded|]. intros c Hc u Hcu.
    rewrite checkpointOn_set_ne in Hc by (intros Heq; by eapply paths_ne).
    rewrite (checkpointOn_files _ w) in Hc by apply Ho.
    eapply covered_recorded; try done. by left.
  - eexists. split.
    { rewrite claimsOn_set_ne by (by apply paths_ne). by eapply claimsOn_recorded. }
    intros c' Hc' u Hcu. rewrite (checkpointOn_set _ _ _ _ _ Hm) in Hc'.
    case_bool_decide; [|done]. injection Hc' as <-.
    apply checkpointed_prepared in Hcu; [|intros v Hv; by eapply checkpointOn_valid|done].
    by eapply covered_recorded.
Qed.

Lemma prepare_done_stage R s claim w prepared w' :
  prepare_done R s claim w prepared w' → prepare_stage s claim w w'.
Proof.
  intros (w1 & f & c & spec & Ho & _ & _ & Hf & Hc & Hp & ->). case_bool_decide.
  - by apply ps_recorded.
  - eapply ps_checkpoint with (q := ""); try done. by rewrite app_nil_r_str.
Qed.

(** The disk after a successful [Prepare], as its readers see it. *)
Lemma prepare_done_reads R s claim w prepared w' :
  state_ok s → valid_utf8 (UID claim) = true → prepare_done R s claim w prepared w' →
  ∃ c f, checkpointOn (ds_checkpointPath s) w = Some c ∧
    claimsOn (ds_claimDevicesPath s) w = Some f ∧
    checkpointOn (ds_checkpointPath s) w' = Some
      (if bool_decide (isPrepared c (UID claim)) then c else checkpointed claim c) ∧
    claimsOn (ds_claimDevicesPath s) w' = Some (mkClaimDevicesFile
      (<[UID claim := Some (map sanDevice (map discovered prepared))]> (Claims f))).
Proof.
  intros [Ht _ Hcp Hcl] Hu (w1 & f & c & spec & Ho & _ & _ & Hf & Hc & Hp & ->).
  exists c, f. split_and!; [done..| |].
  - set (w2 := set_file (ds_claimDevicesPath s) _ w1).
    assert (Hw2 : checkpointOn (ds_checkpointPath s) w2 = Some c).
    { unfold w2. rewrite checkpointOn_set_ne by (intros Heq; by eapply paths_ne).
      rewrite (checkpointOn_files _ w); [done|]. apply Ho. }
    case_bool_decide; [done|].
    rewrite (checkpointOn_set _ _ _ "" _ (eq_sym (app_nil_r_str _))). cbn. do 3 f_equal.
    rewrite map_valid_id; [done|]. apply Forall_app. split; [|by apply Forall_singleton].
    apply Forall_forall. intros v Hv. by eapply (checkpointOn_valid _ w).
  - assert (Hcl2 : claimsOn (ds_claimDevicesPath s)
      (set_file (ds_claimDevicesPath s) (marshalClaims (recorded claim f prepared)) w1) =
      Some (mkClaimDevicesFile
        (<[UID claim := Some (map sanDevice (map discovered prepared))]> (Claims f))))
      by (by eapply claimsOn_recorded).
    case_bool_decide; [done|]. by rewrite claimsOn_set_ne by (by apply paths_ne).
Qed.

(** *** Unprepare *)

Lemma released_prepared uid c u :
  (∀ v, isPrepared c v → valid_utf8 v = true) →
  isPrepared (mkCheckpoint (map ToValid <$> PreparedClaims (released uid c))) u ↔
  isPrepared c u ∧ u ≠ uid.
Proof.
  intros Hc. unfold isPrepared, released, DeleteFunc in *. cbn.
  destruct (PreparedClaims c) as [l|]; cbn in *.
  - rewrite map_valid_id, list_elem_of_filter; [naive_solver|].
    apply Forall_forall. intros v [_ Hv]%list_elem_of_filter. by apply Hc.
  - split; [by intros ?%elem_of_nil|by intros [?%elem_of_nil _]].
Qed.

Lemma claimsOn_forgotten s uid w0 w f :
  claimsOn (ds_claimDevicesPath s) w0 = Some f →
  claimsOn (ds_claimDevicesPath s)
    (set_file (ds_claimDevicesPath s) (marshalClaims (forgotten uid f)) w) =
  Some (forgotten uid f).
Proof.
  intros Hf. apply claimsOn_read in Hf.
  assert (Hr : claims_read (forgotten uid f)) by (by apply map_Forall_delete).
  rewrite claimsOn_set by (by apply claims_read_ok). by rewrite sanClaims_read.
Qed.

Lemma unprepare_stage_covered s uid w w' T :
  state_ok s → on_disk s T w → unprepare_stage s uid w w' → on_disk s T w'.
Proof.
  intros [_ _ Hcp Hcl] Hcov Hst.
  assert (Hspec : ∀ w1, only_spec (specName s uid) w w1 → on_disk s T w1).
  { intros w1 [Hw1 _]. revert Hcov. apply covered_same;
      [by apply checkpointOn_files|by apply claimsOn_files]. }
  assert (Hck : ∀ w1 c t q, only_spec (specName s uid) w w1 →
    checkpointOn (ds_checkpointPath s) w = Some c →
    marshalCheckpoint (released uid c) = t +:+ q →
    on_disk s T (set_file (ds_checkpointPath s) t w1)).
  { intros w1 c t q Ho Hc Hm. destruct Hcov as (f & Hf & Hcov). exists f. split.
    - rewrite claimsOn_set_ne by (by apply paths_ne). by rewrite (claimsOn_files _ w) by apply Ho.
    - intros c' Hc' u Hu. rewrite (checkpointOn_set _ _ _ _ _ Hm) in Hc'.
      case_bool_decide; [|done]. injection Hc' as <-.
      apply released_prepared in Hu as [Hu _]; [|intros v Hv; by eapply checkpointOn_valid].
      by apply (Hcov c). }
  assert (Hfull : ∀ x, x = x +:+ "") by (intros; by rewrite app_nil_r_str).
  destruct Hst as [w1 Ho|w1 c t q Ho Hc Hm|w1 c w2 Ho Hc Hw2|w1 c f Ho Hc Hf].
  - by apply Hspec.
  - by eapply Hck.
  - specialize (Hck _ _ _ "" Ho Hc (Hfull _)). revert Hck. apply covered_same;
      [by eapply checkpointOn_temp|by eapply claimsOn_temp].
  - exists (forgotten uid f). split; [by eapply claimsOn_forgotten|].
    intros c' Hc' u Hu. rewrite checkpointOn_set_ne in Hc' by (intros Heq; by eapply paths_ne).
    rewrite (checkpointOn_set _ _ _ "" _ (Hfull _)) in Hc'. injection Hc' as <-.
    apply released_prepared in Hu as [Hu Hne]; [|intros v Hv; by eapply checkpointOn_valid].
    destruct Hcov as (f0 & Hf0 & Hcov). rewrite Hf in Hf0. injection Hf0 as <-.
    unfold snapshotNames, forgotten. cbn. rewrite !lookup_delete_ne by done.
    by apply (Hcov c).
Qed.

Lemma unprepare_done_stage s uid w w' :
  unprepare_done s uid w w' → unprepare_stage s uid w w'.
Proof.
  intros (w1 & c & f & Ho & _ & Hc & Hf & ->). case_match.
  - by eapply us_forgotten.
  - eapply us_checkpoint with (q := ""); try done. by rewrite app_nil_r_str.
Qed.

(** *** Reconcile *)

Lemma prune_read c f : claims_read f → claims_read (pruneClaimDevices c f).1.
Proof.
  intros Hf u s Hu. rewrite prune_lookup in Hu. case_bool_decide; [|done]. by apply Hf.
Qed.

Lemma claimsOn_pruned s w0 w c f :
  claimsOn (ds_claimDevicesPath s) w0 = Some f →
  claimsOn (ds_claimDevicesPath s)
    (set_file (ds_claimDevicesPath s) (marshalClaims (pruneClaimDevices c f).1) w) =
  Some (pruneClaimDevices c f).1.
Proof.
  intros Hf. apply claimsOn_read, (prune_read c) in Hf.
  rewrite claimsOn_set by (by apply claims_read_ok). rewrite sanClaims_read by done.
  by destruct (pruneClaimDevices c f).1.
Qed.

Lemma snapshotNames_prune c f u : isPrepared c u →
  snapshotNames (pruneClaimDevices c f).1 u = snapshotNames f u ∧
  Claims (pruneClaimDevices c f).1 !! u = Claims f !! u.
Proof. intros Hu. unfold snapshotNames. by rewrite prune_lookup, bool_decide_eq_true_2. Qed.

Lemma reconcile_stage_covered s w w' T :
  state_ok s → on_disk s T w → reconcile_stage s w w' → on_disk s T w'.
Proof.
  intros [_ _ Hcp Hcl] Hcov [|w2 Hw2|c f Hc Hf]; [done|..].
  - revert Hcov. apply covered_same; [by eapply checkpointOn_temp|by eapply claimsOn_temp].
  - exists (pruneClaimDevices c f).1. split; [by eapply claimsOn_pruned|].
    intros c' Hc' u Hu. rewrite checkpointOn_set_ne in Hc' by (intros Heq; by eapply paths_ne).
    rewrite Hc in Hc'. injection Hc' as <-.
    destruct Hcov as (f0 & Hf0 & Hcov). rewrite Hf in Hf0. injection Hf0 as <-.
    destruct (snapshotNames_prune c f u Hu) as [-> ->]. by apply (Hcov c).
Qed.

(** The file [Reconcile] leaves is the pruned one. *)
Lemma claimsOn_done s w c f :
  claimsOn (ds_claimDevicesPath s) w = Some f →
  claimsOn (ds_claimDevicesPath s)
    (if (pruneClaimDevices c f).2
     then set_file (ds_claimDevicesPath s) (marshalClaims (pruneClaimDevices c f).1) w else w) =
  Some (pruneClaimDevices c f).1.
Proof.
  intros Hf. destruct (pruneClaimDevices c f).2 eqn:E; [by eapply claimsOn_pruned|].
  by rewrite (prune_unchanged _ _ E).
Qed.

Lemma reconcile_done_stage R s found w s' res w' :
  reconcile_done R s found w s' res w' → reconcile_stage s w w'.
Proof.
  intros (c & f & ord & ord' & next & Hc & Hf & -> & _). case_match; [by apply rs_pruned|constructor].
Qed.

Lemma reconciled_tracked_ok (R : Answer → Prop) s found c f ord next :
  (∀ a, R a → answer_ok a) → tracked_ok (ds_tracked s) → found_ok found → claims_read f →
  reconciled R s found (claimedSnapshots ord c f) next → tracked_ok next.
Proof.
  intros HR Ht Hfound Hf Hnext n td Htd. specialize (Hnext n).
  destruct (foundByName found !! n) as [d|].
  - destruct Hnext as (Hdn & Hd & td' & Htd' & (a & b & Ha & Hb & ->)).
    rewrite Htd in Htd'. injection Htd' as ->. unfold found_ok in Hfound.
    rewrite Forall_forall in Hfound. destruct (Hfound d Hd) as (? & ? & ?).
    apply HR in Hb as [Hb _].
    split; unfold td_Name; rewrite ?assessEnumerated_Device; try done; try congruence.
    by apply assessEnumerated_wf.
  - destruct (claimedSnapshots ord c f !! n) as [snap|] eqn:Hsn; [|congruence].
    destruct Hnext as (td' & Htd' & (a & Ha & ->)). rewrite Htd in Htd'. injection Htd' as ->.
    apply HR in Ha as [Ha _].
    apply claimedSnapshots_Some in Hsn as (-> & Hne & u & sl & _ & Hu & Hin).
    apply Hf in Hu as [_ Hsl]. rewrite Forall_forall in Hsl. destruct (Hsl _ Hin) as [Hi Hsan].
    assert (valid_utf8 (Name snap) = true).
    { rewrite <-Hsan. apply valid_ToValid. }
    destruct (ds_tracked s !! Name snap) as [p|] eqn:Hp.
    + destruct (Ht _ _ Hp). split; unfold td_Name in *; rewrite ?assessMissing_Device; try done.
      by apply assessMissing_wf.
    + split; unfold td_Name; rewrite ?assessMissing_Device; try done.
Qed.

(** What is tracked after [Reconcile]: the enumerated devices and those of prepared
    claims. *)
Lemma reconciled_dom R s found c f ord next n :
  reconciled R s found (claimedSnapshots ord c (pruneClaimDevices c f).1) next →
  is_Some (next !! n) ↔
    n ∈ Name <$> found ∨ (n ≠ "" ∧ ∃ u, isPrepared c u ∧ n ∈ snapshotNames f u).
Proof.
  intros Hnext. rewrite <-foundByName_dom. specialize (Hnext n).
  assert (Hsn : n ∈ dom (claimedSnapshots ord c (pruneClaimDevices c f).1) ↔
    (n ≠ "" ∧ ∃ u, isPrepared c u ∧ n ∈ snapshotNames f u)).
  { rewrite claimedSnapshots_dom. split; intros (Hn & u & Hu & Hin); (split; [done|]);
      exists u; (split; [done|]); by destruct (snapshotNames_prune c f u Hu) as [Heq _];
      rewrite Heq in *. }
  rewrite <-Hsn, elem_of_dom. destruct (foundByName found !! n) as [d|].
  - destruct Hnext as (_ & _ & td & -> & _). naive_solver.
  - destruct (claimedSnapshots _ _ _ !! n).
    + destruct Hnext as (td & -> & _). naive_solver.
    + rewrite Hnext. split; [by intros []|intros [[]|[]]; done].
Qed.

(** After [Reconcile] every device of a prepared claim is tracked, whatever was
    tracked before: this is what makes a restart safe. *)
Lemma reconcile_done_covered R s found w s' res w' T :
  state_ok s → on_disk s T w → reconcile_done R s found w s' res w' →
  on_disk s (is_tracked s') w'.
Proof.
  intros [_ _ Hcp Hcl] (f0 & Hf0 & Hcov) (c & f & ord & ord' & next & Hc & Hf & -> & Hnext & -> & _).
  rewrite Hf in Hf0. injection Hf0 as <-.
  exists (pruneClaimDevices c f).1. split; [by apply claimsOn_done|].
  intros c' Hc' u Hu.
  assert (c' = c) as ->.
  { destruct (pruneClaimDevices c f).2; [|congruence].
    rewrite checkpointOn_set_ne in Hc' by (intros Heq; by eapply paths_ne). congruence. }
  destruct (snapshotNames_prune c f u Hu) as [Hsn Hl]. rewrite Hsn, Hl.
  split; [by apply (Hcov c)|]. intros n Hn Hne. unfold is_tracked, set_tracked. cbn.
  rewrite reconciled_dom by done. right. split; [done|]. by exists u.
Qed.

Lemma reconcile_done_ok (R : Answer → Prop) s found w s' res w' :
  (∀ a, R a → answer_ok a) → state_ok s → found_ok found →
  reconcile_done R s found w s' res w' → state_ok s'.
Proof.
  intros HR [Ht Hcfg Hcp Hcl] Hfound (c & f & ord & ord' & next & _ & Hf & _ & Hnext & -> & _).
  split; [|done..]. cbn. eapply reconciled_tracked_ok; try done.
  by eapply prune_read, claimsOn_read.
Qed.

(** The published resources are those of the tracked set. *)
Definition resources_ok s : Prop :=
  ∃ ord, ds_driverResources s = devicesToResources (ds_nodeName s) (trackedList ord (ds_tracked s)).

(** A tracked device is published. *)
Lemma tracked_published s n :
  state_ok s → resources_ok s → is_tracked s n →
  n ∈ rd_Name <$> published (Resources s) (ds_nodeName s).
Proof.
  intros Hs [ord Hres] [td Htd]. unfold Resources. rewrite Hres, published_devices.
  destruct (so_tracked s Hs _ _ Htd) as [Hn _ _ _ _].
  apply list_elem_of_fmap. exists (toResourceDevice td). split; [by rewrite <-Hn|].
  apply list_elem_of_In, in_map, list_elem_of_In. rewrite SortFunc_perm.
  apply elem_of_trackedList. eauto.
Qed.

Lemma reconcile_done_resources R s found w s' res w' :
  reconcile_done R s found w s' res w' → resources_ok s' ∧ rr_Resources res = ds_driverResources s'.
Proof. intros (c & f & ord & ord' & next & _ & _ & _ & _ & -> & ->). split; [by exists ord'|done]. Qed.

Lemma initialState_ok f cdi : config_in_range (discoveryConfig f) → state_ok (initialState f cdi).
Proof.
  intros Hf. split; [apply map_Forall_empty|done|by apply Base_Join|by apply Base_Join].
Qed.

(** *** The operations as Hoare triples *)

Lemma wp_Prepare_inv (R : Answer → Prop) s claim T w :
  state_ok s → valid_utf8 (UID claim) = true → (∀ n, is_tracked s n → T n) → on_disk s T w →
  wp (on_disk s T) R (Prepare s claim) (λ _ w', on_disk s T w') w.
Proof.
  intros Hs Hu HT Hw.
  assert (Hst : ∀ w', prepare_stage s claim w w' → on_disk s T w')
    by (intros; by eapply prepare_stage_covered).
  eapply wp_weaken; [apply wp_Prepare|done|].
  intros [prepared|e] w' Hq; [by apply Hst, (prepare_done_stage R s claim w prepared)|by apply Hst].
Qed.

Lemma wp_Unprepare_inv (R : Answer → Prop) s uid T w :
  state_ok s → on_disk s T w →
  wp (on_disk s T) R (Unprepare s uid) (λ _ w', on_disk s T w') w.
Proof.
  intros Hs Hw.
  assert (Hst : ∀ w', unprepare_stage s uid w w' → on_disk s T w')
    by (intros; by eapply unprepare_stage_covered).
  eapply wp_weaken; [apply wp_Unprepare; apply Hs|done|].
  intros [[]|e] w' Hq; [by apply Hst, unprepare_done_stage|by apply Hst].
Qed.

Lemma wp_Reconcile_inv (R : Answer → Prop) s T w :
  (∀ a, R a → answer_ok a) → state_ok s → on_disk s T w →
  wp (on_disk s T) R (Reconcile s)
    (λ r w', on_disk s T w' ∧
       match r with
       | Ok (s', res) => state_ok s' ∧ resources_ok s' ∧ on_disk s (is_tracked s') w'
       | Err _ => True
       end) w.
Proof.
  intros HR Hs Hw.
  assert (Hst : ∀ w', reconcile_stage s w w' → on_disk s T w')
    by (intros; by eapply reconcile_stage_covered).
  eapply wp_weaken; [apply wp_Reconcile|done|].
  intros [[s' res]|e] w' Hq; [|by split; [apply Hst|]].
  destruct Hq as (a & Ha & Hd). apply HR in Ha as [_ Hfs].
  split; [by eapply Hst, reconcile_done_stage|]. split_and!.
  - eapply reconcile_done_ok; try done. apply Enumerate_found_ok; [done|apply Hs].
  - by eapply reconcile_done_resources.
  - by eapply reconcile_done_covered.
Qed.

End inv.
