(* ===== verification/System.v ===== *)
(** The plugin over time: a process that starts, serves calls, and is killed at
    any point, with a disk that survives it.

    [sys_exec] runs one operation against the answers of the kernel; when they run
    out inside the operation the process is gone and the disk is as the last effect
    left it.  [left_disk] is every disk the plugin can find when it starts: on a
    node where it never ran, or left by earlier runs of it under any flags that keep
    its directory, with anything else on the disk changed in between.  [reachable] is
    every state that sequences of operations lead to from there.  The mutex of
    [DeviceState] makes a sequence of whole operations the only interleaving. *)

From Stdlib Require Import ZArith.
From stdpp Require Import options.
From S2P Require Import Prelude GoStrings GoPath GoSort Consts Types Sysfs Enumerate.
From S2P Require Import Json JsonRound Codec Ranges Effects Health Resources Cdi Checkpoint Flags.
From S2P Require Import State StateLemmas StateInv.

Inductive operation :=
  | OpStart
  | OpKill
  | OpPrepare (claim : ResourceClaim)
  | OpUnprepare (uid : string)
  | OpReconcile.

(** A UID comes from the API server as JSON text. *)
Definition operation_ok (o : operation) : Prop :=
  match o with OpPrepare claim => valid_utf8 (UID claim) = true | _ => True end.

Section system.
Context `{QuantityAPI} `{GoSort} `{CDIAPI} `{!ResourceJSON}.
Implicit Type (s : DeviceState) (w : World).

Record Sys := mkSys { proc : option DeviceState; disk : World }.

Definition sys_exec (f : Flags) (o : operation) (answers : list Answer) (σ : Sys) : Sys :=
  match o, proc σ with
  | OpStart, None =>
      let '(w, r) := run (NewDeviceState f) answers (disk σ) in
      mkSys (match r with Some (Ok s) => Some s | _ => None end) w
  | OpKill, _ => mkSys None (disk σ)
  | OpPrepare claim, Some s =>
      let '(w, r) := run (Prepare s claim) answers (disk σ) in
      mkSys (match r with Some _ => Some s | None => None end) w
  | OpUnprepare uid, Some s =>
      let '(w, r) := run (Unprepare s uid) answers (disk σ) in
      mkSys (match r with Some _ => Some s | None => None end) w
  | OpReconcile, Some s =>
      let '(w, r) := run (Reconcile s) answers (disk σ) in
      mkSys (match r with
             | Some (Ok (s', _)) => Some s'
             | Some (Err _) => Some s
             | None => None
             end) w
  | _, _ => σ
  end.

Inductive sys_step (f : Flags) : Sys → Sys → Prop :=
  | sys_do o answers σ :
      operation_ok o → Forall answer_ok answers → sys_step f σ (sys_exec f o answers σ).

Definition cpPathOf (f : Flags) : string := Join [DriverPluginPath f; driverPluginCheckpointFile].
Definition clPathOf (f : Flags) : string := Join [DriverPluginPath f; claimDevicesFileName].

(** The disks on which a plugin with the directory [path] can be started.  Between two
    runs, and by the kernel at a reboot, anything but its two files may change: the
    specs of CDI, for instance, are on a file system in memory by default. *)
Inductive left_disk (path : string) : World → Prop :=
  | left_never w :
      files w !! Join [path; driverPluginCheckpointFile] = None →
      files w !! Join [path; claimDevicesFileName] = None →
      left_disk path w
  | left_run f w p w' :
      DriverPluginPath f = path → config_in_range (discoveryConfig f) →
      left_disk path w → rtc (sys_step f) (mkSys None w) (mkSys p w') → left_disk path w'
  | left_elsewhere w w' :
      left_disk path w →
      (∀ file, file ∈ [driverPluginCheckpointFile; claimDevicesFileName] →
        files w' !! Join [path; file] = files w !! Join [path; file]) →
      left_disk path w'.

(** The plugin is not running. *)
Definition sys_init (f : Flags) (σ : Sys) : Prop :=
  proc σ = None ∧ left_disk (DriverPluginPath f) (disk σ).

Definition reachable (f : Flags) (σ : Sys) : Prop := ∃ σ0, sys_init f σ0 ∧ rtc (sys_step f) σ0 σ.

(** The constant fields of a running process come from its flags. *)
Definition configured (f : Flags) s : Prop :=
  ∃ cdi tracked r, s = set_tracked (initialState f cdi) tracked r.

Definition sys_inv (f : Flags) (σ : Sys) : Prop :=
  match proc σ with
  | Some s => configured f s ∧ state_ok s ∧ resources_ok s ∧ on_disk s (is_tracked s) (disk σ)
  | None => covered (cpPathOf f) (clPathOf f) (λ _, True) (disk σ)
  end.

Lemma configured_disk f s T w :
  configured f s → on_disk s T w ↔ covered (cpPathOf f) (clPathOf f) T w.
Proof. by intros (cdi & tr & r & ->). Qed.

Lemma configured_set f s tr r : configured f s → configured f (set_tracked s tr r).
Proof. intros (cdi & tr' & r' & ->). by exists cdi, tr, r. Qed.

Lemma on_disk_forget f s T w :
  configured f s → on_disk s T w → covered (cpPathOf f) (clPathOf f) (λ _, True) w.
Proof. intros Hc Hw. rewrite configured_disk in Hw by done. by eapply covered_mono. Qed.

(** [Reconcile] only changes the tracked set and the resources. *)
Lemma wp_Reconcile_configured I R f s Q w :
  configured f s →
  wp I R (Reconcile s) Q w →
  wp I R (Reconcile s) (λ r w', Q r w' ∧
    match r with Ok (s', _) => configured f s' | Err _ => True end) w.
Proof.
  intros Hc Hq.
  assert (Hany : ∀ w, wp (λ _, True) R (Reconcile s)
    (λ r _, match r with Ok (s', _) => configured f s' | Err _ => True end) w).
  { intros w0. eapply wp_weaken; [apply wp_Reconcile|done|].
    intros [[s' res]|e] w' Hr; [|done].
    destruct Hr as (a & _ & c & fl & ord & ord' & next & _ & _ & _ & _ & -> & _).
    by apply configured_set. }
  specialize (Hany w). revert w Hq Hany.
  induction (Reconcile s) as [r|B e k IH]; intros w [HI Hq] [_ Hany]; split; [done..|done|].
  intros a Ha. apply IH; [by apply Hq|by apply Hany].
Qed.

Lemma start_inv f answers w w' r :
  config_in_range (discoveryConfig f) → Forall answer_ok answers →
  covered (cpPathOf f) (clPathOf f) (λ _, True) w →
  run (NewDeviceState f) answers w = (w', r) →
  sys_inv f (mkSys (match r with Some (Ok s) => Some s | _ => None end) w').
Proof.
  intros Hf Hans Hw Hrun. unfold NewDeviceState in Hrun.
  destruct (NewCDIHandler _ _ _) as [cdi|e]; [|cbn in Hrun; by destruct answers; simplify_eq].
  set (s0 := initialState f cdi) in *.
  assert (Hc0 : configured f s0) by (by exists cdi, ∅, (mkResources ∅)).
  assert (Hwp : wp (on_disk s0 (λ _, True)) answer_ok (try (Reconcile s0) id (λ '(s, _), Ret (Ok s)))
    (λ r w, match r with
            | Ok s => configured f s ∧ state_ok s ∧ resources_ok s ∧ on_disk s (is_tracked s) w
            | Err _ => on_disk s0 (λ _, True) w
            end) w).
  { apply wp_try. eapply wp_mono.
    - apply (wp_Reconcile_configured _ _ f); [done|].
      apply wp_Reconcile_inv; [done|by apply initialState_ok|]. by apply configured_disk with f.
    - intros [[s res]|e] w1 HI [[Ht Hok] Hcfg]; [|done]. apply wp_ret; [done|].
      destruct Hok as (? & ? & Hon). split_and!; [done..|].
      apply (configured_disk f s0) in Hon; [|done]. by apply (configured_disk f). }
  destruct (wp_run _ _ _ _ _ _ Hwp Hans Hrun) as [HI Hr].
  destruct r as [[s|e]|]; [exact Hr|by eapply on_disk_forget..].
Qed.

Lemma sys_inv_step f σ σ' :
  config_in_range (discoveryConfig f) → sys_inv f σ → sys_step f σ σ' → sys_inv f σ'.
Proof.
  intros Hf Hinv Hst. revert Hinv. destruct Hst as [o answers σ0 Ho Hans]. intros Hinv. unfold sys_exec, sys_inv in *.
  destruct (proc σ0) as [s|] eqn:Hp.
  - destruct Hinv as (Hcfg & Hs & Hres & Hw).
    destruct o as [| |claim|uid|]; cbn.
    + rewrite Hp. done.
    + by eapply on_disk_forget.
    + destruct (run (Prepare s claim) answers (disk σ0)) as [w r] eqn:Hrun.
      eapply wp_run in Hrun as [HI Hr]; [|by apply wp_Prepare_inv|done].
      destruct r; cbn; [done|]. by eapply on_disk_forget.
    + destruct (run (Unprepare s uid) answers (disk σ0)) as [w r] eqn:Hrun.
      eapply wp_run in Hrun as [HI Hr]; [|by apply wp_Unprepare_inv|done].
      destruct r; cbn; [done|]. by eapply on_disk_forget.
    + destruct (run (Reconcile s) answers (disk σ0)) as [w r] eqn:Hrun.
      eapply wp_run in Hrun as [HI Hr];
        [|apply (wp_Reconcile_configured _ _ f); [done|by apply wp_Reconcile_inv]|done].
      destruct r as [[[s' res]|e]|]; cbn; [|done|by eapply on_disk_forget].
      destruct Hr as [[_ (? & ? & Hon)] Hcfg']. split_and!; [done..|].
      apply (configured_disk f s) in Hon; [|done]. by apply (configured_disk f).
  - destruct o as [| |claim|uid|]; cbn; [|done|by rewrite Hp..].
    destruct (run (NewDeviceState f) answers (disk σ0)) as [w r] eqn:Hrun.
    by eapply start_inv in Hrun.
Qed.

Lemma sys_inv_steps f σ σ' :
  config_in_range (discoveryConfig f) → sys_inv f σ → rtc (sys_step f) σ σ' → sys_inv f σ'.
Proof.
  intros Hf Hinv Hsteps. induction Hsteps as [σ|σ1 σ2 σ3 Hstep _ IH]; [done|].
  by eapply IH, sys_inv_step.
Qed.

Lemma sys_inv_disk f σ :
  sys_inv f σ → covered (cpPathOf f) (clPathOf f) (λ _, True) (disk σ).
Proof.
  unfold sys_inv. destruct (proc σ) as [s|]; [|done].
  intros (Hcfg & _ & _ & Hw). by eapply on_disk_forget.
Qed.

(** Whatever was run before, the two files go together. *)
Lemma left_covered path w :
  left_disk path w →
  covered (Join [path; driverPluginCheckpointFile]) (Join [path; claimDevicesFileName]) (λ _, True) w.
Proof.
  induction 1 as [w Hcp Hcl|f w p w' <- Hf _ IH Hsteps|w w' _ IH Hsame].
  - exists (mkClaimDevicesFile ∅). unfold claimsOn, checkpointOn. rewrite Hcp, Hcl.
    split; [done|]. intros c [= <-] u Hu. by apply elem_of_nil in Hu.
  - by eapply (sys_inv_disk f (mkSys p w')), (sys_inv_steps f (mkSys None w)).
  - revert IH. apply covered_same; unfold checkpointOn, claimsOn; by rewrite Hsame by set_solver.
Qed.

Lemma sys_inv_init f σ : sys_init f σ → sys_inv f σ.
Proof. intros [Hp Hw%left_covered]. unfold sys_inv. by rewrite Hp. Qed.

Lemma reachable_inv f σ :
  config_in_range (discoveryConfig f) → reachable f σ → sys_inv f σ.
Proof.
  intros Hf (σ0 & Hinit & Hsteps). by eapply sys_inv_steps, Hsteps; [|apply sys_inv_init].
Qed.

(** The disk a run leaves, however it ends. *)
Lemma reachable_left f σ :
  config_in_range (discoveryConfig f) → reachable f σ → left_disk (DriverPluginPath f) (disk σ).
Proof.
  intros Hf ([p0 w0] & [Hp Hw] & Hsteps). cbn in *. subst p0. destruct σ as [p w].
  by eapply left_run.
Qed.

(** On a node where the plugin never ran. *)
Lemma never_reachable f w :
  files w !! cpPathOf f = None → files w !! clPathOf f = None → reachable f (mkSys None w).
Proof. intros Hcp Hcl. exists (mkSys None w). split; [|done]. split; [done|]. by apply left_never. Qed.

End system.
