(* ===== verification/PkgFlags.v ===== *)
(** [pkg/flags/kubeclient.go] and [pkg/flags/logging.go]: the flags of the
    Kubernetes client and of logging, and what is built from them.

    A flag of urfave/cli is a record: its kind, its name, its default and the
    destination it is stored to, a setter of the application's state.  The libraries
    below it are interfaces: [ClientGo] and [LogsAPI]. *)

From Stdlib Require Import Ascii ZArith.
From coqutil Require Import Datatypes.RecordSetters.
From stdpp Require Import options.
From S2P Require Import Prelude GoStrings GoFloat Effects.

Import DoubleBraceUpdate.

(** ** urfave/cli flags *)

Inductive flagKind := KString | KBool | KInt | KFloat64 | KDuration | KGeneric.

(** The values of a kind; a duration is in nanoseconds, and a [GenericFlag] is given
    as text. *)
Definition denote (k : flagKind) : Type :=
  match k with
  | KString => string
  | KBool => bool
  | KInt | KDuration => Z
  | KFloat64 => float64
  | KGeneric => string
  end.

(** The fields of [cli.StringFlag] and its kin that matter for parsing; usage and category
    are only shown.  [Default] is the default stored through [Destination]: a generic
    flag has none, its [Value] being the destination itself. *)
Record Flag (S : Type) := mkFlag {
  fl_Kind : flagKind;
  fl_Name : string;
  fl_Required : bool;
  fl_Default : option (denote fl_Kind);
  fl_Destination : denote fl_Kind → S → S;
  fl_EnvVars : list string
}.
Arguments mkFlag {S} fl_Kind fl_Name fl_Required fl_Default fl_Destination fl_EnvVars.
Arguments fl_Kind {S}.
Arguments fl_Name {S}.
Arguments fl_Required {S}.
Arguments fl_Default {S}.
Arguments fl_Destination {S}.
Arguments fl_EnvVars {S}.

Definition StringFlag {S} (name value : string) (dest : string → S → S) (env : string) : Flag S :=
  mkFlag KString name false (Some value) dest [env].
Definition BoolFlag {S} (name : string) (value : bool) (dest : bool → S → S) (env : string) : Flag S :=
  mkFlag KBool name false (Some value) dest [env].
Definition IntFlag {S} (name : string) (value : Z) (dest : Z → S → S) (env : string) : Flag S :=
  mkFlag KInt name false (Some value) dest [env].
Definition Float64Flag {S} (name : string) (value : float64) (dest : float64 → S → S) (env : string)
    : Flag S :=
  mkFlag KFloat64 name false (Some value) dest [env].
Definition DurationFlag {S} (name : string) (value : Z) (dest : Z → S → S) (env : string) : Flag S :=
  mkFlag KDuration name false (Some value) dest [env].

(** The same flag, for a state that contains the destination's. *)
Definition lift {S T} (get : T → S) (set : S → T → T) (fl : Flag S) : Flag T :=
  mkFlag (fl_Kind fl) (fl_Name fl) (fl_Required fl) (fl_Default fl)
    (λ v t, set (fl_Destination fl v (get t)) t) (fl_EnvVars fl).

(** What the user gave: by kind and name, the value on the command line, or else in the
    first variable that is set. *)
Definition Given : Type := ∀ k : flagKind, string → option (denote k).

(** One flag stores its value: what was given, or its default. *)
Definition store_flag {S} (given : Given) (s : S) (fl : Flag S) : S :=
  match given (fl_Kind fl) (fl_Name fl) with
  | Some v => fl_Destination fl v s
  | None => match fl_Default fl with Some v => fl_Destination fl v s | None => s end
  end.

Definition store_flags {S} (given : Given) (fls : list (Flag S)) (s : S) : S :=
  foldl (store_flag given) s fls.

(** ** kubeclient.go *)

Record KubeClientConfig := mkKube {
  KubeConfig : string;
  KubeAPIQPS : float64;
  KubeAPIBurst : Z
}.

Definition KubeClientConfig_Flags : list (Flag KubeClientConfig) :=
  [StringFlag "kubeconfig" "" (λ v k, k {{ KubeConfig := v }}) "KUBECONFIG";
   Float64Flag "kube-api-qps" (float64_of_int 5) (λ v k, k {{ KubeAPIQPS := v }}) "KUBE_API_QPS";
   IntFlag "kube-api-burst" 10 (λ v k, k {{ KubeAPIBurst := v }}) "KUBE_API_BURST"].

(** client-go: [rest.Config] beyond the two fields the plugin sets, where a configuration
    comes from, and the client. *)
Class ClientGo := {
  restOther : Type;
  Interface : Type
}.

Record RestConfig `{ClientGo} := mkRest {
  QPS : float32;
  Burst : Z;
  rest_Other : restOther
}.

Class ClientSource `{ClientGo} := {
  InClusterConfig : result error RestConfig;
  BuildConfigFromFlags : string → string → result error RestConfig;
  NewForConfig : RestConfig → result error Interface
}.

Section client.
Context `{ClientSource}.

Definition NewClientSetConfig (k : KubeClientConfig) : result error RestConfig :=
  match (if bool_decide (KubeConfig k = "") then
           match InClusterConfig with
           | Err e => Err (EWrap "create in-cluster client configuration" e)
           | Ok c => Ok c
           end
         else
           match BuildConfigFromFlags "" (KubeConfig k) with
           | Err e => Err (EWrap "create out-of-cluster client configuration" e)
           | Ok c => Ok c
           end) with
  | Err e => Err e
  | Ok csconfig => Ok (csconfig {{ QPS := float32_of (KubeAPIQPS k); Burst := KubeAPIBurst k }})
  end.

Definition NewClientSets (k : KubeClientConfig) : result error Interface :=
  match NewClientSetConfig k with
  | Err e => Err (EWrap "create client configuration" e)
  | Ok csconfig =>
      match NewForConfig csconfig with
      | Err e => Err (EWrap "create core client" e)
      | Ok core => Ok core
      end
  end.

End client.

(** ** logging.go *)

(** A [pflag.Flag]: a name, and [Value.Set] on the object it belongs to. *)
Record pflag (S : Type) := mkPflag { pf_Name : string; pf_Set : string → S → S }.
Arguments mkPflag {S}.
Arguments pf_Name {S}.
Arguments pf_Set {S}.

(** component-base's logging and feature gates.  [AddFlags] is the flags it adds for a
    configuration, [VisitAll] the order in which a flag set is visited. *)
Class LogsAPI := {
  LoggingConfiguration : Type;
  FeatureGate : Type;
  NewLoggingConfiguration : LoggingConfiguration;
  NewFeatureGate : FeatureGate;
  AddFeatureGates : FeatureGate → result error FeatureGate;
  SetFromMap : list (string * bool) → FeatureGate → result error FeatureGate;
  ContextualLogging : string;
  SetGates : string → FeatureGate → FeatureGate;
  AddFlags : list (pflag LoggingConfiguration);
  ValidateAndApply : LoggingConfiguration → FeatureGate → option error;
  VisitAll : ∀ {S}, list (pflag S) → list (pflag S);
  VisitAll_perm {S} (l : list (pflag S)) : VisitAll l ≡ₚ l
}.

Section logging.
Context `{LogsAPI}.

Record LoggingConfig := mkLogging {
  featureGate : FeatureGate;
  config : LoggingConfiguration
}.

(** [utilruntime.Must] panics: [None]. *)
Definition Must {A} (r : result error A) : option A :=
  match r with Ok a => Some a | Err _ => None end.

Definition NewLoggingConfig : option LoggingConfig :=
  let fg := NewFeatureGate in
  let conf := NewLoggingConfiguration in
  fg ← Must (AddFeatureGates fg);
  fg ← Must (SetFromMap [(ContextualLogging, true)] fg);
  Some (mkLogging fg conf).

Definition Apply (l : LoggingConfig) : option error := ValidateAndApply (config l) (featureGate l).

(** [strings.ToUpper(strings.ReplaceAll(flag.Name, "-", "_"))]. *)
Definition envName (name : string) : string := ToUpper (ReplaceAll "-" "_" name).

Definition pflagToCLI {S} (flag : pflag S) : Flag S :=
  mkFlag KGeneric (pf_Name flag) false None (pf_Set flag) [envName (pf_Name flag)].

(** The flag set: those of component-base, then [feature-gates]. *)
Definition loggingPflags : list (pflag LoggingConfig) :=
  map (λ p, mkPflag (pf_Name p) (λ v l, l {{ config := pf_Set p v (config l) }})) AddFlags ++
  [mkPflag "feature-gates" (λ v l, l {{ featureGate := SetGates v (featureGate l) }})].

Definition LoggingConfig_Flags : list (Flag LoggingConfig) :=
  map pflagToCLI (VisitAll loggingPflags).

End logging.
