(* ===== verification/Store.v ===== *)
(** What the plugin promises to remember: an abstract store of prepared claims,
    and the refinement of it by the two files.

    The specification state is a map from the prepared claims to their devices, or
    [Broken] when the checkpoint cannot be read.  An operation has an effect on the
    map.  [store_step] says what may be seen of it: an operation that returned without
    an error had its effect; one that failed or was killed had all of it or none; only the
    operations that rewrite the checkpoint can break it.  [storeOn] is the abstraction
    function from the disk, and the stages of [StateLemmas.v] are mapped to
    [store_step]s. *)

From Stdlib Require Import ZArith.
From stdpp Require Import options.
From S2P Require Import Prelude GoStrings GoPath GoSort Consts Types Sysfs Enumerate.
From S2P Require Import Json JsonRound Codec Ranges Effects Health Resources Cdi Checkpoint Flags.
From S2P Require Import State StateLemmas StateInv System.

(** ** The specification *)

Inductive store :=
  | Broken
  | Holds (claims : gmap string (list Device)).

Section spec.
Context (eff : gmap string (list Device) → gmap string (list Device) → Prop).
Context (rewrites completed : bool).

Inductive store_step : store → store → Prop :=
  | ss_effect m m' : eff m m' → store_step (Holds m) (Holds m')
  | ss_none m : completed = false → store_step (Holds m) (Holds m)
  | ss_torn m : completed = false → rewrites = true → store_step (Holds m) Broken
  | ss_broken : completed = false → store_step Broken Broken.

End spec.

Lemma store_step_mono (eff eff' : gmap string (list Device) → gmap string (list Device) → Prop) rw b S S' :
  (∀ m m', eff m m' → eff' m m') → store_step eff rw b S S' → store_step eff' rw b S S'.
Proof. intros He [m m' Hm|m Hb|m Hb Hrw|Hb]; [apply ss_effect; auto|by constructor..]. Qed.

(** An operation with no effect that does not rewrite the checkpoint changes nothing. *)
Lemma store_step_same b S S' : store_step (λ m m', m' = m) false b S S' → S' = S.
Proof. by intros [m m' ->|m|m|]. Qed.

(** ** The abstraction function *)

(** The claims of the checkpoint with their recorded devices. *)
Definition held (c : checkpoint) (f : claimDevicesFile) : gmap string (list Device) :=
  elems <$> filter (λ '(uid, _), isPrepared c uid) (Claims f).

Definition storeOn (cpPath clPath : string) (w : World) : store :=
  match checkpointOn cpPath w, claimsOn clPath w with
  | Some c, Some f => Holds (held c f)
  | _, _ => Broken
  end.

Lemma held_lookup c f u :
  held c f !! u = if bool_decide (isPrepared c u) then elems <$> Claims f !! u else None.
Proof.
  unfold held. rewrite lookup_fmap, map_lookup_filter.
  case_bool_decide as Hp; destruct (Claims f !! u); cbn; [|done| |done].
  - by rewrite option_guard_True.
  - by rewrite option_guard_False.
Qed.

Lemma storeOn_same cp cl w w' :
  checkpointOn cp w' = checkpointOn cp w → claimsOn cl w' = claimsOn cl w →
  storeOn cp cl w' = storeOn cp cl w.
Proof. unfold storeOn. by intros -> ->. Qed.

(** Only which claims are prepared matters, and what is recorded for those. *)
Lemma held_ext c c' f f' :
  (∀ u, isPrepared c u ↔ isPrepared c' u) →
  (∀ u, isPrepared c u → Claims f !! u = Claims f' !! u) → held c f = held c' f'.
Proof.
  intros Hc Hf. apply map_eq. intros u. rewrite !held_lookup.
  rewrite (bool_decide_ext _ _ (Hc u)). case_bool_decide as Hu; [|done].
  by rewrite Hf by by apply Hc.
Qed.

Lemma held_prune c f : held c (pruneClaimDevices c f).1 = held c f.
Proof. apply held_ext; [done|]. intros u Hu. by rewrite prune_lookup, bool_decide_eq_true_2. Qed.

Lemma held_insert c c' f uid devs :
  (∀ u, isPrepared c' u ↔ isPrepared c u ∨ u = uid) →
  held c' (mkClaimDevicesFile (<[uid := devs]> (Claims f))) = <[uid := elems devs]> (held c f).
Proof.
  intros Hc. apply map_eq. intros u. rewrite held_lookup. cbn.
  destruct (decide (u = uid)) as [->|Hne].
  - rewrite !lookup_insert_eq, bool_decide_eq_true_2; [done|]. apply Hc. by right.
  - rewrite !lookup_insert_ne, held_lookup by done.
    by rewrite (bool_decide_ext _ (isPrepared c u)) by (rewrite Hc; naive_solver).
Qed.

(** Recording a claim that is not prepared is not seen. *)
Lemma held_insert_unseen c f uid devs :
  ¬ isPrepared c uid → held c (mkClaimDevicesFile (<[uid := devs]> (Claims f))) = held c f.
Proof.
  intros Hu. apply held_ext; [done|]. intros v Hv. cbn. rewrite lookup_insert_ne; [done|].
  by intros ->.
Qed.

Lemma held_delete c c' f uid :
  (∀ u, isPrepared c' u ↔ isPrepared c u ∧ u ≠ uid) → held c' f = delete uid (held c f).
Proof.
  intros Hc. apply map_eq. intros u. rewrite held_lookup, (bool_decide_ext _ _ (Hc u)).
  destruct (decide (u = uid)) as [->|Hne].
  - rewrite lookup_delete_eq, bool_decide_eq_false_2; [done|]. naive_solver.
  - rewrite lookup_delete_ne, held_lookup by done.
    by rewrite (bool_decide_ext _ (isPrepared c u)) by naive_solver.
Qed.

Lemma held_forgotten c f uid : ¬ isPrepared c uid → held c (forgotten uid f) = held c f.
Proof.
  intros Hu. apply held_ext; [done|]. intros v Hv. cbn. rewrite lookup_delete_ne; [done|].
  by intros ->.
Qed.

(** ** The operations *)

Section store.
Context `{QuantityAPI} `{GoSort} `{CDIAPI} `{!ResourceJSON}.
Implicit Type (s : DeviceState) (claim : ResourceClaim) (w : World).

Definition storeOf s (w : World) : store := storeOn (ds_checkpointPath s) (ds_claimDevicesPath s) w.

(** The effects: the devices a claim was prepared with are recorded under its UID, as the
    file's encoding keeps them; a released claim is forgotten. *)
Definition prepare_effect s claim (m m' : gmap string (list Device)) : Prop :=
  ∃ prepared, prepared_all s claim prepared ∧
    m' = <[UID claim := map sanDevice (map discovered prepared)]> m.

Definition unprepare_effect (uid : string) (m m' : gmap string (list Device)) : Prop :=
  m' = delete uid m.

Lemma storeOf_spec s name w w1 : only_spec name w w1 → storeOf s w1 = storeOf s w.
Proof. intros [Hw _]. apply storeOn_same; [by apply checkpointOn_files|by apply claimsOn_files]. Qed.

Lemma storeOf_temp s w w' : state_ok s → temp_left (ds_claimDevicesPath s) w w' → storeOf s w' = storeOf s w.
Proof.
  intros [_ _ Hcp Hcl] Hw. apply storeOn_same; [by eapply checkpointOn_temp|by eapply claimsOn_temp].
Qed.

(** A failed or killed operation that left the store alone. *)
Lemma store_step_none eff rw S S' : S' = S → store_step eff rw false S S'.
Proof. intros ->. destruct S; by constructor. Qed.

(** The store when the snapshots of a claim are recorded, the checkpoint not yet
    written. *)
Lemma store_recorded s claim w f prepared w2 :
  state_ok s → claimsOn (ds_claimDevicesPath s) w = Some f → prepared_all s claim prepared →
  checkpointOn (ds_checkpointPath s) w2 = checkpointOn (ds_checkpointPath s) w →
  claimsOn (ds_claimDevicesPath s) w2 = Some (mkClaimDevicesFile
    (<[UID claim := Some (map sanDevice (map discovered prepared))]> (Claims f))) →
  store_step (prepare_effect s claim) true false (storeOf s w) (storeOf s w2).
Proof.
  intros Hs Hf Hp Hc2 Hf2. unfold storeOf, storeOn. rewrite Hc2, Hf2, Hf.
  destruct (checkpointOn (ds_checkpointPath s) w) as [c|]; [|by constructor].
  destruct (decide (isPrepared c (UID claim))) as [Hu|Hu].
  - apply ss_effect. exists prepared. split; [done|]. apply held_insert. naive_solver.
  - rewrite held_insert_unseen by done. by constructor.
Qed.

Lemma store_prepare_stage s claim w w' :
  state_ok s → valid_utf8 (UID claim) = true → prepare_stage s claim w w' →
  store_step (prepare_effect s claim) true false (storeOf s w) (storeOf s w').
Proof.
  intros Hs Hu Hst. pose proof Hs as [Ht _ Hcp Hcl].
  destruct Hst as [w1 Ho|w1 w2 Ho Hw2|w1 f prepared Ho Hf Hp|w1 f prepared c t q Ho Hf Hp Hc Hn Hm].
  - apply store_step_none. by eapply storeOf_spec.
  - apply store_step_none. rewrite (storeOf_temp s w1) by done. by eapply storeOf_spec.
  - eapply store_recorded; [done..| |by eapply claimsOn_recorded].
    rewrite checkpointOn_set_ne by (intros Heq; by eapply paths_ne). by apply checkpointOn_files, Ho.
  - set (w2 := set_file (ds_claimDevicesPath s) _ w1).
    assert (Hf2 : claimsOn (ds_claimDevicesPath s) (set_file (ds_checkpointPath s) t w2) =
      Some (mkClaimDevicesFile
        (<[UID claim := Some (map sanDevice (map discovered prepared))]> (Claims f)))).
    { rewrite claimsOn_set_ne by (by apply paths_ne). by eapply claimsOn_recorded. }
    unfold storeOf, storeOn. rewrite Hf2, Hf, Hc, (checkpointOn_set _ _ _ _ _ Hm).
    case_bool_decide; [|by constructor]. apply ss_effect. exists prepared. split; [done|].
    apply held_insert. intros u. apply checkpointed_prepared; [|done].
    intros v Hv. by eapply checkpointOn_valid.
Qed.

Lemma store_prepare_done R s claim w prepared w' :
  state_ok s → valid_utf8 (UID claim) = true → prepare_done R s claim w prepared w' →
  store_step (prepare_effect s claim) true true (storeOf s w) (storeOf s w').
Proof.
  intros Hs Hu Hd. pose proof Hd as (_ & _ & _ & _ & _ & _ & _ & _ & _ & Hp & _).
  destruct (prepare_done_reads _ _ _ _ _ _ Hs Hu Hd) as (c & f & Hc & Hf & Hc' & Hf').
  unfold storeOf, storeOn. rewrite Hc, Hf, Hc', Hf'. apply ss_effect. exists prepared.
  split; [done|]. apply held_insert. intros u. case_bool_decide; [naive_solver|].
  unfold isPrepared, checkpointed, append. cbn. by rewrite elem_of_app, list_elem_of_singleton.
Qed.

(** The store once the checkpoint without the claim is written in full. *)
Lemma store_released s uid w w2 c f :
  checkpointOn (ds_checkpointPath s) w = Some c → claimsOn (ds_claimDevicesPath s) w = Some f →
  checkpointOn (ds_checkpointPath s) w2 =
    Some (mkCheckpoint (map ToValid <$> PreparedClaims (released uid c))) →
  claimsOn (ds_claimDevicesPath s) w2 = Some f ∨
    claimsOn (ds_claimDevicesPath s) w2 = Some (forgotten uid f) →
  ∀ b, store_step (unprepare_effect uid) true b (storeOf s w) (storeOf s w2).
Proof.
  intros Hc Hf Hc2 Hf2 b. unfold storeOf, storeOn. rewrite Hc, Hf, Hc2.
  assert (Hrel : ∀ u, isPrepared (mkCheckpoint (map ToValid <$> PreparedClaims (released uid c))) u ↔
    isPrepared c u ∧ u ≠ uid)
    by (intros u; apply released_prepared; intros v Hv; by eapply (checkpointOn_valid _ w)).
  destruct Hf2 as [-> | ->]; apply ss_effect.
  - by apply held_delete.
  - rewrite held_forgotten by (rewrite Hrel; naive_solver). by apply held_delete.
Qed.

Lemma store_unprepare_stage s uid w w' T :
  state_ok s → on_disk s T w → unprepare_stage s uid w w' →
  store_step (unprepare_effect uid) true false (storeOf s w) (storeOf s w').
Proof.
  intros Hs (f0 & Hf0 & _) Hst. pose proof Hs as [_ _ Hcp Hcl].
  assert (Hfull : ∀ x, x = x +:+ "") by (intros; by rewrite app_nil_r_str).
  assert (Hcl1 : ∀ w1 t, only_spec (specName s uid) w w1 →
    claimsOn (ds_claimDevicesPath s) (set_file (ds_checkpointPath s) t w1) = Some f0).
  { intros w1 t Ho. rewrite claimsOn_set_ne by (by apply paths_ne).
    by rewrite (claimsOn_files _ w) by apply Ho. }
  destruct Hst as [w1 Ho|w1 c t q Ho Hc Hm|w1 c w2 Ho Hc Hw2|w1 c f Ho Hc Hf].
  - apply store_step_none. by eapply storeOf_spec.
  - destruct (decide (q = "")) as [->|Hq].
    + eapply store_released; [done..| |left; by apply Hcl1].
      by rewrite (checkpointOn_set _ _ _ _ _ Hm), bool_decide_eq_true_2.
    + unfold storeOf, storeOn. rewrite Hc, Hf0, (checkpointOn_set _ _ _ _ _ Hm).
      rewrite bool_decide_eq_false_2 by done. by constructor.
  - rewrite (storeOf_temp s _ _ Hs Hw2). eapply store_released; [done..| |left; by apply Hcl1].
    by rewrite (checkpointOn_set _ _ _ "" _ (Hfull _)).
  - rewrite Hf in Hf0. injection Hf0 as <-.
    eapply store_released; [done..| |right; by eapply claimsOn_forgotten].
    rewrite checkpointOn_set_ne by (intros Heq; by eapply paths_ne).
    by rewrite (checkpointOn_set _ _ _ "" _ (Hfull _)).
Qed.

Lemma store_unprepare_done s uid w w' :
  state_ok s → unprepare_done s uid w w' →
  store_step (unprepare_effect uid) true true (storeOf s w) (storeOf s w').
Proof.
  intros [_ _ Hcp Hcl] (w1 & c & f & Ho & _ & Hc & Hf & ->).
  set (w2 := set_file (ds_checkpointPath s) _ w1).
  assert (Hc2 : checkpointOn (ds_checkpointPath s) w2 =
    Some (mkCheckpoint (map ToValid <$> PreparedClaims (released uid c))))
    by (unfold w2; by rewrite (checkpointOn_set _ _ _ "" _ (eq_sym (app_nil_r_str _)))).
  eapply store_released; [done..| |]; case_match.
  - by rewrite checkpointOn_set_ne by (intros Heq; by eapply paths_ne).
  - done.
  - right. by eapply claimsOn_forgotten.
  - left. unfold w2. rewrite claimsOn_set_ne by (by apply paths_ne).
    by rewrite (claimsOn_files _ w) by apply Ho.
Qed.

(** A rediscovery never changes the store. *)
Lemma store_reconcile_stage s w w' :
  state_ok s → reconcile_stage s w w' → storeOf s w' = storeOf s w.
Proof.
  intros Hs Hst. pose proof Hs as [_ _ Hcp Hcl]. destruct Hst as [|w' Hw'|c f Hc Hf]; [done| |].
  - by apply storeOf_temp.
  - unfold storeOf, storeOn. rewrite Hc, Hf.
    rewrite checkpointOn_set_ne by (intros Heq; by eapply paths_ne). rewrite Hc.
    by rewrite (claimsOn_pruned s w _ c f Hf), held_prune.
Qed.

Definition returned_ok {A} (r : option (result error A)) : bool :=
  match r with Some (Ok _) => true | _ => false end.

(** ** Each operation *)

Lemma store_Prepare s claim answers w w' r :
  state_ok s → valid_utf8 (UID claim) = true → Forall answer_ok answers →
  run (Prepare s claim) answers w = (w', r) →
  store_step (prepare_effect s claim) true (returned_ok r) (storeOf s w) (storeOf s w').
Proof.
  intros Hs Hu Hans Hrun.
  destruct (wp_run _ _ _ _ _ _ (wp_Prepare answer_ok s claim w) Hans Hrun) as [Hst Hr].
  destruct r as [[prepared|e]|]; [by eapply store_prepare_done|by apply store_prepare_stage..].
Qed.

Lemma store_Unprepare s uid answers w w' r T :
  state_ok s → on_disk s T w → Forall answer_ok answers →
  run (Unprepare s uid) answers w = (w', r) →
  store_step (unprepare_effect uid) true (returned_ok r) (storeOf s w) (storeOf s w').
Proof.
  intros Hs Hw Hans Hrun. pose proof Hs as [_ _ Hcp Hcl].
  destruct (wp_run _ _ _ _ _ _ (wp_Unprepare answer_ok s uid w Hcp Hcl) Hans Hrun) as [Hst Hr].
  destruct r as [[[]|e]|]; [by apply store_unprepare_done|by eapply store_unprepare_stage..].
Qed.

(** An operation that keeps the store, and needs it to be readable. *)
Lemma store_keep rw b S S' :
  S' = S → (b = true → S ≠ Broken) → store_step (λ m m', m' = m) rw b S S'.
Proof.
  intros -> Hb. destruct S as [|m]; [|by constructor].
  destruct b; [by destruct Hb|by constructor].
Qed.

Lemma store_readable s w c f :
  checkpointOn (ds_checkpointPath s) w = Some c → claimsOn (ds_claimDevicesPath s) w = Some f →
  storeOf s w ≠ Broken.
Proof. unfold storeOf, storeOn. by intros -> ->. Qed.

Lemma store_Reconcile s answers w w' r :
  state_ok s → Forall answer_ok answers → run (Reconcile s) answers w = (w', r) →
  store_step (λ m m', m' = m) false (returned_ok r) (storeOf s w) (storeOf s w').
Proof.
  intros Hs Hans Hrun.
  destruct (wp_run _ _ _ _ _ _ (wp_Reconcile answer_ok s w) Hans Hrun) as [Hst Hr].
  apply store_keep.
  - apply store_reconcile_stage; [done|]. exact Hst.
  - destruct r as [[[s' res]|e]|]; [intros _|done..].
    destruct Hr as (a & _ & c & f & _ & _ & _ & Hc & Hf & _). by eapply store_readable.
Qed.

Lemma store_start f answers w w' r :
  config_in_range (discoveryConfig f) → Forall answer_ok answers →
  run (NewDeviceState f) answers w = (w', r) →
  store_step (λ m m', m' = m) false (returned_ok r)
    (storeOn (cpPathOf f) (clPathOf f) w) (storeOn (cpPathOf f) (clPathOf f) w').
Proof.
  intros Hf Hans. unfold NewDeviceState. destruct (NewCDIHandler _ _ _) as [cdi|e].
  - rewrite (run_try _ _ _ fst) by (by intros []).
    destruct (run (Reconcile (initialState f cdi)) answers w) as [w1 r1] eqn:Hr1.
    apply store_Reconcile in Hr1; [|by apply initialState_ok|done].
    intros [= <- <-]. by destruct r1 as [[]|].
  - intros [= <- <-]. by apply store_keep.
Qed.

End store.
