(* ===== verification/Driver.v ===== *)
(** [cmd/kubeletplugin/driver.go]: the goroutines around [DeviceState].

    The main goroutine, the rediscovery loop, the kubelet's calls, the health streams
    and the helper's error handler run concurrently.  They meet in the mutex of
    [DeviceState], whose critical sections are the methods of [State.v], in two channels
    of capacity one, in [rediscoveryDone], which the loop closes and [Shutdown] waits
    for, in the registry of metrics and in the main context.  [driver_step] is the
    interleaving: each rule is one critical section, one channel operation, one update
    of a metric, one cancellation or one call of the helper; what a goroutine has left
    to do between two of them is its phase.  [call_alone_prepare] and its companions in
    [DriverMon.v] say that the steps of one call, uninterrupted, are the function.

    Ghost fields record what the channels are for: [g_released], a claim was
    released since the last rediscovery took the mutex; [g_stale] of a stream, health
    changed since it last looked; and [g_many], two streams were open at once. *)

From Stdlib Require Import ZArith.
From coqutil Require Import Datatypes.RecordSetters.
From stdpp Require Import options.
From S2P Require Import Prelude GoStrings GoPath GoSort Consts Types Sysfs Enumerate.
From S2P Require Import Json JsonRound Codec Ranges Effects Health Resources Cdi Checkpoint Flags.
From S2P Require Import State StateLemmas StateInv System GoFloat Metrics.

Import DoubleBraceUpdate.

(** ** Errors *)

(** [errors.Is(err, target)] along the [%w] chain. *)
Fixpoint ErrorsIs (e target : error) : bool :=
  bool_decide (e = target) ||
  match e with
  | EWrap _ e' => ErrorsIs e' target
  | _ => false
  end.

(** [kubeletplugin.ErrRecoverable], a sentinel error. *)
Class KubeletPlugin := {
  ErrRecoverable : error;
  recoverable_sentinel msg e : ErrRecoverable ≠ EWrap msg e
}.

(** [context.Canceled], and the cancel function of a [WithCancelCause] context, which
    keeps the first cause. *)
Definition Canceled : error := EText "context canceled".

Definition cancel (err : error) (cause : option error) : option error :=
  match cause with None => Some err | Some c => Some c end.

(** The signals of [RunPlugin], and the cause with which [signal.NotifyContext] cancels
    its context in the Go of go.mod (1.26): an error that names the signal. *)
Inductive Signal := SIGHUP | SIGINT | SIGTERM | SIGQUIT.

Definition signalString (sig : Signal) : string :=
  match sig with
  | SIGHUP => "hangup"
  | SIGINT => "interrupt"
  | SIGTERM => "terminated"
  | SIGQUIT => "quit"
  end.

Definition signalError (sig : Signal) : error := EText (signalString sig +:+ " signal received").

(** [RunPlugin] after [<-ctx.Done()]: whether it logs the cause as an error. *)
Definition reportsCause (cause : option error) : bool :=
  match cause with None => false | Some err => negb (ErrorsIs err Canceled) end.

(** The second half of [HandleError]; [cancelCtx] says that [d.cancelCtx] is not nil. *)
Definition cancelMain (cancelCtx : bool) (err : error) (cause : option error) : option error :=
  if cancelCtx then cancel (EWrap "fatal background error" err) cause else cause.

(** [HandleError]: the counters and the cause of the main context. *)
Definition HandleError `{MetricsAPI} `{KubeletPlugin} (cancelCtx : bool) (err : error) (m : registry)
    (cause : option error) : registry * option error :=
  if ErrorsIs err ErrRecoverable then (m, cause)
  else (Inc FatalBackgroundErrorsTotal [] m, cancelMain cancelCtx err cause).

(** [NewDriver]: the interval of the rediscovery loop. *)
Definition effectiveInterval (f : Flags) : Z :=
  if (discoveryInterval f <=? 0)%Z then defaultDiscoveryInterval else discoveryInterval f.

Section driver.
Context `{QuantityAPI} `{GoSort} `{CDIAPI} `{!ResourceJSON} `{MetricsAPI} `{KubeletPlugin}.
Implicit Type (s : DeviceState) (w : World).

(** ** The kubelet's calls *)

(** [kubeletplugin.Device] and [kubeletplugin.PrepareResult]. *)
Record KubeletDevice := mkKubeletDevice {
  kd_Requests : list string;
  kd_PoolName : string;
  kd_DeviceName : string;
  kd_CDIDeviceIDs : list string;
  kd_ShareID : option string
}.

Definition kubeletDevice (pd : preparedDevice) : KubeletDevice :=
  mkKubeletDevice (RequestNames pd) (PoolName pd) (DeviceName pd) (CDIDeviceIDs pd) (ShareID pd).

Definition PrepareResult : Type := result error (list KubeletDevice).

Definition errorOf {A} (r : result error A) : option error :=
  match r with Ok _ => None | Err e => Some e end.

(** What [Prepare] and [Unprepare] returned, as the kubelet is told. *)
Definition prepareResult (claim : ResourceClaim) (r : result error (list preparedDevice))
    : PrepareResult :=
  match r with
  | Ok devices => Ok (map kubeletDevice devices)
  | Err e => Err (EWrap ("error preparing devices for claim " +:+ UID claim) e)
  end.

Definition unprepareResult (uid : string) (r : result error unit) : result error unit :=
  match r with
  | Ok _ => Ok tt
  | Err e => Err (EWrap ("error unpreparing devices for claim " +:+ uid) e)
  end.

(** The deferred observation reads the clock when the result is known. *)
Definition prepareResourceClaim s (claim : ResourceClaim) (m : registry)
    : prog (registry * PrepareResult) :=
  let! start := perform ENow in
  let! r := Prepare s claim in
  let result := prepareResult claim r in
  let! now := perform ENow in
  Ret (ObservePrepareClaim (errorOf result) (Since start now) m, result).

(** The kick of a released claim is not a system call: it is the step [st_kick]. *)
Definition unprepareResourceClaim s (uid : string) (m : registry)
    : prog (registry * result error unit) :=
  let! start := perform ENow in
  let! r := Unprepare s uid in
  let result := unprepareResult uid r in
  let! now := perform ENow in
  Ret (ObserveUnprepareClaim (errorOf result) (Since start now) m, result).

(** One result per claim, under its UID; the error of the call itself is always
    nil. *)
Definition PrepareResourceClaims s (claims : list ResourceClaim) (m : registry)
    : prog (registry * gmap string PrepareResult) :=
  for_each claims (m, ∅) (λ '(m, result) claim,
    let! r := prepareResourceClaim s claim m in
    Ret (r.1, <[UID claim := r.2]> result)).

Definition UnprepareResourceClaims s (uids : list string) (m : registry)
    : prog (registry * gmap string (result error unit)) :=
  for_each uids (m, ∅) (λ '(m, result) uid,
    let! r := unprepareResourceClaim s uid m in
    Ret (r.1, <[uid := r.2]> result)).

(** ** The running driver *)

(** Where the rediscovery loop is. *)
Inductive loop_phase :=
  | LBoot (r : DriverResources)             (* [NewDriver] publishes, the helper is up *)
  | LWaiting                                (* in [select] *)
  | LEnumerate                              (* woken, before sysfs is read *)
  | LLock (found : list Device)             (* enumerated, before the mutex *)
  | LNotify (res : reconcileResult)         (* [Reconcile] returned *)
  | LPublish (r : DriverResources)          (* calling [PublishResources] *)
  | LReturn                                 (* returned, before the deferred [close] *)
  | LStopped.                               (* ended, or never started *)

(** Where the main goroutine is. *)
Inductive main_phase :=
  | MBooting                                (* [NewDriver], publishing *)
  | MServing                                (* [<-ctx.Done()] *)
  | MStopping                               (* in [Shutdown], before [rediscoveryDone] *)
  | MStopHelper                             (* before [helper.Stop] *)
  | MReturned                               (* [Shutdown] returned *)
  | MFailed.                                (* [NewDriver] returned an error *)

(** What the other goroutines have left to do: a call of the kubelet after the critical
    section of its claim, and [HandleError] after it has counted the error.  [start] is
    when the call began. *)
Inductive claim_op := Preparing | Unpreparing.

Inductive thread :=
  | TKick (start : Z)                       (* [Unprepare] returned nil *)
  | TObserve (op : claim_op) (start : Z) (err : option error)
                                            (* before the deferred observation *)
  | TLatency (op : claim_op) (result : string) (duration : Z)
                                            (* counted, before the histogram *)
  | TCancel (err : error).                  (* before [cancelCtx] *)

Definition totalOf (op : claim_op) : Opts :=
  match op with Preparing => PrepareClaimsTotal | Unpreparing => UnprepareClaimsTotal end.

Definition durationOf (op : claim_op) : Opts :=
  match op with
  | Preparing => PrepareClaimDurationSeconds
  | Unpreparing => UnprepareClaimDurationSeconds
  end.

(** Where a call of [WatchHealthStatus] is, and whether health changed since it last
    built a report. *)
Inductive watch_phase :=
  | WReport                                 (* before the report is built *)
  | WSend (report : list DeviceHealth)      (* before the report is sent *)
  | WWait.                                  (* waiting for a change or the resend ticker *)

Record watcher := mkWatcher { w_phase : watch_phase; g_stale : bool }.

(** [dr_reconcileNow] and [dr_healthChanged] are channels of capacity one: nil, or made,
    with or without a token.  [dr_rediscoveryDone] is nil, or made, and then open or
    closed.  [dr_cause] is the cause of the main context, once it is cancelled, and
    [dr_cancelCtx] says that the driver has its cancel function. *)
Record Driver := mkDriver {
  dr_state : DeviceState;
  dr_disk : World;
  dr_cancelCtx : bool;
  dr_reconcileNow : option bool;
  dr_healthChanged : option bool;
  dr_rediscoveryDone : option bool;
  dr_main : main_phase;
  dr_loop : loop_phase;
  dr_watch : gmap nat watcher;
  dr_threads : gmap nat thread;
  dr_published : DriverResources;
  dr_publishFailed : bool;
  dr_metrics : registry;
  dr_cause : option error;
  g_released : bool;
  g_many : bool
}.

Definition set_loop (l : loop_phase) (d : Driver) : Driver := d {{ dr_loop := l }}.

Definition set_watch (i : nat) (x : watcher) (d : Driver) : Driver :=
  d {{ dr_watch := <[i := x]> (dr_watch d) }}.

(** A stream is opened; another one may be open. *)
Definition connected (i : nat) (d : Driver) : Driver :=
  set_watch i (mkWatcher WReport true)
    d {{ g_many := g_many d || bool_decide (dr_watch d ≠ ∅) }}.

Definition disconnected (i : nat) (d : Driver) : Driver := d {{ dr_watch := delete i (dr_watch d) }}.

Definition set_main (p : main_phase) (d : Driver) : Driver := d {{ dr_main := p }}.

Definition set_thread (i : nat) (t : thread) (d : Driver) : Driver :=
  d {{ dr_threads := <[i := t]> (dr_threads d) }}.

(** A goroutine that has done its last step. *)
Definition ended (i : nat) (d : Driver) : Driver := d {{ dr_threads := delete i (dr_threads d) }}.

(** [HandleError]: the two things it does. *)
Definition fatal_counted (i : nat) (err : error) (d : Driver) : Driver :=
  set_thread i (TCancel err) d {{ dr_metrics := Inc FatalBackgroundErrorsTotal [] (dr_metrics d) }}.

Definition fatal_cancelled (i : nat) (err : error) (d : Driver) : Driver :=
  ended i d {{ dr_cause := cancelMain (dr_cancelCtx d) err (dr_cause d) }}.

(** The main context is cancelled, or already was. *)
Definition cancelled_by (err : error) (d : Driver) : Driver :=
  d {{ dr_cause := cancel err (dr_cause d) }}.

(** [kickReconcile] and [notifyHealth]: nothing on a nil channel; else a token, or there
    is one ([select] with [default]).  The receiver, a [Driver], is not nil. *)
Definition kickReconcile (d : Driver) : Driver :=
  match dr_reconcileNow d with
  | None => d
  | Some _ => d {{ dr_reconcileNow := Some true }}
  end.

Definition notifyHealth (d : Driver) : Driver :=
  match dr_healthChanged d with
  | None => d
  | Some _ => d {{ dr_healthChanged := Some true }}
  end.

Definition take_kick (d : Driver) : Driver := d {{ dr_reconcileNow := Some false }}.
Definition take_health (d : Driver) : Driver := d {{ dr_healthChanged := Some false }}.

(** The end of the critical section of [Reconcile]. *)
Definition applied (s' : DeviceState) (res : reconcileResult) (w : World) (d : Driver) : Driver :=
  d {{ dr_state := s'; dr_disk := w; dr_loop := LNotify res;
       g_released := false;
       dr_watch := (λ x, mkWatcher (w_phase x) (g_stale x || HealthChanged res)) <$> dr_watch d }}.

Definition apply_failed (w : World) (d : Driver) : Driver :=
  d {{ dr_disk := w; dr_loop := LWaiting; g_released := false }}.

(** After [Reconcile]: the notification, and whether to publish. *)
Definition notified (res : reconcileResult) (d : Driver) : Driver :=
  let d := if HealthChanged res then notifyHealth d else d in
  set_loop (if ResourcesChanged res then LPublish (rr_Resources res) else LWaiting) d.

(** [PublishResources] returned. *)
Definition publish_done (ok : bool) (r : DriverResources) (d : Driver) : Driver :=
  d {{ dr_loop := LWaiting; dr_published := if ok then r else dr_published d;
       dr_publishFailed := dr_publishFailed d || negb ok }}.

(** The first [PublishResources] returned: [NewDriver] makes the channel and starts the
    loop, or fails. *)
Definition boot_done (ok : bool) (r : DriverResources) (d : Driver) : Driver :=
  let d := publish_done ok r d in
  if ok then d {{ dr_main := MServing; dr_loop := LWaiting; dr_rediscoveryDone := Some false }}
  else d {{ dr_main := MFailed; dr_loop := LStopped }}.

(** [defer close(d.rediscoveryDone)]. *)
Definition loop_closed (d : Driver) : Driver :=
  d {{ dr_loop := LStopped; dr_rediscoveryDone := Some true }}.

(** The critical section of a claim is over; the call goes on. *)
Definition prepare_returned (i : nat) (start : Z) (r : PrepareResult) (w : World) (d : Driver)
    : Driver :=
  set_thread i (TObserve Preparing start (errorOf r)) d {{ dr_disk := w }}.

Definition unprepare_failed (i : nat) (start : Z) (e : error) (w : World) (d : Driver) : Driver :=
  set_thread i (TObserve Unpreparing start (Some e)) d {{ dr_disk := w }}.

Definition released_claim (i : nat) (start : Z) (w : World) (d : Driver) : Driver :=
  set_thread i (TKick start) d {{ dr_disk := w; g_released := true }}.

(** [d.kickReconcile()] of [unprepareResourceClaim]. *)
Definition kicked (i : nat) (start : Z) (d : Driver) : Driver :=
  kickReconcile (set_thread i (TObserve Unpreparing start None) d).

(** [ObservePrepareClaim] and [ObserveUnprepareClaim]: the counter, then the histogram. *)
Definition claim_counted (i : nat) (op : claim_op) (start now : Z) (err : option error) (d : Driver)
    : Driver :=
  set_thread i (TLatency op (resultOf err) (Since start now))
    d {{ dr_metrics := Inc (totalOf op) [resultOf err] (dr_metrics d) }}.

Definition latency_observed (i : nat) (op : claim_op) (result : string) (duration : Z) (d : Driver)
    : Driver :=
  ended i d {{ dr_metrics := Observe (durationOf op) [result] (Seconds duration) (dr_metrics d) }}.

Definition reported (i : nat) (report : list DeviceHealth) (d : Driver) : Driver :=
  set_watch i (mkWatcher (WSend report) false) d.

(** Everything but the critical sections of the kubelet's calls. *)
Inductive background_step : Driver → Driver → Prop :=
  (* the end of NewDriver, runRediscovery and reconcileAndPublish *)
  | st_boot d r ok : dr_loop d = LBoot r → background_step d (boot_done ok r d)
  | st_tick d : dr_loop d = LWaiting → background_step d (set_loop LEnumerate d)
  | st_kicked d : dr_loop d = LWaiting → dr_reconcileNow d = Some true →
      background_step d (set_loop LEnumerate (take_kick d))
  | st_stop d : dr_loop d = LWaiting → is_Some (dr_cause d) → background_step d (set_loop LReturn d)
  | st_close d : dr_loop d = LReturn → background_step d (loop_closed d)
  | st_enumerate d fs : dr_loop d = LEnumerate → fs_ok fs →
      background_step d (set_loop (LLock (Enumerate fs (ds_discCfg (dr_state d)))) d)
  | st_apply d found answers s' res w' :
      dr_loop d = LLock found → Forall answer_ok answers →
      run (applyDiscoveryLocked (dr_state d) found) answers (dr_disk d) = (w', Some (Ok (s', res))) →
      background_step d (applied s' res w' d)
  | st_apply_err d found answers e w' :
      dr_loop d = LLock found → Forall answer_ok answers →
      run (applyDiscoveryLocked (dr_state d) found) answers (dr_disk d) = (w', Some (Err e)) →
      background_step d (apply_failed w' d)
  | st_notify d res : dr_loop d = LNotify res → background_step d (notified res d)
  | st_publish d r ok : dr_loop d = LPublish r → background_step d (publish_done ok r d)
  (* the main goroutine: RunPlugin and Shutdown; a receive from a closed channel returns,
     and a nil one is not waited for.  The deferred stop of NotifyContext cancels too; the
     one after [<-ctx.Done()] comes too late to change the cause *)
  | st_done d : dr_main d = MServing → is_Some (dr_cause d) → background_step d (set_main MStopping d)
  | st_waited d : dr_main d = MStopping → dr_rediscoveryDone d ≠ Some false →
      background_step d (set_main MStopHelper d)
  | st_stop_helper d : dr_main d = MStopHelper → background_step d (set_main MReturned d)
  | st_deferred_stop d : dr_main d = MReturned ∨ dr_main d = MFailed →
      background_step d (cancelled_by Canceled d)
  (* a signal *)
  | st_signal d sig : background_step d (cancelled_by (signalError sig) d)
  (* HandleError, called by the helper; a recoverable error changes nothing *)
  | st_handle_error d i err : dr_threads d !! i = None → ErrorsIs err ErrRecoverable = false →
      background_step d (fatal_counted i err d)
  | st_cancel d i err : dr_threads d !! i = Some (TCancel err) →
      background_step d (fatal_cancelled i err d)
  (* the rest of a call of the kubelet *)
  | st_kick d i start : dr_threads d !! i = Some (TKick start) → background_step d (kicked i start d)
  | st_count d i op start err now : dr_threads d !! i = Some (TObserve op start err) →
      background_step d (claim_counted i op start now err d)
  | st_latency d i op result duration : dr_threads d !! i = Some (TLatency op result duration) →
      background_step d (latency_observed i op result duration d)
  (* WatchHealthStatus *)
  | st_connect d i : dr_watch d !! i = None → background_step d (connected i d)
  | st_report d i b answers report w' :
      dr_watch d !! i = Some (mkWatcher WReport b) →
      run (healthReport (dr_state d)) answers (dr_disk d) = (w', Some report) →
      background_step d (reported i report d)
  | st_send d i report b : dr_watch d !! i = Some (mkWatcher (WSend report) b) →
      background_step d (set_watch i (mkWatcher WWait b) d)
  | st_resend d i b : dr_watch d !! i = Some (mkWatcher WWait b) →
      background_step d (set_watch i (mkWatcher WReport b) d)
  | st_changed d i b : dr_watch d !! i = Some (mkWatcher WWait b) → dr_healthChanged d = Some true →
      background_step d (set_watch i (mkWatcher WReport b) (take_health d))
  | st_disconnect d i : background_step d (disconnected i d).

(** A call of the kubelet about a claim takes effect in its critical section; this is
    what can be said of it then: the claim and the answer the kubelet is going to get, or
    [None] when the plugin is killed inside, and there will be none.  [Silent] is
    everything else. *)
Inductive observation :=
  | EvPrepare (uid : string) (answer : option PrepareResult)
  | EvUnprepare (uid : string) (answer : option (result error unit))
  | Silent.

(** The critical section of one claim of a call of the kubelet, which began at [start]. *)
Inductive kubelet_call : observation → Driver → Driver → Prop :=
  | kc_prepare d i start claim answers r w' :
      dr_threads d !! i = None → valid_utf8 (UID claim) = true → Forall answer_ok answers →
      run (Prepare (dr_state d) claim) answers (dr_disk d) = (w', Some r) →
      kubelet_call (EvPrepare (UID claim) (Some (prepareResult claim r))) d
        (prepare_returned i start (prepareResult claim r) w' d)
  | kc_unprepare d i start uid answers w' :
      dr_threads d !! i = None → Forall answer_ok answers →
      run (Unprepare (dr_state d) uid) answers (dr_disk d) = (w', Some (Ok tt)) →
      kubelet_call (EvUnprepare uid (Some (Ok tt))) d (released_claim i start w' d)
  | kc_unprepare_err d i start uid answers e w' :
      dr_threads d !! i = None → Forall answer_ok answers →
      run (Unprepare (dr_state d) uid) answers (dr_disk d) = (w', Some (Err e)) →
      kubelet_call (EvUnprepare uid (Some (unprepareResult uid (Err e)))) d
        (unprepare_failed i start e w' d).

Inductive driver_step : Driver → Driver → Prop :=
  | st_background d d' : background_step d d' → driver_step d d'
  | st_call e d d' : kubelet_call e d d' → driver_step d d'.

(** [NewDriver]: on a disk earlier runs of the plugin left, after the package [init]
    of the metrics, the state is built; the helper is started and takes the kubelet's
    calls, while nothing is published yet.  [RunPlugin] has set the cancel function. *)
Definition driver_init (f : Flags) (d : Driver) : Prop :=
  ∃ σ answers,
    reachable f σ ∧ proc σ = None ∧ Forall answer_ok answers ∧
    run (NewDeviceState f) answers (disk σ) = (dr_disk d, Some (Ok (dr_state d))) ∧
    dr_published d = mkResources ∅ ∧ dr_publishFailed d = false ∧
    dr_loop d = LBoot (Resources (dr_state d)) ∧ dr_watch d = ∅ ∧
    dr_reconcileNow d = Some false ∧ dr_healthChanged d = Some false ∧
    dr_rediscoveryDone d = None ∧ dr_main d = MBooting ∧ dr_threads d = ∅ ∧ dr_cancelCtx d = true ∧
    (∃ r, fresh_registry r ∧ init r = Some (dr_metrics d)) ∧ dr_cause d = None ∧
    g_released d = false ∧ g_many d = false.

Definition driver_reachable (f : Flags) (d : Driver) : Prop :=
  ∃ d0, driver_init f d0 ∧ rtc driver_step d0 d.

End driver.
