(* ===== verification/DriverInv.v ===== *)
(** Lemmas about the running driver: its invariant, the answers to the kubelet, the
    health streams and the simulation by [System.v]. *)

From Stdlib Require Import ZArith.
From coqutil Require Import Datatypes.RecordSetters.
From stdpp Require Import options.
From S2P Require Import Prelude GoStrings GoPath GoSort Consts Types Sysfs Enumerate.
From S2P Require Import Json JsonRound Codec Ranges Effects Health Resources Cdi Checkpoint Flags.
From S2P Require Import State StateLemmas StateInv System GoFloat Metrics Driver.

Import DoubleBraceUpdate.

(** The cases of a step. *)
Ltac step_cases Hstep :=
  destruct Hstep as
    [?? [d r ok Hl|d Hl|d Hl Hk|d Hl Hc|d Hl|d fs Hl Hfs|d found ans s' res w' Hl Hans Hrun
      |d found ans e w' Hl Hans Hrun|d res Hl|d r ok Hl
      |d Hm Hc|d Hm Hdone|d Hm|d Hm|d sig|d i err Hi Hrec|d i err Hi
      |d i start Hi|d i op start err now Hi|d i op result dur Hi
      |d i Hw|d i b ans report w' Hw Hrun|d i report b Hw|d i b Hw|d i b Hw Hh|d i]
    |ev ?? [d i start claim ans r w' Hi Hu Hans Hrun|d i start uid ans w' Hi Hans Hrun
      |d i start uid ans e w' Hi Hans Hrun]].

Section driver.
Context `{QuantityAPI} `{GoSort} `{CDIAPI} `{!ResourceJSON} `{MetricsAPI} `{KubeletPlugin}.
Implicit Type (s : DeviceState) (w : World).

(** ** Invariants *)

(** What the API server has says the same as the plugin's resources. *)
Definition same_published (a b : DriverResources) : Prop := a = b ∨ resourcesEqual a b = true.

Lemma resourcesEqual_trans a b c :
  resourcesEqual a b = true → resourcesEqual b c = true → resourcesEqual a c = true.
Proof.
  unfold resourcesEqual. destruct (MarshalResources a), (MarshalResources b), (MarshalResources c);
    try done. rewrite !bool_decide_eq_true. congruence.
Qed.

Lemma same_published_trans a b c :
  same_published a b → same_published b c → same_published a c.
Proof.
  intros [->|Hab] [->|Hbc]; [by left|by right..|]. right. by eapply resourcesEqual_trans.
Qed.

(** A rediscovery is coming: a token, or the loop has taken it and not the mutex yet, or
    a call that released its claim is about to send one. *)
Definition wake_coming (d : Driver) : Prop :=
  dr_reconcileNow d = Some true ∨ dr_loop d = LEnumerate ∨ (∃ found, dr_loop d = LLock found) ∨
  ∃ i start, dr_threads d !! i = Some (TKick start).

Record driver_inv (f : Flags) (d : Driver) : Prop := {
  di_sys : sys_inv f (mkSys (Some (dr_state d)) (dr_disk d));
  di_found found : dr_loop d = LLock found → found_ok found;
  di_published : dr_publishFailed d = false →
    match dr_loop d with
    | LNotify res =>
        rr_Resources res = ds_driverResources (dr_state d) ∧
        (ResourcesChanged res = false → same_published (dr_published d) (ds_driverResources (dr_state d)))
    | LBoot r | LPublish r => r = ds_driverResources (dr_state d)
    | _ => same_published (dr_published d) (ds_driverResources (dr_state d))
    end;
  di_chan : dr_reconcileNow d ≠ None;
  di_released : g_released d = true → wake_coming d
}.

Lemma wp_prepareResourceClaim I R s claim m Q w :
  wp I R (Prepare s claim) (λ r w', ∀ result d,
    errorOf r = None ↔ errorOf result = None →
    Q (ObservePrepareClaim (errorOf result) d m, result) w') w →
  wp I R (prepareResourceClaim s claim m) Q w.
Proof.
  intros Hp. apply wp_do; [by eapply wp_crash|]. intros a _. apply wp_bind.
  eapply wp_mono; [exact Hp|]. intros r w' HI Hq. apply wp_do; [done|]. intros b _.
  apply wp_ret; [done|]. apply Hq. by destruct r.
Qed.

Lemma wp_unprepareResourceClaim I R s uid m Q w :
  wp I R (Unprepare s uid) (λ r w', ∀ result d,
    errorOf r = None ↔ errorOf result = None →
    Q (ObserveUnprepareClaim (errorOf result) d m, result) w') w →
  wp I R (unprepareResourceClaim s uid m) Q w.
Proof.
  intros Hp. apply wp_do; [by eapply wp_crash|]. intros a _. apply wp_bind.
  eapply wp_mono; [exact Hp|]. intros r w' HI Hq. apply wp_do; [done|]. intros b _.
  apply wp_ret; [done|]. apply Hq. by destruct r.
Qed.

(** ** One answer per claim

    The loop of [PrepareResourceClaims] and [UnprepareResourceClaims]: [call] is made
    once per claim, and adds one to the counter of its outcome. *)
Section answers.
Context {C A : Type} (key : C → string) (good bad : registry → nat) (m : registry).

(** What holds after the claims [l]. *)
Definition answered (l : list C) (x : registry * gmap string (result error A)) : Prop :=
  dom x.2 = list_to_set (key <$> l) ∧
  good x.1 = good m + size (filter (λ '(_, r), is_ok r = true) x.2) ∧
  bad x.1 = bad m + size (filter (λ '(_, r), is_ok r = false) x.2).

Lemma answered_size l x : NoDup (key <$> l) → answered l x → size x.2 = length l.
Proof.
  intros Hnd [Hdom _].
  by rewrite <-(size_dom (D := gset string)), Hdom, size_list_to_set, length_fmap.
Qed.

Lemma answered_snoc l claim x m' r :
  key claim ∉ key <$> l → answered l x →
  good m' = good x.1 + (if is_ok r then 1 else 0) →
  bad m' = bad x.1 + (if is_ok r then 0 else 1) →
  answered (l ++ [claim]) (m', <[key claim := r]> x.2).
Proof.
  intros Hnew (Hdom & Hg & Hb) Hg' Hb'.
  assert (Hfresh : x.2 !! key claim = None)
    by (apply not_elem_of_dom; by rewrite Hdom, elem_of_list_to_set).
  assert (Hsz : ∀ b, size (filter (λ '(_, r), is_ok r = b) (<[key claim := r]> x.2)) =
    (if bool_decide (is_ok r = b) then 1 else 0) + size (filter (λ '(_, r), is_ok r = b) x.2)).
  { intros b. case_bool_decide as Heq.
    - rewrite map_filter_insert_True by done. rewrite map_size_insert_None; [done|].
      by rewrite map_lookup_filter, Hfresh.
    - by rewrite map_filter_insert_False, delete_id. }
  unfold answered. cbn. rewrite !Hsz, Hg', Hb', Hg, Hb.
  split; [rewrite dom_insert_L, Hdom, fmap_app, list_to_set_app_L; set_solver|].
  destruct (is_ok r); repeat case_bool_decide; split; first [lia|congruence].
Qed.

Lemma wp_answers (call : C → registry → prog (registry * result error A)) claims w :
  NoDup (key <$> claims) → metrics_ok m →
  (∀ claim m w, metrics_ok m → wp (λ _, True) (λ _, True) (call claim m) (λ r _,
     metrics_ok r.1 ∧
     good r.1 = good m + (if is_ok r.2 then 1 else 0) ∧
     bad r.1 = bad m + (if is_ok r.2 then 0 else 1)) w) →
  wp (λ _, True) (λ _, True)
    (for_each claims (m, ∅) (λ '(m, result) claim,
       let! r := call claim m in Ret (r.1, <[key claim := r.2]> result)))
    (λ x _, answered claims x) w.
Proof.
  intros Hnd Hm Hcall.
  assert (Hgen : ∀ k l x w, claims = l ++ k → answered l x → metrics_ok x.1 →
    wp (λ _, True) (λ _, True) (for_each k x (λ '(m, result) claim,
      let! r := call claim m in Ret (r.1, <[key claim := r.2]> result)))
      (λ x _, answered claims x) w).
  { induction k as [|claim k IH]; intros l [m0 res0] w0 Hl Hx Hm0.
    - rewrite app_nil_r in Hl. subst l. by apply wp_ret.
    - cbn [for_each]. apply wp_bind, wp_bind. eapply wp_mono; [by apply Hcall|].
      intros [m1 r] w1 _ (Hm1 & Hg & Hb). apply wp_ret; [done|].
      apply (IH (l ++ [claim])); [by rewrite <-app_assoc| |done].
      apply (answered_snoc l claim (m0, res0)); [|done..].
      rewrite Hl, fmap_app, fmap_cons in Hnd. apply NoDup_app in Hnd as (_ & Hnd & _).
      intros Hin. apply (Hnd _ Hin). by left. }
  apply (Hgen _ []); [done| |done]. unfold answered. cbn. rewrite !map_filter_empty, map_size_empty.
  split_and!; [set_solver|lia..].
Qed.

End answers.

(** The two counters of an operation after one more answer. *)
Lemma observed_result {A} total duration (r : result error A) x m :
  total ∈ driverMetrics → duration ∈ driverMetrics → metrics_ok m →
  let m' := observed total duration (resultOf (errorOf r)) x m in
  counted m' total resultSuccess = counted m total resultSuccess + (if is_ok r then 1 else 0) ∧
  counted m' total resultError = counted m total resultError + (if is_ok r then 0 else 1).
Proof.
  intros Ht Hd [Hm _ _]. cbn zeta. rewrite !observed_counted by done. by destruct r.
Qed.

Lemma wp_prepare_counts s claim m w :
  metrics_ok m →
  wp (λ _, True) (λ _, True) (prepareResourceClaim s claim m) (λ r _,
    metrics_ok r.1 ∧
    counted r.1 PrepareClaimsTotal resultSuccess =
      counted m PrepareClaimsTotal resultSuccess + (if is_ok r.2 then 1 else 0) ∧
    counted r.1 PrepareClaimsTotal resultError =
      counted m PrepareClaimsTotal resultError + (if is_ok r.2 then 0 else 1)) w.
Proof.
  intros Hm. apply wp_prepareResourceClaim. eapply wp_weaken; [apply (wp_Prepare (λ _, True))|done|].
  intros r w1 _ result d _. split; [by apply ObservePrepareClaim_ok|].
  by apply observed_result; [by_compute..|].
Qed.

Lemma wp_unprepare_counts s uid m w :
  Base (ds_checkpointPath s) = driverPluginCheckpointFile →
  Base (ds_claimDevicesPath s) = claimDevicesFileName →
  metrics_ok m →
  wp (λ _, True) (λ _, True) (unprepareResourceClaim s uid m) (λ r _,
    metrics_ok r.1 ∧
    counted r.1 UnprepareClaimsTotal resultSuccess =
      counted m UnprepareClaimsTotal resultSuccess + (if is_ok r.2 then 1 else 0) ∧
    counted r.1 UnprepareClaimsTotal resultError =
      counted m UnprepareClaimsTotal resultError + (if is_ok r.2 then 0 else 1)) w.
Proof.
  intros Hcp Hcl Hm. apply wp_unprepareResourceClaim.
  eapply wp_weaken; [by apply (wp_Unprepare (λ _, True))|done|].
  intros r w1 _ result d _. split; [by apply ObserveUnprepareClaim_ok|].
  by apply observed_result; [by_compute..|].
Qed.

(** The memory and the disk of the driver, as the system of [System.v]. *)
Definition sysOf (d : Driver) : Sys := mkSys (Some (dr_state d)) (dr_disk d).

Lemma reachable_step f σ σ' : reachable f σ → sys_step f σ σ' → reachable f σ'.
Proof. intros (σ0 & Hinit & Hsteps) Hstep. exists σ0. split; [done|]. by eapply rtc_r. Qed.

Lemma driver_init_reachable f d : driver_init f d → reachable f (sysOf d).
Proof.
  intros (σ & answers & Hr & Hp & Hans & Hrun & _).
  replace (sysOf d) with (sys_exec f OpStart answers σ)
    by (unfold sys_exec; rewrite Hp, Hrun; done).
  eapply reachable_step; [exact Hr|]. by constructor.
Qed.

Lemma driver_init_inv f d :
  config_in_range (discoveryConfig f) → driver_init f d → driver_inv f d.
Proof.
  intros Hf Hinit. pose proof (driver_init_reachable f d Hinit) as Hr.
  destruct Hinit as (σ & answers & _ & _ & _ & _ & Hpub & Hfail & Hl & _ & Hnow & _ & _ & _ & _ & _ & _ & _ & Hrel & _).
  split.
  - by apply (reachable_inv f) in Hr.
  - intros found Hlock. congruence.
  - intros _. by rewrite Hl.
  - congruence.
  - congruence.
Qed.

(** A thread that is not about to kick is not what is coming. *)
Lemma kick_kept (m : gmap nat thread) i x :
  (∀ start, m !! i ≠ Some (TKick start)) →
  (∃ j start, m !! j = Some (TKick start)) →
  ∃ j start, partial_alter (λ _, x) i m !! j = Some (TKick start).
Proof.
  intros Hi (j & start & Hj). exists j, start. rewrite lookup_partial_alter_ne; [done|].
  intros <-. by apply (Hi start).
Qed.

(** Steps that leave the memory, the loop and the publication alone. *)
Lemma driver_inv_same f d d' :
  dr_state d' = dr_state d → dr_loop d' = dr_loop d → dr_published d' = dr_published d →
  dr_publishFailed d' = dr_publishFailed d → g_released d' = g_released d →
  dr_reconcileNow d' = dr_reconcileNow d →
  (dr_threads d' = dr_threads d ∨ ∃ i x, (∀ start, dr_threads d !! i ≠ Some (TKick start)) ∧
     dr_threads d' = partial_alter (λ _, x) i (dr_threads d)) →
  sys_inv f (mkSys (Some (dr_state d)) (dr_disk d')) →
  driver_inv f d → driver_inv f d'.
Proof.
  intros Hst Hl Hpub Hfail Hrel Hnow Hth Hsys [_ Hfound Hp Hc Hr].
  split; unfold wake_coming; rewrite ?Hst, ?Hl, ?Hpub, ?Hfail, ?Hrel, ?Hnow; [done..|].
  intros [?|[?|[?|Hk]]]%Hr; [by auto..|]. right. right. right.
  destruct Hth as [->|(i & x & Hi & ->)]; [done|by apply kick_kept].
Qed.

Lemma apply_inv f s found w answers w' r :
  sys_inv f (mkSys (Some s) w) → found_ok found → Forall answer_ok answers →
  run (applyDiscoveryLocked s found) answers w = (w', Some r) →
  match r with
  | Ok (s', res) =>
      sys_inv f (mkSys (Some s') w') ∧ rr_Resources res = ds_driverResources s' ∧
      (ResourcesChanged res = false →
       resourcesEqual (ds_driverResources s) (ds_driverResources s') = true)
  | Err _ => sys_inv f (mkSys (Some s) w')
  end.
Proof.
  intros (Hcfg & Hs & Hres & Hw) Hfound Hans Hrun.
  destruct (wp_run _ _ _ _ _ _ (wp_applyDiscovery answer_ok s found w) Hans Hrun) as [_ Hr].
  destruct r as [[s' res]|e].
  - pose proof (reconcile_done_covered _ _ _ _ _ _ _ _ Hs Hw Hr) as Hcov.
    assert (Hs' : state_ok s') by (eapply reconcile_done_ok; [|done..]; done).
    destruct (reconcile_done_resources _ _ _ _ _ _ _ Hr) as [Hres' Hrr].
    destruct Hr as (c & fl & ord & ord' & next & _ & _ & _ & _ & -> & ->).
    assert (Hcfg' : configured f (set_tracked s next
      (devicesToResources (ds_nodeName s) (trackedList ord' next)))) by by apply configured_set.
    split; [|split; [done|]].
    + split_and!; [done..|]. apply (configured_disk f); [done|].
      by apply (configured_disk f) in Hcov.
    + cbn. intros Heq. by apply negb_false_iff in Heq.
  - split_and!; [done..|]. by eapply reconcile_stage_covered.
Qed.

(** A call of the kubelet keeps the invariant of the system. *)
Lemma prepare_call_inv f s claim answers w w' r :
  sys_inv f (mkSys (Some s) w) → Forall answer_ok answers → valid_utf8 (UID claim) = true →
  run (Prepare s claim) answers w = (w', Some r) → sys_inv f (mkSys (Some s) w').
Proof.
  intros (Hcfg & Hs & Hres & Hw) Hans Hu Hrun. split_and!; [done..|].
  eapply (proj1 (wp_run _ _ _ _ _ _ (wp_Prepare_inv answer_ok s claim _ w Hs Hu (λ _, id) Hw) Hans Hrun)).
Qed.

Lemma unprepare_call_inv f s uid answers w w' r :
  sys_inv f (mkSys (Some s) w) → Forall answer_ok answers →
  run (Unprepare s uid) answers w = (w', Some r) → sys_inv f (mkSys (Some s) w').
Proof.
  intros (Hcfg & Hs & Hres & Hw) Hans Hrun. split_and!; [done..|].
  eapply (proj1 (wp_run _ _ _ _ _ _ (wp_Unprepare_inv answer_ok s uid _ w Hs Hw) Hans Hrun)).
Qed.

(** The two sends on a channel. *)
Lemma notifyHealth_eq d :
  notifyHealth d = d {{ dr_healthChanged := (λ _, true) <$> dr_healthChanged d }}.
Proof. unfold notifyHealth. by destruct d as [????[]]. Qed.

Lemma kickReconcile_eq d :
  kickReconcile d = d {{ dr_reconcileNow := (λ _, true) <$> dr_reconcileNow d }}.
Proof. unfold kickReconcile. by destruct d as [???[]]. Qed.

Lemma notified_eq res d :
  notified res d =
  d {{ dr_healthChanged :=
         if HealthChanged res then (λ _, true) <$> dr_healthChanged d else dr_healthChanged d;
       dr_loop := if ResourcesChanged res then LPublish (rr_Resources res) else LWaiting }}.
Proof. unfold notified. rewrite notifyHealth_eq. by destruct d, (HealthChanged res). Qed.

(** The rule for a loop that moves on. *)
Lemma wake_moved d d' :
  wake_coming d → dr_loop d ≠ LEnumerate → (∀ found, dr_loop d ≠ LLock found) →
  dr_reconcileNow d' = dr_reconcileNow d → dr_threads d' = dr_threads d → wake_coming d'.
Proof.
  intros [?|[?|[[? ?]|?]]] Hne Hnl Hn Ht; unfold wake_coming; rewrite ?Hn, ?Ht; [by auto|done| |by auto].
  by edestruct Hnl.
Qed.

Lemma driver_inv_step f d d' : driver_inv f d → driver_step d d' → driver_inv f d'.
Proof.
  intros Hinv Hstep. pose proof Hinv as [Hsys Hfound Hpub Hch Hrel]. revert Hinv Hsys Hfound Hpub Hch Hrel.
  step_cases Hstep; intros Hinv Hsys Hfound Hpub Hch Hrel;
    try (apply (driver_inv_same f d); try done;
         first [by left|right; eexists i, _; split; [congruence|reflexivity]]).
  (* the loop *)
  - rewrite Hl in Hpub. destruct ok; split; cbn; try done.
    + intros [Hfail _]%orb_false_iff. left. by apply Hpub.
    + intros Hg. apply (wake_moved d); [by apply Hrel|by rewrite Hl..|done|done].
    + by rewrite orb_true_r.
    + intros Hg. apply (wake_moved d); [by apply Hrel|by rewrite Hl..|done|done].
  - rewrite Hl in Hpub. split; cbn; [done|done|done|done|]. intros _. right. by left.
  - rewrite Hl in Hpub. split; cbn; [done|done|done|done|]. intros _. right. by left.
  - rewrite Hl in Hpub. split; cbn; [done|done|done|done|].
    intros Hg. apply (wake_moved d); [by apply Hrel|by rewrite Hl..|done|done].
  - rewrite Hl in Hpub. split; cbn; [done|done|done|done|].
    intros Hg. apply (wake_moved d); [by apply Hrel|by rewrite Hl..|done|done].
  - rewrite Hl in Hpub. split; cbn; [done| |done|done|].
    + intros found [= <-]. apply Enumerate_found_ok; [done|]. apply Hsys.
    + intros _. right. right. left. by eexists.
  - rewrite Hl in Hpub. apply (apply_inv f) in Hrun as (Hsys' & Hrr & Heq); [|done|auto|done].
    split; cbn; [done|done| |done|done]. intros Hfail. split; [done|]. intros Hres.
    eapply same_published_trans; [by apply Hpub|]. right. by apply Heq.
  - rewrite Hl in Hpub. apply (apply_inv f) in Hrun; [|done|auto|done]. by split.
  - rewrite Hl in Hpub. rewrite notified_eq. split; cbn; [done|by destruct (ResourcesChanged res)| |done|].
    + intros Hfail. destruct (Hpub Hfail) as [Hrr Hsame]. destruct (ResourcesChanged res); cbn; [done|by apply Hsame].
    + intros Hg. apply (wake_moved d); [by apply Hrel|by rewrite Hl..|done|done].
  - rewrite Hl in Hpub. split; cbn; [done|done| |done|].
    + intros [Hfail Hok]%orb_false_iff. apply negb_false_iff in Hok as ->. left. by apply Hpub.
    + intros Hg. apply (wake_moved d); [by apply Hrel|by rewrite Hl..|done|done].
  (* the kick *)
  - assert (Hnow : (λ _, true) <$> dr_reconcileNow d = Some true)
      by by destruct (dr_reconcileNow d).
    unfold kicked. rewrite kickReconcile_eq. split; [exact Hsys|exact Hfound|exact Hpub| |].
    + change ((λ _, true) <$> dr_reconcileNow d ≠ None). by rewrite Hnow.
    + intros _. by left.
  (* the calls *)
  - apply (driver_inv_same f d); try done; [right|by eapply prepare_call_inv].
    exists i, (Some (TObserve Preparing start (errorOf (prepareResult claim r)))).
    split; [congruence|done].
  - split; cbn; [by eapply unprepare_call_inv|done|done|done|]. intros _. right. right. right.
    exists i, start. by apply lookup_insert_eq.
  - apply (driver_inv_same f d); try done; [right|by eapply unprepare_call_inv].
    exists i, (Some (TObserve Unpreparing start (Some e))). split; [congruence|done].
Qed.

Lemma driver_reachable_inv f d :
  config_in_range (discoveryConfig f) → driver_reachable f d → driver_inv f d.
Proof.
  intros Hf (d0 & Hinit & Hsteps). apply driver_init_inv in Hinit; [|done].
  induction Hsteps as [d|d1 d2 d3 Hstep _ IH]; [done|]. by eapply IH, driver_inv_step.
Qed.

(** ** The health streams

    A stream that has not seen a change of health is about to build a report, or there
    is a token for it, or the loop is about to send one; as long as no two streams
    were open at once. *)
Definition coming (d : Driver) : Prop :=
  dr_healthChanged d = Some true ∨ ∃ res, dr_loop d = LNotify res ∧ HealthChanged res = true.

Record streams_ok (d : Driver) : Prop := {
  so_chan : dr_healthChanged d ≠ None;
  so_one i j : g_many d = false → is_Some (dr_watch d !! i) → is_Some (dr_watch d !! j) → i = j;
  so_told i x : g_many d = false → dr_watch d !! i = Some x → g_stale x = true →
    w_phase x = WReport ∨ coming d
}.

Lemma streams_same d d' :
  dr_watch d' = dr_watch d → g_many d' = g_many d →
  (dr_healthChanged d ≠ None → dr_healthChanged d' ≠ None) → (coming d → coming d') →
  streams_ok d → streams_ok d'.
Proof.
  intros Hw Hm Hch Hc [Hchan Hone Htold]. split; rewrite ?Hw, ?Hm; [auto|done|].
  intros i x Hg Hx Hs. destruct (Htold i x Hg Hx Hs); auto.
Qed.

(** Outside [LNotify], what is coming is a token. *)
Lemma coming_token d :
  (∀ res, dr_loop d ≠ LNotify res) → coming d → dr_healthChanged d = Some true.
Proof. intros Hl [?|(res & Hres & _)]; [done|]. by apply Hl in Hres. Qed.

(** One stream moves. *)
Lemma streams_set i x x' d d' :
  dr_watch d !! i = Some x → dr_watch d' = <[i := x']> (dr_watch d) → g_many d' = g_many d →
  (dr_healthChanged d ≠ None → dr_healthChanged d' ≠ None) →
  (g_many d = false → g_stale x' = true → w_phase x' = WReport ∨ coming d') →
  streams_ok d → streams_ok d'.
Proof.
  intros Hx Hw Hm Hch Hx' [Hchan Hone Htold].
  assert (Hdom : ∀ j, is_Some (dr_watch d' !! j) ↔ is_Some (dr_watch d !! j)).
  { intros j. rewrite Hw. destruct (decide (i = j)) as [->|Hne].
    - rewrite lookup_insert_eq, Hx. by split; eexists.
    - by rewrite lookup_insert_ne. }
  split; rewrite ?Hm; [auto|setoid_rewrite Hdom; exact Hone|].
  intros j y Hg Hy Hs. assert (j = i) as ->.
  { apply Hone; [done|apply Hdom; by eexists|by eexists]. }
  rewrite Hw, lookup_insert_eq in Hy. injection Hy as <-. by apply Hx'.
Qed.

Lemma streams_applied s' res w found d :
  dr_loop d = LLock found → streams_ok d → streams_ok (applied s' res w d).
Proof.
  intros Hl [Hchan Hone Htold].
  assert (Hw : dr_watch (applied s' res w d) =
    (λ x, mkWatcher (w_phase x) (g_stale x || HealthChanged res)) <$> dr_watch d) by done.
  split; [exact Hchan|rewrite Hw..].
  - intros i j. rewrite !lookup_fmap, !fmap_is_Some. apply Hone.
  - intros i x Hg (y & <- & Hy)%lookup_fmap_Some. cbn. intros [Hs|Hs]%orb_true_iff.
    + destruct (Htold i y) as [?|Hc]; [done..|by left|]. right. left.
      apply coming_token in Hc; [done|]. congruence.
    + right. right. by exists res.
Qed.

Lemma streams_notified res d :
  dr_loop d = LNotify res → streams_ok d → streams_ok (notified res d).
Proof.
  intros Hl Hok. pose proof (so_chan d Hok) as Hchan. revert Hok. rewrite notified_eq.
  apply streams_same; [done|done|..].
  - intros _. change ((if HealthChanged res then (λ _, true) <$> dr_healthChanged d
                       else dr_healthChanged d) ≠ None).
    by destruct (HealthChanged res), (dr_healthChanged d).
  - intros Hc. left. change ((if HealthChanged res then (λ _, true) <$> dr_healthChanged d
                              else dr_healthChanged d) = Some true).
    destruct (HealthChanged res) eqn:Hh; [by destruct (dr_healthChanged d)|].
    destruct Hc as [?|(res' & Hres & ?)]; [done|congruence].
Qed.

Lemma streams_connected i d : streams_ok d → streams_ok (connected i d).
Proof.
  intros [Hchan _ _].
  assert (Hw : dr_watch (connected i d) = <[i := mkWatcher WReport true]> (dr_watch d)) by done.
  assert (Hm : g_many (connected i d) = g_many d || bool_decide (dr_watch d ≠ ∅)) by done.
  assert (Honly : ∀ j x, g_many (connected i d) = false →
    dr_watch (connected i d) !! j = Some x → j = i ∧ x = mkWatcher WReport true).
  { rewrite Hw, Hm. intros j x [_ Hempty]%orb_false_iff.
    apply bool_decide_eq_false, dec_stable in Hempty. rewrite Hempty, insert_empty.
    intros [-> ->]%lookup_singleton_Some. done. }
  split; [exact Hchan|..].
  - intros j k Hg [x Hj] [y Hk]. apply Honly in Hj as [-> _]; [|done].
    by apply Honly in Hk as [-> _].
  - intros j x Hg Hj _. apply Honly in Hj as [_ ->]; [by left|done].
Qed.

Lemma streams_disconnected i d : streams_ok d → streams_ok (disconnected i d).
Proof.
  intros [Hchan Hone Htold].
  assert (Hw : dr_watch (disconnected i d) = delete i (dr_watch d)) by done.
  split; [exact Hchan|rewrite Hw..].
  - intros j k Hg [x [_ Hj]%lookup_delete_Some] [y [_ Hk]%lookup_delete_Some].
    apply Hone; [done|by eexists..].
  - intros j x Hg [_ Hj]%lookup_delete_Some Hs. by apply (Htold j).
Qed.

Lemma streams_step d d' : streams_ok d → driver_step d d' → streams_ok d'.
Proof.
  intros Hinv Hstep. revert Hinv. step_cases Hstep;
    intros Hinv; try (revert Hinv; apply streams_same; [done..|];
      first [by intros|intros Hco; left; apply coming_token in Hco; [exact Hco|congruence]]).
  - by destruct ok; revert Hinv; apply streams_same; try done;
      intros Hco; left; apply coming_token in Hco; try congruence.
  - by eapply streams_applied.
  - by apply streams_notified.
  - revert Hinv. unfold kicked. rewrite kickReconcile_eq. by apply streams_same.
  - by apply streams_connected.
  - by eapply streams_set.
  - eapply streams_set; [done..| |done]. intros Hg Hs.
    by destruct (so_told d Hinv i _ Hg Hw Hs); [|right].
  - eapply streams_set; [done..| |done]. by left.
  - eapply streams_set; [done..| |done]. by left.
  - by apply streams_disconnected.
Qed.

Lemma driver_streams f d : driver_reachable f d → streams_ok d.
Proof.
  intros (d0 & Hinit & Hsteps).
  assert (Hok : streams_ok d0).
  { destruct Hinit as (σ & answers & _ & _ & _ & _ & _ & _ & _ & Hw & _ & Hch & _).
    split; [congruence|rewrite Hw..]; [by intros i j _ [x Hx]; rewrite lookup_empty in Hx|]. intros i x _ Hx.
    by rewrite lookup_empty in Hx. }
  clear Hinit. induction Hsteps as [d|d1 d2 d3 Hstep _ IH]; [done|]. by eapply IH, streams_step.
Qed.

(** ** The driver refines the system

    A driver step is at most one operation of [System.v] on the memory and the disk:
    a rediscovery that read sysfs before it took the mutex is one whose first
    answer is that sysfs. *)

(** The loop found its devices in some sysfs. *)
Definition loop_read (f : Flags) (d : Driver) : Prop :=
  ∀ found, dr_loop d = LLock found → ∃ fs, fs_ok fs ∧ found = Enumerate fs (discoveryConfig f).

Definition simulated (f : Flags) (d : Driver) : Prop := reachable f (sysOf d) ∧ loop_read f d.

Lemma simulated_config f d :
  config_in_range (discoveryConfig f) → simulated f d → ds_discCfg (dr_state d) = discoveryConfig f.
Proof.
  intros Hf [Hr _]. apply (reachable_inv f) in Hr as [(cdi & tr & r & Hc) _]; [|done].
  cbn in Hc. by rewrite Hc.
Qed.

Lemma simulated_reconcile f d found answers w' r :
  config_in_range (discoveryConfig f) → simulated f d → dr_loop d = LLock found →
  Forall answer_ok answers →
  run (applyDiscoveryLocked (dr_state d) found) answers (dr_disk d) = (w', Some r) →
  reachable f (mkSys (Some match r with Ok (s', _) => s' | Err _ => dr_state d end) w').
Proof.
  intros Hf Hsim Hl Hans Hrun. pose proof (simulated_config f d Hf Hsim) as Hcfg.
  destruct Hsim as [Hr Hread]. destruct (Hread found Hl) as (fs & Hfs & Hfound).
  set (a := mkAnswer false 0 None 0 [] 1 (λ _, None) fs).
  assert (Hexec : sys_exec f OpReconcile (a :: answers) (sysOf d) =
    mkSys (Some match r with Ok (s', _) => s' | Err _ => dr_state d end) w').
  { unfold sys_exec. cbn [sysOf proc disk].
    change (run (Reconcile (dr_state d)) (a :: answers) (dr_disk d)) with
      (run (applyDiscoveryLocked (dr_state d) (Enumerate fs (ds_discCfg (dr_state d)))) answers
         (dr_disk d)).
    rewrite Hcfg, <-Hfound, Hrun. by destruct r as [[]|]. }
  rewrite <-Hexec. eapply reachable_step; [exact Hr|]. constructor; [done|].
  by constructor; [split|].
Qed.

Lemma simulated_op {A} f d o (p : prog A) answers w' a :
  simulated f d → operation_ok o → Forall answer_ok answers →
  run p answers (dr_disk d) = (w', Some a) →
  (run p answers (dr_disk d) = (w', Some a) →
   sys_exec f o answers (sysOf d) = mkSys (Some (dr_state d)) w') →
  reachable f (mkSys (Some (dr_state d)) w').
Proof.
  intros [Hr _] Ho Hans Hrun Hexec. rewrite <-(Hexec Hrun).
  eapply reachable_step; [exact Hr|]. by constructor.
Qed.

Lemma simulated_prepare f d claim answers w' r :
  simulated f d → valid_utf8 (UID claim) = true → Forall answer_ok answers →
  run (Prepare (dr_state d) claim) answers (dr_disk d) = (w', Some r) →
  reachable f (mkSys (Some (dr_state d)) w').
Proof.
  intros Hsim Hu Hans Hrun. eapply (simulated_op f d (OpPrepare claim)); [done..|exact Hrun|].
  intros Ha. cbn. by rewrite Ha.
Qed.

Lemma simulated_unprepare f d uid answers w' r :
  simulated f d → Forall answer_ok answers →
  run (Unprepare (dr_state d) uid) answers (dr_disk d) = (w', Some r) →
  reachable f (mkSys (Some (dr_state d)) w').
Proof.
  intros Hsim Hans Hrun. eapply (simulated_op f d (OpUnprepare uid)); [done..|exact Hrun|].
  intros Ha. cbn. by rewrite Ha.
Qed.

Lemma simulated_step f d d' :
  config_in_range (discoveryConfig f) → simulated f d → driver_step d d' → simulated f d'.
Proof.
  intros Hf Hsim Hstep. revert Hsim. step_cases Hstep;
    intros Hsim; pose proof Hsim as [Hr Hread]; unfold simulated, loop_read in *;
    try (split; [exact Hr|done]).
  - by destruct ok; split.
  - split; [exact Hr|]. intros found [= <-]. exists fs. split; [done|].
    by rewrite (simulated_config f d Hf Hsim).
  - split; [|done]. exact (simulated_reconcile f d found ans w' _ Hf Hsim Hl Hans Hrun).
  - split; [|done]. exact (simulated_reconcile f d found ans w' _ Hf Hsim Hl Hans Hrun).
  - rewrite notified_eq. split; [exact Hr|]. intros found. cbn. by destruct (ResourcesChanged res).
  - unfold kicked. rewrite kickReconcile_eq. by split.
  - split; [|done]. exact (simulated_prepare f d claim ans w' _ Hsim Hu Hans Hrun).
  - split; [|done]. exact (simulated_unprepare f d uid ans w' _ Hsim Hans Hrun).
  - split; [|done]. exact (simulated_unprepare f d uid ans w' _ Hsim Hans Hrun).
Qed.

Lemma driver_simulated f d :
  config_in_range (discoveryConfig f) → driver_reachable f d → simulated f d.
Proof.
  intros Hf (d0 & Hinit & Hsteps).
  assert (Hsim : simulated f d0).
  { split; [by apply driver_init_reachable|]. intros found Hl.
    destruct Hinit as (? & ? & _ & _ & _ & _ & _ & _ & Hl' & _). congruence. }
  clear Hinit. induction Hsteps as [d|d1 d2 d3 Hstep _ IH]; [done|]. by eapply IH, simulated_step.
Qed.

End driver.
