(* ===== verification/DriverMon.v ===== *)
(** Lemmas about the running driver: the metrics and the cancellation of the main
    context, the end of the loop and of the main goroutine, and the calls seen whole. *)

From Stdlib Require Import ZArith.
From coqutil Require Import Datatypes.RecordSetters.
From stdpp Require Import options.
From S2P Require Import Prelude GoStrings GoPath GoSort Consts Types Sysfs Enumerate.
From S2P Require Import Json JsonRound Codec Ranges Effects Health Resources Cdi Checkpoint Flags.
From S2P Require Import State StateLemmas StateInv System GoFloat Metrics Driver DriverInv.

Import DoubleBraceUpdate.

#[export] Instance claim_op_eq_dec : EqDecision claim_op.
Proof. solve_decision. Defined.

(** ** What is in flight *)

(** A call that has counted its result and not yet observed its latency. *)
Definition pending (op : claim_op) (result : string) (t : thread) : bool :=
  match t with
  | TLatency op' result' _ => bool_decide (op' = op ∧ result' = result)
  | _ => false
  end.

Definition inflight (op : claim_op) (result : string) (m : gmap nat thread) : nat :=
  size (filter (λ '(_, t), pending op result t = true) m).

(** A thread that has no metric and no cancellation pending. *)
Definition quiet (t : thread) : bool :=
  match t with TKick _ | TObserve _ _ _ => true | _ => false end.

Lemma quiet_pending op result t : quiet t = true → pending op result t = false.
Proof. by destruct t. Qed.

Lemma inflight_insert op result m i t :
  m !! i = None →
  inflight op result (<[i := t]> m) =
    (if pending op result t then 1 else 0) + inflight op result m.
Proof.
  intros Hi. unfold inflight. destruct (pending op result t) eqn:Hp.
  - rewrite map_filter_insert_True by done. rewrite map_size_insert_None; [done|].
    by rewrite map_lookup_filter, Hi.
  - rewrite map_filter_insert_False by (by rewrite Hp). by rewrite delete_id.
Qed.

Lemma inflight_delete op result m i t :
  m !! i = Some t →
  inflight op result m =
    (if pending op result t then 1 else 0) + inflight op result (delete i m).
Proof.
  intros Hi. rewrite <-(inflight_insert op result (delete i m) i t) by apply lookup_delete_eq.
  by rewrite insert_delete_id.
Qed.

Lemma inflight_replace op result m i t t' :
  m !! i = Some t →
  inflight op result (<[i := t']> m) + (if pending op result t then 1 else 0) =
    (if pending op result t' then 1 else 0) + inflight op result m.
Proof.
  intros Hi. rewrite (inflight_delete op result m i t Hi), <-insert_delete_eq.
  rewrite inflight_insert by apply lookup_delete_eq. lia.
Qed.

(** A phase of the main goroutine in which the goal is immediate, or the loop cannot be. *)
Ltac case_phase Pm := first [done|by destruct Pm].

Section driver.
Context `{QuantityAPI} `{GoSort} `{CDIAPI} `{!ResourceJSON} `{MetricsAPI} `{KubeletPlugin}.
Implicit Type (s : DeviceState) (w : World).

(** ** One update of a metric *)

Lemma totalOf_metric op : totalOf op ∈ driverMetrics.
Proof. destruct op; by_compute. Qed.

Lemma durationOf_metric op : durationOf op ∈ driverMetrics.
Proof. destruct op; by_compute. Qed.

Lemma totalOf_inj op op' : totalOf op = totalOf op' → op = op'.
Proof. by destruct op, op'. Qed.

Lemma durationOf_inj op op' : durationOf op = durationOf op' → op = op'.
Proof. by destruct op, op'. Qed.

Section update.
Context (m : registry) (Hm : Forall (registered m) driverMetrics).

Lemma Inc_registered o l : Forall (registered (Inc o l m)) driverMetrics.
Proof using Type*. eapply Forall_impl; [exact Hm|]. intros o' Ho. by apply registered_Add. Qed.

Lemma Observe_registered o l x : Forall (registered (Observe o l x m)) driverMetrics.
Proof using Type*. eapply Forall_impl; [exact Hm|]. intros o' Ho. by apply registered_Observe. Qed.

Lemma Inc_total op result op' result' :
  counter (Inc (totalOf op) [result] m) (totalOf op') [result'] =
  if bool_decide (op = op' ∧ result = result')
  then Some (default 0 (counter m (totalOf op) [result]) + 1)
  else counter m (totalOf op') [result'].
Proof using Type*.
  unfold Inc. rewrite counter_Add by (by apply metric_registered, totalOf_metric).
  case_bool_decide as Hc; case_bool_decide as Hc'; try done.
  - destruct Hc as [Ho%totalOf_inj [= ->]]. by destruct Hc'.
  - destruct Hc' as [-> ->]. by destruct Hc.
Qed.

Lemma Inc_fatal op result : fatalErrors (Inc (totalOf op) [result] m) = fatalErrors m.
Proof using Type*.
  unfold fatalErrors, Inc. rewrite counter_Add by (by apply metric_registered, totalOf_metric).
  by rewrite bool_decide_eq_false_2 by (by intros [_ ?]).
Qed.

Lemma Inc_fatal_total op result :
  counter (Inc FatalBackgroundErrorsTotal [] m) (totalOf op) [result] = counter m (totalOf op) [result].
Proof using Type*.
  unfold Inc. rewrite counter_Add by (apply metric_registered; [done|by_compute]).
  by rewrite bool_decide_eq_false_2 by (by intros [_ ?]).
Qed.

Lemma Inc_fatal_S : fatalErrors (Inc FatalBackgroundErrorsTotal [] m) = S (fatalErrors m).
Proof using Type*.
  unfold fatalErrors, Inc. rewrite counter_Add by (apply metric_registered; [done|by_compute]).
  rewrite bool_decide_eq_true_2 by done. cbn. lia.
Qed.

Lemma Observe_duration op result x op' result' :
  observations (Observe (durationOf op) [result] x m) (durationOf op') [result'] =
  if bool_decide (op = op' ∧ result = result')
  then observations m (durationOf op) [result] ++ [x]
  else observations m (durationOf op') [result'].
Proof using Type*.
  rewrite observations_Observe by (by apply metric_registered, durationOf_metric).
  case_bool_decide as Hc; case_bool_decide as Hc'; try done.
  - destruct Hc as [Ho%durationOf_inj [= ->]]. by destruct Hc'.
  - destruct Hc' as [-> ->]. by destruct Hc.
Qed.

End update.

(** ** Metrics and cancellation *)

Record monitored (d : Driver) : Prop := {
  mo_registered : Forall (registered (dr_metrics d)) driverMetrics;
  mo_latency op result : result ∈ [resultSuccess; resultError] →
    counter (dr_metrics d) (totalOf op) [result] =
    Some (length (observations (dr_metrics d) (durationOf op) [result]) +
          inflight op result (dr_threads d));
  mo_cancelCtx : dr_cancelCtx d = true;
  mo_fatal : fatalErrors (dr_metrics d) ≠ 0 →
    is_Some (dr_cause d) ∨ ∃ i err, dr_threads d !! i = Some (TCancel err);
  mo_cancels i err : dr_threads d !! i = Some (TCancel err) →
    ErrorsIs err ErrRecoverable = false ∧ fatalErrors (dr_metrics d) ≠ 0;
  mo_cause c : dr_cause d = Some c →
    (∃ sig, c = signalError sig) ∨ (c = Canceled ∧ dr_main d = MFailed) ∨
    ∃ err, c = EWrap "fatal background error" err ∧ ErrorsIs err ErrRecoverable = false ∧
      fatalErrors (dr_metrics d) ≠ 0
}.

Lemma monitored_init f d : driver_init f d → monitored d.
Proof.
  intros (σ & answers & _ & _ & _ & _ & _ & _ & _ & _ & _ & _ & _ & _ & Hth & Hctx & (r & Hr & Hi) & Hc & _).
  destruct (init_ok r Hr) as (r' & Hr' & [Hreg Hp Hu] & Hf & _). rewrite Hi in Hr'. injection Hr' as <-.
  split; rewrite ?Hth; [done| |done|congruence|by intros i err ?|congruence].
  intros op result Hres. unfold inflight. rewrite map_filter_empty, map_size_empty, Nat.add_0_r.
  destruct op; [by apply Hp|by apply Hu].
Qed.

(** Threads that change quietly. *)
Definition quiet_change (m m' : gmap nat thread) : Prop :=
  m' = m ∨ ∃ i t, quiet t = true ∧ m' = <[i := t]> m ∧
    match m !! i with None => True | Some t0 => quiet t0 = true end.

Lemma quiet_inflight m m' op result :
  quiet_change m m' → inflight op result m' = inflight op result m.
Proof.
  intros [->|(i & t & Ht & -> & Hi)]; [done|]. destruct (m !! i) as [t0|] eqn:E.
  - pose proof (inflight_replace op result m i t0 t E) as Hr.
    rewrite !quiet_pending in Hr by done. lia.
  - by rewrite inflight_insert, quiet_pending.
Qed.

Lemma quiet_cancel m m' i err :
  quiet_change m m' → m' !! i = Some (TCancel err) ↔ m !! i = Some (TCancel err).
Proof.
  intros [->|(j & t & Ht & -> & Hj)]; [done|].
  destruct (decide (j = i)) as [->|Hne]; [|by rewrite lookup_insert_ne].
  rewrite lookup_insert_eq. split; [by intros [= ->]|]. intros Hi. by rewrite Hi in Hj.
Qed.

Lemma monitored_frame d d' :
  dr_metrics d' = dr_metrics d → dr_cancelCtx d' = dr_cancelCtx d → dr_cause d' = dr_cause d →
  (dr_main d = MFailed → dr_main d' = MFailed) →
  quiet_change (dr_threads d) (dr_threads d') → monitored d → monitored d'.
Proof.
  intros Hm Hx Hc Hp Hq [Hreg Hlat Hctx Hfat Hcan Hcau].
  split; rewrite ?Hm, ?Hx, ?Hc; [done| |done|..].
  - intros op result Hres. by rewrite (quiet_inflight _ _ op result Hq), Hlat.
  - intros [?|(i & err & Hi)]%Hfat; [by left|]. right. exists i, err. by apply (quiet_cancel _ _ i err Hq).
  - intros i err Hi%(quiet_cancel _ _ i err Hq). by apply (Hcan i err).
  - intros c [?|[[? ?]|?]]%Hcau; auto.
Qed.

(** The cause is only ever set, and a cancelled context stays cancelled. *)
Lemma monitored_cancelled_by err d :
  (∃ sig, err = signalError sig) ∨ (err = Canceled ∧ dr_main d = MFailed) ∨ is_Some (dr_cause d) →
  monitored d → monitored (cancelled_by err d).
Proof.
  intros He [Hreg Hlat Hctx Hfat Hcan Hcau].
  assert (Hc : dr_cause (cancelled_by err d) = cancel err (dr_cause d)) by done.
  split; rewrite ?Hc; [done|done|done| |done|].
  - intros _. left. by destruct (dr_cause d).
  - intros c. destruct (dr_cause d) as [c'|] eqn:E; cbn; intros [= <-].
    + destruct (Hcau c' eq_refl) as [?|[?|?]]; auto.
    + destruct He as [?|[?|[? ?]]]; [by left|by right; left|done].
Qed.

Lemma monitored_fatal_counted i err d :
  dr_threads d !! i = None → ErrorsIs err ErrRecoverable = false →
  monitored d → monitored (fatal_counted i err d).
Proof.
  intros Hi Hrec [Hreg Hlat Hctx Hfat Hcan Hcau].
  assert (Hth : dr_threads (fatal_counted i err d) = <[i := TCancel err]> (dr_threads d)) by done.
  assert (Hme : dr_metrics (fatal_counted i err d) = Inc FatalBackgroundErrorsTotal [] (dr_metrics d)) by done.
  assert (Hne : fatalErrors (Inc FatalBackgroundErrorsTotal [] (dr_metrics d)) ≠ 0)
    by (by rewrite Inc_fatal_S).
  split; rewrite ?Hth, ?Hme; [by apply Inc_registered| |done|..].
  - intros op result Hres. rewrite Inc_fatal_total, inflight_insert by done.
    unfold Inc. rewrite observations_Add. by apply Hlat.
  - intros _. right. exists i, err. apply lookup_insert_eq.
  - intros j err' [[-> [= ->]]|[_ Hj]]%lookup_insert_Some; [done|]. split; [by eapply Hcan|done].
  - intros c [?|[?|(e & ? & ? & _)]]%Hcau; [by left|by right; left|right; right; by exists e].
Qed.

Lemma monitored_fatal_cancelled i err d :
  dr_threads d !! i = Some (TCancel err) → monitored d → monitored (fatal_cancelled i err d).
Proof.
  intros Hi [Hreg Hlat Hctx Hfat Hcan Hcau].
  assert (Hth : dr_threads (fatal_cancelled i err d) = delete i (dr_threads d)) by done.
  assert (Hc : dr_cause (fatal_cancelled i err d) =
    cancel (EWrap "fatal background error" err) (dr_cause d)).
  { change (cancelMain (dr_cancelCtx d) err (dr_cause d) =
      cancel (EWrap "fatal background error" err) (dr_cause d)). by rewrite Hctx. }
  assert (Hme : dr_metrics (fatal_cancelled i err d) = dr_metrics d) by done.
  destruct (Hcan i err Hi) as [Hrec Hne].
  split; rewrite ?Hth, ?Hc, ?Hme; [done| |done|..].
  - intros op result Hres. rewrite (Hlat op result Hres).
    by rewrite (inflight_delete op result _ i _ Hi).
  - intros _. left. by destruct (dr_cause d).
  - intros j err' [_ Hj]%lookup_delete_Some. by apply (Hcan j err').
  - intros c. destruct (dr_cause d) as [c'|] eqn:E; cbn; intros [= <-]; [by apply Hcau|].
    right. right. by exists err.
Qed.

Lemma monitored_claim_counted i op start now err d :
  dr_threads d !! i = Some (TObserve op start err) → monitored d →
  monitored (claim_counted i op start now err d).
Proof.
  intros Hi [Hreg Hlat Hctx Hfat Hcan Hcau].
  set (d' := claim_counted i op start now err d).
  assert (Hth : dr_threads d' = <[i := TLatency op (resultOf err) (Since start now)]> (dr_threads d)) by done.
  assert (Hme : dr_metrics d' = Inc (totalOf op) [resultOf err] (dr_metrics d)) by done.
  assert (Hca : ∀ j e, dr_threads d' !! j = Some (TCancel e) ↔ dr_threads d !! j = Some (TCancel e)).
  { intros j e. rewrite Hth. destruct (decide (i = j)) as [->|Hne]; [|by rewrite lookup_insert_ne].
    rewrite lookup_insert_eq, Hi. done. }
  split; rewrite ?Hme; [by apply Inc_registered| |done|..].
  - intros op' result' Hres. rewrite Hth, Inc_total by done. unfold Inc. rewrite observations_Add.
    pose proof (inflight_replace op' result' _ i _ (TLatency op (resultOf err) (Since start now)) Hi) as Hin.
    cbn [pending] in Hin. rewrite (Hlat op' result' Hres).
    destruct (bool_decide (op = op' ∧ _)) eqn:Hc.
    + apply bool_decide_eq_true in Hc as [-> <-]. rewrite (Hlat _ _ Hres). cbn. f_equal. lia.
    + f_equal. lia.
  - rewrite Inc_fatal by done. intros [?|(j & e & Hj)]%Hfat; [by left|]. right. exists j, e. by apply Hca.
  - intros j e Hj%Hca. rewrite Inc_fatal by done. by apply (Hcan j e).
  - rewrite Inc_fatal by done. exact Hcau.
Qed.

Lemma monitored_latency_observed i op result dur d :
  dr_threads d !! i = Some (TLatency op result dur) → monitored d →
  monitored (latency_observed i op result dur d).
Proof.
  intros Hi [Hreg Hlat Hctx Hfat Hcan Hcau].
  set (d' := latency_observed i op result dur d).
  assert (Hth : dr_threads d' = delete i (dr_threads d)) by done.
  assert (Hme : dr_metrics d' = Observe (durationOf op) [result] (Seconds dur) (dr_metrics d)) by done.
  assert (Hf : fatalErrors (dr_metrics d') = fatalErrors (dr_metrics d))
    by (rewrite Hme; unfold fatalErrors; by rewrite counter_Observe).
  split; rewrite ?Hf; rewrite ?Hth; [rewrite Hme; by apply Observe_registered| |done|..].
  - intros op' result' Hres. rewrite Hme, counter_Observe, Observe_duration by done.
    rewrite (Hlat op' result' Hres), (inflight_delete op' result' _ i _ Hi). cbn [pending].
    f_equal. case_bool_decide as Hc; [|done]. destruct Hc as [-> ->].
    rewrite length_app. cbn. lia.
  - intros [?|(j & e & Hj)]%Hfat; [by left|]. right. exists j, e. rewrite lookup_delete_ne; [done|congruence].
  - intros j e [_ Hj]%lookup_delete_Some. by apply (Hcan j e).
  - exact Hcau.
Qed.

(** ** The main goroutine, the loop and the channel between them *)

(** The channel the loop closes when it has ended. *)
Definition done_of (l : loop_phase) : option bool :=
  match l with LBoot _ => None | LStopped => Some true | _ => Some false end.

Definition is_boot (l : loop_phase) : bool := match l with LBoot _ => true | _ => false end.

Record phased (d : Driver) : Prop := {
  ph_loop : dr_loop d = LReturn ∨ dr_loop d = LStopped →
    is_Some (dr_cause d) ∨ dr_main d = MFailed;
  ph_main :
    match dr_main d with
    | MBooting => is_boot (dr_loop d) = true
    | MServing => is_boot (dr_loop d) = false
    | MStopping => is_Some (dr_cause d) ∧ is_boot (dr_loop d) = false
    | MStopHelper | MReturned => is_Some (dr_cause d) ∧ dr_loop d = LStopped
    | MFailed => dr_loop d = LStopped ∧ dr_publishFailed d = true
    end;
  ph_done : dr_rediscoveryDone d =
    match dr_main d with MFailed => None | _ => done_of (dr_loop d) end
}.

Lemma phased_init f d : driver_init f d → phased d.
Proof.
  intros (σ & answers & _ & _ & _ & _ & _ & _ & Hl & _ & _ & _ & Hdone & Hm & _).
  split; rewrite ?Hl, ?Hm; [by intros []|done|done].
Qed.

(** A step that leaves the main goroutine and the channel alone; the loop may move
    between phases in which it runs. *)
Definition running (l : loop_phase) : bool :=
  match l with LBoot _ | LReturn | LStopped => false | _ => true end.

Lemma phased_frame d d' :
  dr_main d' = dr_main d → dr_rediscoveryDone d' = dr_rediscoveryDone d →
  (dr_publishFailed d = true → dr_publishFailed d' = true) →
  (is_Some (dr_cause d) → is_Some (dr_cause d')) →
  dr_loop d' = dr_loop d ∨ running (dr_loop d) = true ∧ running (dr_loop d') = true →
  phased d → phased d'.
Proof.
  intros Hm Hd Hp Hc Hl [Hloop Hmain Hdone].
  assert (Hdo : done_of (dr_loop d') = done_of (dr_loop d))
    by (destruct Hl as [->|[]]; [done|by destruct (dr_loop d), (dr_loop d')]).
  assert (Hb : is_boot (dr_loop d') = is_boot (dr_loop d))
    by (destruct Hl as [->|[]]; [done|by destruct (dr_loop d), (dr_loop d')]).
  assert (Hstop : dr_loop d = LStopped → dr_loop d' = LStopped)
    by (intros Hs; destruct Hl as [->|[Hr _]]; [done|by rewrite Hs in Hr]).
  split; rewrite ?Hm, ?Hd, ?Hdo; [| |done].
  - intros Hend. assert (Hend' : dr_loop d = LReturn ∨ dr_loop d = LStopped)
      by (destruct Hl as [<-|[_ Hr]]; [done|by destruct Hend as [He|He]; rewrite He in Hr]).
    destruct (Hloop Hend'); auto.
  - rewrite Hb. destruct (dr_main d); naive_solver.
Qed.

(** The loop comes to its end. *)
Lemma phased_end d d' :
  dr_main d' = dr_main d → dr_cause d' = dr_cause d → dr_publishFailed d' = dr_publishFailed d →
  dr_rediscoveryDone d' = done_of (dr_loop d') →
  is_boot (dr_loop d') = false → is_boot (dr_loop d) = false → dr_loop d ≠ LStopped →
  is_Some (dr_cause d) ∨ dr_main d = MFailed → phased d → phased d'.
Proof.
  intros Hm Hc Hp Hd Hb' Hb Hne Hend [Hloop Hmain Hdone].
  split; rewrite ?Hm, ?Hc, ?Hp, ?Hd, ?Hb'; [done|..];
    rewrite ?Hb in Hmain; destruct (dr_main d); case_phase Hmain.
Qed.

Lemma phased_step d d' : phased d → driver_step d d' → phased d'.
Proof.
  intros Hinv Hstep. revert Hinv. step_cases Hstep; intros Hinv; pose proof Hinv as [Pl Pm Pd];
    try (apply (phased_frame d); [done..| |done]; first [by left|right; by rewrite Hl]).
  (* the loop *)
  - rewrite Hl in *. assert (Hm : dr_main d = MBooting) by (destruct (dr_main d); case_phase Pm).
    destruct ok; split; cbn; try done; [by intros []|..].
    + intros _. by right.
    + by rewrite orb_true_r.
    + by rewrite Hm in Pd.
  - apply (phased_end d); rewrite ?Hl; auto. change (dr_rediscoveryDone d = Some false).
    rewrite Hl in *. rewrite Pd. destruct (dr_main d); case_phase Pm.
  - apply (phased_end d); rewrite ?Hl; auto.
  - apply (phased_frame d); rewrite ?notified_eq; try done.
    right. rewrite Hl. cbn. by destruct (ResourcesChanged res).
  - apply (phased_frame d); [done..| |done|right; by rewrite Hl|done]. cbn. by intros ->.
  (* the main goroutine *)
  - rewrite Hm in *. split; [by left|by split|done].
  - rewrite Hm in *. destruct Pm as [Hcause Hb]. split; [by left| |done]. split; [done|].
    change (dr_loop d = LStopped). rewrite Pd in Hdone. by destruct (dr_loop d).
  - rewrite Hm in *. destruct Pm as [Hcause Hl]. split; [by left|by split|done].
  - apply (phased_frame d); [done..| |by left|done]. cbn. by destruct (dr_cause d).
  (* the others *)
  - apply (phased_frame d); [done..| |by left|done]. cbn. by destruct (dr_cause d).
  - apply (phased_frame d); [done..| |by left|done]. cbn. unfold cancelMain.
    intros [c ->]. by destruct (dr_cancelCtx d).
  - unfold kicked. rewrite kickReconcile_eq. apply (phased_frame d); [done..|by left|done].
Qed.

(** ** Every reachable driver *)

Lemma monitored_step d d' : phased d → monitored d → driver_step d d' → monitored d'.
Proof.
  intros Hph Hinv Hstep. revert Hph Hinv. step_cases Hstep; intros Hph Hinv;
    try (apply (monitored_frame d); [done..|by left|done]);
    try (apply (monitored_frame d); [done..| |done]; right; eexists i, _;
         split_and!; [|reflexivity|rewrite Hi]; done).
  - apply (monitored_frame d); try (by destruct ok); [|by destruct ok; left].
    destruct Hph as [_ Pm _]. intros Hp. rewrite Hp, Hl in Pm. by destruct Pm.
  - rewrite notified_eq. by apply (monitored_frame d); try left.
  - apply (monitored_frame d); [done..|congruence|by left|done].
  - apply (monitored_frame d); [done..|congruence|by left|done].
  - apply (monitored_frame d); [done..|congruence|by left|done].
  - apply monitored_cancelled_by; [|done]. destruct Hph as [_ Pm _].
    destruct Hm as [Hm|Hm]; rewrite Hm in Pm; destruct Pm; auto.
  - apply monitored_cancelled_by; [|done]. left. by exists sig.
  - by apply monitored_fatal_counted.
  - by apply monitored_fatal_cancelled.
  - unfold kicked. rewrite kickReconcile_eq. apply (monitored_frame d); [done..| |done].
    right. eexists i, _. split_and!; [|reflexivity|by rewrite Hi]. done.
  - by apply monitored_claim_counted.
  - by apply monitored_latency_observed.
Qed.

Lemma driver_monitored f d : driver_reachable f d → monitored d ∧ phased d.
Proof.
  intros (d0 & Hinit & Hsteps).
  assert (Hinv : monitored d0 ∧ phased d0)
    by (split; [by eapply monitored_init|by eapply phased_init]).
  clear Hinit. induction Hsteps as [d|d1 d2 d3 Hstep _ IH]; [done|].
  destruct Hinv as [Hmon Hph]. apply IH. split; [by eapply monitored_step|by eapply phased_step].
Qed.

(** A cancelled context keeps its cause. *)
Lemma cause_kept d d' c : driver_step d d' → dr_cause d = Some c → dr_cause d' = Some c.
Proof.
  intros Hstep. step_cases Hstep; try done.
  - by destruct ok.
  - by rewrite notified_eq.
  - cbn. by intros ->.
  - cbn. by intros ->.
  - cbn. unfold cancelMain. intros ->. by destruct (dr_cancelCtx d).
  - unfold kicked. by rewrite kickReconcile_eq.
Qed.

(** ** A call alone

    The steps of one call of the kubelet, or of [HandleError], with nothing in between,
    do what the function does. *)

(** A call between two readings of the clock. *)
Lemma run_timed {A C} (p : prog A) (g : Z → A → Z → C) answers w w' x :
  run (let! start := perform ENow in let! a := p in let! now := perform ENow in
       Ret (g start a now)) answers w = (w', Some x) →
  ∃ start a now rest, run p rest w = (w', Some a) ∧ rest `suffix_of` answers ∧ x = g start a now.
Proof.
  destruct answers as [|b rest]; [done|].
  change (bind (perform ENow) ?f) with (Do ENow f). cbn [run exec].
  intros (a & w1 & l & Hp & _ & Hf)%run_bind. destruct l as [|c l]; [done|].
  injection Hf as <- <-. eexists _, a, _, rest. split_and!; [done|by apply suffix_cons_r|done].
Qed.

Lemma suffix_answers answers rest :
  rest `suffix_of` answers → Forall answer_ok answers → Forall answer_ok rest.
Proof. intros [l ->] Hall. by apply Forall_app in Hall as [_ ?]. Qed.

(** The state after the last step: the thread is gone. *)
Ltac alone :=
  match goal with |- rtc _ ?a ?b => assert (Heq : a = b); [|by rewrite Heq] end;
  match goal with d : Driver |- _ => destruct d end;
  cbn in *; unfold constant; f_equal; rewrite ?insert_insert_eq; by apply delete_insert_id.

(** The observation of a call that returned. *)
Lemma observed_alone i op start now err w' d :
  dr_threads d !! i = None →
  rtc background_step (set_thread i (TObserve op start err) d {{ dr_disk := w' }})
    d {{ dr_disk := w';
         dr_metrics := Observe (durationOf op) [resultOf err] (Seconds (Since start now))
                         (Inc (totalOf op) [resultOf err] (dr_metrics d)) }}.
Proof.
  intros Hi. eapply rtc_l; [apply (st_count _ i op start err now), lookup_insert_eq|].
  eapply rtc_l; [eapply (st_latency _ i op), lookup_insert_eq|]. alone.
Qed.

Lemma call_alone_prepare d i claim answers w' m' r :
  dr_threads d !! i = None → valid_utf8 (UID claim) = true → Forall answer_ok answers →
  run (prepareResourceClaim (dr_state d) claim (dr_metrics d)) answers (dr_disk d) = (w', Some (m', r)) →
  ∃ d1, kubelet_call (EvPrepare (UID claim) (Some r)) d d1 ∧
    rtc background_step d1 d {{ dr_disk := w'; dr_metrics := m' }}.
Proof.
  intros Hi Hu Hans Hrun.
  apply run_timed in Hrun as (start & res & now & rest & Hrun & Hrest & [= -> ->]).
  eexists. split.
  - eapply (kc_prepare d i start claim rest res w'); [done..|by eapply suffix_answers|done].
  - by apply (observed_alone i Preparing start now _ w').
Qed.

Lemma call_alone_unprepare d i uid answers w' m' r :
  dr_threads d !! i = None → Forall answer_ok answers →
  run (unprepareResourceClaim (dr_state d) uid (dr_metrics d)) answers (dr_disk d) = (w', Some (m', r)) →
  ∃ d1, kubelet_call (EvUnprepare uid (Some r)) d d1 ∧
    rtc background_step d1
      match r with
      | Ok _ => kickReconcile d {{ dr_disk := w'; dr_metrics := m'; g_released := true }}
      | Err _ => d {{ dr_disk := w'; dr_metrics := m' }}
      end.
Proof.
  intros Hi Hans Hrun.
  apply run_timed in Hrun as (start & res & now & rest & Hrun & Hrest & [= -> ->]).
  pose proof (suffix_answers _ _ Hrest Hans) as Hans'. destruct res as [[]|e]; cbn [unprepareResult].
  - eexists. split; [by apply (kc_unprepare d i start uid rest w')|].
    eapply rtc_l; [apply (st_kick _ i start), lookup_insert_eq|].
    eapply rtc_l.
    { unfold kicked. rewrite kickReconcile_eq. apply (st_count _ i Unpreparing start None now), lookup_insert_eq. }
    eapply rtc_l; [eapply (st_latency _ i Unpreparing), lookup_insert_eq|].
    rewrite kickReconcile_eq. alone.
  - eexists. split; [by apply (kc_unprepare_err d i start uid rest e w')|].
    by apply (observed_alone i Unpreparing start now (Some _) w').
Qed.

Lemma call_alone_HandleError d i err m' cause' :
  dr_threads d !! i = None →
  HandleError (dr_cancelCtx d) err (dr_metrics d) (dr_cause d) = (m', cause') →
  rtc background_step d d {{ dr_metrics := m'; dr_cause := cause' }}.
Proof.
  intros Hi. unfold HandleError. destruct (ErrorsIs err ErrRecoverable) eqn:Hr; intros [= <- <-].
  - match goal with |- rtc _ ?a ?b => assert (Heq : b = a) by (by destruct a); by rewrite Heq end.
  - eapply rtc_l; [by apply (st_handle_error d i err)|].
    eapply rtc_l; [apply (st_cancel _ i err), lookup_insert_eq|]. alone.
Qed.

End driver.
