(* ===== verification/Main.v ===== *)
(** The life of the process: [RunPlugin] of [cmd/kubeletplugin/main.go], with
    [NewDriver] and [Shutdown] of [driver.go] and the metrics server of
    [pkg/metrics/server.go].

    What matters here is the order of the calls and what is undone on which
    path, so an [act] records a trace of [event]s; the calls' results are the
    [Host]'s.  [NewDeviceState] inside is the one of [State.v], on the same disk.  While
    the process waits for its context the driver runs: that is [Driver.v], and the
    trace has [Done] for it.  A process killed while it builds its state has no
    result, and runs no deferred call. *)

From Stdlib Require Import ZArith.
From stdpp Require Import options.
From S2P Require Import Prelude GoStrings GoPath GoSort Consts Types Sysfs Enumerate.
From S2P Require Import Codec Ranges Effects Health Resources Cdi Checkpoint Flags.
From S2P Require Import State StateLemmas StateInv System GoFloat Metrics Driver DriverInv.

Section main.
Context `{QuantityAPI} `{GoSort} `{CDIAPI} `{!ResourceJSON}.

Inductive event :=
  | MkdirAll (path : string)
  | Listen (addr : string)            (* the metrics server accepts connections *)
  | StartHelper                       (* [kubeletplugin.Start] succeeded *)
  | Publish (r : DriverResources)     (* [PublishResources] succeeded *)
  | StartLoop                         (* [go d.runRediscovery(ctx)] *)
  | Done                              (* [<-ctx.Done()] *)
  | LoopDone                          (* [<-d.rediscoveryDone] *)
  | StopHelper
  | ShutdownServer                    (* [httpServer.Shutdown]: no new connections *)
  | ServerDone.                       (* [s.wg.Wait()]: the serving goroutine returned *)

(** What the machine, the Go runtime and the helper library answer. *)
Record Host := mkHost {
  h_MkdirAll : string → option error;
  h_Stat : string → result fs_error FileInfo;
  h_listen : string → option error;
  h_answers : list Answer;
  h_start : option error;
  h_publish : DriverResources → option error;
  h_shutdown : option error
}.

(** ** Traced actions *)

Definition act (A : Type) : Type := list event * World → (list event * World) * option A.

Definition aret {A} (a : A) : act A := λ σ, (σ, Some a).

Definition abind {A C} (x : act A) (k : A → act C) : act C := λ σ,
  match x σ with
  | (σ', Some a) => k a σ'
  | (σ', None) => (σ', None)
  end.

Definition say (e : event) : act unit := λ '(tr, w), ((tr ++ [e], w), Some tt).

Definition disk_run {A} (p : prog A) (answers : list Answer) : act A := λ '(tr, w),
  let '(w', r) := run p answers w in ((tr, w'), r).

Notation "'do!' x := p 'in' q" := (abind p (λ x, q))
  (at level 10, x name, p at level 100, q at level 200) : go_scope.

(** A call that returns an error, and leaves the event [e] when it succeeds. *)
Definition call (err : option error) (e : event) : act (option error) :=
  match err with
  | Some err => aret (Some err)
  | None => do! _ := say e in aret None
  end.

(** ** pkg/metrics/server.go *)

(** A [*Server]: nil, or the address it listens at. *)
Definition Server : Type := option string.

(** [net.JoinHostPort("", strconv.Itoa(port))]. *)
Definition serverAddr (port : Z) : string := ":" +:+ Itoa port.

Definition StartServer (h : Host) (port : Z) : act (result error Server) :=
  if (port <? 0)%Z then aret (Ok None)
  else
    let addr := serverAddr port in
    do! err := call (h_listen h addr) (Listen addr) in
    aret (match err with
          | Some e => Err (EWrap ("listen for metrics server at " +:+ addr) e)
          | None => Ok (Some addr)
          end).

Definition Stop (h : Host) (s : Server) : act (option error) :=
  match s with
  | None => aret None
  | Some _ =>
      do! _ := say ShutdownServer in
      match h_shutdown h with
      | Some e => aret (Some (EWrap "shutdown metrics server" e))
      | None => do! _ := say ServerDone in aret None
      end
  end.

(** ** driver.go *)

(** The driver that is returned: its state, and whether [rediscoveryDone] was made. *)
Definition NewDriver (h : Host) (f : Flags) : act (result error (DeviceState * bool)) :=
  do! state := disk_run (NewDeviceState f) (h_answers h) in
  match state with
  | Err e => aret (Err e)
  | Ok s =>
      do! err := call (h_start h) StartHelper in
      match err with
      | Some e => aret (Err e)
      | None =>
          do! err := call (h_publish h (Resources s)) (Publish (Resources s)) in
          match err with
          | Some e => aret (Err e)
          | None => do! _ := say StartLoop in aret (Ok (s, true))
          end
      end
  end.

(** A nil channel is not waited for.  That the loop closes the other one, and the wait
    ends, is [Shutdown_returns] of [DriverProps.v]. *)
Definition Shutdown (rediscoveryDone : bool) : act unit :=
  do! _ := (if rediscoveryDone then say LoopDone else aret tt) in say StopHelper.

(** ** main.go *)

(** The [switch] on [os.Stat(config.flags.cdiRoot)]. *)
Definition ensureCdiRoot (h : Host) (f : Flags) : act (option error) :=
  match h_Stat h (cdiRoot f) with
  | Err ErrNotExist => call (h_MkdirAll h (cdiRoot f)) (MkdirAll (cdiRoot f))
  | Err e => aret (Some (EFs e))
  | Ok info =>
      aret (if IsDir info then None
            else Some (EText ("path for cdi file generation is not a directory: " +:+ cdiRoot f)))
  end.

(** From [NewDriver] on; the errors of the two shutdowns are only logged. *)
Definition serve (h : Host) (f : Flags) : act (option error) :=
  do! d := NewDriver h f in
  match d with
  | Err e => aret (Some e)
  | Ok (_, rediscoveryDone) =>
      do! _ := say Done in
      do! _ := Shutdown rediscoveryDone in
      aret None
  end.

Definition RunPlugin (h : Host) (f : Flags) : act (option error) :=
  do! err := call (h_MkdirAll h (DriverPluginPath f)) (MkdirAll (DriverPluginPath f)) in
  match err with
  | Some e => aret (Some e)
  | None =>
      do! err := ensureCdiRoot h f in
      match err with
      | Some e => aret (Some e)
      | None =>
          do! server := StartServer h (metricsPort f) in
          match server with
          | Err e => aret (Some (EWrap "start metrics server" e))
          | Ok server =>
              do! err := serve h f in
              do! _ := Stop h server in
              aret err
          end
      end
  end.

(** ** Lemmas *)

(** What the trace of each part is. *)
Definition listening (f : Flags) : list event :=
  if (metricsPort f <? 0)%Z then [] else [Listen (serverAddr (metricsPort f))].

Definition closing (h : Host) (f : Flags) : list event :=
  if (metricsPort f <? 0)%Z then []
  else ShutdownServer :: match h_shutdown h with None => [ServerDone] | Some _ => [] end.

(** The directories the process made. *)
Definition prepared_dirs (h : Host) (f : Flags) : list event :=
  MkdirAll (DriverPluginPath f) ::
  match h_Stat h (cdiRoot f) with Err _ => [MkdirAll (cdiRoot f)] | Ok _ => [] end.

(** The starting steps all succeed: the directories and the listener. *)
Definition host_ready (h : Host) (f : Flags) : Prop :=
  h_MkdirAll h (DriverPluginPath f) = None ∧
  match h_Stat h (cdiRoot f) with
  | Ok info => IsDir info = true
  | Err ErrNotExist => h_MkdirAll h (cdiRoot f) = None
  | Err _ => False
  end ∧
  ((metricsPort f <? 0)%Z = true ∨ h_listen h (serverAddr (metricsPort f)) = None).

(** How far [NewDriver] gets, from the state it builds. *)
Definition starting (h : Host) (s : DeviceState) : list event :=
  match h_start h with
  | Some _ => []
  | None =>
      StartHelper ::
      match h_publish h (Resources s) with
      | Some _ => []
      | None => [Publish (Resources s); StartLoop; Done; LoopDone; StopHelper]
      end
  end.

Definition start_error (h : Host) (s : DeviceState) : option error :=
  match h_start h with Some e => Some e | None => h_publish h (Resources s) end.

Lemma serve_spec h f tr w :
  serve h f (tr, w) =
  let '(w', r) := run (NewDeviceState f) (h_answers h) w in
  match r with
  | Some (Ok s) => ((tr ++ starting h s, w'), Some (start_error h s))
  | Some (Err e) => ((tr, w'), Some (Some e))
  | None => ((tr, w'), None)
  end.
Proof.
  unfold serve, NewDriver, abind, disk_run, starting, start_error.
  destruct (run (NewDeviceState f) (h_answers h) w) as [w' [[s|e]|]]; [|done..].
  unfold call, abind, say, aret. destruct (h_start h) as [e|]; cbn; [by rewrite app_nil_r|].
  destruct (h_publish h (Resources s)); cbn; by rewrite <-?app_assoc.
Qed.

Lemma RunPlugin_ready h f w :
  host_ready h f →
  RunPlugin h f ([], w) =
  match serve h f (prepared_dirs h f ++ listening f, w) with
  | ((tr, w'), Some r) => ((tr ++ closing h f, w'), Some r)
  | ((tr, w'), None) => ((tr, w'), None)
  end.
Proof.
  intros (Hd & Hc & Hm). unfold RunPlugin, prepared_dirs, listening, closing. rewrite Hd.
  unfold call, ensureCdiRoot, StartServer, call, Stop, abind, say, aret. cbn.
  destruct (h_Stat h (cdiRoot f)) as [info|[]]; [rewrite Hc|rewrite Hc|done]; cbn;
    (destruct (metricsPort f <? 0)%Z eqn:Hp; cbn;
      [|destruct Hm as [|Hm]; [done|]; rewrite Hm; cbn]);
    (destruct (serve h f _) as [[tr w'] [r|]]; cbn; rewrite ?app_nil_r; [|done]);
    by destruct (h_shutdown h); cbn; rewrite <-?app_assoc.
Qed.

(** Otherwise the process gives up, having made directories at most. *)
Lemma RunPlugin_cases h f w :
  host_ready h f ∨
  ∃ tr e, RunPlugin h f ([], w) = ((tr, w), Some (Some e)) ∧ tr `prefix_of` prepared_dirs h f.
Proof.
  unfold host_ready, RunPlugin, prepared_dirs, ensureCdiRoot, StartServer, call, abind, say, aret.
  destruct (h_MkdirAll h (DriverPluginPath f)); cbn;
    [right; eexists _, _; split; [done|by apply prefix_nil]|].
  destruct (h_Stat h (cdiRoot f)) as [info|[]]; cbn.
  - destruct (IsDir info); cbn; [|by right; eexists _, _].
    destruct (metricsPort f <? 0)%Z; cbn; [by left; auto|].
    destruct (h_listen h (serverAddr (metricsPort f))); cbn; [by right; eexists _, _|by left; auto].
  - destruct (h_MkdirAll h (cdiRoot f)); cbn;
      [by right; eexists _, _; split; [done|by exists [MkdirAll (cdiRoot f)]]|].
    destruct (metricsPort f <? 0)%Z; cbn; [by left; auto|].
    destruct (h_listen h (serverAddr (metricsPort f))); cbn; [by right; eexists _, _|by left; auto].
  - right. eexists _, _. split; [done|by exists [MkdirAll (cdiRoot f)]].
Qed.

(** The trace, the disk and the result of a whole run. *)
Lemma RunPlugin_spec h f w :
  host_ready h f →
  RunPlugin h f ([], w) =
  let '(w', r) := run (NewDeviceState f) (h_answers h) w in
  let opened := prepared_dirs h f ++ listening f in
  match r with
  | Some (Ok s) => ((opened ++ starting h s ++ closing h f, w'), Some (start_error h s))
  | Some (Err e) => ((opened ++ closing h f, w'), Some (Some e))
  | None => ((opened, w'), None)
  end.
Proof.
  intros Hready. rewrite RunPlugin_ready, serve_spec by done.
  destruct (run (NewDeviceState f) (h_answers h) w) as [w' [[s|e]|]]; [|done..].
  cbn zeta. by rewrite <-!app_assoc.
Qed.

(** The driver when its helper starts. *)
Definition startedDriver `{MetricsAPI} (s : DeviceState) (w : World) (m : registry) : Driver :=
  mkDriver s w true (Some false) (Some false) None MBooting (LBoot (Resources s)) ∅ ∅
    (mkResources ∅) false m None false false.

(** Where the helper starts, and what is known then. *)
Lemma RunPlugin_StartHelper h f w tr w' r :
  RunPlugin h f ([], w) = ((tr, w'), r) → StartHelper ∈ tr →
  host_ready h f ∧ ∃ s, run (NewDeviceState f) (h_answers h) w = (w', Some (Ok s)) ∧
    h_start h = None ∧ r = Some (start_error h s) ∧
    tr = prepared_dirs h f ++ listening f ++ starting h s ++ closing h f.
Proof.
  intros Hrun Hin. destruct (RunPlugin_cases h f w) as [Hready|(tr0 & e & Heq & Hpre)].
  - rewrite RunPlugin_spec in Hrun by done. split; [done|].
    assert (Hopen : (StartHelper ∉ prepared_dirs h f ++ listening f) ∧ (StartHelper ∉ closing h f)).
    { unfold prepared_dirs, listening, closing. repeat case_match; set_solver. }
    destruct (run (NewDeviceState f) (h_answers h) w) as [w1 [[s|e]|]]; cbn zeta in Hrun; simplify_eq.
    + exists s. rewrite <-app_assoc. split_and!; [done| |done..].
      unfold starting in Hin. destruct (h_start h); [set_solver|done].
    + set_solver.
    + set_solver.
  - rewrite Heq in Hrun. simplify_eq. exfalso. destruct Hpre as [k Hk].
    assert (Hin' : StartHelper ∈ prepared_dirs h f) by (rewrite Hk; set_solver).
    unfold prepared_dirs in Hin'. case_match; set_solver.
Qed.

(** The loop was started exactly when there is no error. *)
Lemma RunPlugin_loop h f w tr w' r :
  RunPlugin h f ([], w) = ((tr, w'), r) → r = Some None ↔ StartLoop ∈ tr.
Proof.
  intros Hrun. destruct (RunPlugin_cases h f w) as [Hready|(tr0 & e & Heq & Hpre)].
  - rewrite RunPlugin_spec in Hrun by done.
    assert (Hopen : (StartLoop ∉ prepared_dirs h f ++ listening f) ∧ (StartLoop ∉ closing h f)).
    { unfold prepared_dirs, listening, closing. repeat case_match; set_solver. }
    unfold starting, start_error in Hrun.
    destruct (run (NewDeviceState f) (h_answers h) w) as [w1 [[s|e]|]]; cbn zeta in Hrun;
      simplify_eq; [|set_solver..].
    destruct (h_start h) as [e|]; [|destruct (h_publish h (Resources s)) as [e|]]; set_solver.
  - rewrite Heq in Hrun. simplify_eq. split; [done|]. intros Hin. exfalso. destruct Hpre as [k Hk].
    assert (Hin' : StartLoop ∈ prepared_dirs h f) by (rewrite Hk; set_solver).
    unfold prepared_dirs in Hin'. case_match; set_solver.
Qed.

(** The only change of the disk is that of building the state. *)
Lemma RunPlugin_disk h f w tr w' r :
  RunPlugin h f ([], w) = ((tr, w'), r) → w' = w ∨ w' = (run (NewDeviceState f) (h_answers h) w).1.
Proof.
  intros Hrun. destruct (RunPlugin_cases h f w) as [Hready|(tr0 & e & Heq & _)].
  - rewrite RunPlugin_spec in Hrun by done. right.
    destruct (run (NewDeviceState f) (h_answers h) w) as [w1 [[s|e]|]]; cbn zeta in Hrun; by simplify_eq.
  - rewrite Heq in Hrun. simplify_eq. by left.
Qed.

(** The driver that is running when the helper, and then the loop, is started. *)
Lemma RunPlugin_driver `{!MetricsAPI} `{!KubeletPlugin} h f σ tr w' r m0 m :
  fresh_registry m0 → init m0 = Some m →
  reachable f σ → proc σ = None → Forall answer_ok (h_answers h) →
  RunPlugin h f ([], disk σ) = ((tr, w'), r) → StartHelper ∈ tr →
  host_ready h f ∧ ∃ s, driver_init f (startedDriver s w' m) ∧
    (StartLoop ∈ tr → Publish (Resources s) ∈ tr ∧
       driver_reachable f (boot_done true (Resources s) (startedDriver s w' m))).
Proof.
  intros Hm0 Hm Hr Hp Hans Hrun Hin. pose proof (RunPlugin_loop _ _ _ _ _ _ Hrun) as Hok.
  apply RunPlugin_StartHelper in Hrun as (Hready & s & Hstate & Hstart & Hr0 & Htr); [|done].
  assert (Hinit : driver_init f (startedDriver s w' m))
    by (exists σ, (h_answers h); split_and!; try done; by exists m0).
  split; [done|]. exists s. split; [done|]. intros Hloop. apply Hok in Hloop. split.
  - unfold start_error in Hr0. rewrite Hstart in Hr0. rewrite Htr. unfold starting. rewrite Hstart.
    destruct (h_publish h (Resources s)); [congruence|]. set_solver.
  - exists (startedDriver s w' m). split; [done|]. apply rtc_once. by apply st_background, st_boot.
Qed.

(** The loop is not started before the helper. *)
Lemma StartLoop_StartHelper h f w tr w' r :
  RunPlugin h f ([], w) = ((tr, w'), r) → StartLoop ∈ tr → StartHelper ∈ tr.
Proof.
  intros Hrun Hloop. pose proof (proj2 (RunPlugin_loop _ _ _ _ _ _ Hrun) Hloop) as ->.
  destruct (RunPlugin_cases h f w) as [Hready|(tr0 & e & Heq & Hpre)]; [|congruence].
  rewrite RunPlugin_spec in Hrun by done. unfold starting, start_error in Hrun.
  destruct (run (NewDeviceState f) (h_answers h) w) as [w1 [[s|e]|]]; cbn zeta in Hrun;
    simplify_eq. destruct (h_start h); [congruence|]. set_solver.
Qed.

End main.

(** The notation of the section, for its clients. *)
Notation "'do!' x := p 'in' q" := (abind p (λ x, q))
  (at level 10, x name, p at level 100, q at level 200) : go_scope.
