(* ===== verification/Cli.v ===== *)
(** [newApp] and [main] of [cmd/kubeletplugin/main.go]: the table of flags, and what
    the process does before [RunPlugin].

    Parsing a command line is urfave/cli's, the class [CLIAPI]: it gives an error, or
    a request for help, or what each flag was given and the arguments that are left.
    [App.Run] then stores the flags, calls [Before] and, when that returns no error,
    [Action]. *)

From Stdlib Require Import Ascii ZArith.
From coqutil Require Import Datatypes.RecordSetters.
From stdpp Require Import options.
From S2P Require Import Prelude GoStrings GoPath GoSort GoFloat Consts Types Sysfs Enumerate.
From S2P Require Import Codec Effects Health Resources Cdi Flags State StateInv System PkgFlags Main.

Import DoubleBraceUpdate.

(** ** newApp *)

(** The [Value]s are of the types of the fields; [KubeletRegistryDir] and
    [KubeletPluginsDir] are constants of the kubeletplugin package. *)
Definition newAppFlags (KubeletRegistryDir KubeletPluginsDir : string) : list (Flag Flags) :=
  [mkFlag KString "node-name" true (Some "") (λ v f, f {{ nodeName := v }}) ["NODE_NAME"];
   StringFlag "cdi-root" "/etc/cdi" (λ v f, f {{ cdiRoot := v }}) "CDI_ROOT";
   StringFlag "kubelet-registrar-directory-path" KubeletRegistryDir
     (λ v f, f {{ kubeletRegistrarDirectoryPath := v }}) "KUBELET_REGISTRAR_DIRECTORY_PATH";
   StringFlag "kubelet-plugins-directory-path" KubeletPluginsDir
     (λ v f, f {{ kubeletPluginsDirectoryPath := v }}) "KUBELET_PLUGINS_DIRECTORY_PATH";
   IntFlag "healthcheck-port" (-1) (λ v f, f {{ healthcheckPort := v }}) "HEALTHCHECK_PORT";
   IntFlag "metrics-port" (-1) (λ v f, f {{ metricsPort := v }}) "METRICS_PORT";
   StringFlag "driver-name" DriverName (λ v f, f {{ flagDriverName := v }}) "DRIVER_NAME";
   StringFlag "pod-uid" "" (λ v f, f {{ podUID := v }}) "POD_UID";
   BoolFlag "mock-devices" false (λ v f, f {{ mockDevices := v }}) "MOCK_DEVICES";
   BoolFlag "npu-enabled" true (λ v f, f {{ npuEnabled := v }}) "NPU_ENABLED";
   BoolFlag "gpu-enabled" true (λ v f, f {{ gpuEnabled := v }}) "GPU_ENABLED";
   IntFlag "npu-max-allocations" 0 (λ v f, f {{ npuMaxAllocations := v }}) "NPU_MAX_ALLOCATIONS";
   IntFlag "gpu-max-allocations" 0 (λ v f, f {{ gpuMaxAllocations := v }}) "GPU_MAX_ALLOCATIONS";
   BoolFlag "vpu-enabled" true (λ v f, f {{ vpuEnabled := v }}) "VPU_ENABLED";
   IntFlag "vpu-max-allocations" 0 (λ v f, f {{ vpuMaxAllocations := v }}) "VPU_MAX_ALLOCATIONS";
   BoolFlag "rga-enabled" true (λ v f, f {{ rgaEnabled := v }}) "RGA_ENABLED";
   IntFlag "rga-max-allocations" 0 (λ v f, f {{ rgaMaxAllocations := v }}) "RGA_MAX_ALLOCATIONS";
   StringFlag "sysfs-root" "/sys" (λ v f, f {{ sysfsRoot := v }}) "SYSFS_ROOT";
   DurationFlag "discovery-interval" defaultDiscoveryInterval
     (λ v f, f {{ discoveryInterval := v }}) "DISCOVERY_INTERVAL"].

(** [&Flags{...}]: Go's zero values. *)
Definition zeroFlags : Flags :=
  {| nodeName := ""; cdiRoot := ""; kubeletRegistrarDirectoryPath := "";
     kubeletPluginsDirectoryPath := ""; healthcheckPort := 0; metricsPort := 0;
     flagDriverName := ""; podUID := ""; mockDevices := false; npuEnabled := false;
     gpuEnabled := false; vpuEnabled := false; rgaEnabled := false; npuMaxAllocations := 0;
     gpuMaxAllocations := 0; vpuMaxAllocations := 0; rgaMaxAllocations := 0; sysfsRoot := "";
     devRoot := ""; discoveryInterval := 0 |}.

Definition zeroKube : KubeClientConfig := mkKube "" (float64_of_int 0) 0.

Inductive parsed :=
  | ParseError (e : error)
  | ShowHelp                                (* [--help]: printed, and nothing else is done *)
  | Parsed (given : Given) (rest : list string).

(** What the library promises of a parse that succeeds: a required flag was given, and
    an integer is a Go [int]. *)
Class CLIAPI := {
  parse {S} : list (Flag S) → list string → (string → option string) → parsed;
  parse_required {S} (fls : list (Flag S)) args env given rest fl :
    parse fls args env = Parsed given rest → fl ∈ fls → fl_Required fl = true →
    is_Some (given (fl_Kind fl) (fl_Name fl));
  parse_int {S} (fls : list (Flag S)) args env given rest name z :
    parse fls args env = Parsed given rest → given KInt name = Some z → is_int64 z = true
}.

Section cli.
Context `{QuantityAPI} `{GoSort} `{CDIAPI} `{!ResourceJSON} `{LogsAPI} `{ClientSource} `{CLIAPI}.
Context (KubeletRegistryDir KubeletPluginsDir : string).

(** The [Flags] of the source with its two embedded configurations. *)
Record AppState := mkApp {
  as_flags : Flags;
  kubeClientConfig : KubeClientConfig;
  loggingConfig : LoggingConfig
}.

Definition cliFlags : list (Flag AppState) :=
  map (lift as_flags (λ f s, s {{ as_flags := f }})) (newAppFlags KubeletRegistryDir KubeletPluginsDir) ++
  map (lift kubeClientConfig (λ k s, s {{ kubeClientConfig := k }})) KubeClientConfig_Flags ++
  map (lift loggingConfig (λ l s, s {{ loggingConfig := l }})) LoggingConfig_Flags.

(** The text of a Go slice of strings with [%v]. *)
Definition formatSlice (args : list string) : string := "[" +:+ GoStrings.Join args " " +:+ "]".

Definition Before (f : AppState) (args : list string) : option error :=
  match args with
  | _ :: _ => Some (EText ("arguments not supported: " +:+ formatSlice args))
  | [] => Apply (loggingConfig f)
  end.

Definition Action (h : Host) (f : AppState) : act (option error) :=
  match NewClientSets (kubeClientConfig f) with
  | Err e => aret (Some (EWrap "create client" e))
  | Ok _ => RunPlugin h (as_flags f)
  end.

(** [newApp().Run(args)].  No result: a panic, or a kill inside. *)
Definition Run (h : Host) (args : list string) (env : string → option string)
    : act (option error) :=
  match NewLoggingConfig with
  | None => (λ σ, (σ, None))
  | Some l =>
      match parse cliFlags args env with
      | ParseError e => aret (Some e)
      | ShowHelp => aret None
      | Parsed given rest =>
          let f := store_flags given cliFlags (mkApp zeroFlags zeroKube l) in
          match Before f rest with
          | Some e => aret (Some e)
          | None => Action h f
          end
      end
  end.

(** The exit status. *)
Definition main (h : Host) (args : list string) (env : string → option string) : act Z :=
  do! err := Run h args env in aret (match err with Some _ => 1%Z | None => 0%Z end).

(** ** What the flags are *)

(** Each field from its own flag. *)
Definition configured_flags (given : Given) : Flags :=
  let str name d := default d (given KString name) in
  let int name d := default d (given KInt name) in
  let bool name d := default d (given KBool name) in
  {| nodeName := str "node-name" "";
     cdiRoot := str "cdi-root" "/etc/cdi";
     kubeletRegistrarDirectoryPath := str "kubelet-registrar-directory-path" KubeletRegistryDir;
     kubeletPluginsDirectoryPath := str "kubelet-plugins-directory-path" KubeletPluginsDir;
     healthcheckPort := int "healthcheck-port" (-1)%Z;
     metricsPort := int "metrics-port" (-1)%Z;
     flagDriverName := str "driver-name" DriverName;
     podUID := str "pod-uid" "";
     mockDevices := bool "mock-devices" false;
     npuEnabled := bool "npu-enabled" true;
     gpuEnabled := bool "gpu-enabled" true;
     vpuEnabled := bool "vpu-enabled" true;
     rgaEnabled := bool "rga-enabled" true;
     npuMaxAllocations := int "npu-max-allocations" 0%Z;
     gpuMaxAllocations := int "gpu-max-allocations" 0%Z;
     vpuMaxAllocations := int "vpu-max-allocations" 0%Z;
     rgaMaxAllocations := int "rga-max-allocations" 0%Z;
     sysfsRoot := str "sysfs-root" "/sys";
     devRoot := "";
     discoveryInterval := default defaultDiscoveryInterval (given KDuration "discovery-interval") |}.

Definition configured_kube (given : Given) : KubeClientConfig :=
  {| KubeConfig := default "" (given KString "kubeconfig");
     KubeAPIQPS := default (float64_of_int 5) (given KFloat64 "kube-api-qps");
     KubeAPIBurst := default 10%Z (given KInt "kube-api-burst") |}.

(** ** Lemmas *)

Lemma store_flags_app {S} given (l k : list (Flag S)) s :
  store_flags given (l ++ k) s = store_flags given k (store_flags given l s).
Proof. unfold store_flags. by rewrite foldl_app. Qed.

(** Flags of a part of the state only change that part. *)
Lemma store_flags_lift {S T} (get : T → S) (set : S → T → T) given (fls : list (Flag S)) t :
  (∀ s t, get (set s t) = s) → (∀ s s' t, set s' (set s t) = set s' t) → (∀ t, set (get t) t = t) →
  store_flags given (map (lift get set) fls) t = set (store_flags given fls (get t)) t.
Proof.
  intros Hgs Hss Hsg. revert t. induction fls as [|fl fls IH]; intros t; [by cbn; rewrite Hsg|].
  assert (Hfl : store_flag given t (lift get set fl) = set (store_flag given (get t) fl) t).
  { unfold store_flag. cbn. by repeat case_match. }
  change (store_flags given (map (lift get set) fls) (store_flag given t (lift get set fl)) =
    set (store_flags given fls (store_flag given (get t) fl)) t).
  by rewrite IH, Hfl, Hgs, Hss.
Qed.

(** A flag with a default stores one value. *)
Lemma store_default {S} given (s : S) k name req d dest env :
  store_flag given s (mkFlag k name req (Some d) dest env) = dest (default d (given k name)) s.
Proof. unfold store_flag. cbn. by destruct (given k name). Qed.

Ltac store_flags :=
  unfold store_flags; cbn [foldl];
  repeat (rewrite store_default || unfold StringFlag, IntFlag, BoolFlag, DurationFlag, Float64Flag).

Lemma store_newAppFlags given :
  store_flags given (newAppFlags KubeletRegistryDir KubeletPluginsDir) zeroFlags =
  configured_flags given.
Proof. unfold newAppFlags. store_flags. reflexivity. Qed.

Lemma store_kubeFlags given :
  store_flags given KubeClientConfig_Flags zeroKube = configured_kube given.
Proof. unfold KubeClientConfig_Flags. store_flags. reflexivity. Qed.

(** The state of the application when [Before] is called. *)
Lemma store_cliFlags given l :
  store_flags given cliFlags (mkApp zeroFlags zeroKube l) =
    mkApp (configured_flags given) (configured_kube given) (store_flags given LoggingConfig_Flags l).
Proof.
  unfold cliFlags. rewrite !store_flags_app.
  rewrite (store_flags_lift as_flags) by (by intros []). cbn [as_flags].
  rewrite store_newAppFlags.
  match goal with |- store_flags _ _ (store_flags _ _ ?t) = _ =>
    change t with (mkApp (configured_flags given) zeroKube l) end.
  rewrite (store_flags_lift kubeClientConfig) by (by intros []). cbn [kubeClientConfig].
  rewrite store_kubeFlags.
  match goal with |- store_flags _ _ ?t = _ =>
    change t with (mkApp (configured_flags given) (configured_kube given) l) end.
  by rewrite (store_flags_lift loggingConfig) by (by intros []).
Qed.

(** The plugin keeps the ranges of Go's [int]. *)
Lemma parsed_in_range args env given rest :
  parse cliFlags args env = Parsed given rest →
  config_in_range (discoveryConfig (configured_flags given)).
Proof.
  intros Hp.
  assert (Hint : ∀ name d, is_int64 d = true → is_int64 (default d (given KInt name)) = true).
  { intros name d Hd. destruct (given KInt name) eqn:Hg; [|done]. by eapply parse_int. }
  unfold config_in_range, configured_flags, discoveryConfig. cbn. split_and!; by apply Hint.
Qed.

(** Either the process ends without touching anything, with status 0 if it was asked for
    help, or it is [RunPlugin] with the flags it was given, and no other argument. *)
Lemma main_cases h args env w :
  (∃ c, main h args env ([], w) = (([], w), c) ∧
     (c = Some 0%Z ↔ is_Some NewLoggingConfig ∧ parse cliFlags args env = ShowHelp)) ∨
  ∃ given core, parse cliFlags args env = Parsed given [] ∧
    NewClientSets (configured_kube given) = Ok core ∧
    main h args env ([], w) =
    let '(σ, r) := RunPlugin h (configured_flags given) ([], w) in
    (σ, (λ err, match err with Some _ => 1%Z | None => 0%Z end) <$> r).
Proof.
  unfold main, Run, abind, aret. destruct NewLoggingConfig as [l|];
    [|left; eexists; split; [done|by split; [|intros [[] _]]]].
  destruct (parse cliFlags args env) as [e| |given rest];
    [by left; eexists; split; [done|split; [|intros []]]
    |by left; eexists; split; [done|by split; [split; [eexists|]|]]|].
  rewrite store_cliFlags. unfold Before.
  destruct rest as [|x rest]; [|by left; eexists; split; [done|split; [|intros []]]].
  destruct (Apply _); [by left; eexists; split; [done|split; [|intros []]]|].
  unfold Action. cbn [kubeClientConfig as_flags].
  destruct (NewClientSets (configured_kube given)) as [core|e] eqn:Hc;
    [|by left; eexists; split; [done|split; [|intros []]]].
  right. exists given, core. split_and!; [done..|].
  by destruct (RunPlugin h (configured_flags given) ([], w)) as [σ' [[e|]|]].
Qed.

Lemma main_disk h args env w tr w' code :
  main h args env ([], w) = ((tr, w'), code) →
  w' = w ∨ ∃ given, parse cliFlags args env = Parsed given [] ∧
    w' = (run (NewDeviceState (configured_flags given)) (h_answers h) w).1.
Proof.
  intros Hmain. destruct (main_cases h args env w) as [(c & Hm & _)|(given & core & Hp & _ & Hm)];
    rewrite Hmain in Hm; [left; by simplify_eq|].
  destruct (RunPlugin h (configured_flags given) ([], w)) as [[tr1 w1] r] eqn:Hrun. simplify_eq.
  apply RunPlugin_disk in Hrun as [->| ->]; [by left|right]. by exists given.
Qed.

(** ** Names *)

(** A flag name of lower-case letters, digits and dashes. *)
Definition plain_char (c : ascii) : bool :=
  let n := N_of_ascii c in
  ((97 <=? n) && (n <=? 122) || (48 <=? n) && (n <=? 57) || (n =? 45))%N.

Fixpoint plain_name (s : string) : bool :=
  match s with EmptyString => true | String c s => plain_char c && plain_name s end.

Definition env_char (c : ascii) : ascii := upper_byte (if Ascii.eqb c "-" then "_" else c).

Lemma env_char_inj c d :
  plain_char c = true → plain_char d = true → env_char c = env_char d → c = d.
Proof.
  intros Hc Hd Heq.
  assert (Hinv : ∀ x, plain_char x = true →
    x = if Ascii.eqb (env_char x) "_" then "-"%char else lower_byte (env_char x)).
  { clear. intros [[] [] [] [] [] [] [] []]; first [done|by intros [=]]. }
  rewrite (Hinv c Hc), (Hinv d Hd), Heq. done.
Qed.

Lemma envName_inj a b :
  plain_name a = true → plain_name b = true → envName a = envName b → a = b.
Proof.
  unfold envName. revert b. induction a as [|c a IH]; intros [|d b]; try done. cbn.
  intros [Hc Ha]%andb_true_iff [Hd Hb]%andb_true_iff [= Hcd Hab].
  f_equal; [by apply env_char_inj|by apply IH].
Qed.

Lemma lift_names {S T} (get : T → S) set (fls : list (Flag S)) :
  fl_Name <$> map (lift get set) fls = fl_Name <$> fls.
Proof. induction fls as [|fl fls IH]; [done|]. cbn. by f_equal. Qed.

Definition ownNames : list string :=
  (fl_Name <$> newAppFlags KubeletRegistryDir KubeletPluginsDir) ++
  (fl_Name <$> KubeClientConfig_Flags) ++ ["feature-gates"].

Lemma cliFlags_names : fl_Name <$> cliFlags ≡ₚ ownNames ++ (pf_Name <$> AddFlags).
Proof.
  unfold cliFlags, ownNames. rewrite !fmap_app, !lift_names, <-!app_assoc.
  apply Permutation_app; [done|]. apply Permutation_app; [done|].
  unfold LoggingConfig_Flags. rewrite <-list_fmap_compose.
  rewrite (fmap_Permutation _ _ _ (VisitAll_perm loggingPflags)). unfold loggingPflags.
  rewrite fmap_app, Permutation_app_comm. apply Permutation_app; [done|].
  by rewrite <-list_fmap_compose.
Qed.

Lemma cliFlags_env : Forall (λ fl, fl_EnvVars fl = [envName (fl_Name fl)]) cliFlags.
Proof.
  assert (Hlift : ∀ {S} (get : AppState → S) set (fls : list (Flag S)),
    Forall (λ fl, fl_EnvVars fl = [envName (fl_Name fl)]) fls →
    Forall (λ fl, fl_EnvVars fl = [envName (fl_Name fl)]) (map (lift get set) fls)).
  { intros S get set fls Hfls. apply Forall_fmap. exact Hfls. }
  unfold cliFlags. rewrite !Forall_app. split_and!; apply Hlift; [repeat constructor..|].
  unfold LoggingConfig_Flags. apply Forall_fmap, Forall_forall. by intros.
Qed.

Lemma ownNames_plain : Forall (λ n, plain_name n = true) ownNames.
Proof. repeat constructor. Qed.

Lemma ownNames_NoDup : NoDup ownNames.
Proof. by_compute. Qed.

End cli.
