(* ===== verification/Node.v ===== *)
(** The life of a node: the plugin is started from command lines, runs with all its
    goroutines, is killed at any point, and is started again, perhaps with other flags,
    after a reboot or an upgrade.

    A node is down, with a disk, or up, with the flags and the driver of [Driver.v] that
    [Cli.main] started.  [node_step] carries what the kubelet sees of it, an
    [observation].  [spec_step] is the specification in the same terms: the abstract
    store of [Store.v], changed by the answers the kubelet got, and by nothing else. *)

From Stdlib Require Import ZArith.
From stdpp Require Import options.
From S2P Require Import Prelude GoStrings GoPath GoSort Consts Types Sysfs Enumerate.
From S2P Require Import Json JsonRound Codec Ranges Effects Health Resources Cdi Checkpoint Flags.
From S2P Require Import State StateLemmas StateInv System Store GoFloat Metrics Driver DriverInv.
From S2P Require Import PkgFlags Main Cli.

(** ** Labelled sequences of steps *)

Section runs.
Context {L S : Type} (step : L → S → S → Prop).

Inductive runs : list L → S → S → Prop :=
  | runs_nil s : runs [] s s
  | runs_cons l ls s1 s2 s3 : step l s1 s2 → runs ls s2 s3 → runs (l :: ls) s1 s3.

Lemma runs_app ls ls' s1 s2 s3 : runs ls s1 s2 → runs ls' s2 s3 → runs (ls ++ ls') s1 s3.
Proof. induction 1; [done|]. intros. eapply runs_cons; eauto. Qed.

Lemma runs_once l s1 s2 : step l s1 s2 → runs [l] s1 s2.
Proof. intros. eapply runs_cons; [done|constructor]. Qed.

Lemma runs_inv (P : S → Prop) ls s s' :
  (∀ l s s', P s → step l s s' → P s') → P s → runs ls s s' → P s'.
Proof. intros Hstep Hs. induction 1; eauto. Qed.

End runs.

(** ** The specification *)

Section spec.
Context `{QuantityAPI} `{CDIAPI}.

(** What is asked for: a claim is recorded with the devices the kubelet was given, or
    with some, if it was told nothing; a released claim is forgotten. *)
Definition event_effect (e : observation) (m m' : gmap string (list Device)) : Prop :=
  match e with
  | EvPrepare uid answer => ∃ devs, m' = <[uid := devs]> m ∧
      ∀ l, answer = Some (Ok l) → Name <$> devs = kd_DeviceName <$> l ∧ "" ∉ Name <$> devs
  | EvUnprepare uid _ => m' = delete uid m
  | Silent => m' = m
  end.

Definition event_call (e : observation) : bool := match e with Silent => false | _ => true end.

Definition event_ok (e : observation) : bool :=
  match e with EvPrepare _ (Some (Ok _)) | EvUnprepare _ (Some (Ok _)) => true | _ => false end.

Definition spec_step (e : observation) : store → store → Prop :=
  store_step (event_effect e) (event_call e) (event_ok e).

(** A call that was not answered, or answered by an error. *)
Definition interrupted (e : observation) : Prop := event_call e = true ∧ event_ok e = false.

Definition event_of (uid : string) (e : observation) : Prop :=
  match e with EvPrepare u _ | EvUnprepare u _ => u = uid | Silent => False end.

(** A store that breaks was broken by an interrupted call. *)
Lemma spec_breaks e S : spec_step e S Broken → S = Broken ∨ interrupted e.
Proof. intros Hs. inversion Hs; subst; [by right|by left]. Qed.

(** A call that was answered without an error had its effect. *)
Lemma spec_answered e S S' :
  spec_step e S S' → event_ok e = true → ∃ m m', S = Holds m ∧ S' = Holds m' ∧ event_effect e m m'.
Proof. intros Hs Hok. inversion Hs; subst; [by do 2 eexists|congruence..]. Qed.

(** Nothing mends a broken store. *)
Lemma spec_broken e S : spec_step e Broken S → S = Broken ∧ event_ok e = false.
Proof. by inversion 1. Qed.

(** A claim nobody asks for stays as it is. *)
Lemma spec_keeps e uid m m' :
  ¬ event_of uid e → spec_step e (Holds m) (Holds m') → m' !! uid = m !! uid.
Proof.
  intros He Hs. inversion Hs as [? ? Heff| | |]; subst; [|done].
  destruct e as [u a|u a|]; cbn in *.
  - destruct Heff as (devs & -> & _). by rewrite lookup_insert_ne.
  - subst m'. by rewrite lookup_delete_ne.
  - by subst m'.
Qed.

Lemma spec_runs_broken tr S :
  runs spec_step tr Broken S → S = Broken ∧ Forall (λ e, event_ok e = false) tr.
Proof.
  intros Hr. remember Broken as B eqn:HB. induction Hr as [|e tr s1 s2 s3 Hs _ IH]; [by subst|].
  subst. apply spec_broken in Hs as [-> He]. destruct (IH eq_refl). by split; [|constructor].
Qed.

Lemma spec_runs_keep tr uid m S :
  Forall (λ e, ¬ event_of uid e) tr → runs spec_step tr (Holds m) S →
  (S = Broken ∧ ∃ e, e ∈ tr ∧ interrupted e) ∨ ∃ m', S = Holds m' ∧ m' !! uid = m !! uid.
Proof.
  revert m. induction tr as [|e tr IH]; intros m He Hr; inversion Hr as [|? ? ? S1 ? Hs Hrest]; subst.
  { right. by exists m. }
  apply Forall_cons in He as [He Htr]. destruct S1 as [|m1].
  - left. apply spec_runs_broken in Hrest as [-> _]. split; [done|]. apply spec_breaks in Hs as [|Hi]; [done|]. exists e. split; [by left|done].
  - apply spec_keeps with (uid := uid) in Hs; [|done].
    destruct (IH m1 Htr Hrest) as [(-> & e' & Hin & Hi)|(m' & -> & Hm')].
    + left. split; [done|]. exists e'. split; [by right|done].
    + right. exists m'. split; [done|]. congruence.
Qed.

End spec.

(** ** The node *)

Section node.
Context `{QuantityAPI} `{GoSort} `{CDIAPI} `{!ResourceJSON} `{MetricsAPI} `{KubeletPlugin}.
Context `{LogsAPI} `{ClientSource} `{CLIAPI}.
Context (KubeletRegistryDir KubeletPluginsDir : string).

(** The directory of the plugin's files, [DriverPluginPath] of all its command lines. *)
Context (path : string).

Abbreviation app_flags := (Cli.cliFlags KubeletRegistryDir KubeletPluginsDir).
Abbreviation app_configured := (Cli.configured_flags KubeletRegistryDir KubeletPluginsDir).
Abbreviation app_main := (Cli.main KubeletRegistryDir KubeletPluginsDir).

Inductive node :=
  | Down (w : World)
  | Up (f : Flags) (d : Driver).

Definition node_disk (n : node) : World := match n with Down w => w | Up _ d => dr_disk d end.

(** A process is started.  It fails or is killed before it starts its helper, or its
    driver is up, with the state it has built. *)
Inductive boots (w : World) : node → Prop :=
  | boot_down h args env tr w' code :
      Forall answer_ok (h_answers h) →
      (∀ given rest, parse app_flags args env = Parsed given rest →
         DriverPluginPath (app_configured given) = path) →
      app_main h args env ([], w) = ((tr, w'), code) → StartHelper ∉ tr →
      boots w (Down w')
  | boot_up h args env given tr w' code s m0 m :
      Forall answer_ok (h_answers h) →
      parse app_flags args env = Parsed given [] →
      DriverPluginPath (app_configured given) = path →
      app_main h args env ([], w) = ((tr, w'), code) → StartHelper ∈ tr →
      run (NewDeviceState (app_configured given)) (h_answers h) w = (w', Some (Ok s)) →
      fresh_registry m0 → init m0 = Some m →
      boots w (Up (app_configured given) (startedDriver s w' m)).

(** The disk and the observation when the process is killed, inside a critical section or
    between two. *)
Inductive killed (d : Driver) : observation → World → Prop :=
  | killed_idle : killed d Silent (dr_disk d)
  | killed_prepare claim answers w' :
      valid_utf8 (UID claim) = true → Forall answer_ok answers →
      run (Prepare (dr_state d) claim) answers (dr_disk d) = (w', None) →
      killed d (EvPrepare (UID claim) None) w'
  | killed_unprepare uid answers w' :
      Forall answer_ok answers →
      run (Unprepare (dr_state d) uid) answers (dr_disk d) = (w', None) →
      killed d (EvUnprepare uid None) w'
  | killed_apply found answers w' :
      dr_loop d = LLock found → Forall answer_ok answers →
      run (applyDiscoveryLocked (dr_state d) found) answers (dr_disk d) = (w', None) →
      killed d Silent w'.

Inductive node_step : observation → node → node → Prop :=
  | nd_boot w n : boots w n → node_step Silent (Down w) n
  | nd_elsewhere w w' :
      (∀ file, file ∈ [driverPluginCheckpointFile; claimDevicesFileName] →
        files w' !! Join [path; file] = files w !! Join [path; file]) →
      node_step Silent (Down w) (Down w')
  | nd_background f d d' : background_step d d' → node_step Silent (Up f d) (Up f d')
  | nd_call e f d d' : kubelet_call e d d' → node_step e (Up f d) (Up f d')
  | nd_kill e f d w' : killed d e w' → node_step e (Up f d) (Down w').

(** Since the plugin was first installed. *)
Definition node_reachable (n : node) : Prop :=
  ∃ w tr, left_disk path w ∧ runs node_step tr (Down w) n.

Definition nodeStore (n : node) : store :=
  storeOn (Join [path; driverPluginCheckpointFile]) (Join [path; claimDevicesFileName]) (node_disk n).

(** The state of the process whose helper starts. *)
Lemma main_starts h args env given w tr w' code :
  parse app_flags args env = Parsed given [] →
  app_main h args env ([], w) = ((tr, w'), code) → StartHelper ∈ tr →
  ∃ s, run (NewDeviceState (app_configured given)) (h_answers h) w = (w', Some (Ok s)).
Proof.
  intros Hp Hmain Hin.
  destruct (main_cases KubeletRegistryDir KubeletPluginsDir h args env w)
    as [(c & Hm & _)|(given' & core & Hp' & _ & Hm)]; rewrite Hmain in Hm.
  - simplify_eq. by apply elem_of_nil in Hin.
  - rewrite Hp in Hp'. simplify_eq.
    destruct (RunPlugin h (app_configured given') ([], w)) as [[tr1 w1] r] eqn:Hrun. simplify_eq.
    apply RunPlugin_StartHelper in Hrun as (_ & s & Hs & _); [|done]. by exists s.
Qed.

(** ** Every driver of a node is a reachable one *)

Definition node_inv (n : node) : Prop :=
  match n with
  | Down w => left_disk path w
  | Up f d => DriverPluginPath f = path ∧ config_in_range (discoveryConfig f) ∧ driver_reachable f d
  end.

Lemma left_started f answers w w' r :
  DriverPluginPath f = path → config_in_range (discoveryConfig f) → Forall answer_ok answers →
  left_disk path w → run (NewDeviceState f) answers w = (w', r) → left_disk path w'.
Proof.
  intros Hpath Hf Hans Hw Hrun.
  eapply (left_run path f w (match r with Some (Ok s) => Some s | _ => None end)); [done..|].
  apply rtc_once. replace (mkSys _ w') with (sys_exec f OpStart answers (mkSys None w)).
  - by apply sys_do.
  - unfold sys_exec. cbn. by rewrite Hrun.
Qed.

Lemma boots_inv w n : left_disk path w → boots w n → node_inv n.
Proof.
  intros Hw Hb. destruct Hb as [h args env tr w' code Hans Hpath Hmain _
    |h args env given tr w' code s m0 m Hans Hp Hpath _ _ Hrun Hm0 Hm].
  - apply main_disk in Hmain as [->|(given & Hp & ->)]; [done|].
    destruct (run (NewDeviceState (app_configured given)) (h_answers h) w) as [w1 r] eqn:Hrun.
    eapply left_started; [by eapply Hpath|by eapply parsed_in_range|done..].
  - pose proof (parsed_in_range _ _ _ _ _ _ Hp) as Hf. split_and!; [done..|].
    eexists; split; [|done]. exists (mkSys None w), (h_answers h).
    split_and!; try done; [|by exists m0].
    exists (mkSys None w). split; [|done]. split; [done|]. by rewrite Hpath.
Qed.

(** An operation of the system on the driver's state, finished or not. *)
Lemma left_operation f d o answers p w' :
  config_in_range (discoveryConfig f) → driver_reachable f d →
  operation_ok o → Forall answer_ok answers →
  sys_exec f o answers (sysOf d) = mkSys p w' → left_disk (DriverPluginPath f) w'.
Proof.
  intros Hf Hr Ho Hans Hexec. apply (driver_simulated f d) in Hr as [Hr _]; [|done].
  change w' with (disk (mkSys p w')). apply reachable_left; [done|]. rewrite <-Hexec.
  eapply reachable_step; [exact Hr|]. by constructor.
Qed.

Lemma killed_left f d e w' :
  config_in_range (discoveryConfig f) → driver_reachable f d → killed d e w' →
  left_disk (DriverPluginPath f) w'.
Proof.
  intros Hf Hr Hk. pose proof (driver_simulated f d Hf Hr) as [Hsys Hread].
  assert (Hd : left_disk (DriverPluginPath f) (dr_disk d)) by by eapply (reachable_left f (sysOf d)).
  destruct Hk as [|claim answers w' Hu Hans Hrun|uid answers w' Hans Hrun|found answers w' Hl Hans Hrun];
    [done|..].
  - eapply (left_operation f d (OpPrepare claim) answers); [done..|]. cbn. by rewrite Hrun.
  - eapply (left_operation f d (OpUnprepare uid) answers); [done..|]. cbn. by rewrite Hrun.
  - destruct (Hread found Hl) as (fs & Hfs & Hfound).
    set (a := mkAnswer false 0 None 0 [] 1 (λ _, None) fs).
    eapply (left_operation f d OpReconcile (a :: answers)); [done..|by constructor; [split|]|].
    unfold sys_exec. cbn [sysOf proc disk].
    change (run (Reconcile (dr_state d)) (a :: answers) (dr_disk d)) with
      (run (applyDiscoveryLocked (dr_state d) (Enumerate fs (ds_discCfg (dr_state d)))) answers
         (dr_disk d)).
    rewrite (simulated_config f d) by done. by rewrite <-Hfound, Hrun.
Qed.

Lemma node_inv_step e n n' : node_inv n → node_step e n n' → node_inv n'.
Proof.
  intros Hinv Hstep. destruct Hstep as [w n Hb|w w' Hsame|f d d' Hb|e f d d' Hc|e f d w' Hk];
    cbn in Hinv.
  - by eapply boots_inv.
  - by eapply left_elsewhere.
  - destruct Hinv as (Hpath & Hf & d0 & Hinit & Hsteps). split_and!; [done..|].
    exists d0. split; [done|]. eapply rtc_r; [done|]. by apply st_background.
  - destruct Hinv as (Hpath & Hf & d0 & Hinit & Hsteps). split_and!; [done..|].
    exists d0. split; [done|]. eapply rtc_r; [done|]. by eapply st_call.
  - destruct Hinv as (Hpath & Hf & Hr). cbn. rewrite <-Hpath. by eapply killed_left.
Qed.

Lemma node_reachable_inv n : node_reachable n → node_inv n.
Proof.
  intros (w & tr & Hw & Hruns).
  apply (runs_inv node_step node_inv tr (Down w) n); [|exact Hw|exact Hruns].
  intros. by eapply node_inv_step.
Qed.

(** ** The store of a node *)

Lemma spec_silent S : spec_step Silent S S.
Proof. destruct S; by constructor. Qed.

Lemma driver_storeOf f d w :
  DriverPluginPath f = path → config_in_range (discoveryConfig f) → driver_reachable f d →
  storeOf (dr_state d) w =
    storeOn (Join [path; driverPluginCheckpointFile]) (Join [path; claimDevicesFileName]) w.
Proof.
  intros <- Hf Hr. destruct (di_sys f d (driver_reachable_inv f d Hf Hr)) as [(cdi & tr & r & Heq) _].
  cbn in Heq. by rewrite Heq.
Qed.

Lemma driver_state_ok f d :
  config_in_range (discoveryConfig f) → driver_reachable f d → state_ok (dr_state d).
Proof. intros Hf Hr. apply (di_sys f d (driver_reachable_inv f d Hf Hr)). Qed.

(** What the kubelet is told is what is recorded. *)
Lemma recorded_names s claim prepared :
  state_ok s → prepared_all s claim prepared →
  let devs := map sanDevice (map discovered prepared) in
  Name <$> devs = kd_DeviceName <$> map kubeletDevice prepared ∧ "" ∉ Name <$> devs.
Proof.
  intros [Ht _ _ _] Hp. pose proof (prepared_devices s claim prepared Ht Hp) as Hall. clear Hp.
  induction Hall as [|p l ([td Htd] & Hv & _ & Hn) _ [IH1 IH2]]; [by split; [|intros ?%elem_of_nil]|].
  assert (Hname : Name (sanDevice (discovered p)) = Name (discovered p))
    by (apply bool_decide_eq_true in Hv; cbn; by rewrite Hv).
  destruct (Ht _ _ Htd) as [_ Hne _ _ _]. rewrite <-Hname in Hne, Hn. split.
  - cbn. f_equal; [done|exact IH1].
  - intros [Heq|Hin]%elem_of_cons; [by symmetry in Heq|by apply IH2].
Qed.

(** The devices of the store are published while the plugin is up. *)
Lemma store_published f s w m uid devs n :
  sys_inv f (mkSys (Some s) w) → storeOn (cpPathOf f) (clPathOf f) w = Holds m →
  m !! uid = Some devs → n ∈ Name <$> devs → n ≠ "" →
  is_tracked s n ∧ n ∈ rd_Name <$> published (Resources s) (nodeName f).
Proof.
  intros (Hcfg & Hs & Hres & Hw) Hst Hm Hn Hne. cbn in Hw.
  apply (configured_disk f) in Hw as (file & Hfile & Hcov); [|done].
  unfold storeOn in Hst. rewrite Hfile in Hst.
  destruct (checkpointOn (cpPathOf f) w) as [c|] eqn:Hc; [|done]. injection Hst as <-.
  rewrite held_lookup in Hm. case_bool_decide as Hu; [|done].
  assert (Ht : is_tracked s n).
  { apply (Hcov c eq_refl uid Hu); [|done]. unfold snapshotNames.
    destruct (Claims file !! uid) as [sl|]; [|done]. by injection Hm as ->. }
  split; [done|]. destruct Hcfg as (cdi & tr & r & ->). by apply tracked_published in Ht.
Qed.

Lemma store_prepare_call s claim answers w w' x :
  state_ok s → valid_utf8 (UID claim) = true → Forall answer_ok answers →
  run (Prepare s claim) answers w = (w', x) →
  spec_step (EvPrepare (UID claim) (prepareResult claim <$> x)) (storeOf s w) (storeOf s w').
Proof.
  intros Hs Hu Hans Hrun.
  destruct (wp_run _ _ _ _ _ _ (wp_Prepare answer_ok s claim w) Hans Hrun) as [Hst Hr].
  destruct x as [[prepared|e]|].
  - pose proof Hr as (_ & _ & _ & _ & _ & _ & _ & _ & _ & Hp & _).
    apply store_prepare_done in Hr; [|done..]. revert Hr. apply store_step_mono.
    intros m1 m2 (prepared' & Hp' & ->). rewrite (prepared_all_fun s claim _ _ Hp' Hp).
    eexists. split; [done|]. intros l [= <-]. by eapply recorded_names.
  - apply store_prepare_stage in Hst; [|done..]. revert Hst. apply store_step_mono.
    intros m1 m2 (prepared & _ & ->). by eexists.
  - apply store_prepare_stage in Hst; [|done..]. revert Hst. apply store_step_mono.
    intros m1 m2 (prepared & _ & ->). by eexists.
Qed.

Lemma store_unprepare_call s uid answers w w' x T :
  state_ok s → on_disk s T w → Forall answer_ok answers →
  run (Unprepare s uid) answers w = (w', x) →
  spec_step (EvUnprepare uid (unprepareResult uid <$> x)) (storeOf s w) (storeOf s w').
Proof.
  intros Hs Hw Hans Hrun. pose proof Hs as [_ _ Hcp Hcl].
  destruct (wp_run _ _ _ _ _ _ (wp_Unprepare answer_ok s uid w Hcp Hcl) Hans Hrun) as [Hst Hr].
  destruct x as [[[]|e]|]; [by apply store_unprepare_done|by eapply store_unprepare_stage..].
Qed.

Lemma store_apply s found answers w w' x :
  state_ok s → Forall answer_ok answers →
  run (applyDiscoveryLocked s found) answers w = (w', x) → storeOf s w' = storeOf s w.
Proof.
  intros Hs Hans Hrun.
  destruct (wp_run _ _ _ _ _ _ (wp_applyDiscovery answer_ok s found w) Hans Hrun) as [Hst _].
  by apply store_reconcile_stage.
Qed.

Lemma store_background d d' :
  state_ok (dr_state d) → background_step d d' →
  storeOf (dr_state d) (dr_disk d') = storeOf (dr_state d) (dr_disk d).
Proof.
  intros Hs Hstep. destruct Hstep; try done.
  - by destruct ok.
  - by eapply store_apply.
  - by eapply store_apply.
  - by rewrite notified_eq.
  - unfold kicked. by rewrite kickReconcile_eq.
Qed.

Lemma store_boots w n :
  left_disk path w → boots w n → nodeStore n = nodeStore (Down w).
Proof.
  intros Hw Hb.
  assert (Hrun : ∀ f answers w' r, DriverPluginPath f = path → config_in_range (discoveryConfig f) →
    Forall answer_ok answers → run (NewDeviceState f) answers w = (w', r) →
    nodeStore (Down w') = nodeStore (Down w)).
  { intros f answers w' r Hpath Hf Hans Hrun. apply store_start, store_step_same in Hrun; [|done..].
    unfold cpPathOf, clPathOf in Hrun. by rewrite Hpath in Hrun. }
  destruct Hb as [h args env tr w' code Hans Hpath Hmain _
    |h args env given tr w' code s m0 m Hans Hp Hpath _ _ Hstart Hm0 Hm].
  - apply main_disk in Hmain as [->|(given & Hp & ->)]; [done|].
    destruct (run (NewDeviceState (app_configured given)) (h_answers h) w) as [w1 r] eqn:Hr.
    eapply Hrun; [by eapply Hpath|by eapply parsed_in_range|done..].
  - eapply Hrun; [exact Hpath|by eapply parsed_in_range|done..].
Qed.

(** On a broken store no driver comes up. *)
Lemma boots_broken w n :
  left_disk path w → nodeStore (Down w) = Broken → boots w n → ∃ w', n = Down w'.
Proof.
  intros Hw Hst Hb. destruct Hb as [h args env tr w' code _ _ _ _
    |h args env given tr w' code s m0 m Hans Hp Hpath _ _ Hrun _ _]; [by exists w'|exfalso].
  assert (Hc : checkpointOn (Join [path; driverPluginCheckpointFile]) w = None).
  { unfold nodeStore, node_disk, storeOn in Hst.
    destruct (left_covered _ _ Hw) as (fl & Hfl & _). rewrite Hfl in Hst.
    by destruct (checkpointOn (Join [path; driverPluginCheckpointFile]) w). }
  rewrite <-Hpath in Hc.
  by destruct (wp_run _ _ _ _ _ _ (wp_start_broken (λ _, True) _ w Hc) (Forall_true _ _ (λ _, I)) Hrun).
Qed.

(** A step of the node is one of the specification. *)
Lemma node_step_spec e n n' :
  node_inv n → node_step e n n' → spec_step e (nodeStore n) (nodeStore n').
Proof.
  intros Hinv Hstep. destruct Hstep as [w n Hb|w w' Hsame|f d d' Hb|e f d d' Hc|e f d w' Hk];
    cbn in Hinv.
  - rewrite (store_boots w n) by done. apply spec_silent.
  - unfold nodeStore, node_disk. rewrite (storeOn_same _ _ w w'); [apply spec_silent|..];
      unfold checkpointOn, claimsOn; by rewrite Hsame by set_solver.
  - destruct Hinv as (Hpath & Hf & Hr). pose proof (driver_state_ok f d Hf Hr) as Hs.
    unfold nodeStore, node_disk. rewrite <-!(driver_storeOf f d) by done.
    rewrite (store_background d d') by done. apply spec_silent.
  - destruct Hinv as (Hpath & Hf & Hr). pose proof (driver_state_ok f d Hf Hr) as Hs.
    destruct (di_sys f d (driver_reachable_inv f d Hf Hr)) as (_ & _ & _ & Hw).
    unfold nodeStore, node_disk. rewrite <-!(driver_storeOf f d) by done.
    destruct Hc as [d i start claim answers r w' Hi Hu Hans Hrun|d i start uid answers w' Hi Hans Hrun
      |d i start uid answers er w' Hi Hans Hrun].
    + by eapply (store_prepare_call _ _ _ _ _ (Some r)).
    + by eapply (store_unprepare_call _ _ _ _ _ (Some (Ok tt))).
    + by eapply (store_unprepare_call _ _ _ _ _ (Some (Err er))).
  - destruct Hinv as (Hpath & Hf & Hr). pose proof (driver_state_ok f d Hf Hr) as Hs.
    destruct (di_sys f d (driver_reachable_inv f d Hf Hr)) as (_ & _ & _ & Hw).
    unfold nodeStore, node_disk. rewrite <-!(driver_storeOf f d) by done.
    destruct Hk as [|claim answers w' Hu Hans Hrun|uid answers w' Hans Hrun|found answers w' Hl Hans Hrun].
    + apply spec_silent.
    + by eapply (store_prepare_call _ _ _ _ _ None).
    + by eapply (store_unprepare_call _ _ _ _ _ None).
    + rewrite (store_apply _ found answers (dr_disk d) w' None) by done. apply spec_silent.
Qed.

Lemma node_runs_spec tr n n' :
  node_inv n → runs node_step tr n n' →
  node_inv n' ∧ runs spec_step tr (nodeStore n) (nodeStore n').
Proof.
  intros Hinv Hruns. induction Hruns as [n|e tr n1 n2 n3 Hstep _ IH]; [by split; [|constructor]|].
  destruct IH as [Hinv' Hspec]; [by eapply node_inv_step|]. split; [done|].
  eapply runs_cons; [by apply node_step_spec|done].
Qed.

End node.
