(* ===== verification/Api.v ===== *)
(** [api/resource.rockchip.com/v1alpha1]: the opaque parameter kinds, their
    registration in a scheme and their generated deep copies.

    A deep copy is about pointers, so it runs on a heap: a pointer is an optional
    location ([None] is nil), an interface value is nil or a type with a pointer, and
    a nil dereference panics. *)

From Stdlib Require Import Ascii.
From stdpp Require Import options.
From S2P Require Import Prelude GoStrings.

(** ** Types *)

(** [metav1.TypeMeta]. *)
Record TypeMeta := mkTypeMeta { tm_Kind : string; tm_APIVersion : string }.

Record NpuConfig := mkNpuConfig { npu_TypeMeta : TypeMeta }.
Record GpuConfig := mkGpuConfig { gpu_TypeMeta : TypeMeta }.

Definition GroupName := "resource.rockchip.com".
Definition Version := "v1alpha1".
Definition NpuConfigKind := "NpuConfig".
Definition GpuConfigKind := "GpuConfig".

Definition DefaultNpuConfig : NpuConfig :=
  mkNpuConfig {| tm_APIVersion := GroupName +:+ "/" +:+ Version; tm_Kind := NpuConfigKind |}.
Definition DefaultGpuConfig : GpuConfig :=
  mkGpuConfig {| tm_APIVersion := GroupName +:+ "/" +:+ Version; tm_Kind := GpuConfigKind |}.

(** ** The heap *)

Definition loc := nat.
Inductive object := ONpu (c : NpuConfig) | OGpu (c : GpuConfig).
Abbreviation heap := (gmap loc object).

(** A computation on the heap, which may panic. *)
Definition hp (A : Type) : Type := heap → option (heap * A).
Definition hret {A} (a : A) : hp A := λ h, Some (h, a).
Definition hbind {A B} (p : hp A) (f : A → hp B) : hp B := λ h,
  match p h with Some (h, a) => f a h | None => None end.

Notation "'let*' x := p 'in' q" := (hbind p (λ x, q))
  (at level 10, x name, p at level 100, q at level 200) : go_scope.

Definition fresh_loc (h : heap) : loc := fresh (dom h : gset loc).

Definition new (o : object) : hp (option loc) := λ h,
  let l := fresh_loc h in Some (<[l := o]> h, Some l).
Definition load (p : option loc) : hp object := λ h,
  match p with Some l => (λ o, (h, o)) <$> h !! l | None => None end.
Definition store (p : option loc) (o : object) : hp unit := λ h,
  match p with Some l => if bool_decide (is_Some (h !! l)) then Some (<[l := o]> h, tt) else None
             | None => None end.

(** A [runtime.Object]. *)
Inductive goType := TNpuConfig | TGpuConfig.
Definition Object : Type := option (goType * option loc).

#[export] Instance goType_eq_dec : EqDecision goType.
Proof. solve_decision. Defined.

(** ** zz_generated.deepcopy.go

    The methods of the two types are the same text; they are written once, for a
    struct type and how its values sit in the heap. *)
Section deepcopy.
Context {T : Type} (ty : goType) (inj : T → object) (proj : object → option T) (zero : T).
Context (get_TypeMeta : T → TypeMeta) (set_TypeMeta : TypeMeta → T → T).

Definition deref (p : option loc) : hp T :=
  let* o := load p in match proj o with Some t => hret t | None => λ _, None end.

Definition DeepCopyInto (in_ out : option loc) : hp unit :=
  let* v := deref in_ in
  let* _ := store out (inj v) in
  let* v := deref in_ in
  let* o := deref out in
  store out (inj (set_TypeMeta (get_TypeMeta v) o)).

Definition DeepCopy (in_ : option loc) : hp (option loc) :=
  match in_ with
  | None => hret None
  | Some _ =>
      let* out := new (inj zero) in
      let* _ := DeepCopyInto in_ out in
      hret out
  end.

Definition DeepCopyObject (in_ : option loc) : hp Object :=
  let* c := DeepCopy in_ in
  match c with Some _ => hret (Some (ty, c)) | None => hret None end.

(** *** Lemmas *)

Context (Hproj : ∀ t, proj (inj t) = Some t).
Context (Hset : ∀ t, set_TypeMeta (get_TypeMeta t) t = t).

Lemma fresh_loc_None (h : heap) : h !! fresh_loc h = None.
Proof. apply (not_elem_of_dom (D := gset loc)). exact (is_fresh (dom h : gset loc)). Qed.

Lemma fresh_loc_ne (h : heap) l o : h !! l = Some o → l ≠ fresh_loc h.
Proof. intros Hl ->. by rewrite fresh_loc_None in Hl. Qed.

Lemma deref_Some h l t : h !! l = Some (inj t) → deref (Some l) h = Some (h, t).
Proof using Hproj. intros Hl. unfold deref, hbind, load. rewrite Hl. cbn. by rewrite Hproj. Qed.

Lemma store_Some h l o o' : h !! l = Some o → store (Some l) o' h = Some (<[l := o']> h, tt).
Proof. intros Hl. unfold store. by rewrite bool_decide_eq_true_2 by (by eexists). Qed.

(** Copying into another object makes it the same value. *)
Lemma DeepCopyInto_spec h l l' t o :
  l ≠ l' → h !! l = Some (inj t) → h !! l' = Some o →
  DeepCopyInto (Some l) (Some l') h = Some (<[l' := inj t]> h, tt).
Proof using Hproj Hset.
  intros Hne Hl Hl'. unfold DeepCopyInto, hbind.
  rewrite (deref_Some _ _ t), (store_Some _ _ o) by done.
  rewrite (deref_Some _ _ t) by (by rewrite lookup_insert_ne).
  rewrite (deref_Some _ l' t) by (by rewrite lookup_insert_eq).
  rewrite (store_Some _ _ (inj t)) by (by rewrite lookup_insert_eq).
  by rewrite Hset, insert_insert_eq.
Qed.

(** The copy is a new object with the same value; nothing else changes. *)
Lemma DeepCopy_spec h l t :
  h !! l = Some (inj t) →
  DeepCopy (Some l) h = Some (<[fresh_loc h := inj t]> h, Some (fresh_loc h)).
Proof using Hproj Hset.
  intros Hl. pose proof (fresh_loc_ne _ _ _ Hl) as Hne.
  unfold DeepCopy, hbind, new.
  rewrite (DeepCopyInto_spec _ _ _ t (inj zero));
    [|done|by rewrite lookup_insert_ne|by rewrite lookup_insert_eq].
  by rewrite insert_insert_eq.
Qed.

End deepcopy.

Definition npuValue (o : object) : option NpuConfig := match o with ONpu c => Some c | OGpu _ => None end.
Definition gpuValue (o : object) : option GpuConfig := match o with OGpu c => Some c | ONpu _ => None end.

Definition zeroTypeMeta : TypeMeta := mkTypeMeta "" "".

Definition NpuConfig_DeepCopyInto : option loc → option loc → hp unit :=
  DeepCopyInto ONpu npuValue npu_TypeMeta (λ m _, mkNpuConfig m).
Definition NpuConfig_DeepCopy : option loc → hp (option loc) :=
  DeepCopy ONpu npuValue (mkNpuConfig zeroTypeMeta) npu_TypeMeta (λ m _, mkNpuConfig m).
Definition NpuConfig_DeepCopyObject : option loc → hp Object :=
  DeepCopyObject TNpuConfig ONpu npuValue (mkNpuConfig zeroTypeMeta) npu_TypeMeta (λ m _, mkNpuConfig m).
Definition GpuConfig_DeepCopyInto : option loc → option loc → hp unit :=
  DeepCopyInto OGpu gpuValue gpu_TypeMeta (λ m _, mkGpuConfig m).
Definition GpuConfig_DeepCopy : option loc → hp (option loc) :=
  DeepCopy OGpu gpuValue (mkGpuConfig zeroTypeMeta) gpu_TypeMeta (λ m _, mkGpuConfig m).
Definition GpuConfig_DeepCopyObject : option loc → hp Object :=
  DeepCopyObject TGpuConfig OGpu gpuValue (mkGpuConfig zeroTypeMeta) gpu_TypeMeta (λ m _, mkGpuConfig m).

(** ** register.go *)

Record GroupVersion := mkGV { gv_Group : string; gv_Version : string }.
Record GroupVersionKind := mkGVK { gvk_Version : GroupVersion; gvk_Kind : string }.

#[export] Instance GroupVersion_eq_dec : EqDecision GroupVersion.
Proof. solve_decision. Defined.

Definition SchemeGroupVersion : GroupVersion := mkGV GroupName Version.

(** The name Go reports for a struct type. *)
Definition typeName (t : goType) : string :=
  match t with TNpuConfig => "NpuConfig" | TGpuConfig => "GpuConfig" end.

(** apimachinery: [runtime.Scheme] and [schema].  [AddKnownTypes] registers each type under
    its Go name; [AddToGroupVersion] registers the kinds [metaKinds] of metav1 for the
    version; [FromAPIVersionAndKind] reads an API version [group/version]. *)
Class SchemeAPI := {
  Scheme : Type;
  AddKnownTypes : GroupVersion → list goType → Scheme → Scheme;
  AddToGroupVersion : GroupVersion → Scheme → Scheme;
  metaKinds : list string;
  lookupType : Scheme → GroupVersionKind → option goType;
  FromAPIVersionAndKind : string → string → GroupVersionKind;
  known_types gv ts s t : t ∈ ts →
    lookupType (AddKnownTypes gv ts s) (mkGVK gv (typeName t)) = Some t;
  added_meta gv s gvk : gvk_Kind gvk ∉ metaKinds →
    lookupType (AddToGroupVersion gv s) gvk = lookupType s gvk;
  parse_api_version g v k : no_byte "/" g = true → no_byte "/" v = true → g ≠ "" → v ≠ "" →
    FromAPIVersionAndKind (g +:+ "/" +:+ v) k = mkGVK (mkGV g v) k
}.

Section scheme.
Context `{SchemeAPI}.

Definition addKnownTypes (s : Scheme) : result unit Scheme :=
  let s := AddKnownTypes SchemeGroupVersion [TNpuConfig; TGpuConfig] s in
  Ok (AddToGroupVersion SchemeGroupVersion s).

(** [SchemeBuilder.AddToScheme] calls the functions of the builder in order. *)
Definition SchemeBuilder : list (Scheme → result unit Scheme) := [addKnownTypes].

Definition AddToScheme (s : Scheme) : result unit Scheme :=
  foldl (λ r f, match r with Ok s => f s | Err e => Err e end) (Ok s) SchemeBuilder.

(** [GetObjectKind().GroupVersionKind()] of a [TypeMeta]. *)
Definition gvkOf (m : TypeMeta) : GroupVersionKind :=
  FromAPIVersionAndKind (tm_APIVersion m) (tm_Kind m).

End scheme.

(** ** Properties *)

(** A deep copy of either kind is an object of the same type and value at a location
    nothing pointed to, so a write through the copy is not seen through the original;
    everything else stays as it was.  A nil pointer gives a nil interface, not an interface
    that holds a nil pointer. *)
Theorem deep_copy_separate h l :
  (∀ c, h !! l = Some (ONpu c) →
   ∃ l' h', NpuConfig_DeepCopyObject (Some l) h = Some (h', Some (TNpuConfig, Some l')) ∧
     h !! l' = None ∧ h' !! l' = Some (ONpu c) ∧
     ∀ k o, k ≠ l' → <[l' := o]> h' !! k = h !! k) ∧
  (∀ c, h !! l = Some (OGpu c) →
   ∃ l' h', GpuConfig_DeepCopyObject (Some l) h = Some (h', Some (TGpuConfig, Some l')) ∧
     h !! l' = None ∧ h' !! l' = Some (OGpu c) ∧
     ∀ k o, k ≠ l' → <[l' := o]> h' !! k = h !! k) ∧
  NpuConfig_DeepCopyObject None h = Some (h, None) ∧
  GpuConfig_DeepCopyObject None h = Some (h, None).
Proof.
  split_and!; [| |done|done]; intros c Hl; exists (fresh_loc h); eexists;
    unfold NpuConfig_DeepCopyObject, GpuConfig_DeepCopyObject, DeepCopyObject, hbind;
    (erewrite DeepCopy_spec; [|done|by intros []|exact Hl]); (split; [done|]);
    (split; [apply fresh_loc_None|]); (split; [by rewrite lookup_insert_eq|]);
    intros k o Hk; by rewrite !lookup_insert_ne.
Qed.

(** A scheme the API was added to finds, for the default configuration of each kind, the
    type of that kind: the group, version and kind they carry are the registered ones. *)
Theorem default_configs_registered `{SchemeAPI} s :
  "NpuConfig" ∉ metaKinds → "GpuConfig" ∉ metaKinds →
  ∃ s', AddToScheme s = Ok s' ∧
    lookupType s' (gvkOf (npu_TypeMeta DefaultNpuConfig)) = Some TNpuConfig ∧
    lookupType s' (gvkOf (gpu_TypeMeta DefaultGpuConfig)) = Some TGpuConfig.
Proof.
  intros Hn Hg. eexists. split; [reflexivity|]. unfold gvkOf. cbn [tm_APIVersion tm_Kind npu_TypeMeta
    gpu_TypeMeta DefaultNpuConfig DefaultGpuConfig].
  rewrite !parse_api_version by done. rewrite !added_meta by done. split.
  - apply (known_types _ _ _ TNpuConfig). by left.
  - apply (known_types _ _ _ TGpuConfig). right. by left.
Qed.

(** ** Witnesses *)

(** A scheme as the list of what was registered. *)
Definition plainLookup (s : list (GroupVersion * goType)) (gvk : GroupVersionKind) : option goType :=
  snd <$> head (filter (λ '(gv, t), gv = gvk_Version gvk ∧ typeName t = gvk_Kind gvk) s).

#[export] Program Instance plainScheme : SchemeAPI := {|
  Scheme := list (GroupVersion * goType);
  AddKnownTypes gv ts s := map (pair gv) ts ++ s;
  AddToGroupVersion _ s := s;
  metaKinds := ["WatchEvent"];
  lookupType := plainLookup;
  FromAPIVersionAndKind av k :=
    match Cut "/" av with
    | Some (g, v) => mkGVK (mkGV g v) k
    | None => mkGVK (mkGV "" av) k
    end
|}.
Next Obligation.
  intros gv ts s t Ht. unfold plainLookup. rewrite filter_app.
  induction ts as [|t' ts IH]; [by apply elem_of_nil in Ht|]. cbn [map app].
  rewrite filter_cons. case_decide as Hd; cbn.
  - destruct Hd as [_ Hd]. by destruct t, t'.
  - apply IH. apply elem_of_cons in Ht as [->|Ht]; [by destruct Hd|done].
Qed.
Next Obligation. done. Qed.
Next Obligation.
  intros g v k Hg Hv _ _. cbn. assert (Hc : Cut "/" (g +:+ String "/" v) = Some (g, v)).
  { clear Hv. induction g as [|c g IH]; [done|]. rewrite app_cons_str. cbn [Cut].
    cbn [no_byte] in Hg.
    apply andb_true_iff in Hg as [Hc Hg]. apply negb_true_iff in Hc. by rewrite Hc, (IH Hg). }
  change (g +:+ "/" +:+ v) with (g +:+ String "/" v). by rewrite Hc.
Qed.

Definition emptyScheme : Scheme := ([] : list (GroupVersion * goType)).

Lemma default_configs_registered_witness :
  ∃ s', AddToScheme emptyScheme = Ok s' ∧ lookupType s' (gvkOf (npu_TypeMeta DefaultNpuConfig)) = Some TNpuConfig.
Proof.
  destruct (default_configs_registered emptyScheme) as (s' & Hs & Hn & _); [by_compute|by_compute|].
  exists s'. exact (conj Hs Hn).
Defined.

(** A heap with one default configuration. *)
Lemma deep_copy_separate_witness :
  ∃ l' h', NpuConfig_DeepCopyObject (Some 3) {[3 := ONpu DefaultNpuConfig]} =
    Some (h', Some (TNpuConfig, Some l')) ∧ l' ≠ 3.
Proof.
  destruct (proj1 (deep_copy_separate {[3 := ONpu DefaultNpuConfig]} 3) DefaultNpuConfig)
    as (l' & h' & Hcopy & Hl' & _); [by_vm|].
  exists l', h'. split; [exact Hcopy|]. intros ->. by rewrite lookup_singleton_eq in Hl'.
Defined.
