(* ===== verification/Fixture.v ===== *)
(** A concrete node, to run the model: instances for the code outside the
    repository, a plugin configuration, and answers of the kernel. *)

From Stdlib Require Import Ascii ZArith.
From stdpp Require Import options.
From S2P Require Import Prelude GoStrings GoPath GoSort Consts Types Sysfs Enumerate.
From S2P Require Import Codec Ranges Effects Health Resources Cdi Checkpoint Flags State.
From S2P Require Import StateLemmas StateInv System Metrics Driver DriverInv.

#[export] Existing Instance integerQuantity.
#[export] Existing Instance insertion_sort.
#[export] Existing Instance plainNames.
#[export] Existing Instance plainMetrics.

(** The helper library's sentinel error. *)
#[export] Program Instance plainHelper : KubeletPlugin := {| ErrRecoverable := EText "recoverable" |}.
Next Obligation. done. Qed.

(** A marshaller that shows the names and the taints. *)
#[export] Instance namesJSON : ResourceJSON := λ r,
  Ok (foldr (λ '(node, p) acc, node +:+ ":" +:+ foldr (λ sl acc,
        foldr (λ d acc, rd_Name d +:+ "=" +:+
          foldr (λ t acc, TaintValue t +:+ acc) "" (Taints d) +:+ ";" +:+ acc) "" (Devices sl)
          +:+ acc) "" (Slices p) +:+ acc) "" (map_to_list (Pools r))).

(** A plugin with mock devices, and one that reads sysfs. *)
Definition mockFlags : Flags :=
  {| nodeName := "node1"; cdiRoot := "/etc/cdi";
     kubeletRegistrarDirectoryPath := "/var/lib/kubelet/plugins_registry";
     kubeletPluginsDirectoryPath := "/var/lib/kubelet/plugins";
     healthcheckPort := -1; metricsPort := -1; flagDriverName := DriverName; podUID := "";
     mockDevices := true; npuEnabled := true; gpuEnabled := true; vpuEnabled := false;
     rgaEnabled := false; npuMaxAllocations := 0; gpuMaxAllocations := 0;
     vpuMaxAllocations := 0; rgaMaxAllocations := 0; sysfsRoot := "/sys"; devRoot := "";
     discoveryInterval := 0 |}.

Definition emptyFS : Reading :=
  still (mkFS (λ _, None) (λ _, None) (λ _, None) (λ _, None)).

(** A sysfs with one NPU core, whose node is [accel0]. *)
Definition npuFS : Reading :=
  still (table_fs [] [("/sys/bus/platform/drivers/rocket", ["fdab0000.npu"])] [] []).

Definition realFlags : Flags :=
  defaultFlags "node1" "/var/lib/kubelet/plugins_registry" "/var/lib/kubelet/plugins".

(** An answer where every call succeeds, with the given sysfs and device nodes. *)
Definition fine (sysfs : Reading) (nodes : list string) : Answer :=
  {| ans_fail := false; ans_cut := 0; ans_left := None; ans_random := 7; ans_order := [];
     ans_time := 100;
     ans_stat := λ p, if bool_decide (p ∈ nodes) then Some (mkFileInfo false None) else None;
     ans_sysfs := sysfs |}.

Definition failing (cut : nat) : Answer :=
  {| ans_fail := true; ans_cut := cut; ans_left := None; ans_random := 7; ans_order := [];
     ans_time := 100; ans_stat := λ _, None; ans_sysfs := emptyFS |}.

Lemma emptyFS_ok : fs_ok emptyFS.
Proof. by apply still_ok. Qed.

Lemma npuFS_ok : fs_ok npuFS.
Proof.
  apply still_ok. split; [intros p fi g; cbn; by rewrite lookup_empty|]. intros p l. cbn.
  rewrite insert_empty. intros [_ <-]%lookup_singleton_Some. cbn. lia.
Qed.

Lemma fine_ok sysfs nodes : fs_ok sysfs → answer_ok (fine sysfs nodes).
Proof. by split. Qed.

Lemma failing_ok cut : answer_ok (failing cut).
Proof. split; [done|apply emptyFS_ok]. Qed.

Definition emptyWorld : World := mkWorld ∅ ∅.

(** A claim of the NPU. *)
Definition npuClaim (uid : string) : ResourceClaim :=
  mkClaim uid (Some [mkResult "npu" DriverName "node1" "npu-0" None;
                     mkResult "nic" "net.example.com" "node1" "eth0" None]).

(** The plugin after its start with mock devices. *)
Definition startMock : World * option (result error DeviceState) :=
  run (NewDeviceState mockFlags) (repeat (fine emptyFS []) 20) emptyWorld.

Definition resultOr {A} (d : A) (r : option (result error A)) : A :=
  match r with Some (Ok a) => a | _ => d end.

Definition blankState : DeviceState := initialState mockFlags (mkHandler DriverName true).

Definition mockState : DeviceState := resultOr blankState startMock.2.

(** The disk after a claim of the NPU was prepared there. *)
Definition afterPrepare : World :=
  (run (Prepare mockState (npuClaim "uid-1")) (repeat (fine emptyFS []) 20) emptyWorld).1.

Lemma fine_all n sysfs nodes : fs_ok sysfs → Forall answer_ok (repeat (fine sysfs nodes) n).
Proof. intros Hs. apply Forall_forall. intros a ->%list_elem_of_In%repeat_spec. by apply fine_ok. Qed.

(** The plugin on sysfs, started while the NPU and its node are there, and the
    disk after a claim of the NPU was prepared. *)
Definition startReal : World * option (result error DeviceState) :=
  run (NewDeviceState realFlags) (repeat (fine npuFS ["/dev/accel/accel0"]) 20) emptyWorld.

Definition realState : DeviceState :=
  resultOr (initialState realFlags (mkHandler DriverName false)) startReal.2.

Definition realPrepared : World :=
  (run (Prepare realState (npuClaim "uid-1"))
     (repeat (fine npuFS ["/dev/accel/accel0"]) 20) emptyWorld).1.

(** The plugin never ran on the empty disk. *)
Lemma emptyWorld_init f : sys_init f (mkSys None emptyWorld).
Proof. split; [done|]. by apply left_never. Qed.

Lemma emptyWorld_reachable f : reachable f (mkSys None emptyWorld).
Proof. by apply never_reachable. Qed.

Lemma started_ok f answers s :
  config_in_range (discoveryConfig f) → Forall answer_ok answers →
  proc (sys_exec f OpStart answers (mkSys None emptyWorld)) = Some s → state_ok s.
Proof.
  intros Hf Hans Hp.
  assert (Hr : sys_inv f (sys_exec f OpStart answers (mkSys None emptyWorld))).
  { apply reachable_inv; [done|]. exists (mkSys None emptyWorld). split; [apply emptyWorld_init|].
    eapply rtc_once. by constructor. }
  unfold sys_inv in Hr. rewrite Hp in Hr. apply Hr.
Qed.

Lemma mockState_ok : state_ok mockState.
Proof.
  apply (started_ok mockFlags (repeat (fine emptyFS []) 20));
    [by_compute|apply fine_all, emptyFS_ok|by_vm].
Qed.

Lemma realState_ok : state_ok realState.
Proof.
  apply (started_ok realFlags (repeat (fine npuFS ["/dev/accel/accel0"]) 20));
    [by_compute|apply fine_all, npuFS_ok|by_vm].
Qed.

(** The metrics at the start of the process. *)
Definition noMetrics : registry := emptyRegistry.

Definition startMetrics : registry := default noMetrics (init noMetrics).

Lemma noMetrics_fresh : fresh_registry noMetrics.
Proof. by intros o o' _ Ho%elem_of_nil. Qed.

Lemma startMetrics_ok : metrics_ok startMetrics.
Proof.
  destruct (init_ok noMetrics noMetrics_fresh) as (r & Hr & Hok & _).
  unfold startMetrics. by rewrite Hr.
Qed.
