(* ===== verification/Returns.v ===== *)
(** Every operation returns: a bound on the system calls each one makes,
    whatever the kernel answers.  [returns n p Q w] says that [p], started on the disk
    [w], makes at most [n] calls, and that [Q] holds of the value it returns and the
    disk it leaves.  The bounds add up along the programs, so each operation's bound is
    the sum of its calls' and of its loops'. *)

From Stdlib Require Import ZArith.
From stdpp Require Import options.
From S2P Require Import Prelude GoStrings GoPath GoSort Consts Types Sysfs Enumerate.
From S2P Require Import Json JsonRound Codec Ranges Effects Health Resources Cdi Checkpoint Flags.
From S2P Require Import State StateLemmas StateInv System Fixture.

Fixpoint returns {A} (n : nat) (p : prog A) (Q : A → World → Prop) (w : World) {struct p} : Prop :=
  match p with
  | Ret a => Q a w
  | Do e k =>
      match n with
      | 0 => False
      | S m => ∀ a, returns m (k (exec e a w).2) Q (exec e a w).1
      end
  end.

Section returns.
Implicit Type w : World.

Lemma returns_run {A} n (p : prog A) Q answers w :
  returns n p Q w → n ≤ length answers → is_Some (run p answers w).2.
Proof.
  revert n answers w. induction p as [a|B e k IH]; intros n answers w H Hn; [done|].
  destruct n as [|n]; [done|]. destruct answers as [|a rest]; [cbn in Hn; lia|]. cbn in *.
  specialize (H a). destruct (exec e a w) as [w' b]. apply (IH b n); [done|lia].
Qed.

Lemma returns_mono {A} n m (p : prog A) (Q Q' : A → World → Prop) w :
  returns n p Q w → n ≤ m → (∀ a w, Q a w → Q' a w) → returns m p Q' w.
Proof.
  intros H Hle HQ. revert n m w H Hle. induction p as [a|B e k IH]; intros n m w H Hle; [by apply HQ|].
  destruct n as [|n]; [done|]. destruct m as [|m]; [lia|]. intros a. eapply IH; [apply H|lia].
Qed.

Lemma returns_le {A} n m (p : prog A) Q w : returns n p Q w → n ≤ m → returns m p Q w.
Proof. intros. by eapply returns_mono. Qed.

Lemma returns_bind {A C} n m (p : prog A) (f : A → prog C) Q w :
  returns n p (λ a w', returns m (f a) Q w') w → returns (n + m) (bind p f) Q w.
Proof.
  revert n w. induction p as [a|B e k IH]; intros n w H.
  - eapply returns_le; [exact H|lia].
  - destruct n as [|n]; [done|]. intros a. apply IH, H.
Qed.

Lemma returns_perform {B} (e : effect B) (Q : B → World → Prop) w :
  (∀ a, Q (exec e a w).2 (exec e a w).1) → returns 1 (perform e) Q w.
Proof. done. Qed.

Lemma returns_try {A B} n m (p : prog (result error A)) wrap (k : A → prog (result error B)) w :
  returns n p (λ r w', match r with
    | Ok a => returns m (k a) (λ _ _, True) w'
    | Err e => True
    end) w →
  returns (n + m) (try p wrap k) (λ _ _, True) w.
Proof.
  intros H. apply returns_bind. eapply returns_mono; [exact H|lia|]. by intros [].
Qed.

Lemma returns_attempt {E B} n m (p : prog (option E)) wrap (k : prog (result error B)) w :
  returns n p (λ r w', r = None → returns m k (λ _ _, True) w') w →
  returns (n + m) (attempt p wrap k) (λ _ _, True) w.
Proof.
  intros H. apply returns_bind. eapply returns_mono; [exact H|lia|].
  intros [e|] w' Hk; [done|by apply Hk].
Qed.

(** A loop whose body makes at most [c] calls and keeps [J]. *)
Lemma returns_for {A S} c (J : S → Prop) (l : list A) (s : S) (body : S → A → prog S) w :
  J s →
  (∀ x s w, x ∈ l → J s → returns c (body s x) (λ s' _, J s') w) →
  returns (c * length l) (for_each l s body) (λ s' _, J s') w.
Proof.
  revert s w. induction l as [|x l IH]; intros s w Hs Hbody; cbn; [done|].
  rewrite Nat.mul_succ_r, Nat.add_comm. apply returns_bind.
  eapply returns_mono; [apply Hbody; [by left|done]|lia|]. intros s' w' Hs'.
  apply IH; [done|]. intros y s0 w0 Hy. apply Hbody. by right.
Qed.

(** ** The files *)

Lemma returns_readCheckpoint path w :
  returns 1 (readCheckpoint path)
    (λ r w', w' = w ∧ match r with Ok c => checkpointOn path w = Some c | Err _ => True end) w.
Proof.
  intros a. split; [done|]. cbn. unfold checkpointOn.
  destruct (ans_fail a); [done|]. destruct (files w !! path); [|done].
  by destruct (unmarshalCheckpoint _).
Qed.

Lemma returns_readClaimDevices path w :
  returns 1 (readClaimDevices path)
    (λ r w', w' = w ∧ match r with Ok f => claimsOn path w = Some f | Err _ => True end) w.
Proof.
  intros a. split; [done|]. cbn. unfold claimsOn.
  destruct (ans_fail a); [done|]. destruct (files w !! path); [|done].
  by destruct (unmarshalClaims _).
Qed.

Lemma returns_writeCheckpoint path cp w :
  returns 3 (writeCheckpoint path cp) (λ _ _, True) w.
Proof.
  unfold writeCheckpoint. change 3 with (3 + 0). apply returns_attempt.
  unfold WriteFile. change 3 with (1 + (1 + (1 + 0))).
  apply returns_bind, returns_perform. intros a. destruct (exec _ a w).2; [done|].
  apply returns_bind, returns_perform. intros a1. apply returns_bind, returns_perform. done.
Qed.

Lemma returns_writeClaimDevices path f w :
  returns 6 (writeClaimDevices path f) (λ _ _, True) w.
Proof.
  unfold writeClaimDevices. change 6 with (1 + (4 + 1)).
  apply returns_bind, returns_perform. intros a. destruct (exec _ a w).2 as [tmp|e]; [|done].
  apply returns_bind. apply (returns_mono 4 4 _ (λ _ _, True)); [|lia|].
  - change 4 with (1 + (1 + 2)). apply returns_bind, returns_perform. intros a1.
    destruct (exec _ a1 _).2; [by intros a2|].
    apply returns_bind, returns_perform. intros a2. destruct (exec _ a2 _).2; [by intros a3|].
    change 2 with (1 + (1 + 0)). apply returns_attempt, returns_perform. intros a3 _.
    by apply returns_attempt, returns_perform.
  - by intros [] w' _.
Qed.

End returns.

(** ** The snapshots *)

(** The number of snapshots in a claims file. *)
Definition snapshotCount (f : claimDevicesFile) : nat :=
  sum_list_with (λ '(_, devs), length (elems devs)) (map_to_list (Claims f)).

Definition snapshotsOn (path : string) (w : World) : nat :=
  match claimsOn path w with Some f => snapshotCount f | None => 0 end.

Lemma size_addSnapshot l m : size (foldl addSnapshot m l) ≤ size m + length l.
Proof.
  revert m. induction l as [|d l IH]; intros m; cbn; [lia|]. rewrite IH.
  enough (size (addSnapshot m d) ≤ S (size m)) by lia. unfold addSnapshot. case_bool_decide; [lia|].
  rewrite map_size_insert. case_match; cbn; lia.
Qed.

Lemma claimedSnapshots_size ord cp f : size (claimedSnapshots ord cp f) ≤ snapshotCount f.
Proof.
  rewrite claimedSnapshots_list, size_addSnapshot, map_size_empty. cbn.
  unfold snapshotList, snapshotCount. rewrite <-(permute_perm ord (map_to_list (Claims f))) at 2.
  induction (permute ord _) as [|[uid devs] l IH]; cbn; [done|]. rewrite length_app.
  case_bool_decide; cbn; lia.
Qed.

Lemma prune_snapshotCount cp f : snapshotCount (pruneClaimDevices cp f).1 ≤ snapshotCount f.
Proof.
  unfold pruneClaimDevices. case_bool_decide; [done|]. unfold snapshotCount. cbn.
  assert (Hsub : map_to_list (filter (λ '(uid, _), isPrepared cp uid) (Claims f)) ⊆+
    map_to_list (Claims f)) by apply map_to_list_submseteq, map_filter_subseteq.
  apply submseteq_Permutation in Hsub as [k ->]. rewrite sum_list_with_app. lia.
Qed.

(** ** The operations *)

Section operations.
Context `{QuantityAPI} `{GoSort} `{CDIAPI} `{!ResourceJSON}.
Implicit Type (s : DeviceState) (w : World).

Lemma returns_deviceNodeExists s path w : returns 1 (deviceNodeExists s path) (λ _ _, True) w.
Proof. unfold deviceNodeExists. by case_match. Qed.

Lemma returns_computeResults s uid results prepared w :
  returns (length results) (computeResults s uid results prepared)
    (λ r w', match r with Ok p => length p ≤ length prepared + length results | Err _ => True end) w.
Proof.
  revert prepared w. induction results as [|r rest IH]; intros prepared w; cbn; [lia|].
  case_bool_decide; cbn.
  - destruct (ds_tracked s !! ar_Device r) as [td|]; [|done].
    change (S (length rest)) with (1 + length rest). apply returns_bind.
    eapply returns_mono; [apply returns_deviceNodeExists|done|]. intros ok w' _.
    destruct (prepareError _ _ _); [done|]. eapply returns_mono; [apply IH|done|].
    intros [p|] w2; [|done]. rewrite length_app. cbn. lia.
  - eapply returns_mono; [apply IH|lia|]. intros [p|] w2; [lia|done].
Qed.

Lemma returns_computeDevices s claim w :
  let results := default [] (Allocation claim) in
  returns (length results) (computeDevices s claim)
    (λ r w', match r with Ok p => length p ≤ length results | Err _ => True end) w.
Proof.
  unfold computeDevices. destruct (Allocation claim) as [results|]; cbn; [|done].
  apply (returns_computeResults s (UID claim) results []).
Qed.

Lemma returns_deviceEdits d mock w : returns 1 (deviceEdits d mock) (λ _ _, True) w.
Proof. unfold deviceEdits. by case_match. Qed.

Lemma returns_CreateClaimSpecFile cdi uid devices w :
  returns (length devices + 1) (CreateClaimSpecFile cdi uid devices) (λ _ _, True) w.
Proof.
  unfold CreateClaimSpecFile. apply returns_bind. rewrite <-(Nat.mul_1_l (length devices)).
  eapply returns_mono; [apply (returns_for 1 (λ _, True)); [done|]|done|].
  - intros d acc w0 _ _. change 1 with (1 + 0). apply returns_bind.
    by eapply returns_mono; [apply returns_deviceEdits|..].
  - intros ds w' _. cbn. destruct (MinimumRequiredVersion _); [|done].
    change 1 with (1 + 0). by apply returns_attempt, returns_perform.
Qed.

Lemma returns_Prepare s claim w :
  returns (2 * length (default [] (Allocation claim)) + 12) (Prepare s claim) (λ _ _, True) w.
Proof.
  set (n := length (default [] (Allocation claim))).
  apply (returns_le (1 + (n + ((n + 1) + ((1 + 6) + 3))))); [|lia]. unfold Prepare.
  apply returns_try. eapply returns_mono; [apply returns_readCheckpoint|done|].
  intros [c|] w1 _; [|done]. apply returns_try.
  eapply returns_mono; [apply returns_computeDevices|done|]. intros [p|] w2 Hp; [|done].
  apply returns_try. eapply returns_mono; [apply returns_CreateClaimSpecFile|unfold n; lia|].
  intros [[]|] w3 _; [|done]. apply returns_try.
  apply (returns_mono (1 + 6) _ _ (λ _ _, True)); [|done|].
  - apply returns_try. eapply returns_mono; [apply returns_readClaimDevices|done|].
    intros [f|] w4 _; [|done]. apply returns_writeClaimDevices.
  - intros [[]|] w4 _; [|done]. case_bool_decide; [done|].
    change 3 with (3 + 0). apply returns_try.
    eapply returns_mono; [apply returns_writeCheckpoint|done|]. by intros [].
Qed.

Lemma returns_Unprepare s uid w : returns 12 (Unprepare s uid) (λ _ _, True) w.
Proof.
  change 12 with (1 + (1 + (3 + ((1 + 6) + 0)))). unfold Unprepare.
  apply returns_try. eapply returns_mono; [apply returns_readCheckpoint|done|].
  intros [c|] w1 _; [|done]. apply returns_try. unfold DeleteClaimSpecFile.
  apply (returns_mono (1 + 0) _ _ (λ _ _, True)); [by apply returns_attempt, returns_perform|done|].
  intros [[]|] w2 _; [|done]. apply returns_try.
  eapply returns_mono; [apply returns_writeCheckpoint|done|]. intros [[]|] w3 _; [|done].
  apply returns_try. apply (returns_mono (1 + 6) _ _ (λ _ _, True)); [|done|by intros []].
  apply returns_try. eapply returns_mono; [apply returns_readClaimDevices|done|].
  intros [f|] w4 _; [|done]. case_match; [|done].
  by eapply returns_mono; [apply returns_writeClaimDevices|..].
Qed.

Lemma returns_pruneStep s c f w :
  returns 6 (pruneStep s c f)
    (λ r _, match r with Ok f' => snapshotCount f' ≤ snapshotCount f | Err _ => True end) w.
Proof.
  unfold pruneStep. pose proof (prune_snapshotCount c f) as Hle.
  destruct (pruneClaimDevices c f) as [f' []]; [|done]. change 6 with (6 + 0).
  unfold try. apply returns_bind.
  eapply returns_mono; [apply returns_writeClaimDevices|done|]. by intros [] w' _.
Qed.

Lemma returns_applyDiscovery s found w :
  returns (11 + 2 * length found + snapshotsOn (ds_claimDevicesPath s) w)
    (applyDiscoveryLocked s found) (λ _ _, True) w.
Proof.
  set (n := snapshotsOn _ w).
  apply (returns_le (1 + (1 + (6 + (1 + (2 * length found + (1 + (1 * n + (1 + 0)))))))));
    [|lia]. unfold applyDiscoveryLocked.
  apply returns_try. eapply returns_mono; [apply returns_readCheckpoint|done|].
  intros [c|] w1 [-> _]; [|done].
  apply returns_try. eapply returns_mono; [apply returns_readClaimDevices|done|].
  intros [f|] w1 [-> Hf]; [|done].
  apply returns_try. eapply returns_mono; [apply returns_pruneStep|done|].
  intros [f'|] w1 Hcount; [|done].
  apply returns_bind, returns_perform. intros a. apply returns_bind.
  eapply returns_mono; [apply (returns_for 2 (λ _, True)); [done|]|done|].
  { intros d acc w0 _ _. change 2 with (1 + (1 + 0)). apply returns_bind.
    eapply returns_mono; [apply returns_deviceNodeExists|done|]. intros ok w2 _.
    by apply returns_bind, returns_perform. }
  intros next w2 _. apply returns_bind, returns_perform. intros a2. apply returns_bind.
  eapply returns_mono; [apply (returns_for 1 (λ _, True)); [done|]| |].
  { intros [name snap] acc w0 _ _. destruct (foundByName _ !! name); [done|].
    change 1 with (1 + 0). by apply returns_bind, returns_perform. }
  { apply Nat.mul_le_mono_l. rewrite permute_perm, length_map_to_list, claimedSnapshots_size.
    unfold n, snapshotsOn. by rewrite Hf. }
  intros next2 w3 _. by apply returns_bind, returns_perform.
Qed.

Lemma returns_Reconcile_run s a answers w :
  11 + 2 * length (Enumerate (ans_sysfs a) (ds_discCfg s)) +
    snapshotsOn (ds_claimDevicesPath s) w ≤ length answers →
  is_Some (run (Reconcile s) (a :: answers) w).2.
Proof.
  intros Hn. change (is_Some (run (applyDiscoveryLocked s
    (Enumerate (ans_sysfs a) (ds_discCfg s))) answers w).2).
  eapply returns_run; [apply returns_applyDiscovery|done].
Qed.

Lemma returns_start_run f a answers w :
  11 + 2 * length (Enumerate (ans_sysfs a) (discoveryConfig f)) +
    snapshotsOn (clPathOf f) w ≤ length answers →
  is_Some (run (NewDeviceState f) (a :: answers) w).2.
Proof.
  intros Hn. unfold NewDeviceState. destruct (NewCDIHandler _ _ _) as [cdi|e]; [|done].
  apply (returns_Reconcile_run (initialState f cdi)) in Hn.
  rewrite (run_try _ _ _ fst) by (by intros []).
  destruct (run _ (a :: answers) w) as [w' [[[s res]|e]|]]; [by eexists..|by destruct Hn].
Qed.

(** C27: every operation returns, with a value or an error, after a number of
    system calls that is known in advance, whatever the kernel answers to them:
    [Prepare] two per allocation result and twelve, [Unprepare] twelve, a rediscovery
    and the start two per device found, one per recorded snapshot and twelve. *)
Theorem operations_return s claim uid f a answers w :
  (2 * length (default [] (Allocation claim)) + 12 ≤ length answers →
   is_Some (run (Prepare s claim) answers w).2) ∧
  (12 ≤ length answers → is_Some (run (Unprepare s uid) answers w).2) ∧
  (11 + 2 * length (Enumerate (ans_sysfs a) (ds_discCfg s)) +
     snapshotsOn (ds_claimDevicesPath s) w ≤ length answers →
   is_Some (run (Reconcile s) (a :: answers) w).2) ∧
  (11 + 2 * length (Enumerate (ans_sysfs a) (discoveryConfig f)) +
     snapshotsOn (clPathOf f) w ≤ length answers →
   is_Some (run (NewDeviceState f) (a :: answers) w).2).
Proof.
  split_and!; intros Hn.
  - eapply returns_run; [apply returns_Prepare|done].
  - eapply returns_run; [apply returns_Unprepare|done].
  - by apply returns_Reconcile_run.
  - by apply returns_start_run.
Qed.

End operations.
