(* ===== verification/DriverLive.v ===== *)
(** Termination of the running driver: executions, what is assumed of the scheduler, and
    the way of the loop and of the main goroutine to their ends. *)

From Stdlib Require Import ZArith.
From coqutil Require Import Datatypes.RecordSetters.
From stdpp Require Import options.
From S2P Require Import Prelude GoStrings GoPath GoSort Consts Types Sysfs Enumerate.
From S2P Require Import Json JsonRound Codec Ranges Effects Health Resources Cdi Checkpoint Flags.
From S2P Require Import State StateLemmas StateInv System GoFloat Metrics Driver DriverInv DriverMon.
From S2P Require Import Fixture Returns.

(** ** Executions and fairness *)

Section fairness.
Context {X : Type} (step : X → X → Prop).
Implicit Type ex : nat → X.

(** The states of a run, one after the other; it may rest. *)
Definition execution ex : Prop := ∀ i, ex (S i) = ex i ∨ step (ex i) (ex (S i)).

(** A goroutine whose place is [at_] has a step. *)
Definition can_move {A} (at_ : X → A) (x : X) : Prop := ∃ x', step x x' ∧ at_ x' ≠ at_ x.

(** Weak fairness: again and again, the goroutine has no step, or takes one. *)
Definition fair {A} (at_ : X → A) ex : Prop :=
  ∀ i, ∃ j, i ≤ j ∧ (¬ can_move at_ (ex j) ∨ at_ (ex (S j)) ≠ at_ (ex j)).

(** Fairness of a choice: a step of the kind [choice] that can be taken again and again is
    taken, once at least. *)
Definition fair_choice (choice : X → X → Prop) ex : Prop :=
  (∃ i, ∀ j, i ≤ j → ¬ ∃ x', step (ex j) x' ∧ choice (ex j) x') ∨
  ∃ j, choice (ex j) (ex (S j)).

Lemma execution_invariant (P : X → Prop) ex i j :
  execution ex → (∀ x x', P x → step x x' → P x') → i ≤ j → P (ex i) → P (ex j).
Proof.
  intros Hex Hstep Hij Hi. induction Hij as [|j _ IH]; [done|].
  destruct (Hex j) as [->|Hs]; [done|]. by eapply Hstep.
Qed.

(** A measure that says when a place is left: fairness of the one is that of the other. *)
Lemma fair_measure {A} (at_ : X → A) (rank : A → nat) ex :
  (∀ i, at_ (ex (S i)) = at_ (ex i) ∨ rank (at_ (ex (S i))) ≠ rank (at_ (ex i))) →
  fair at_ ex → fair (λ x, rank (at_ x)) ex.
Proof.
  intros Hrank Hfair i. destruct (Hfair i) as (j & Hij & Hj). exists j. split; [done|].
  destruct Hj as [Hno|Hmove].
  - left. intros (x' & Hs & Hne). apply Hno. exists x'. split; [done|congruence].
  - right. by destruct (Hrank j).
Qed.

(** A measure that never grows above [stop], with a step there, gets down to it. *)
Lemma descends (g : X → nat) stop ex i :
  fair g ex →
  (∀ j, i ≤ j → stop < g (ex j) → can_move g (ex j) ∧ g (ex (S j)) ≤ g (ex j)) →
  ∃ j, i ≤ j ∧ g (ex j) ≤ stop.
Proof.
  intros Hfair Hdown. remember (g (ex i)) as n eqn:Hn.
  revert i Hn Hdown. induction (lt_wf n) as [n _ IH]. intros i -> Hdown.
  destruct (decide (g (ex i) ≤ stop)) as [Hle|Hgt]; [by exists i|].
  (* the measure stays until it goes down *)
  assert (Hstay : ∀ k, g (ex (i + k)) = g (ex i) ∨ ∃ j, i ≤ j ∧ g (ex j) < g (ex i)).
  { induction k as [|k [Hk|Hk]]; [left; by rewrite Nat.add_0_r| |by right].
    destruct (Hdown (i + k)) as [_ Hmono]; [lia..|].
    destruct (decide (g (ex (S (i + k))) = g (ex i))) as [Heq|Hne].
    - left. by replace (i + S k) with (S (i + k)) by lia.
    - right. exists (S (i + k)). lia. }
  assert (Hless : ∃ j, i ≤ j ∧ g (ex j) < g (ex i)).
  { destruct (Hfair i) as (j & Hij & Hj). destruct (Hstay (j - i)) as [Heq|]; [|done].
    replace (i + (j - i)) with j in Heq by lia.
    destruct (Hdown j Hij) as [Hcan Hmono]; [lia|].
    destruct Hj as [Hno|Hmove]; [done|]. exists (S j). lia. }
  destruct Hless as (j & Hij & Hlt).
  destruct (IH (g (ex j)) Hlt j eq_refl) as (k & Hjk & Hk); [|exists k; split; [lia|done]].
  intros k Hk. apply Hdown. lia.
Qed.

End fairness.

Section driver.
Context `{QuantityAPI} `{GoSort} `{CDIAPI} `{!ResourceJSON} `{MetricsAPI} `{KubeletPlugin}.
Implicit Type (d : Driver) (ex : nat → Driver).

(** ** How far a goroutine is from its end *)

Definition loop_rank (l : loop_phase) : nat :=
  match l with
  | LStopped => 0
  | LReturn => 1
  | LWaiting => 2
  | LBoot _ | LPublish _ => 3
  | LNotify _ => 4
  | LLock _ => 5
  | LEnumerate => 6
  end.

Definition main_rank (p : main_phase) : nat :=
  match p with
  | MReturned | MFailed => 0
  | MStopHelper => 1
  | MStopping => 2
  | MServing => 3
  | MBooting => 4
  end.

Definition cancelled (d : Driver) : Prop := is_Some (dr_cause d).

(** The loop leaves [select] by the case that returns.  A [select] with several cases ready
    takes any of them, so that a case that is ready again and again is not passed over for
    ever. *)
Definition select_return (d d' : Driver) : Prop := dr_loop d = LWaiting ∧ dr_loop d' = LReturn.

Definition select_fair ex : Prop := fair_choice driver_step select_return ex.

(** ** The steps of the two goroutines *)

(** The loop goes towards its end, except when it is woken in [select]. *)
Lemma loop_step d d' :
  driver_step d d' →
  dr_loop d' = dr_loop d ∨ loop_rank (dr_loop d') < loop_rank (dr_loop d) ∨
  (dr_loop d = LWaiting ∧ dr_loop d' = LEnumerate).
Proof.
  intros Hstep. step_cases Hstep; try (by left); rewrite ?Hl;
    try (right; left; cbn; lia); try (by right; right).
  - right. left. destruct ok; cbn; lia.
  - right. left. rewrite notified_eq. cbn. destruct (ResourcesChanged res); cbn; lia.
  - left. unfold kicked. by rewrite kickReconcile_eq.
Qed.

Lemma main_step d d' :
  phased d → driver_step d d' →
  dr_main d' = dr_main d ∨ main_rank (dr_main d') < main_rank (dr_main d).
Proof.
  intros [_ Pm _] Hstep. revert Pm. step_cases Hstep; intros Pm; try (by left).
  - right. rewrite Hl in Pm. assert (Hm : dr_main d = MBooting)
      by (destruct (dr_main d); case_phase Pm).
    rewrite Hm. destruct ok; cbn; lia.
  - left. by rewrite notified_eq.
  - right. rewrite Hm. cbn. lia.
  - right. rewrite Hm. cbn. lia.
  - right. rewrite Hm. cbn. lia.
  - left. unfold kicked. by rewrite kickReconcile_eq.
Qed.

(** A rediscovery returns, whatever the kernel answers. *)
Lemma apply_returns s found w answer :
  answer_ok answer →
  ∃ answers w' r, Forall answer_ok answers ∧
    run (applyDiscoveryLocked s found) answers w = (w', Some r).
Proof.
  intros Ha. set (n := 11 + 2 * length found + snapshotsOn (ds_claimDevicesPath s) w).
  exists (repeat answer n).
  assert (Hr : is_Some (run (applyDiscoveryLocked s found) (repeat answer n) w).2).
  { eapply returns_run; [apply returns_applyDiscovery|]. by rewrite repeat_length. }
  destruct (run _ (repeat answer n) w) as [w' [r|]]; [|by destruct Hr].
  exists w', r. split; [|done]. apply Forall_forall. by intros a ->%list_elem_of_In%repeat_spec.
Qed.

(** The loop is never stuck. *)
Lemma loop_moves d : dr_loop d ≠ LStopped → can_move driver_step (λ d, loop_rank (dr_loop d)) d.
Proof.
  intros Hne. unfold can_move. destruct (dr_loop d) as [r| | |found|res|r| |] eqn:Hl; [..|done].
  - exists (boot_done true r d). split; [by apply st_background, st_boot|cbn; lia].
  - exists (set_loop LEnumerate d). split; [by apply st_background, st_tick|cbn; lia].
  - eexists. split; [eapply st_background, (st_enumerate d emptyFS Hl emptyFS_ok)|cbn; lia].
  - destruct (apply_returns (dr_state d) found (dr_disk d) (failing 0) (failing_ok 0))
      as (ans & w' & [[s' res]|e] & Hans & Hrun).
    + exists (applied s' res w' d). split; [by eapply st_background, st_apply|cbn; lia].
    + exists (apply_failed w' d). split; [by eapply st_background, st_apply_err|cbn; lia].
  - exists (notified res d). split; [by apply st_background, st_notify|]. rewrite notified_eq. cbn.
    destruct (ResourcesChanged res); cbn; lia.
  - exists (publish_done true r d). split; [by apply st_background, st_publish|cbn; lia].
  - exists (loop_closed d). split; [by apply st_background, st_close|cbn; lia].
Qed.

(** Once the context is cancelled, [select] has its case that returns. *)
Lemma select_returns d :
  dr_loop d = LWaiting → cancelled d → ∃ d', driver_step d d' ∧ select_return d d'.
Proof. intros Hl Hc. exists (set_loop LReturn d). by split; [apply st_background, st_stop|]. Qed.

(** The main goroutine is not stuck once the context is cancelled and the loop has ended. *)
Lemma main_moves d :
  phased d → cancelled d → dr_loop d = LStopped → main_rank (dr_main d) ≠ 0 →
  can_move driver_step (λ d, main_rank (dr_main d)) d.
Proof.
  intros [_ Pm Pd] Hc Hl Hne. unfold can_move. rewrite Hl in *.
  destruct (dr_main d) eqn:Hm; [done|..|done|done].
  - exists (set_main MStopping d). split; [by apply st_background, st_done|cbn; lia].
  - exists (set_main MStopHelper d). split; [|cbn; lia].
    apply st_background, st_waited; [done|]. by rewrite Pd.
  - exists (set_main MReturned d). split; [by apply st_background, st_stop_helper|cbn; lia].
Qed.

(** ** The two ends *)

Section execution.
Context (f : Flags) (ex : nat → Driver).
Context (Hinit : driver_reachable f (ex 0)) (Hex : execution driver_step ex).

Lemma execution_phased i : phased (ex i).
Proof using Type*.
  eapply (execution_invariant driver_step phased ex 0); [done|apply phased_step|lia|].
  by apply (driver_monitored f).
Qed.

Lemma execution_cancelled i j : i ≤ j → cancelled (ex i) → cancelled (ex j).
Proof using Type*.
  apply (execution_invariant driver_step cancelled ex); [done|].
  intros d d' [c Hc] Hs. exists c. by eapply cause_kept.
Qed.

(** A loop that left [select] for its end does not come back. *)
Lemma execution_ending i j :
  i ≤ j → loop_rank (dr_loop (ex i)) ≤ 1 → loop_rank (dr_loop (ex j)) ≤ loop_rank (dr_loop (ex i)).
Proof using Type*.
  intros Hij Hi. apply (execution_invariant driver_step
    (λ d, loop_rank (dr_loop d) ≤ loop_rank (dr_loop (ex i))) ex i); [done| |done|done].
  intros d d' Hd Hs. destruct (loop_step d d' Hs) as [->|[?|[Hw _]]]; [done|lia|].
  rewrite Hw in Hd. cbn in Hd. lia.
Qed.

Lemma fair_loop_rank :
  fair driver_step dr_loop ex → fair driver_step (λ d, loop_rank (dr_loop d)) ex.
Proof using Type*.
  apply fair_measure. intros i. destruct (Hex i) as [->|Hs]; [by left|].
  destruct (loop_step _ _ Hs) as [?|[?|[Hw He]]]; [by left|right; lia|right; by rewrite Hw, He].
Qed.

Lemma fair_main_rank :
  fair driver_step dr_main ex → fair driver_step (λ d, main_rank (dr_main d)) ex.
Proof using Type*.
  apply fair_measure. intros i. destruct (Hex i) as [->|Hs]; [by left|].
  destruct (main_step _ _ (execution_phased i) Hs); [by left|right; lia].
Qed.

(** The rest of a rediscovery. *)
Lemma loop_selects i :
  fair driver_step dr_loop ex → ∃ j, i ≤ j ∧ loop_rank (dr_loop (ex j)) ≤ 2.
Proof using Type*.
  intros Hfair. apply (descends driver_step (λ d, loop_rank (dr_loop d)) 2 ex);
    [by apply fair_loop_rank|].
  intros j _ Hj. split; [apply loop_moves; intros He; rewrite He in Hj; cbn in Hj; lia|].
  destruct (Hex j) as [->|Hs]; [done|].
  destruct (loop_step _ _ Hs) as [->|[?|[Hw _]]]; [done|lia|]. rewrite Hw in Hj. cbn in Hj. lia.
Qed.

Lemma loop_ends i :
  fair driver_step dr_loop ex → select_fair ex → cancelled (ex i) →
  ∃ j, i ≤ j ∧ ∀ k, j ≤ k → dr_loop (ex k) = LStopped.
Proof using Type*.
  intros Hfair Hsel Hc.
  assert (Hret : ∃ j, loop_rank (dr_loop (ex j)) ≤ 1).
  { destruct Hsel as [[n Hn]|(j & _ & Hj)]; [|exists (S j); by rewrite Hj].
    destruct (loop_selects (n + i) Hfair) as (j & Hij & Hj). exists j.
    apply (execution_cancelled i j ltac:(lia)) in Hc.
    destruct (decide (loop_rank (dr_loop (ex j)) ≤ 1)) as [|Hgt]; [done|exfalso].
    apply (Hn j ltac:(lia)). apply select_returns; [|done].
    by destruct (dr_loop (ex j)); cbn in *; try lia. }
  destruct Hret as [j0 Hj0].
  destruct (descends driver_step (λ d, loop_rank (dr_loop d)) 0 ex (j0 + i)) as (j & Hij & Hj).
  { by apply fair_loop_rank. }
  { intros j Hj Hpos. split; [apply loop_moves; intros He; rewrite He in Hpos; cbn in Hpos; lia|].
    apply execution_ending; [lia|]. etrans; [apply (execution_ending j0 j)|]; [lia|done..]. }
  exists j. split; [lia|]. intros k Hk.
  assert (Hz : loop_rank (dr_loop (ex k)) ≤ 0)
    by (etrans; [apply (execution_ending j k)|]; [done|lia|done]).
  destruct (dr_loop (ex k)); cbn in *; by try lia.
Qed.

Lemma main_ends i :
  fair driver_step dr_loop ex → fair driver_step dr_main ex → select_fair ex → cancelled (ex i) →
  ∃ j, i ≤ j ∧ (dr_main (ex j) = MReturned ∨ dr_main (ex j) = MFailed).
Proof using Type*.
  intros Hfair Hmain Hsel Hc. destruct (loop_ends i Hfair Hsel Hc) as (n & Hin & Hl).
  destruct (descends driver_step (λ d, main_rank (dr_main d)) 0 ex n) as (j & Hnj & Hj).
  { by apply fair_main_rank. }
  { intros j Hj Hpos. split.
    - apply main_moves; [apply execution_phased|by apply (execution_cancelled i); [lia|]|auto|lia].
    - destruct (Hex j) as [->|Hs]; [done|].
      destruct (main_step _ _ (execution_phased j) Hs) as [->|?]; [done|lia]. }
  exists j. split; [lia|]. destruct (dr_main (ex j)); cbn in Hj; try lia; auto.
Qed.

End execution.

End driver.
