(* ===== verification/Accepts.v ===== *)
(** When the calls succeed: with readable files, and a kernel that fails none of
    the call's effects, [Prepare] of an allocated claim of available devices, given the
    minimum version of its spec, and [Unprepare] of any claim return without an error.  Together with the errors of
    [StateProps.v] this says which calls fail. *)

From Stdlib Require Import ZArith.
From stdpp Require Import options.
From S2P Require Import Prelude GoStrings GoPath GoSort Consts Types Sysfs Enumerate.
From S2P Require Import Json JsonRound Codec Ranges Effects Health Resources Cdi Checkpoint Flags.
From S2P Require Import State StateLemmas StateInv System Fixture Returns.

(** The kernel does its work: no call fails, and a temporary name is fresh. *)
Definition working (path : string) (w : World) (a : Answer) : Prop :=
  ans_fail a = false ∧ (0 ≤ ans_random a)%Z ∧
  files w !! temp_name (Dir path) (tempPrefix path) (ans_random a) = None.

Section accepts.
Context `{QuantityAPI} `{GoSort} `{CDIAPI} `{!ResourceJSON}.
Implicit Type (s : DeviceState) (claim : ResourceClaim) (w : World).

(** A device can be handed to a container when [/dev] answers [nodes]. *)
Definition available s (nodes : string → option FileInfo) (name : string) : Prop :=
  ∃ td, ds_tracked s !! name = Some td ∧ td_status td ≠ HealthStatusUnhealthy ∧
    (ds_mock s = true ∨ DeviceNode (td_Device td) = "" ∨
     nodePresent s nodes (DeviceNode (td_Device td)) = true).

Let T := (λ _ : World, True).

Lemma accept_do {A C} R (e : effect A) (k : A → prog C) Q w :
  (∀ a, R a → wp T R (k (exec e a w).2) Q (exec e a w).1) →
  wp T R (bind (perform e) k) Q w.
Proof. intros Hk. by apply wp_do. Qed.

Lemma accept_readCheckpoint (R : Answer → Prop) path c Q w :
  (∀ a, R a → ans_fail a = false) → checkpointOn path w = Some c →
  Q (Ok c) w → wp T R (readCheckpoint path) Q w.
Proof.
  intros Hf Hc HQ. apply accept_do. intros a Ha. cbn. rewrite (Hf a Ha). apply wp_ret; [done|].
  unfold checkpointOn in Hc. destruct (files w !! path) as [t|]; [|by injection Hc as ->].
  by rewrite Hc.
Qed.

Lemma accept_readClaimDevices (R : Answer → Prop) path f Q w :
  (∀ a, R a → ans_fail a = false) → claimsOn path w = Some f →
  Q (Ok f) w → wp T R (readClaimDevices path) Q w.
Proof.
  intros Hf Hc HQ. apply accept_do. intros a Ha. cbn. rewrite (Hf a Ha). apply wp_ret; [done|].
  unfold claimsOn in Hc. destruct (files w !! path) as [t|]; [|by injection Hc as ->].
  by rewrite Hc.
Qed.

Lemma accept_writeCheckpoint (R : Answer → Prop) path c Q w :
  (∀ a, R a → ans_fail a = false) → Q (Ok tt) (set_file path (marshalCheckpoint c) w) →
  wp T R (writeCheckpoint path c) Q w.
Proof.
  intros Hf HQ. unfold writeCheckpoint, WriteFile. apply wp_attempt.
  apply accept_do. intros a Ha. cbn. rewrite (Hf a Ha). cbn.
  apply accept_do. intros b Hb. cbn. rewrite (Hf b Hb), lookup_insert_eq. cbn [default].
  change ("" +:+ ?s) with s. rewrite set_file_set.
  apply accept_do. intros d Hd. cbn. rewrite (Hf d Hd). by repeat apply wp_ret.
Qed.

Lemma accept_writeClaimDevices (R : Answer → Prop) path f Q w :
  (∀ a, R a → working path w a) → (∀ w', Q (Ok tt) w') → wp T R (writeClaimDevices path f) Q w.
Proof.
  intros Hw HQ. unfold writeClaimDevices. apply accept_do. intros a Ha. cbn.
  destruct (Hw a Ha) as (-> & Hr & Hfresh). rewrite Hfresh.
  assert ((ans_random a <? 0)%Z = false) as -> by lia.
  rewrite bool_decide_eq_false_2 by (by intros []). cbn.
  apply wp_bind. apply accept_do. intros a1 Ha1. cbn. rewrite (proj1 (Hw _ Ha1)).
  apply accept_do. intros a2 Ha2. cbn. rewrite (proj1 (Hw _ Ha2)).
  apply wp_attempt, wp_perform; [done|]. intros a3 Ha3. split; [done|]. cbn. rewrite (proj1 (Hw _ Ha3)).
  apply wp_attempt, wp_perform; [done|]. intros a4 Ha4. split; [done|]. cbn. rewrite (proj1 (Hw _ Ha4)).
  rewrite !lookup_insert_eq. cbn. by repeat apply wp_ret.
Qed.

Lemma accept_deviceNodeExists (R : Answer → Prop) s nodes path Q w :
  (∀ a, R a → ans_stat a = nodes) → Q (nodePresent s nodes path) w →
  wp T R (deviceNodeExists s path) Q w.
Proof.
  intros Hn HQ. unfold deviceNodeExists. unfold nodePresent in HQ.
  destruct (ds_mock s || _); [by apply wp_ret|].
  apply accept_do. intros a Ha. cbn. rewrite (Hn a Ha). by apply wp_ret.
Qed.

Lemma available_prepareError s nodes td :
  td_status td ≠ HealthStatusUnhealthy →
  (ds_mock s = true ∨ DeviceNode (td_Device td) = "" ∨
   nodePresent s nodes (DeviceNode (td_Device td)) = true) →
  prepareError td (ds_mock s) (nodePresent s nodes (DeviceNode (td_Device td))) = None.
Proof.
  intros Hst Hnode. unfold prepareError. rewrite bool_decide_eq_false_2 by done.
  destruct Hnode as [->|[->| ->]]; cbn; [done|by rewrite andb_false_r..].
Qed.

Lemma accept_computeResults (R : Answer → Prop) s nodes uid results prepared Q w :
  (∀ a, R a → ans_stat a = nodes) →
  (∀ r, r ∈ ownResults s results → available s nodes (ar_Device r)) →
  (∀ p, Q (Ok p) w) → wp T R (computeResults s uid results prepared) Q w.
Proof.
  intros Hn Hav HQ. revert prepared Hav.
  induction results as [|r rest IH]; intros prepared Hav; cbn; [by apply wp_ret|].
  unfold ownResults in Hav. rewrite filter_cons in Hav. case_decide as Hd.
  - rewrite bool_decide_eq_true_2 by done. cbn.
    destruct (Hav r) as (td & -> & Hst & Hnode); [by left|].
    apply wp_bind, (accept_deviceNodeExists R s nodes); [done|].
    rewrite (available_prepareError s nodes) by done.
    apply IH. intros x Hx. apply Hav. by right.
  - rewrite bool_decide_eq_false_2 by done. by apply IH.
Qed.

Lemma accept_CreateClaimSpecFile (R : Answer → Prop) cdi uid devices Q w :
  (∀ a, R a → ans_fail a = false) → (∀ spec, is_ok (MinimumRequiredVersion spec) = true) →
  (∀ w', files w' = files w → Q (Ok tt) w') → wp T R (CreateClaimSpecFile cdi uid devices) Q w.
Proof.
  intros Hf Hv HQ. unfold CreateClaimSpecFile. apply wp_bind.
  apply (wp_for (λ _ _ w', w' = w)); [done|done| |].
  - intros ds x acc w0 _ -> _. apply wp_bind, wp_deviceEdits; [done|]. intros e _. by apply wp_ret.
  - intros acc w0 _ ->. specialize (Hv (mkSpec "" (kind cdi) acc)).
    destruct (MinimumRequiredVersion _); [|done].
    apply wp_attempt, wp_perform; [done|]. intros b Hb. split; [done|]. cbn. rewrite (Hf b Hb).
    apply wp_ret; [done|]. by apply HQ.
Qed.

(** What a successful call needs of the files. *)
Definition readable s w : Prop :=
  is_Some (checkpointOn (ds_checkpointPath s) w) ∧ is_Some (claimsOn (ds_claimDevicesPath s) w).

Lemma working_files path w w' a : files w' = files w → working path w a → working path w' a.
Proof. unfold working. by intros ->. Qed.

Lemma accept_Prepare s claim results nodes w :
  readable s w → (∀ spec, is_ok (MinimumRequiredVersion spec) = true) →
  Allocation claim = Some results →
  (∀ r, r ∈ ownResults s results → available s nodes (ar_Device r)) →
  wp T (λ a, working (ds_claimDevicesPath s) w a ∧ ans_stat a = nodes) (Prepare s claim)
    (λ r _, is_ok r = true) w.
Proof.
  intros [[c Hc] [f Hf]] Hv Hal Hav. set (R := λ a, _).
  assert (Hfail : ∀ a, R a → ans_fail a = false) by (by intros a [[? _] _]).
  unfold Prepare. eapply wp_try, accept_readCheckpoint; [done..|].
  eapply wp_try. unfold computeDevices. rewrite Hal.
  apply (accept_computeResults R s nodes); [by intros a []|done|]. intros p.
  apply wp_try, accept_CreateClaimSpecFile; [done..|]. intros w1 Hw1.
  apply wp_try, wp_try. eapply accept_readClaimDevices; [done|by rewrite (claimsOn_files _ w)|].
  apply accept_writeClaimDevices; [intros a [Ha _]; by eapply working_files|]. intros w2.
  case_bool_decide; [by apply wp_ret|]. apply wp_try, accept_writeCheckpoint; [done|].
  by apply wp_ret.
Qed.

Lemma accept_Unprepare s uid w :
  Base (ds_checkpointPath s) = driverPluginCheckpointFile →
  Base (ds_claimDevicesPath s) = claimDevicesFileName → readable s w →
  wp T (working (ds_claimDevicesPath s) w) (Unprepare s uid) (λ r _, is_ok r = true) w.
Proof.
  intros Hcp Hcl [[c Hc] [f Hf]]. set (R := working _ w).
  assert (Hfail : ∀ a, R a → ans_fail a = false) by (by intros a [? _]).
  unfold Unprepare. eapply wp_try, accept_readCheckpoint; [done..|].
  apply wp_try. unfold DeleteClaimSpecFile. apply wp_attempt, wp_perform; [done|].
  intros a Ha. split; [done|]. cbn. rewrite (Hfail a Ha). apply wp_ret; [done|].
  apply wp_try, accept_writeCheckpoint; [done|]. set (w2 := set_file _ _ _).
  assert (Hf2 : claimsOn (ds_claimDevicesPath s) w2 = Some f)
    by (unfold w2; rewrite claimsOn_set_ne by (by apply paths_ne); by rewrite (claimsOn_files _ w)).
  apply wp_try, wp_try. eapply accept_readClaimDevices; [done..|].
  case_match; [|by repeat apply wp_ret].
  apply accept_writeClaimDevices; [|intros w3; by apply wp_ret].
  intros b (Hb1 & Hb2 & Hb3). split_and!; [done..|]. unfold w2. cbn.
  rewrite lookup_insert_ne; [done|]. symmetry. apply (temp_ne_cp _ (ds_claimDevicesPath s)); [done..|].
  by exists (ans_random b).
Qed.

(** A loop that fails nothing. *)
Lemma accept_for {A B} (R : Answer → Prop) (l : list A) (body : B → A → prog B) Q (b : B) w :
  (∀ b x w, wp T R (body b x) (λ _ _, True) w) → (∀ b w, Q b w) → wp T R (for_each l b body) Q w.
Proof. intros Hb HQ. by apply (wp_for (λ _ _ _, True)). Qed.

Lemma accept_any {A} (R : Answer → Prop) (p : prog A) w : wp T R p (λ _ _, True) w.
Proof. revert w. induction p as [a|B e k IH]; intros w; [done|]. split; [done|]. intros a _. apply IH. Qed.

(** A rediscovery reads the files and may prune one: nothing else can fail. *)
Lemma accept_applyDiscovery s found w :
  readable s w →
  wp T (working (ds_claimDevicesPath s) w) (applyDiscoveryLocked s found) (λ r _, is_ok r = true) w.
Proof.
  intros [[c Hc] [f Hf]]. set (R := working _ w).
  assert (Hfail : ∀ a, R a → ans_fail a = false) by (by intros a [? _]).
  unfold applyDiscoveryLocked. eapply wp_try, accept_readCheckpoint; [done..|].
  eapply wp_try, accept_readClaimDevices; [done..|].
  assert (Hrest : ∀ cl w', wp T R (let! ord := perform EOrder in
      let snapshots := claimedSnapshots ord c cl in
      let! next := assessFound s found in
      let! ord := perform EOrder in
      let! next := assessSnapshots s found (permute ord (map_to_list snapshots)) next in
      let! ord := perform EOrder in
      let resources := devicesToResources (ds_nodeName s) (trackedList ord next) in
      Ret (Ok (E := error) (set_tracked s next resources,
               {| ResourcesChanged := negb (resourcesEqual (ds_driverResources s) resources);
                  HealthChanged := negb (healthEqual (ds_tracked s) next);
                  rr_Resources := resources |}))) (λ r _, is_ok r = true) w').
  { intros cl w'. apply accept_do. intros a1 _. apply wp_bind.
    apply accept_for; [intros; apply accept_any|]. intros next w1.
    apply accept_do. intros a2 _. apply wp_bind.
    apply accept_for; [intros; apply accept_any|]. intros next' w2.
    apply accept_do. intros a3 _. by apply wp_ret. }
  apply wp_try. unfold pruneStep. destruct (pruneClaimDevices c f) as [f' []].
  - apply wp_try, accept_writeClaimDevices; [done|]. intros w'. apply wp_ret; [done|]. apply Hrest.
  - apply wp_ret; [done|]. apply Hrest.
Qed.

(** The start succeeds on readable files. *)
Lemma start_accepts f cdi a answers w :
  NewCDIHandler (cdiRoot f) (flagDriverName f) (mockDevices f) = Ok cdi →
  readable (initialState f cdi) w → Forall (working (clPathOf f) w) (a :: answers) →
  11 + 2 * length (Enumerate (ans_sysfs a) (discoveryConfig f)) +
    snapshotsOn (clPathOf f) w ≤ length answers →
  ∃ w' s, run (NewDeviceState f) (a :: answers) w = (w', Some (Ok s)).
Proof.
  intros Hcdi Hread Hans Hlen. unfold NewDeviceState. rewrite Hcdi.
  apply returns_Reconcile_run with (s := initialState f cdi) in Hlen.
  destruct (run (Reconcile (initialState f cdi)) (a :: answers) w) as [w' r] eqn:Hrun.
  destruct Hlen as [x Hx]. cbn in Hx. subst r.
  assert (Hok : is_ok x = true).
  { assert (Hwp : wp T (working (clPathOf f) w) (Reconcile (initialState f cdi))
      (λ r _, is_ok r = true) w) by (apply accept_do; intros b _; by apply accept_applyDiscovery).
    exact (proj2 (wp_run _ _ _ _ _ _ Hwp Hans Hrun)). }
  destruct x as [[s res]|]; [|done]. exists w', s.
  rewrite (run_try _ _ _ fst) by (by intros []). by rewrite Hrun.
Qed.

(** C23: a [Prepare] that nothing stands against succeeds: the claim is allocated,
    its devices of this driver are tracked, not unhealthy and have their nodes; the two
    files are readable, that is absent or parsable; no system call fails and the kernel
    answers long enough; and the CDI library knows the minimum version of any spec. *)
Theorem Prepare_accepts s claim results nodes answers w :
  readable s w → (∀ spec, is_ok (MinimumRequiredVersion spec) = true) →
  Allocation claim = Some results →
  (∀ r, r ∈ ownResults s results → available s nodes (ar_Device r)) →
  Forall (λ a, working (ds_claimDevicesPath s) w a ∧ ans_stat a = nodes) answers →
  2 * length results + 12 ≤ length answers →
  ∃ w' prepared, run (Prepare s claim) answers w = (w', Some (Ok prepared)).
Proof.
  intros Hread Hv Hal Hav Hans Hlen.
  assert (Hret : is_Some (run (Prepare s claim) answers w).2).
  { eapply returns_run; [apply returns_Prepare|]. by rewrite Hal. }
  destruct (run (Prepare s claim) answers w) as [w' r] eqn:Hrun. destruct Hret as [x Hx].
  cbn in Hx. subst r.
  eapply wp_run in Hrun as [_ Hok]; [|by apply (accept_Prepare s claim results nodes)|done].
  destruct x as [prepared|]; [|done]. by exists w', prepared.
Qed.

(** C24: an [Unprepare] succeeds for every claim, prepared or not, when the
    files are readable, no call fails and the kernel answers twelve of them: releasing a
    claim twice is not an error. *)
Theorem Unprepare_accepts s uid answers w :
  state_ok s → readable s w →
  Forall (working (ds_claimDevicesPath s) w) answers → 12 ≤ length answers →
  ∃ w', run (Unprepare s uid) answers w = (w', Some (Ok tt)).
Proof.
  intros [_ _ Hcp Hcl] Hread Hans Hlen.
  assert (Hret : is_Some (run (Unprepare s uid) answers w).2)
    by (eapply returns_run; [apply returns_Unprepare|done]).
  destruct (run (Unprepare s uid) answers w) as [w' r] eqn:Hrun. destruct Hret as [x Hx].
  cbn in Hx. subst r.
  eapply wp_run in Hrun as [_ Hok]; [|by apply accept_Unprepare|done].
  destruct x as [[]|]; [|done]. by exists w'.
Qed.

End accepts.

(** ** Witnesses *)

Lemma fine_working sysfs nodes n path w :
  files w !! temp_name (Dir path) (tempPrefix path) 7 = None →
  Forall (λ a, working path w a ∧ ans_stat a = ans_stat (fine sysfs nodes))
    (repeat (fine sysfs nodes) n).
Proof. intros Hw. apply Forall_forall. by intros a ->%list_elem_of_In%repeat_spec. Qed.

Lemma Prepare_accepts_witness :
  ∃ w' prepared, run (Prepare realState (npuClaim "uid-1"))
    (repeat (fine npuFS ["/dev/accel/accel0"]) 16) emptyWorld = (w', Some (Ok prepared)).
Proof.
  apply (Prepare_accepts realState (npuClaim "uid-1") [mkResult "npu" DriverName "node1" "npu-0" None;
    mkResult "nic" "net.example.com" "node1" "eth0" None]
    (ans_stat (fine npuFS ["/dev/accel/accel0"]))).
  - split; by_compute.
  - done.
  - reflexivity.
  - intros r Hr.
    assert (Ho : ownResults realState [mkResult "npu" DriverName "node1" "npu-0" None;
      mkResult "nic" "net.example.com" "node1" "eth0" None] =
      [mkResult "npu" DriverName "node1" "npu-0" None]) by by_vm.
    rewrite Ho in Hr. apply list_elem_of_singleton in Hr. subst r.
    exists (default (newTracked zeroDevice) (ds_tracked realState !! "npu-0")).
    split; [by_vm|]. split; [by_compute|]. right. right. by_vm.
  - apply fine_working. reflexivity.
  - cbn. lia.
Defined.

Lemma Unprepare_accepts_witness :
  ∃ w', run (Unprepare mockState "uid-9") (repeat (fine emptyFS []) 12) afterPrepare =
    (w', Some (Ok tt)).
Proof.
  apply Unprepare_accepts.
  - exact mockState_ok.
  - split; by_compute.
  - eapply Forall_impl; [apply (fine_working emptyFS [])|by intros a []]. by_vm.
  - cbn. lia.
Defined.
