(* ===== verification/StateProps.v ===== *)
(** Properties of the plugin's state: what each call leaves in memory and on
    disk, on success, on error and after a crash. *)

From Stdlib Require Import Ascii ZArith.
From stdpp Require Import options.
From S2P Require Import Prelude GoStrings GoPath GoSort Consts Types Sysfs Enumerate.
From S2P Require Import Json JsonRound Codec Ranges Effects Health Resources Cdi Checkpoint Flags.
From S2P Require Import State StateLemmas StateInv System Fixture.

Section props.
Context `{QuantityAPI} `{GoSort} `{CDIAPI} `{!ResourceJSON}.

Lemma prepared_ids s claim prepared :
  prepared_all s claim prepared →
  Forall (λ p, CDIDeviceIDs p =
    GetClaimDevices (ds_cdi s) (UID claim) (DeviceName p) (ShareID p)) prepared.
Proof.
  intros (results & _ & Hp). apply Forall_lookup. intros i p Hi.
  destruct (Forall2_lookup_r _ _ _ _ _ Hp Hi) as (r & _ & td & _ & _ & ->). done.
Qed.

(** C2: in every state the plugin can reach, over any sequence of starts,
    kills at any system call, prepares, unprepares and rediscoveries with any
    failures, each claim of the checkpoint has its device snapshots in the claims file, and each
    device they name is tracked and published in the ResourceSlice of the node.  A prepared
    device is never withdrawn before its claim is unprepared. *)
Theorem prepared_devices_published (f : Flags) σ s c uid :
  config_in_range (discoveryConfig f) → reachable f σ → proc σ = Some s →
  checkpointOn (cpPathOf f) (disk σ) = Some c → isPrepared c uid →
  ∃ file devs, claimsOn (clPathOf f) (disk σ) = Some file ∧ Claims file !! uid = Some devs ∧
    ∀ d, d ∈ elems devs → Name d ≠ "" →
      is_tracked s (Name d) ∧ Name d ∈ rd_Name <$> published (Resources s) (ds_nodeName s).
Proof.
  intros Hf Hr Hp Hc Hu. apply reachable_inv in Hr; [|done]. unfold sys_inv in Hr. rewrite Hp in Hr.
  destruct Hr as (Hcfg & Hs & Hres & Hw).
  apply (configured_disk f) in Hw as (file & Hfile & Hcov); [|done].
  destruct (Hcov c Hc uid Hu) as [[devs Hdevs] Hnames]. exists file, devs. split_and!; [done..|].
  intros d Hd Hne. assert (is_tracked s (Name d)) as Ht.
  { apply Hnames; [|done]. unfold snapshotNames. rewrite Hdevs. by apply list_elem_of_fmap_2. }
  split; [done|]. by apply tracked_published.
Qed.

(** C10: a call of [Prepare] that returns devices has, for the allocation
    results of this driver in order, one device each that was tracked and not
    unhealthy; the claim is in the checkpoint exactly once more than before, its
    snapshots are in the claims file, its CDI spec lists the devices under the very IDs
    returned to the kubelet, and nothing of another claim changed.  The spec gives each
    device its environment, and its node when [os.Stat] found it as the spec was built
    (never with mock devices); so when no node comes or goes during the call, the
    devices of the spec are known exactly. *)
Theorem Prepare_success s claim answers w w' prepared :
  state_ok s → valid_utf8 (UID claim) = true →
  run (Prepare s claim) answers w = (w', Some (Ok prepared)) →
  prepared_all s claim prepared ∧
  (∃ c, checkpointOn (ds_checkpointPath s) w = Some c ∧
     checkpointOn (ds_checkpointPath s) w' = Some
       (if bool_decide (isPrepared c (UID claim)) then c else checkpointed claim c)) ∧
  (∃ f, claimsOn (ds_claimDevicesPath s) w = Some f ∧
     claimsOn (ds_claimDevicesPath s) w' = Some (mkClaimDevicesFile
       (<[UID claim := Some (map sanDevice (map discovered prepared))]> (Claims f)))) ∧
  (∃ spec, specs w' !! specName s (UID claim) = Some spec ∧
     spec_for (λ a, a ∈ answers) (ds_cdi s) (UID claim) prepared spec ∧
     Forall2 (λ p d, CDIDeviceIDs p = [QualifiedName (vendor (ds_cdi s)) cdiClass (cd_Name d)])
       prepared (SpecDevices spec) ∧
     ∀ there, nodes_steady (λ a, a ∈ answers) there prepared →
       SpecDevices spec = specDevicesFor (ds_cdi s) (UID claim) there prepared) ∧
  ∀ n, n ≠ specName s (UID claim) → specs w' !! n = specs w !! n.
Proof.
  intros Hs Hu Hrun.
  destruct (wp_run _ _ _ _ _ _ (wp_Prepare (λ a, a ∈ answers) s claim w)
    (Forall_elem answers) Hrun) as [_ Hdone].
  destruct (prepare_done_reads _ _ _ _ _ _ Hs Hu Hdone) as (c0 & f0 & Hc0 & Hf0 & Hc' & Hf').
  destruct Hdone as (w1 & f & c & spec & Ho & Hspec & Hfor & Hf & Hc & Hp & ->).
  split; [done|]. split; [by exists c0|]. split; [by exists f0|]. split.
  - exists spec. split; [by case_bool_decide|]. split; [done|].
    split; [|intros there; by apply spec_for_steady].
    destruct Hfor as (_ & _ & Hfor). apply prepared_ids in Hp. clear -Hfor Hp.
    induction Hfor as [|p d ps ds [Hn _] _ IH]; [constructor|].
    apply Forall_cons in Hp as [Hid Hp]. constructor; [|by apply IH].
    rewrite Hid. unfold GetClaimDevices. by rewrite Hn.
  - intros n Hn. destruct Ho as [_ Ho]. by case_bool_decide; apply Ho.
Qed.

(** C26: preparing a claim again, as the kubelet does after a restart, gives the
    same devices and leaves the checkpoint and the claims file saying what they said.  It
    writes the CDI spec again, of the same devices, with the nodes there are now; when no
    node of the claim came or went since the first call, it is the same spec. *)
Theorem Prepare_retry s claim answers answers' w w1 w2 p1 p2 :
  state_ok s → valid_utf8 (UID claim) = true →
  run (Prepare s claim) answers w = (w1, Some (Ok p1)) →
  run (Prepare s claim) answers' w1 = (w2, Some (Ok p2)) →
  p2 = p1 ∧
  checkpointOn (ds_checkpointPath s) w2 = checkpointOn (ds_checkpointPath s) w1 ∧
  claimsOn (ds_claimDevicesPath s) w2 = claimsOn (ds_claimDevicesPath s) w1 ∧
  ∃ spec1 spec2, specs w1 !! specName s (UID claim) = Some spec1 ∧
    specs w2 !! specName s (UID claim) = Some spec2 ∧
    spec_for (λ a, a ∈ answers') (ds_cdi s) (UID claim) p1 spec2 ∧
    ∀ there, nodes_steady (λ a, a ∈ answers) there p1 → nodes_steady (λ a, a ∈ answers') there p1 →
      spec2 = spec1.
Proof.
  intros Hs Hu Hr1 Hr2.
  destruct (wp_run _ _ _ _ _ _ (wp_Prepare (λ a, a ∈ answers) s claim w)
    (Forall_elem answers) Hr1) as [_ Hd1].
  destruct (wp_run _ _ _ _ _ _ (wp_Prepare (λ a, a ∈ answers') s claim w1)
    (Forall_elem answers') Hr2) as [_ Hd2].
  assert (p2 = p1) as ->.
  { destruct Hd1 as (? & ? & ? & ? & _ & _ & _ & _ & _ & Hd1 & _).
    destruct Hd2 as (? & ? & ? & ? & _ & _ & _ & _ & _ & Hd2 & _). by eapply prepared_all_fun. }
  destruct (prepare_done_reads _ _ _ _ _ _ Hs Hu Hd1) as (c & f & Hc & Hf & Hc1 & Hf1).
  destruct (prepare_done_reads _ _ _ _ _ _ Hs Hu Hd2) as (c' & f' & Hc' & Hf' & Hc2 & Hf2).
  rewrite Hc1 in Hc'. injection Hc' as <-. rewrite Hf1 in Hf'. injection Hf' as <-.
  split; [done|]. split; [|split].
  - rewrite Hc2, Hc1. case_bool_decide as Hp; case_bool_decide as Hp'; try done.
    destruct Hp. unfold isPrepared, checkpointed. cbn. apply elem_of_app. right. by left.
  - rewrite Hf2, Hf1. cbn. by rewrite insert_insert_eq.
  - destruct Hd1 as (w3 & f1 & c1 & spec1 & _ & Hspec1 & Hfor1 & _ & _ & _ & ->).
    destruct Hd2 as (w4 & f2 & c2 & spec2 & _ & Hspec2 & Hfor2 & _ & _ & _ & ->).
    exists spec1, spec2. split; [by destruct (bool_decide _)|].
    split; [destruct (bool_decide (isPrepared c2 _)); exact Hspec2|].
    split; [done|]. intros there Hst Hst'.
    exact (spec_for_unique _ _ _ _ _ _ _ _ Hfor1 Hfor2 Hst Hst').
Qed.

(** C14: a claim that is not allocated, or that names a device of this driver
    which is not published, or which is unhealthy, is refused: [Prepare] returns
    an error (unless it is killed) and neither the files nor the CDI specs change. *)
Theorem Prepare_rejects s claim answers w :
  (Allocation claim = None ∨
   ∃ results r, Allocation claim = Some results ∧ r ∈ ownResults s results ∧
     match ds_tracked s !! ar_Device r with
     | None => True
     | Some td => td_status td = HealthStatusUnhealthy
     end) →
  let '(w', r) := run (Prepare s claim) answers w in
  w' = w ∧ match r with Some (Ok _) => False | _ => True end.
Proof.
  intros Hbad.
  assert (Hnone : ∀ prepared, ¬ prepared_all s claim prepared).
  { intros prepared (results & Hal & Hp). destruct Hbad as [|(rs & r & Hal' & Hr & Hbad)]; [congruence|].
    rewrite Hal in Hal'. injection Hal' as <-. apply list_elem_of_lookup in Hr as [i Hi].
    destruct (Forall2_lookup_l _ _ _ _ _ Hp Hi) as (p & _ & td & Htd & Hne & _).
    by rewrite Htd in Hbad. }
  destruct (run (Prepare s claim) answers w) as [w' r] eqn:Hrun.
  assert (Hwp : wp (λ w', w' = w) (λ _, True) (Prepare s claim)
    (λ r w', match r with Ok _ => False | Err _ => True end) w).
  { unfold Prepare. apply wp_try, wp_readCheckpoint; [done| |done]. intros c Hc.
    apply wp_try, wp_computeDevices; [done| |done]. intros prepared Hp. by apply Hnone in Hp. }
  destruct (wp_run _ _ _ _ _ _ Hwp (Forall_true _ _ (λ _, I)) Hrun) as [-> Hr].
  split; [done|]. destruct r as [[]|]; done.
Qed.

(** C12: after a successful [Unprepare] the claim is gone from the checkpoint,
    from the claims file and from the CDI specs; the other claims keep their
    place in the checkpoint, their snapshots and their specs. *)
Theorem Unprepare_success s uid answers w w' :
  state_ok s → Forall answer_ok answers →
  run (Unprepare s uid) answers w = (w', Some (Ok tt)) →
  (∃ c c', checkpointOn (ds_checkpointPath s) w = Some c ∧
     checkpointOn (ds_checkpointPath s) w' = Some c' ∧
     elems (PreparedClaims c') = filter (λ u, u ≠ uid) (elems (PreparedClaims c))) ∧
  (∃ f, claimsOn (ds_claimDevicesPath s) w = Some f ∧
     claimsOn (ds_claimDevicesPath s) w' = Some (forgotten uid f)) ∧
  specs w' !! specName s uid = None ∧
  ∀ n, n ≠ specName s uid → specs w' !! n = specs w !! n.
Proof.
  intros [_ _ Hcp Hcl] Hans Hrun.
  destruct (wp_run _ _ _ _ _ _ (wp_Unprepare answer_ok s uid w Hcp Hcl) Hans Hrun) as [_ Hdone].
  destruct Hdone as (w1 & c & f & Ho & Hspec & Hc & Hf & ->).
  set (w2 := set_file (ds_checkpointPath s) _ w1).
  assert (Hw2 : ∃ c', checkpointOn (ds_checkpointPath s) w2 = Some c' ∧
    elems (PreparedClaims c') = filter (λ u, u ≠ uid) (elems (PreparedClaims c))).
  { eexists. unfold w2. rewrite (checkpointOn_set _ _ _ "" _ (eq_sym (app_nil_r_str _))).
    split; [done|]. unfold released, DeleteFunc. cbn.
    pose proof (λ u, checkpointOn_valid (ds_checkpointPath s) w c u Hc) as Hv.
    unfold isPrepared in Hv. destruct (PreparedClaims c) as [l|]; [|done]. cbn in *.
    apply map_valid_id, Forall_forall. intros v [_ Hin]%list_elem_of_filter. by apply Hv. }
  destruct Hw2 as (c' & Hc' & Hel).
  assert (Hcl2 : claimsOn (ds_claimDevicesPath s) w2 = Some f).
  { unfold w2. rewrite claimsOn_set_ne by (by apply paths_ne).
    rewrite (claimsOn_files _ w); [done|apply Ho]. }
  split; [|split; [|split]].
  - exists c, c'. split_and!; [done| |done]. case_match; [|done].
    by rewrite checkpointOn_set_ne by (intros Heq; by eapply paths_ne).
  - exists f. split; [done|]. destruct (Claims f !! uid) eqn:Hu.
    + by eapply claimsOn_forgotten.
    + rewrite Hcl2. unfold forgotten. rewrite delete_id by done. by destruct f.
  - by case_match.
  - intros n Hn. destruct Ho as [_ Ho]. by case_match; apply Ho.
Qed.

(** C11: after a successful [Reconcile] the tracked devices are exactly the
    enumerated ones and those of claims still prepared; an enumerated device has
    the record discovery gave it and is not retained, a device kept for its claims is retained,
    unhealthy and tainted [not-discovered], and the published resources are those of
    the new tracked set. *)
Theorem Reconcile_success s answers w w' s' res :
  state_ok s → Forall answer_ok answers →
  run (Reconcile s) answers w = (w', Some (Ok (s', res))) →
  ∃ a c f found, a ∈ answers ∧ found = Enumerate (ans_sysfs a) (ds_discCfg s) ∧
    checkpointOn (ds_checkpointPath s) w = Some c ∧
    claimsOn (ds_claimDevicesPath s) w' = Some f ∧
    (∀ uid, is_Some (Claims f !! uid) → isPrepared c uid) ∧
    (∀ n, is_tracked s' n ↔ n ∈ Name <$> found ∨
       (n ≠ "" ∧ ∃ uid, isPrepared c uid ∧ n ∈ snapshotNames f uid)) ∧
    (∀ n td, ds_tracked s' !! n = Some td →
       if bool_decide (n ∈ Name <$> found)
       then td_Device td ∈ found ∧ td_retained td = false
       else td_retained td = true ∧ td_status td = HealthStatusUnhealthy ∧
            td_taintValue td = TaintValueNotDiscovered) ∧
    ∃ ord, ds_driverResources s' =
      devicesToResources (ds_nodeName s') (trackedList ord (ds_tracked s')).
Proof.
  intros Hs Hans Hrun.
  destruct (wp_run _ _ _ _ _ _ (wp_Reconcile (λ a, a ∈ answers) s w)
    (proj2 (Forall_forall _ _) (λ a H, H)) Hrun) as [_ Hdone].
  destruct Hdone as (a & Ha & c & f & ord & ord' & next & Hc & Hf & -> & Hnext & -> & _).
  exists a, c, (pruneClaimDevices c f).1, (Enumerate (ans_sysfs a) (ds_discCfg s)).
  split_and!; [done..|by apply claimsOn_done| | | |by exists ord'].
  - intros uid [devs Hd]. rewrite prune_lookup in Hd. by case_bool_decide.
  - intros n. unfold is_tracked. cbn. rewrite reconciled_dom by done.
    assert (Hsn : ∀ u, isPrepared c u ∧ n ∈ snapshotNames (pruneClaimDevices c f).1 u ↔
      isPrepared c u ∧ n ∈ snapshotNames f u); [|by setoid_rewrite Hsn].
    intros u. split; intros [Hu Hin]; (split; [done|]);
      by destruct (snapshotNames_prune c f u Hu) as [Heq _]; rewrite Heq in *.
  - intros n td Htd. cbn in Htd. specialize (Hnext n).
    rewrite (bool_decide_ext _ (is_Some (foundByName (Enumerate (ans_sysfs a) (ds_discCfg s)) !! n)))
      by (by rewrite foundByName_dom).
    destruct (foundByName _ !! n) as [d|]; cbn.
    + destruct Hnext as (_ & Hd & td' & Htd' & (b1 & b2 & _ & _ & ->)). rewrite Htd in Htd'.
      injection Htd' as ->. rewrite assessEnumerated_Device. split; [done|].
      unfold assessEnumerated. by repeat case_match.
    + destruct (claimedSnapshots _ _ _ !! n); [|congruence].
      destruct Hnext as (td' & Htd' & (b & _ & ->)). rewrite Htd in Htd'. by injection Htd' as ->.
Qed.

(** C15: if /dev does not change during a [Reconcile], an enumerated device ends
    healthy when its char device exists; else unhealthy and tainted
    [node-missing] if the plugin saw the node before, and unknown, without taint, if
    it never did. *)
Theorem Reconcile_health s answers nodes w w' s' res d :
  Forall (λ a, answer_ok a ∧ ans_stat a = nodes ∧
    d ∈ Enumerate (ans_sysfs a) (ds_discCfg s)) answers →
  run (Reconcile s) answers w = (w', Some (Ok (s', res))) →
  ∃ td, ds_tracked s' !! Name d = Some td ∧ td_Device td = d ∧
    let seen := match ds_tracked s !! Name d with Some p => td_nodeSeen p | None => false end in
    if nodePresent s nodes (DeviceNode d) then
      td_status td = HealthStatusHealthy ∧ td_nodeSeen td = true ∧ IsZero (td_taintedAt td) = true
    else if seen then
      td_status td = HealthStatusUnhealthy ∧ td_taintValue td = TaintValueNodeMissing ∧
      IsZero (td_taintedAt td) = false
    else td_status td = HealthStatusUnknown ∧ td_nodeSeen td = false ∧
      IsZero (td_taintedAt td) = true.
Proof.
  intros Hans Hrun.
  destruct (wp_run _ _ _ _ _ _ (wp_Reconcile _ s w) Hans Hrun) as [_ Hdone].
  destruct Hdone as (a & (_ & _ & Hd) & c & f & ord & ord' & next & _ & _ & _ & Hnext & -> & _).
  specialize (Hnext (Name d)).
  assert (is_Some (foundByName (Enumerate (ans_sysfs a) (ds_discCfg s)) !! Name d)) as [d' Hd']
    by (apply foundByName_dom; by apply list_elem_of_fmap_2).
  rewrite Hd' in Hnext. destruct Hnext as (Hn & Hin & td & Htd & (b1 & b2 & Hb1 & Hb2 & ->)).
  assert (d' = d) as -> by (by eapply (NoDup_fmap_elem Name); [apply Enumerate_NoDup|..]).
  cbn. eexists. split; [exact Htd|]. split; [apply assessEnumerated_Device|].
  destruct Hb1 as (_ & -> & _), Hb2 as ([Hnow _] & _ & _). unfold assessEnumerated.
  destruct (nodePresent s nodes (DeviceNode d)); [done|].
  destruct (ds_tracked s !! Name d) as [p|]; [|done].
  destruct (td_nodeSeen p) eqn:Hseen; [|done]. cbn. split_and!; [done..|].
  unfold IsZero. destruct (Z.eqb_spec (td_taintedAt p) 0); [by apply Z.eqb_neq|by apply Z.eqb_neq].
Qed.

(** The entry of the health report for a tracked device. *)
Lemma health_entry s now td h :
  tracked_wf td → healthReportOf (ds_nodeName s) now [td] = [h] →
  dh_DeviceName h = td_Name td ∧ dh_PoolName h = ds_nodeName s ∧
  dh_Health h = td_status td ∧ dh_LastUpdated h = now ∧ dh_HealthCheckTimeout h = healthLease ∧
  dh_Message h = td_message td.
Proof. intros [_ _ _ Hset]. cbn. intros [= <-]. cbn. by destruct (td_status td). Qed.

Lemma toResourceDevice_tainted td :
  Taints (toResourceDevice td) ≠ [] ↔ td_status td = HealthStatusUnhealthy.
Proof. unfold toResourceDevice. cbn. case_bool_decide; naive_solver. Qed.

Lemma published_names l : rd_Name <$> map toResourceDevice l = td_Name <$> l.
Proof. induction l as [|td l IH]; [done|]. cbn. by f_equal. Qed.

(** C17: in every state the plugin can reach, the health report lists the
    published devices, each once, under the pool of the node: unhealthy exactly when the
    published device is tainted, never with an unset status, updated at the time of the
    report and valid for longer than the resend interval. *)
Theorem health_report_matches_publication (f : Flags) σ s answers w w' report :
  config_in_range (discoveryConfig f) → reachable f σ → proc σ = Some s →
  run (healthReport s) answers w = (w', Some report) →
  w' = w ∧
  dh_DeviceName <$> report ≡ₚ rd_Name <$> published (Resources s) (ds_nodeName s) ∧
  NoDup (dh_DeviceName <$> report) ∧
  ∀ h, h ∈ report →
    dh_PoolName h = ds_nodeName s ∧ dh_Health h ≠ HealthStatusUnset ∧
    (healthResendInterval < dh_HealthCheckTimeout h)%Z ∧
    (∃ a, a ∈ answers ∧ dh_LastUpdated h = ans_time a) ∧
    ∃ rd, rd ∈ published (Resources s) (ds_nodeName s) ∧ rd_Name rd = dh_DeviceName h ∧
      (dh_Health h = HealthStatusUnhealthy ↔ Taints rd ≠ []).
Proof.
  intros Hf Hr Hp Hrun. apply reachable_inv in Hr; [|done]. unfold sys_inv in Hr. rewrite Hp in Hr.
  destruct Hr as (_ & [Ht _ _ _] & [ord Hres] & _).
  destruct answers as [|a1 [|a2 rest]]; [done..|].
  cbn in Hrun. injection Hrun as <- <-. unfold Resources. rewrite Hres, published_devices.
  set (l := trackedList (ans_order a1) (ds_tracked s)).
  assert (Hl : l ≡ₚ trackedList ord (ds_tracked s)) by (unfold l; by rewrite !trackedList_perm).
  assert (Hnames : dh_DeviceName <$> healthReportOf (ds_nodeName s) (ans_time a2) l = td_Name <$> l).
  { unfold healthReportOf. clear. induction l as [|td l IH]; [done|]. cbn. by f_equal. }
  assert (Hkeys : td_Name <$> l ≡ₚ (map_to_list (ds_tracked s)).*1).
  { unfold l. rewrite trackedList_perm, <-list_fmap_compose.
    apply reflexive_eq, list_fmap_ext. intros i [n td] Hi. cbn.
    apply list_elem_of_lookup_2, elem_of_map_to_list in Hi. by destruct (Ht _ _ Hi). }
  split; [done|]. split; [|split].
  - by rewrite Hnames, Hl, published_names, SortFunc_perm.
  - rewrite Hnames, Hkeys. apply NoDup_fst_map_to_list.
  - intros h Hh. unfold healthReportOf in Hh.
    apply list_elem_of_In, in_map_iff in Hh as (td & Heq & Htd). apply list_elem_of_In in Htd.
    assert (Hwf : tracked_wf td).
    { unfold l in Htd. apply elem_of_trackedList in Htd as [n Hn]. by destruct (Ht _ _ Hn). }
    destruct (health_entry s (ans_time a2) td h Hwf) as (Hn & Hpool & Hst & Hlu & Hto & _);
      [by cbn; rewrite Heq|].
    split; [done|]. split; [rewrite Hst; apply Hwf|]. split; [by rewrite Hto|].
    split; [exists a2; split; [set_solver|done]|].
    exists (toResourceDevice td). split; [|split; [done|]].
    + apply list_elem_of_In, in_map, list_elem_of_In. by rewrite SortFunc_perm, <-Hl.
    + by rewrite toResourceDevice_tainted, Hst.
Qed.

(** C18: when the checkpoint does not parse, as after a write that was cut short,
    [Prepare], [Unprepare] and [Reconcile] all fail without touching the disk: the
    plugin cannot repair the file, and a restart fails too. *)
Theorem broken_checkpoint_blocks s claim uid f answers w :
  checkpointOn (ds_checkpointPath s) w = None → checkpointOn (cpPathOf f) w = None →
  (let '(w', r) := run (Prepare s claim) answers w in
   w' = w ∧ match r with Some (Ok _) => False | _ => True end) ∧
  (let '(w', r) := run (Unprepare s uid) answers w in
   w' = w ∧ match r with Some (Ok _) => False | _ => True end) ∧
  (let '(w', r) := run (Reconcile s) answers w in
   w' = w ∧ match r with Some (Ok _) => False | _ => True end) ∧
  (let '(w', r) := run (NewDeviceState f) answers w in
   w' = w ∧ match r with Some (Ok _) => False | _ => True end).
Proof.
  intros Hs Hf.
  assert (Hgo : ∀ A (p : prog (result error A)),
    wp (λ w', w' = w) (λ _, True) p (λ r _, is_ok r = false) w →
    let '(w', r) := run p answers w in w' = w ∧ match r with Some (Ok _) => False | _ => True end).
  { intros A p Hwp. destruct (run p answers w) as [w' r] eqn:Hrun.
    destruct (wp_run _ _ _ _ _ _ Hwp (Forall_true _ _ (λ _, I)) Hrun) as [-> Hr].
    split; [done|]. by destruct r as [[]|]. }
  split_and!; apply Hgo.
  - apply wp_try, wp_readCheckpoint; [done| |done]. intros c Hc. congruence.
  - apply wp_try, wp_readCheckpoint; [done| |done]. intros c Hc. congruence.
  - by apply wp_Reconcile_broken.
  - by apply wp_start_broken.
Qed.

End props.

(** ** Witnesses *)

Lemma prepared_devices_published_witness :
  let σ1 := sys_exec mockFlags OpStart (repeat (fine emptyFS []) 20) (mkSys None emptyWorld) in
  let σ2 := sys_exec mockFlags (OpPrepare (npuClaim "uid-1")) (repeat (fine emptyFS []) 20) σ1 in
  reachable mockFlags σ2 ∧
  ∃ file devs, claimsOn (clPathOf mockFlags) (disk σ2) = Some file ∧
    Claims file !! "uid-1" = Some devs ∧
    ∀ d, d ∈ elems devs → Name d ≠ "" →
      is_tracked mockState (Name d) ∧
      Name d ∈ rd_Name <$> published (Resources mockState) (ds_nodeName mockState).
Proof.
  intros σ1 σ2.
  assert (Hr : reachable mockFlags σ2).
  { exists (mkSys None emptyWorld). split; [apply emptyWorld_init|].
    apply rtc_l with σ1; [|apply rtc_once];
      (apply sys_do; [cbn [operation_ok]; first [exact I|reflexivity]|apply fine_all, emptyFS_ok]). }
  split; [exact Hr|].
  apply (prepared_devices_published mockFlags σ2 mockState
    (mkCheckpoint (Some ["uid-1"])) "uid-1");
    [by_compute|exact Hr|by_vm|by_vm|left].
Defined.

(** The nodes [os.Stat] finds with these answers. *)
Lemma fine_steady sysfs nodes n devices :
  nodes_steady (λ a, a ∈ repeat (fine sysfs nodes) n) (λ p, bool_decide (p ∈ nodes)) devices.
Proof.
  intros a p Ha%list_elem_of_In%repeat_spec _. subst a. unfold found_at. cbn.
  by destruct (bool_decide (_ ∈ nodes)).
Qed.

(** An NPU whose node is there: it is injected into the container. *)
Lemma Prepare_success_witness :
  let answers := repeat (fine npuFS ["/dev/accel/accel0"]) 20 in
  let r := run (Prepare realState (npuClaim "uid-1")) answers emptyWorld in
  length (resultOr [] r.2) = 1 ∧
  ∃ spec, specs r.1 !! specName realState (UID (npuClaim "uid-1")) = Some spec ∧
    map (λ d, DeviceNodes (cd_Edits d)) (SpecDevices spec) =
      [[mkCDIDeviceNode "/dev/accel/accel0" "/dev/accel/accel0"]].
Proof.
  intros answers r. split; [by_vm|].
  destruct (Prepare_success realState (npuClaim "uid-1") answers emptyWorld r.1 (resultOr [] r.2)
    realState_ok) as (_ & _ & _ & (spec & Hspec & _ & _ & Hdevs) & _); [by_vm|by_vm|].
  exists spec. split; [exact Hspec|].
  rewrite (Hdevs _ (fine_steady npuFS ["/dev/accel/accel0"] 20 _)). by_vm.
Defined.

Lemma Prepare_retry_witness :
  let answers := repeat (fine npuFS ["/dev/accel/accel0"]) 20 in
  let r1 := run (Prepare realState (npuClaim "uid-1")) answers emptyWorld in
  let r2 := run (Prepare realState (npuClaim "uid-1")) answers r1.1 in
  length (resultOr [] r1.2) = 1 ∧ resultOr [] r2.2 = resultOr [] r1.2 ∧
  specs r2.1 !! specName realState "uid-1" = specs r1.1 !! specName realState "uid-1".
Proof.
  intros answers r1 r2. split; [by_vm|].
  destruct (Prepare_retry realState (npuClaim "uid-1") (repeat (fine npuFS ["/dev/accel/accel0"]) 20)
    (repeat (fine npuFS ["/dev/accel/accel0"]) 20) emptyWorld r1.1 r2.1 (resultOr [] r1.2)
    (resultOr [] r2.2) realState_ok) as (Hp & _ & _ & spec1 & spec2 & Hs1 & Hs2 & _ & Hsame);
    [by_vm|by_vm|by_vm|].
  split; [exact Hp|]. rewrite (Hsame _ (fine_steady _ _ _ _) (fine_steady _ _ _ _)) in Hs2.
  exact (eq_trans Hs2 (eq_sym Hs1)).
Defined.

Lemma Prepare_rejects_witness :
  let claim := mkClaim "uid-1" (Some [mkResult "r" DriverName "node1" "rga-0" None]) in
  let '(w', r) := run (Prepare mockState claim) (repeat (fine emptyFS []) 20) emptyWorld in
  w' = emptyWorld ∧ match r with Some (Ok _) => False | _ => True end.
Proof.
  apply (Prepare_rejects mockState (mkClaim "uid-1" (Some [mkResult "r" DriverName "node1" "rga-0" None]))
    _ emptyWorld). right.
  exists [mkResult "r" DriverName "node1" "rga-0" None],
    (mkResult "r" DriverName "node1" "rga-0" None).
  split; [reflexivity|]. split.
  - assert (Ho : ownResults mockState [mkResult "r" DriverName "node1" "rga-0" None] =
      [mkResult "r" DriverName "node1" "rga-0" None]) by by_vm.
    rewrite Ho. left.
  - assert (Ht : ds_tracked mockState !! "rga-0" = None) by by_vm. cbn. by rewrite Ht.
Defined.

Lemma Unprepare_success_witness :
  let r := run (Unprepare mockState "uid-1") (repeat (fine emptyFS []) 20) afterPrepare in
  is_Some (specs afterPrepare !! specName mockState "uid-1") ∧
  specs r.1 !! specName mockState "uid-1" = None.
Proof.
  intros r. split; [by_compute|].
  refine (proj1 (proj2 (proj2 (Unprepare_success mockState "uid-1"
    (repeat (fine emptyFS []) 20) afterPrepare r.1 mockState_ok _ _))));
    [apply fine_all, emptyFS_ok|by_vm].
Defined.

(** The NPU vanishes while a claim uses it: it stays tracked, tainted. *)
Lemma Reconcile_success_witness :
  let r := run (Reconcile realState) (repeat (fine emptyFS []) 20) realPrepared in
  let s' := match r.2 with Some (Ok (s', _)) => s' | _ => realState end in
  is_tracked s' "npu-0" ∧
  ∃ ord, ds_driverResources s' =
    devicesToResources (ds_nodeName s') (trackedList ord (ds_tracked s')).
Proof.
  intros r s'. split; [by_compute|].
  edestruct (Reconcile_success realState (repeat (fine emptyFS []) 20) realPrepared r.1 s'
    (match r.2 with
     | Some (Ok (_, res)) => res
     | _ => mkReconcile false false (ds_driverResources realState)
     end)) as (a & c & f & found & Hrest);
    [exact realState_ok|apply fine_all, emptyFS_ok|by_vm|].
  apply Hrest.
Defined.

Lemma Reconcile_health_witness :
  let nodes := ans_stat (fine npuFS []) in
  let d := nth 0 (Enumerate npuFS (ds_discCfg realState)) zeroDevice in
  let r := run (Reconcile realState) (repeat (fine npuFS []) 20) realPrepared in
  let s' := match r.2 with Some (Ok (s', _)) => s' | _ => realState end in
  ∃ td, ds_tracked s' !! Name d = Some td ∧ td_Device td = d.
Proof.
  intros nodes d r s'.
  edestruct (Reconcile_health realState (repeat (fine npuFS []) 20) nodes realPrepared r.1 s'
    (match r.2 with
     | Some (Ok (_, res)) => res
     | _ => mkReconcile false false (ds_driverResources realState)
     end) d) as (td & Htd); [|by_vm|exists td; exact (conj (proj1 Htd) (proj1 (proj2 Htd)))].
  apply Forall_forall. intros a ->%list_elem_of_In%repeat_spec.
  split; [apply fine_ok, npuFS_ok|]. split; [done|].
  assert (Hd : [d] = Enumerate npuFS (ds_discCfg realState)) by by_vm.
  change (d ∈ Enumerate npuFS (ds_discCfg realState)). rewrite <-Hd. left.
Defined.

Lemma health_report_matches_publication_witness :
  let σ := sys_exec mockFlags OpStart (repeat (fine emptyFS []) 20) (mkSys None emptyWorld) in
  let report := default [] (run (healthReport mockState) (repeat (fine emptyFS []) 2) emptyWorld).2 in
  length report = 2 ∧
  dh_DeviceName <$> report ≡ₚ rd_Name <$> published (Resources mockState) (ds_nodeName mockState).
Proof.
  intros σ report. split; [by_vm|].
  refine (proj1 (proj2 (health_report_matches_publication mockFlags σ mockState
    (repeat (fine emptyFS []) 2) emptyWorld emptyWorld report _ _ _ _)));
    [by_compute| |by_vm|by_vm].
  exists (mkSys None emptyWorld). split; [apply emptyWorld_init|]. apply rtc_once, sys_do; [done|].
  apply fine_all, emptyFS_ok.
Defined.

(** A kill inside [os.WriteFile] leaves an empty checkpoint. *)
Lemma broken_checkpoint_blocks_witness :
  let w := (run (Prepare mockState (npuClaim "uid-1")) (repeat (fine emptyFS []) 9) emptyWorld).1 in
  files w !! cpPathOf mockFlags = Some "" ∧
  let '(w', r) := run (NewDeviceState mockFlags) (repeat (fine emptyFS []) 20) w in
  w' = w ∧ match r with Some (Ok _) => False | _ => True end.
Proof.
  intros w. split; [by_vm|].
  assert (Hs : checkpointOn (ds_checkpointPath mockState) w = None) by by_vm.
  assert (Hf : checkpointOn (cpPathOf mockFlags) w = None) by by_vm. clearbody w.
  exact (proj2 (proj2 (proj2 (broken_checkpoint_blocks mockState (npuClaim "uid-1") "uid-1"
    mockFlags (repeat (fine emptyFS []) 20) w Hs Hf)))).
Defined.
