(* ===== verification/StoreProps.v ===== *)
(** The plugin refines the abstract store of prepared claims: crash safety of the
    whole system, and the end of a device's retention. *)

From Stdlib Require Import ZArith.
From stdpp Require Import options.
From S2P Require Import Prelude GoStrings GoPath GoSort Consts Types Sysfs Enumerate.
From S2P Require Import Json JsonRound Codec Ranges Effects Health Resources Cdi Checkpoint Flags.
From S2P Require Import State StateLemmas StateInv System Store Fixture.

Section props.
Context `{QuantityAPI} `{GoSort} `{CDIAPI} `{!ResourceJSON}.
Implicit Type (s : DeviceState) (claim : ResourceClaim) (w : World).

(** ** Operations of the system as operations of the store *)

Definition effect_of (o : operation) (σ : Sys) (m m' : gmap string (list Device)) : Prop :=
  match o, proc σ with
  | OpPrepare claim, Some s => prepare_effect s claim m m'
  | OpUnprepare uid, Some _ => unprepare_effect uid m m'
  | _, _ => m' = m
  end.

(** The operations that rewrite the checkpoint. *)
Definition rewrites_checkpoint (o : operation) : bool :=
  match o with OpPrepare _ | OpUnprepare _ => true | _ => false end.

(** The operation ran, and returned without an error. *)
Definition completed (f : Flags) (o : operation) (answers : list Answer) (σ : Sys) : bool :=
  match o, proc σ with
  | OpStart, None => returned_ok (run (NewDeviceState f) answers (disk σ)).2
  | OpPrepare claim, Some s => returned_ok (run (Prepare s claim) answers (disk σ)).2
  | OpUnprepare uid, Some s => returned_ok (run (Unprepare s uid) answers (disk σ)).2
  | OpReconcile, Some s => returned_ok (run (Reconcile s) answers (disk σ)).2
  | _, _ => false
  end.

(** C6: the plugin refines an abstract store of prepared claims, through every
    start, kill, prepare, unprepare and rediscovery, whatever fails inside.  An operation
    that returns without an error has its effect on the store; one that fails or is
    killed has all of it or none; and only a [Prepare] or [Unprepare] interrupted while
    it rewrites the checkpoint leaves the store broken, from which nothing returns. *)
Theorem claim_store_refined f o answers σ :
  config_in_range (discoveryConfig f) → reachable f σ → operation_ok o → Forall answer_ok answers →
  store_step (effect_of o σ) (rewrites_checkpoint o) (completed f o answers σ)
    (storeOn (cpPathOf f) (clPathOf f) (disk σ))
    (storeOn (cpPathOf f) (clPathOf f) (disk (sys_exec f o answers σ))).
Proof.
  intros Hf Hr Ho Hans. apply reachable_inv in Hr; [|done]. unfold sys_inv in Hr.
  unfold effect_of, completed, sys_exec. destruct (proc σ) as [s|] eqn:Hp.
  - destruct Hr as ((cdi & tr & r0 & Heq) & Hs & _ & Hw).
    assert (Hst : ∀ w, storeOn (cpPathOf f) (clPathOf f) w = storeOf s w) by (by subst s).
    destruct o as [| |claim|uid|]; cbn [disk rewrites_checkpoint]; rewrite ?Hst;
      try (by apply store_step_none).
    + destruct (run (Prepare s claim) answers (disk σ)) as [w r] eqn:Hrun. cbn [disk].
      rewrite ?Hst. by eapply store_Prepare.
    + destruct (run (Unprepare s uid) answers (disk σ)) as [w r] eqn:Hrun. cbn [disk].
      rewrite ?Hst. by eapply store_Unprepare.
    + destruct (run (Reconcile s) answers (disk σ)) as [w r] eqn:Hrun. cbn [disk].
      rewrite ?Hst. by eapply store_Reconcile.
  - destruct o as [| |claim|uid|]; cbn [disk rewrites_checkpoint]; rewrite ?Hp;
      try (by apply store_step_none).
    destruct (run (NewDeviceState f) answers (disk σ)) as [w r] eqn:Hrun.
    cbn [disk]. by eapply store_start.
Qed.

(** ** The end of a device's retention *)

(** A claim of the store has the device. *)
Definition in_use (m : gmap string (list Device)) (n : string) : Prop :=
  ∃ uid devs, m !! uid = Some devs ∧ n ∈ Name <$> devs.

Lemma in_use_held c f n :
  in_use (held c f) n ↔ ∃ u, isPrepared c u ∧ n ∈ snapshotNames f u.
Proof.
  unfold in_use, snapshotNames. split.
  - intros (u & devs & Hu & Hn). exists u. rewrite held_lookup in Hu. case_bool_decide; [|done].
    split; [done|]. destruct (Claims f !! u); [|done]. by injection Hu as ->.
  - intros (u & Hu & Hn). destruct (Claims f !! u) as [sl|] eqn:Hc; [|by apply elem_of_nil in Hn].
    exists u, (elems sl). by rewrite held_lookup, bool_decide_eq_true_2, Hc.
Qed.

(** What a rediscovery tracks, by the store. *)
Lemma Reconcile_tracks s answers w w' s' res n :
  run (Reconcile s) answers w = (w', Some (Ok (s', res))) →
  (∀ a, a ∈ answers → n ∉ Name <$> Enumerate (ans_sysfs a) (ds_discCfg s)) → n ≠ "" →
  ∃ m, storeOf s w = Holds m ∧ (is_tracked s' n ↔ in_use m n).
Proof.
  intros Hrun Hgone Hn.
  destruct (wp_run _ _ _ _ _ _ (wp_Reconcile (λ a, a ∈ answers) s w)
    (proj2 (Forall_forall _ _) (λ a H, H)) Hrun) as [_ (a & Ha & Hdone)].
  destruct Hdone as (c & f & ord & ord' & next & Hc & Hf & _ & Hnext & -> & _).
  exists (held c f). unfold storeOf, storeOn. rewrite Hc, Hf. split; [done|].
  unfold is_tracked. cbn. rewrite reconciled_dom, in_use_held by done.
  apply Hgone in Ha. naive_solver.
Qed.

(** C13: a device that left the node is kept only as long as a claim needs it.  After
    a claim is released and a rediscovery succeeds, a device sysfs does not show is still
    tracked exactly when another claim of the store has it. *)
Theorem released_device_dropped s uid answers answers' w w1 w2 s' res n :
  state_ok s → Forall answer_ok answers → n ≠ "" →
  run (Unprepare s uid) answers w = (w1, Some (Ok tt)) →
  run (Reconcile s) answers' w1 = (w2, Some (Ok (s', res))) →
  (∀ a, a ∈ answers' → n ∉ Name <$> Enumerate (ans_sysfs a) (ds_discCfg s)) →
  ∃ m, storeOf s w = Holds m ∧ (is_tracked s' n ↔ in_use (delete uid m) n).
Proof.
  intros Hs Hans Hn Hrun Hrec Hgone. pose proof Hs as [_ _ Hcp Hcl].
  destruct (Reconcile_tracks _ _ _ _ _ _ _ Hrec Hgone Hn) as (m1 & Hm1 & Htr).
  destruct (wp_run _ _ _ _ _ _ (wp_Unprepare answer_ok s uid w Hcp Hcl) Hans Hrun) as [_ Hdone].
  apply store_unprepare_done in Hdone; [|done]. rewrite Hm1 in Hdone.
  inversion Hdone as [m m' Heff Hm Hm'|?? Hm Hm'|?? [=]|[=]]; [|done].
  exists m. unfold unprepare_effect in Heff. by subst m1.
Qed.

End props.

(** ** Witness *)

(** The mock plugin, started, prepares a claim: the store then has its one device. *)
Definition mockSystem : Sys := sys_exec mockFlags OpStart (repeat (fine emptyFS []) 20)
  (mkSys None emptyWorld).

Lemma mockSystem_reachable : reachable mockFlags mockSystem.
Proof.
  exists (mkSys None emptyWorld). split; [apply emptyWorld_init|]. apply rtc_once. constructor; [done|].
  apply fine_all, emptyFS_ok.
Qed.

Lemma claim_store_refined_witness :
  let o := OpPrepare (npuClaim "uid-1") in
  let answers := repeat (fine emptyFS []) 20 in
  let after := storeOn (cpPathOf mockFlags) (clPathOf mockFlags)
    (disk (sys_exec mockFlags o answers mockSystem)) in
  completed mockFlags o answers mockSystem = true ∧
  match after with
  | Holds m => map (λ p, (p.1, map Name p.2)) (map_to_list m) = [("uid-1", ["npu-0"])]
  | Broken => False
  end ∧
  store_step (effect_of o mockSystem) true (completed mockFlags o answers mockSystem)
    (storeOn (cpPathOf mockFlags) (clPathOf mockFlags) (disk mockSystem)) after.
Proof.
  intros o answers after. split; [by_vm|]. split.
  - assert (Hm : ∃ m, after = Holds m ∧
      map (λ p, (p.1, map Name p.2)) (map_to_list m) = [("uid-1", ["npu-0"])]).
    { exists match after with Holds m => m | Broken => ∅ end. split; by_vm. }
    destruct Hm as (m & -> & Hm). exact Hm.
  - apply (claim_store_refined mockFlags o answers mockSystem).
    + by_compute.
    + apply mockSystem_reachable.
    + done.
    + apply fine_all, emptyFS_ok.
Defined.

(** On sysfs: the NPU vanishes, its claim is released, and the next rediscovery drops
    it. *)
Lemma released_device_dropped_witness :
  let r := run (Unprepare realState "uid-1") (repeat (fine emptyFS []) 20) realPrepared in
  let r' := run (Reconcile realState) (repeat (fine emptyFS []) 20) r.1 in
  let s' := match r'.2 with Some (Ok (s', _)) => s' | _ => realState end in
  bool_decide (is_tracked realState "npu-0") = true ∧
  bool_decide (is_tracked s' "npu-0") = false ∧
  ∃ m, storeOf realState realPrepared = Holds m ∧
    (is_tracked s' "npu-0" ↔ in_use (delete "uid-1" m) "npu-0").
Proof.
  intros r r' s'. split; [by_vm|]. split; [by_vm|].
  refine (released_device_dropped realState "uid-1" (repeat (fine emptyFS []) 20)
    (repeat (fine emptyFS []) 20) realPrepared r.1 r'.1 s'
    (match r'.2 with
     | Some (Ok (_, res)) => res
     | _ => mkReconcile false false (ds_driverResources realState)
     end) "npu-0" realState_ok _ _ _ _ _).
  - apply fine_all, emptyFS_ok.
  - done.
  - by_vm.
  - by_vm.
  - intros a ->%list_elem_of_In%repeat_spec. by_compute.
Defined.
