(* ===== verification/FileProps.v ===== *)
(** Properties of the files the plugin keeps: their text, how they are
    replaced, and what is read from them. *)

From Stdlib Require Import Ascii ZArith.
From stdpp Require Import options.
From S2P Require Import Prelude GoStrings GoPath GoSort Consts Types Sysfs.
From S2P Require Import Json JsonRound Codec Effects Cdi Checkpoint.

(** C28: a checkpoint of UTF-8 UIDs is read back as it was written, a nil and
    an empty slice included; and no text cut short, not even by one byte or down to the
    empty file, is accepted in its place. *)
Theorem checkpoint_roundtrip cp :
  Forall (λ u, valid_utf8 u = true) (elems (PreparedClaims cp)) →
  unmarshalCheckpoint (marshalCheckpoint cp) = Some cp ∧
  ∀ p q, marshalCheckpoint cp = p +:+ q → q ≠ "" → unmarshalCheckpoint p = None.
Proof.
  intros Hv. split; [|apply unmarshalCheckpoint_torn].
  rewrite unmarshal_marshalCheckpoint. destruct cp as [[l|]]; [|done].
  cbn. do 2 f_equal. by rewrite map_valid_id.
Qed.

Lemma checkpoint_roundtrip_witness :
  let cp := mkCheckpoint (Some ["uid-1"; "a<b"]) in
  unmarshalCheckpoint (marshalCheckpoint cp) = Some cp ∧
  ∀ p q, marshalCheckpoint cp = p +:+ q → q ≠ "" → unmarshalCheckpoint p = None.
Proof.
  apply (checkpoint_roundtrip (mkCheckpoint (Some ["uid-1"; "a<b"]))). by_compute.
Defined.

(** C29: a claims file of readable devices is read back as it was written:
    every claim with its devices in order, and every field of every device. *)
Theorem claims_roundtrip f :
  claims_read f → unmarshalClaims (marshalClaims f) = Some f.
Proof.
  intros Hf. rewrite unmarshal_marshalClaims by (by apply claims_read_ok).
  assert (Hs : sanSlice <$> Claims f = Claims f).
  { apply map_eq. intros u. rewrite lookup_fmap. destruct (Claims f !! u) as [s|] eqn:Hu; [|done].
    cbn. f_equal. apply Hf in Hu as [_ Hs]. destruct s as [l|]; [|done]. cbn in *. f_equal.
    induction Hs as [|d l [_ Hd] _ IH]; [done|]. cbn. by rewrite Hd, IH. }
  rewrite Hs. by destruct f.
Qed.

Lemma claims_roundtrip_witness :
  let d := mkDevice "npu-0" "npu" "rk3588" "rockchip" "rknn" "rocket" 3 0 "/dev/accel/accel0" 3
             "" "" 44 true in
  let f := mkClaimDevicesFile (<["b" := Some [d]]> {["a" := None]}) in
  unmarshalClaims (marshalClaims f) = Some f.
Proof.
  intros d f. apply (claims_roundtrip f).
  apply map_Forall_insert_2; [|apply map_Forall_singleton]; (split; [vm_compute; reflexivity|]).
  - apply Forall_singleton. split; [by_compute|]. vm_compute. reflexivity.
  - apply Forall_nil_2.
Defined.

(** C16: replacing the claims file is atomic.  When [writeClaimDevices]
    succeeds only that file changed, to the new text; when it fails, or is
    killed, that file is untouched or, if killed, has the new text, and at most one
    temporary file is left over; after an error even that only when removing
    it failed too. *)
Theorem writeClaimDevices_atomic path f answers w :
  let '(w', r) := run (writeClaimDevices path f) answers w in
  match r with
  | Some (Ok _) => w' = set_file path (marshalClaims f) w
  | Some (Err _) => w' = w ∨ temp_left path w w'
  | None => w' = w ∨ temp_left path w w' ∨ w' = set_file path (marshalClaims f) w
  end.
Proof.
  destruct (run (writeClaimDevices path f) answers w) as [w' r] eqn:Hrun.
  assert (Hwp : wp (λ w', w' = w ∨ temp_left path w w' ∨ w' = set_file path (marshalClaims f) w)
    (λ _, True) (writeClaimDevices path f)
    (λ r w', match r with
             | Ok _ => w' = set_file path (marshalClaims f) w
             | Err _ => w' = w ∨ temp_left path w w'
             end) w).
  { apply wp_writeClaimDevices; auto. }
  destruct (wp_run _ _ _ _ _ _ Hwp (Forall_true _ _ (λ _, I)) Hrun) as [HI Hr].
  by destruct r as [[[]|e]|].
Qed.

(** Which devices of prepared claims [Reconcile] keeps does not depend on
    the order in which the claims map is visited; and if the claims agree on the
    record of each device, neither do the records. *)
Theorem claimedSnapshots_order ord ord' cp f :
  dom (claimedSnapshots ord cp f) = dom (claimedSnapshots ord' cp f) ∧
  ((∀ u u' s s' d d', isPrepared cp u → isPrepared cp u' →
      Claims f !! u = Some s → Claims f !! u' = Some s' → d ∈ elems s → d' ∈ elems s' →
      Name d = Name d' → d = d') →
   claimedSnapshots ord cp f = claimedSnapshots ord' cp f).
Proof.
  assert (Hdom : dom (claimedSnapshots ord cp f) = dom (claimedSnapshots ord' cp f)).
  { apply set_eq. intros n. by rewrite !claimedSnapshots_dom. }
  split; [done|]. intros Hagree. apply map_eq. intros n.
  destruct (claimedSnapshots ord cp f !! n) as [d|] eqn:Hd.
  - assert (n ∈ dom (claimedSnapshots ord' cp f)) as [d' Hd']%elem_of_dom
      by (rewrite <-Hdom; by apply elem_of_dom).
    rewrite Hd'. f_equal.
    apply claimedSnapshots_Some in Hd as (-> & _ & u & s & ? & ? & ?).
    apply claimedSnapshots_Some in Hd' as (? & _ & u' & s' & ? & ? & ?). by apply (Hagree u u' s s').
  - symmetry. rewrite <-not_elem_of_dom, <-Hdom, not_elem_of_dom. done.
Qed.
