(* ===== verification/DeviceProps.v ===== *)
(** Properties of a tracked device: its health over time, what is published of
    it, and how it is named in CDI. *)

From Stdlib Require Import Ascii ZArith Lia.
From stdpp Require Import options.
From S2P Require Import Prelude GoStrings GoPath GoSort Consts Types Sysfs Accel Video Enumerate.
From S2P Require Import Json JsonRound Codec Ranges Effects Health Resources Cdi.

(** ** Health over time *)

(** One rediscovery, as it concerns one device: enumerated, with or without its
    node, or lost while a claim holds it. *)
Inductive sighting :=
  | Seen (d : Device) (nodeOK : bool)
  | Lost (snap : Device).

Definition observe (e : Time * sighting) (prev : option trackedDevice) : trackedDevice :=
  match e with
  | (now, Seen d nodeOK) => assessEnumerated now d prev nodeOK
  | (now, Lost snap) => assessMissing now snap prev
  end.

(** The device after a history, oldest event first. *)
Definition history (es : list (Time * sighting)) : option trackedDevice :=
  foldl (λ prev e, Some (observe e prev)) None es.

Definition unhealthyAfter (es : list (Time * sighting)) : bool :=
  match history es with
  | Some td => bool_decide (td_status td = HealthStatusUnhealthy)
  | None => false
  end.

Lemma history_snoc es e : history (es ++ [e]) = Some (observe e (history es)).
Proof. unfold history. by rewrite foldl_app. Qed.

Lemma unhealthyAfter_snoc es e :
  unhealthyAfter (es ++ [e]) =
  bool_decide (td_status (observe e (history es)) = HealthStatusUnhealthy).
Proof. unfold unhealthyAfter. by rewrite history_snoc. Qed.

Lemma started_at (now t : Time) :
  now ≠ zeroTime → ((if IsZero t then now else t) =? 0)%Z = false.
Proof. intros Hnow. unfold IsZero. destruct (Z.eqb_spec t 0); by apply Z.eqb_neq. Qed.

(** Outside an outage no taint time is remembered. *)
Lemma history_taint es td :
  Forall (λ e, fst e ≠ zeroTime) es → history es = Some td →
  IsZero (td_taintedAt td) = negb (bool_decide (td_status td = HealthStatusUnhealthy)).
Proof.
  intros Hes. induction es as [|[now e] es _] using rev_ind; [done|].
  rewrite history_snoc. intros [= <-]. apply Forall_app in Hes as [_ [Hnow _]%Forall_cons].
  cbn in Hnow. destruct e as [d ok|snap]; cbn.
  - unfold assessEnumerated. destruct ok; [done|]. destruct (history es) as [p|]; [|done].
    destruct (td_nodeSeen p); [|done]. cbn. rewrite bool_decide_eq_true_2 by done.
    by apply started_at.
  - rewrite bool_decide_eq_true_2 by done. by apply started_at.
Qed.

(** A rediscovery that leaves the device unhealthy keeps the time of an outage
    that is already going on, and starts one otherwise. *)
Lemma observe_taint now e prev :
  td_status (observe (now, e) prev) = HealthStatusUnhealthy →
  td_taintedAt (observe (now, e) prev) =
  match prev with
  | Some p => if IsZero (td_taintedAt p) then now else td_taintedAt p
  | None => now
  end.
Proof.
  destruct e as [d ok|snap]; cbn.
  - unfold assessEnumerated. destruct ok; [done|]. destruct prev as [p|]; [|done].
    by destruct (td_nodeSeen p).
  - by destruct prev.
Qed.

(** C25: the time of a taint is the time its outage began.  However often and
    for whatever mix of reasons a device is found missing, its taint carries the clock of
    the first rediscovery since which it has been unhealthy without interruption; so
    the eviction deadline of a pod is not pushed back. *)
Theorem taint_time_is_outage_start es td :
  Forall (λ e, fst e ≠ zeroTime) es → history es = Some td →
  td_status td = HealthStatusUnhealthy →
  ∃ pre e post, es = pre ++ e :: post ∧ td_taintedAt td = fst e ∧
    unhealthyAfter pre = false ∧
    ∀ k, unhealthyAfter (pre ++ e :: take k post) = true.
Proof.
  revert td. induction es as [|[now e] es IH] using rev_ind; [done|].
  intros td Hes Htd Hst. rewrite history_snoc in Htd. injection Htd as <-.
  apply Forall_app in Hes as [Hes _].
  assert (Hu : unhealthyAfter (es ++ [(now, e)]) = true)
    by (rewrite unhealthyAfter_snoc; by apply bool_decide_eq_true).
  pose proof (observe_taint _ _ _ Hst) as Hta. destruct (unhealthyAfter es) eqn:Hprev.
  - unfold unhealthyAfter in Hprev. destruct (history es) as [p|] eqn:Hp; [|done].
    apply bool_decide_eq_true in Hprev.
    destruct (IH p Hes eq_refl Hprev) as (pre & e0 & post & -> & Ht & Hpre & Hk).
    pose proof (history_taint _ _ Hes Hp) as Hz. rewrite bool_decide_eq_true_2 in Hz by done.
    rewrite Hz in Hta. cbn in Hta.
    exists pre, e0, (post ++ [(now, e)]). split_and!; [by rewrite <-app_assoc|congruence|done|].
    intros k. destruct (decide (k ≤ length post)) as [Hle|Hgt].
    + rewrite take_app_le by done. apply Hk.
    + rewrite take_ge by (rewrite length_app; cbn; lia).
      by rewrite <-app_assoc in Hu.
  - exists es, (now, e), []. split_and!; [done| |done|].
    + unfold unhealthyAfter in Hprev. destruct (history es) as [p|] eqn:Hp; [|done].
      by rewrite (history_taint _ _ Hes Hp), Hprev in Hta.
    + intros k. by rewrite take_nil.
Qed.

Lemma taint_time_is_outage_start_witness :
  let d := zeroDevice in
  ∃ pre e post, [(10, Seen d true); (20, Seen d false); (30, Lost d); (40, Seen d false)]%Z =
      pre ++ e :: post ∧ 20%Z = fst e ∧ unhealthyAfter pre = false ∧
    ∀ k, unhealthyAfter (pre ++ e :: take k post) = true.
Proof.
  intros d.
  apply (taint_time_is_outage_start
    [(10, Seen d true); (20, Seen d false); (30, Lost d); (40, Seen d false)]%Z
    (mkTracked d HealthStatusUnhealthy "device node missing" true 20%Z TaintValueNodeMissing false)).
  - repeat constructor; discriminate.
  - vm_compute. reflexivity.
  - reflexivity.
Defined.

(** [Reconcile] reports a change of health exactly when the set of tracked
    devices changed or a device's status or message did. *)
Theorem healthEqual_exact a b :
  healthEqual a b = true ↔
  dom a = dom b ∧
  ∀ n da db, a !! n = Some da → b !! n = Some db →
    td_status da = td_status db ∧ td_message da = td_message db.
Proof. apply healthEqual_spec. Qed.

(** A device may be prepared exactly when it is not unhealthy and, outside mock
    mode, its char device exists if it has one. *)
Theorem prepareError_exact td mock nodeExists :
  prepareError td mock nodeExists = None ↔
  td_status td ≠ HealthStatusUnhealthy ∧
  (mock = true ∨ DeviceNode (td_Device td) = "" ∨ nodeExists = true).
Proof.
  unfold prepareError. case_bool_decide as Hst; [naive_solver|].
  destruct mock, nodeExists; cbn; try case_bool_decide; naive_solver.
Qed.

(** ** Publication *)

(** C33: the published ResourceSlice depends only on the set of tracked devices,
    not on the iteration order of the map nor on the sorting algorithm; it has each
    device once, in increasing order of names. *)
Theorem devicesToResources_canonical `{QuantityAPI} (S1 S2 : GoSort) node ord ord' m :
  map_Forall (λ n td, td_Name td = n) m →
  devicesToResources (H0 := S1) node (trackedList ord m) =
    devicesToResources (H0 := S2) node (trackedList ord' m) ∧
  StronglySorted String.le (rd_Name <$>
    published (devicesToResources (H0 := S1) node (trackedList ord m)) node) ∧
  (rd_Name <$> published (devicesToResources (H0 := S1) node (trackedList ord m)) node)
    ≡ₚ (map_to_list m).*1.
Proof.
  intros Hm.
  assert (Hnames : td_Name <$> trackedList ord m ≡ₚ (map_to_list m).*1).
  { rewrite trackedList_perm, <-list_fmap_compose.
    enough ((td_Name ∘ snd) <$> map_to_list m = (map_to_list m).*1) as -> by done.
    apply list_fmap_ext. intros i [n td] Hi. cbn.
    apply list_elem_of_lookup_2, elem_of_map_to_list in Hi. by apply Hm. }
  assert (Hnd : NoDup (td_Name <$> trackedList ord m))
    by (rewrite Hnames; apply NoDup_fst_map_to_list).
  split; [|split].
  - apply devicesToResources_perm; [done|]. by rewrite !trackedList_perm.
  - rewrite published_devices. change (map toResourceDevice) with (fmap (M := list) toResourceDevice).
    rewrite <-list_fmap_compose.
    pose proof (SortFunc_sorted (GoSort := S1) nameCompare (trackedList ord m) (nameCompare_weak _)) as Hs.
    revert Hs. generalize (SortFunc (GoSort := S1) nameCompare (trackedList ord m)). intros l0 Hs.
    induction Hs as [|td l _ IH Hl]; [constructor|]. cbn. constructor; [done|].
    apply Forall_fmap. eapply Forall_impl; [exact Hl|]. intros td'. by rewrite nameCompare_le.
  - rewrite published_devices. change (map toResourceDevice) with (fmap (M := list) toResourceDevice).
    rewrite <-list_fmap_compose, SortFunc_perm. exact Hnames.
Qed.

Lemma devicesToResources_canonical_witness :
  let td n := newTracked (mkDevice n "npu" "" "" "" "" 0 0 "" 1 "" "" 0 false) in
  let m : gmap string trackedDevice := <["b" := td "b"]> {["a" := td "a"]} in
  devicesToResources (H := integerQuantity) (H0 := insertion_sort) "n" (trackedList [0; 1] m) =
  devicesToResources (H := integerQuantity) (H0 := insertion_sort) "n" (trackedList [1; 0] m).
Proof.
  intros td m.
  refine (proj1 (devicesToResources_canonical (H := integerQuantity) insertion_sort insertion_sort
    "n" [0; 1] [1; 0] m _)).
  apply map_Forall_insert_2; [reflexivity|]. by apply map_Forall_singleton.
Defined.

(** The validation of a capacity request by the Kubernetes API: at least [Min],
    at most [Max], a whole number of [Step]s above [Min]. *)
Definition request_ok `{QuantityAPI} (p : CapacityRequestPolicy) (v : Z) : Prop :=
  match ValidRange p with
  | None => True
  | Some r =>
      (Value (Min r) ≤ v)%Z ∧
      match Max r with Some mx => (v ≤ Value mx)%Z | None => True end ∧
      match Step r with Some st => (Value st | v - Value (Min r))%Z | None => True end
  end.

(** C34: for every device discovery can report, the share policy admits
    exactly the requests 1 to the share count; the default is 1, it is
    admitted, and the step never leaves the capacity, as the API server demands. *)
Theorem share_policy_exact `{QuantityAPI} d :
  device_wf d →
  let p := shareRequestPolicy (MaxAllocations d) in
  (∀ v, request_ok p v ↔ (1 ≤ v ≤ MaxAllocations d)%Z) ∧
  Value (Default p) = 1%Z ∧ request_ok p (Value (Default p)) ∧
  ∃ r, ValidRange p = Some r ∧
    match Step r with
    | Some st => (Value (Min r) + Value st ≤ MaxAllocations d)%Z
    | None => MaxAllocations d = 1%Z
    end.
Proof.
  intros [_ _ Hmax _]. unfold shareRequestPolicy, request_ok.
  destruct (Z.ltb_spec (MaxAllocations d) 1); [lia|]. cbn. rewrite Value_New, Value_one.
  destruct (Z.leb_spec 2 (MaxAllocations d)) as [H2|H2]; cbn; rewrite ?Value_one.
  - split_and!; [|done|lia|lia|by exists 0%Z|].
    + intros v. split; [lia|]. intros ?. split_and!; [lia..|]. by exists (v - 1)%Z; lia.
    + eexists. split; [done|]. cbn. rewrite !Value_one. lia.
  - split_and!; [|done|lia|lia|done|]; [intros v; lia|].
    eexists. split; [done|]. cbn. lia.
Qed.

Lemma share_policy_exact_witness :
  let d := nth 0 (mockDevices (mkConfig "" "" true true true true true 0 0 0 0)) zeroDevice in
  let p := shareRequestPolicy (H := integerQuantity) (MaxAllocations d) in
  (request_ok p 3 ↔ (1 ≤ 3 ≤ 3)%Z) ∧ (request_ok p 4 ↔ (1 ≤ 4 ≤ 3)%Z).
Proof.
  intros d p. enough (Hd : device_wf d)
    by (split; apply (share_policy_exact (H := integerQuantity) d Hd)).
  pose proof (mockDevices_wf (mkConfig "" "" true true true true true 0 0 0 0)) as Hwf.
  rewrite Forall_forall in Hwf. apply Hwf. left.
Defined.

(** A published device is tainted exactly when it is unhealthy, with the
    driver's key, the cause as the value, effect [NoExecute] and the time of the
    outage; its name, type, block and node are those discovery gave. *)
Theorem published_device_exact `{QuantityAPI} td :
  tracked_wf td →
  let rd := toResourceDevice td in
  Taints rd =
    (if bool_decide (td_status td = HealthStatusUnhealthy) then
       [mkTaint TaintUnhealthy
          (if td_retained td then TaintValueNotDiscovered else TaintValueNodeMissing)
          NoExecute (Some (td_taintedAt td))]
     else []) ∧
  rd_Name rd = td_Name td ∧
  Attributes rd !! AttrType = Some (StringValue (DType (td_Device td))) ∧
  Attributes rd !! AttrDeviceNode = Some (StringValue (DeviceNode (td_Device td))) ∧
  Attributes rd !! AttrBlock =
    (if bool_decide (Block (td_Device td) = "") then None
     else Some (StringValue (Block (td_Device td)))) ∧
  Attributes rd !! AttrDeviceGID =
    (if DeviceGIDKnown (td_Device td) then Some (IntValue (DeviceGID (td_Device td))) else None).
Proof.
  intros Hwf. cbn. split.
  - case_bool_decide as Hst; [|done]. destruct (twf_unhealthy td Hwf Hst) as [Ht ->].
    unfold IsZero. by destruct (Z.eqb_spec (td_taintedAt td) 0).
  - split; [done|]. unfold attributes, set_if.
    destruct (DeviceGIDKnown _), (CoreCount _ >? 0)%Z, (ShaderCores _ >? 0)%Z; cbn;
      repeat case_bool_decide; by split_and!.
Qed.

Lemma published_device_exact_witness :
  let td := assessMissing 5%Z (mkDevice "npu-0" "npu" "" "" "" "" 0 0 "/dev/x" 1 "" "" 44 true) None in
  Taints (toResourceDevice (H := integerQuantity) td) =
    [mkTaint TaintUnhealthy TaintValueNotDiscovered NoExecute (Some 5%Z)].
Proof.
  intros td. refine (proj1 (published_device_exact (H := integerQuantity) td _)).
  by apply assessMissing_wf.
Defined.

(** ** CDI names *)

(** A published name is a fixed prefix and a number. *)
Definition name_prefixes : list string :=
  ["npu-"; "gpu-"; "rga-"] ++ ((λ b, "vpu-" +:+ b +:+ "-") <$> vpu_blocks).

Lemma device_name_shape d : device_wf d →
  ∃ p n, p ∈ name_prefixes ∧ Name d = p +:+ Itoa n ∧ (0 ≤ n)%Z.
Proof.
  intros [Hk _ _ _]. destruct Hk as [-> _ _ _ _ _ | -> _ _ _ _ |n -> Hn _ Hb _ _|i -> _ _ _ _].
  - exists "npu-", 0%Z. split_and!; [by left|done|done].
  - exists "gpu-", 0%Z. split_and!; [by right; left|done|done].
  - exists ("vpu-" +:+ Block d +:+ "-"), n. split_and!; [|by rewrite <-!app_assoc_str|done].
    apply elem_of_app. right. by apply (list_elem_of_fmap_2 (λ b, "vpu-" +:+ b +:+ "-")).
  - exists "rga-", (Z.of_nat i). split_and!; [by right; right; left|done|lia].
Qed.

(** What follows a name in a CDI device name. *)
Definition share_suffix (shareID : string) : string :=
  if bool_decide (shareID = "") then "" else "-" +:+ shareID.

Lemma cdiDeviceName_shape uid name share :
  cdiDeviceName uid name share = uid +:+ "-" +:+ name +:+ share_suffix share.
Proof.
  unfold cdiDeviceName, share_suffix. case_bool_decide.
  - by rewrite app_nil_r_str.
  - by rewrite <-!app_assoc_str.
Qed.

(** The end of a number: nothing, or a byte that is no digit. *)
Definition ends_number (s : string) : Prop :=
  match s with EmptyString => True | String c _ => is_digit c = false end.

Lemma digits_split a b s t :
  drop_digits a = "" → drop_digits b = "" → ends_number s → ends_number t →
  a +:+ s = b +:+ t → a = b ∧ s = t.
Proof.
  revert b. induction a as [|c a IH]; intros [|d b] Ha Hb Hs Ht Heq.
  - done.
  - exfalso. change ("" +:+ s) with s in Heq. subst s. cbn in Hb, Hs.
    by rewrite Hs in Hb.
  - exfalso. change ("" +:+ t) with t in Heq. subst t. cbn in Ha, Ht.
    by rewrite Ht in Ha.
  - rewrite !app_cons_str in Heq. injection Heq as -> Heq. cbn in Ha, Hb.
    destruct (is_digit d); [|done]. by destruct (IH b Ha Hb Hs Ht Heq) as [-> ->].
Qed.

Lemma Itoa_digits n : (0 ≤ n)%Z → ∃ c r, Itoa n = String c r ∧ is_digit c = true ∧ drop_digits r = "".
Proof.
  intros Hn. destruct n as [|p|p]; [by exists "0"%char, ""| |lia].
  destruct (Itoa_pos p) as (c & r & -> & _ & Hc & Hr & _). by exists c, r.
Qed.

Lemma prefix_number p q c d r t :
  p ∈ name_prefixes → q ∈ name_prefixes → is_digit c = true → is_digit d = true →
  p +:+ String c r = q +:+ String d t → p = q.
Proof.
  intros Hp Hq Hc Hd. unfold name_prefixes, vpu_blocks in Hp, Hq. cbn in Hp, Hq.
  repeat (apply elem_of_cons in Hp as [->|Hp]); try (by apply elem_of_nil in Hp);
    repeat (apply elem_of_cons in Hq as [->|Hq]); try (by apply elem_of_nil in Hq);
    lazy [String.append BlockRkvdec BlockHantroDec BlockHantroEnc BlockHantroAV1]; intros H;
    try reflexivity; exfalso; repeat (injection H as H; try discriminate H; subst);
    try discriminate Hc; try discriminate Hd; congruence.
Qed.

Lemma named_suffix_inj d1 d2 s1 s2 :
  device_wf d1 → device_wf d2 →
  Name d1 +:+ share_suffix s1 = Name d2 +:+ share_suffix s2 → Name d1 = Name d2 ∧ s1 = s2.
Proof.
  intros H1 H2. apply device_name_shape in H1 as (p & n & Hp & -> & Hn).
  apply device_name_shape in H2 as (q & m & Hq & -> & Hm). rewrite <-!app_assoc_str.
  destruct (Itoa_digits n Hn) as (c & r & -> & Hc & Hr).
  destruct (Itoa_digits m Hm) as (d & t & -> & Hd & Ht). intros Heq.
  assert (p = q) as -> by (eapply (prefix_number p q c d); [done..|exact Heq]).
  apply app_str_inv_head in Heq.
  apply digits_split in Heq as [-> Hs].
  - split; [done|]. unfold share_suffix in Hs. repeat case_bool_decide; [congruence|..];
      subst; try done. by apply app_str_inv_head in Hs.
  - cbn. by rewrite Hc.
  - cbn. by rewrite Hd.
  - unfold share_suffix. by case_bool_decide.
  - unfold share_suffix. by case_bool_decide.
Qed.

(** C35: within a claim, CDI device names tell apart the devices discovery can
    report and their shares: no device name with a share ID reads as another. *)
Theorem cdiDeviceName_inj uid d1 d2 s1 s2 :
  device_wf d1 → device_wf d2 →
  cdiDeviceName uid (Name d1) s1 = cdiDeviceName uid (Name d2) s2 →
  Name d1 = Name d2 ∧ s1 = s2.
Proof.
  intros H1 H2. rewrite !cdiDeviceName_shape. intros Heq.
  do 2 apply app_str_inv_head in Heq. by apply named_suffix_inj.
Qed.

Lemma cdiDeviceName_inj_witness :
  let d := nth 0 (mockDevices (mkConfig "" "" true true true true true 0 0 0 0)) zeroDevice in
  cdiDeviceName "u" (Name d) "s1" = "u-npu-0-s1" ∧ Name d = "npu-0" ∧ "s1" = "s1".
Proof.
  intros d. split; [reflexivity|].
  assert (Hd : device_wf d).
  { pose proof (mockDevices_wf (mkConfig "" "" true true true true true 0 0 0 0)) as Hwf.
    rewrite Forall_forall in Hwf. apply Hwf. left. }
  exact (cdiDeviceName_inj "u" d d "s1" "s1" Hd Hd eq_refl).
Defined.

(** Two discovered devices write the same environment variables exactly when
    they have the same type and block.  Blocks do not overwrite each other, but two
    devices of one block, or two RGAs, in one container do. *)
Theorem cdiEnvPrefix_class d1 d2 :
  device_wf d1 → device_wf d2 →
  cdiEnvPrefix d1 = cdiEnvPrefix d2 ↔ DType d1 = DType d2 ∧ Block d1 = Block d2.
Proof.
  assert (Hc : ∀ d, device_wf d → (DType d, Block d) ∈
    [(TypeNPU, ""); (TypeGPU, ""); (TypeRGA, ""); (TypeVPU, BlockRkvdec);
     (TypeVPU, BlockHantroDec); (TypeVPU, BlockHantroEnc); (TypeVPU, BlockHantroAV1)]).
  { intros d [Hk _ _ _].
    destruct Hk as [_ -> _ -> _ _ |_ -> _ -> _|n _ _ -> Hb _ _|i _ -> _ -> _]; try set_solver.
    unfold vpu_blocks in Hb. revert Hb. generalize (Block d). intros b Hb.
    repeat (apply elem_of_cons in Hb as [->|Hb]; [set_solver|]). by apply elem_of_nil in Hb. }
  intros H1%Hc H2%Hc. clear Hc. unfold cdiEnvPrefix.
  revert H1 H2. generalize (DType d1) (DType d2) (Block d1) (Block d2). intros t1 t2 b1 b2 H1 H2.
  split; [|by intros [-> ->]].
  repeat (apply elem_of_cons in H1 as [[= -> ->]|H1]); try (by apply elem_of_nil in H1);
    repeat (apply elem_of_cons in H2 as [[= -> ->]|H2]); try (by apply elem_of_nil in H2);
    by vm_compute.
Qed.

Lemma cdiEnvPrefix_class_witness :
  let ds := mockDevices (mkConfig "" "" true true true true true 0 0 0 0) in
  let npu := nth 0 ds zeroDevice in
  let gpu := nth 1 ds zeroDevice in
  cdiEnvPrefix npu = cdiEnvPrefix gpu ↔ DType npu = DType gpu ∧ Block npu = Block gpu.
Proof.
  intros ds npu gpu.
  assert (Hwf : ∀ d, d ∈ ds → device_wf d).
  { pose proof (mockDevices_wf (mkConfig "" "" true true true true true 0 0 0 0)) as Hwf.
    rewrite Forall_forall in Hwf. exact Hwf. }
  apply (cdiEnvPrefix_class npu gpu); apply Hwf; [left|right; left].
Defined.
