(* ===== verification/DriverProps.v ===== *)
(** Properties of the running driver: the rediscovery loop, the kubelet's
    calls and the health streams in any interleaving, and the configuration. *)

From Stdlib Require Import ZArith.
From stdpp Require Import options.
From S2P Require Import Prelude GoStrings GoPath GoSort Consts Types Sysfs Enumerate.
From S2P Require Import Codec Ranges Effects Health Resources Cdi Checkpoint Flags.
From S2P Require Import State StateLemmas StateInv System GoFloat Metrics Driver DriverInv DriverMon.
From S2P Require Import Fixture Returns DriverLive.

Section props.
Context `{QuantityAPI} `{GoSort} `{CDIAPI} `{!ResourceJSON} `{MetricsAPI} `{KubeletPlugin}.

(** C8: the driver refines the plugin at the grain of its mutex: whatever the
    interleaving of its goroutines, its memory and its disk are those of some sequence
    of whole starts, kills, prepares, unprepares and rediscoveries.  What holds of
    every state of [System.v] holds while the driver runs. *)
Theorem driver_refines_system f d :
  config_in_range (discoveryConfig f) → driver_reachable f d →
  reachable f (mkSys (Some (dr_state d)) (dr_disk d)).
Proof. intros Hf Hr. by apply (driver_simulated f d Hf Hr). Qed.

(** C7: in every interleaving of the rediscovery loop, which reads sysfs outside the
    mutex, with prepares, unprepares and the health stream, the devices of
    each prepared claim are tracked; and whenever the driver is not about to
    publish, and no publication failed, the helper was given the current
    resources. *)
Theorem driver_coherent f d :
  config_in_range (discoveryConfig f) → driver_reachable f d →
  (∀ c file uid n, checkpointOn (cpPathOf f) (dr_disk d) = Some c →
     claimsOn (clPathOf f) (dr_disk d) = Some file → isPrepared c uid →
     n ∈ snapshotNames file uid → n ≠ "" → is_tracked (dr_state d) n) ∧
  (dr_publishFailed d = false →
   match dr_loop d with LBoot _ | LNotify _ | LPublish _ => False | _ => True end →
   same_published (dr_published d) (Resources (dr_state d))).
Proof.
  intros Hf Hr. apply driver_reachable_inv in Hr as [Hsys _ Hpub _ _]; [|done]. split.
  - intros c file uid n Hc Hfile Hu Hn Hne. destruct Hsys as (Hcfg & _ & _ & Hw).
    apply (configured_disk f) in Hw as (file' & Hfile' & Hcov); [|done].
    cbn in Hfile'. rewrite Hfile in Hfile'. injection Hfile' as <-. by apply (Hcov c Hc uid Hu).
  - intros Hfail Hl. specialize (Hpub Hfail). by destruct (dr_loop d).
Qed.

(** C19: no wake-up is lost.  A claim released since the last rediscovery took the mutex
    has a token in [reconcileNow], or a rediscovery on its way, or the call that released
    it is about to send the token.  As long as no two health streams were open at once, a
    stream that has not reported the last change is about to build a report, or has a
    token in [healthChanged], or the loop is about to send one. *)
Theorem no_lost_wakeup f d :
  config_in_range (discoveryConfig f) → driver_reachable f d →
  (g_released d = true →
   dr_reconcileNow d = Some true ∨ dr_loop d = LEnumerate ∨ (∃ found, dr_loop d = LLock found) ∨
   ∃ i start, dr_threads d !! i = Some (TKick start)) ∧
  (g_many d = false → ∀ i x, dr_watch d !! i = Some x → g_stale x = true →
   w_phase x = WReport ∨ dr_healthChanged d = Some true ∨
   ∃ res, dr_loop d = LNotify res ∧ HealthChanged res = true).
Proof.
  intros Hf Hr. split; [by apply driver_reachable_inv in Hr as [_ _ _ _ ?]|].
  intros Hg i x Hx Hs. by apply (so_told d (driver_streams f d Hr) i).
Qed.

(** C31: a failed [PublishResources] is not retried: the new resources are already
    stored, so a later rediscovery that finds the same ones sees no change and the API
    server keeps the old ones. *)
Theorem failed_publish_not_retried d r found answers w' s' res :
  dr_loop d = LPublish r →
  let d1 := publish_done false r d in
  run (applyDiscoveryLocked (dr_state d1) found) answers (dr_disk d1) = (w', Some (Ok (s', res))) →
  resourcesEqual (ds_driverResources (dr_state d1)) (ds_driverResources s') = true →
  let d2 := notified res (applied s' res w' d1) in
  dr_loop d1 = LWaiting ∧ dr_loop d2 = LWaiting ∧
  dr_published d1 = dr_published d ∧ dr_published d2 = dr_published d.
Proof.
  intros Hl d1 Hrun Heq d2.
  destruct (wp_run _ _ _ _ _ _ (wp_applyDiscovery (λ _, True) (dr_state d1) found (dr_disk d1))
    (Forall_true _ _ (λ _, I)) Hrun) as [_ Hr].
  destruct Hr as (c & fl & ord & ord' & next & _ & _ & _ & _ & Hs' & Hres).
  assert (Hch : ResourcesChanged res = false).
  { rewrite Hres. apply negb_false_iff. rewrite Hs' in Heq. exact Heq. }
  unfold d2. by rewrite notified_eq, Hch.
Qed.

(** C32: [PrepareResourceClaims] answers for exactly the claims it was given, and
    the counters agree with the answers: one success or one error per claim. *)
Theorem PrepareResourceClaims_answers s claims m answers w w' m' result :
  NoDup (UID <$> claims) → metrics_ok m →
  run (PrepareResourceClaims s claims m) answers w = (w', Some (m', result)) →
  dom result = list_to_set (UID <$> claims) ∧
  counted m' PrepareClaimsTotal resultSuccess = counted m PrepareClaimsTotal resultSuccess +
    size (filter (λ '(_, r), is_ok r = true) result) ∧
  counted m' PrepareClaimsTotal resultError = counted m PrepareClaimsTotal resultError +
    size (filter (λ '(_, r), is_ok r = false) result) ∧
  size result = length claims.
Proof.
  intros Hnd Hm Hrun.
  destruct (wp_run _ _ _ _ _ _ (wp_answers UID _ _ m (prepareResourceClaim s) claims w Hnd Hm
    (wp_prepare_counts s)) (Forall_true _ _ (λ _, I)) Hrun) as [_ Hx].
  split_and!; [apply Hx..|]. by apply (answered_size _ _ _ _ _ _ Hnd Hx).
Qed.

(** [UnprepareResourceClaims] likewise answers for exactly the UIDs it was
    given, with counters that agree. *)
Theorem UnprepareResourceClaims_answers s uids m answers w w' m' result :
  state_ok s → NoDup uids → metrics_ok m →
  run (UnprepareResourceClaims s uids m) answers w = (w', Some (m', result)) →
  dom result = list_to_set uids ∧
  counted m' UnprepareClaimsTotal resultSuccess = counted m UnprepareClaimsTotal resultSuccess +
    size (filter (λ '(_, r), is_ok r = true) result) ∧
  counted m' UnprepareClaimsTotal resultError = counted m UnprepareClaimsTotal resultError +
    size (filter (λ '(_, r), is_ok r = false) result) ∧
  size result = length uids.
Proof.
  intros [_ _ Hcp Hcl] Hnd Hm Hrun. rewrite <-(list_fmap_id uids) in Hnd.
  destruct (wp_run _ _ _ _ _ _ (wp_answers id _ _ m (unprepareResourceClaim s) uids w Hnd Hm
    (λ u m w, wp_unprepare_counts s u m w Hcp Hcl)) (Forall_true _ _ (λ _, I)) Hrun) as [_ Hx].
  split_and!; [|apply Hx..|by apply (answered_size _ _ _ _ _ _ Hnd Hx)].
  rewrite <-(list_fmap_id uids). apply Hx.
Qed.

(** A recoverable background error changes nothing; any other one is counted and, when
    the driver has its cancel function, cancels the main context, whose cause stays the
    first one, wrapped so that [errors.Is] still finds it. *)
Theorem HandleError_exact cancelCtx err m cause :
  metrics_ok m →
  let '(m', cause') := HandleError cancelCtx err m cause in
  if ErrorsIs err ErrRecoverable then m' = m ∧ cause' = cause
  else fatalErrors m' = S (fatalErrors m) ∧
    match cancelCtx, cause with
    | false, _ => cause' = cause
    | true, Some c => cause' = Some c
    | true, None => ∃ c, cause' = Some c ∧ ErrorsIs c err = true ∧ ErrorsIs c ErrRecoverable = false
    end.
Proof.
  intros Hm. unfold HandleError. destruct (ErrorsIs err ErrRecoverable) eqn:Hr; [done|].
  split; [by apply IncFatal_ok|]. destruct cancelCtx, cause as [c|]; try done.
  eexists. split; [done|]. split; cbn.
  - apply orb_true_iff. right. destruct err; cbn; by rewrite bool_decide_eq_true_2.
  - rewrite Hr, bool_decide_eq_false_2; [done|].
    intros Heq. by eapply recoverable_sentinel.
Qed.

(** C21: in every interleaving of the calls, the background errors, the signals and the
    loop: a counted operation has its latency observed, but for the calls that are
    between the two; a fatal error that was counted has cancelled the main context, or is
    about to; the cause is a signal, or a non-recoverable error, wrapped, or [Canceled]
    after [NewDriver] has failed; and the loop only ends once the context is cancelled,
    unless [NewDriver] failed and never started it. *)
Theorem driver_monitored_cancelled f d :
  driver_reachable f d →
  (∀ op result, result ∈ [resultSuccess; resultError] →
     counter (dr_metrics d) (totalOf op) [result] =
     Some (length (observations (dr_metrics d) (durationOf op) [result]) +
           inflight op result (dr_threads d))) ∧
  (fatalErrors (dr_metrics d) ≠ 0 →
     is_Some (dr_cause d) ∨ ∃ i err, dr_threads d !! i = Some (TCancel err)) ∧
  (∀ c, dr_cause d = Some c →
     (∃ sig, c = signalError sig) ∨ (c = Canceled ∧ dr_main d = MFailed) ∨
     ∃ err, c = EWrap "fatal background error" err ∧ ErrorsIs err ErrRecoverable = false) ∧
  (dr_loop d = LReturn ∨ dr_loop d = LStopped →
     is_Some (dr_cause d) ∨ dr_main d = MFailed).
Proof.
  intros Hr. destruct (driver_monitored f d Hr) as [[_ Hlat _ Hfatal _ Hcause] [Hend _ _]].
  split_and!; [done|done| |done].
  intros c [?|[?|(err & ? & ? & _)]]%Hcause; [by left|by right; left|right; right; by exists err].
Qed.

(** With the [signal.NotifyContext] of go.mod's Go, [RunPlugin] logs the cause of every
    stop by a signal as an error. *)
Lemma signal_reported sig : reportsCause (Some (signalError sig)) = true.
Proof. by destruct sig. Qed.

(** C20: [Shutdown] returns.  In every execution in which the loop and the main goroutine
    are scheduled again and again while they can move, and [select] does not pass over for
    ever the case that makes the loop return: after a cancellation of the main context
    [RunPlugin] comes to the end of [Shutdown], unless [NewDriver] fails at its first
    publication.  The helper is only stopped once the loop has ended. *)
Theorem Shutdown_returns f ex i :
  driver_reachable f (ex 0) → execution driver_step ex →
  fair driver_step dr_loop ex → fair driver_step dr_main ex → select_fair ex →
  is_Some (dr_cause (ex i)) →
  (∃ j, i ≤ j ∧ (dr_main (ex j) = MReturned ∨
     (dr_main (ex j) = MFailed ∧ dr_publishFailed (ex j) = true))) ∧
  (∀ j, dr_main (ex j) = MStopHelper ∨ dr_main (ex j) = MReturned → dr_loop (ex j) = LStopped).
Proof.
  intros Hr Hex Hloop Hmain Hsel Hc. split.
  { edestruct main_ends as (j & Hij & Hj); [done..|]. exists j. split; [done|].
    destruct Hj as [?|Hm]; [by left|right]. split; [done|].
    destruct (execution_phased f ex Hr Hex j) as [_ Pm _]. by rewrite Hm in Pm; destruct Pm. }
  intros j Hm. destruct (execution_phased f ex Hr Hex j) as [_ Pm _].
  by destruct Hm as [Hm|Hm]; rewrite Hm in Pm; destruct Pm.
Qed.

(** C39: the type flags select what is discovered, except that disabling every
    type enables all of them: the plugin cannot be told to publish nothing. *)
Theorem type_flags f fs :
  ((npuEnabled f || gpuEnabled f || vpuEnabled f || rgaEnabled f) = true →
   ∀ d, d ∈ Enumerate fs (discoveryConfig f) → enabledOf (discoveryConfig f) (DType d) = true) ∧
  ((npuEnabled f || gpuEnabled f || vpuEnabled f || rgaEnabled f) = false →
   Enumerate fs (discoveryConfig f) =
   Enumerate fs (mkConfig (sysfsRoot f) (devRoot f) (mockDevices f) true true true true
     (npuMaxAllocations f) (gpuMaxAllocations f) (vpuMaxAllocations f) (rgaMaxAllocations f))).
Proof.
  split.
  - intros Hany d Hd.
    assert (Hc : enabledOf (defaultConfig (discoveryConfig f)) (DType d) =
      enabledOf (discoveryConfig f) (DType d)).
    { unfold defaultConfig, enabledOf. cbn.
      destruct (npuEnabled f), (gpuEnabled f), (vpuEnabled f), (rgaEnabled f); done. }
    rewrite <-Hc. by eapply Enumerate_selected.
  - intros Hnone. unfold Enumerate.
    assert (Hc : defaultConfig (discoveryConfig f) = defaultConfig
      (mkConfig (sysfsRoot f) (devRoot f) (mockDevices f) true true true true
        (npuMaxAllocations f) (gpuMaxAllocations f) (vpuMaxAllocations f) (rgaMaxAllocations f))).
    { unfold defaultConfig. cbn.
      destruct (npuEnabled f), (gpuEnabled f), (vpuEnabled f), (rgaEnabled f); done. }
    by rewrite Hc.
Qed.

End props.

(** ** Witnesses *)

(** A driver whose helper was just started. *)
Definition bootOf (s : DeviceState) (w : World) : Driver :=
  mkDriver s w true (Some false) (Some false) None MBooting (LBoot (Resources s)) ∅ ∅
    (mkResources ∅) false startMetrics None false false.

(** The driver after its start with mock devices, then with a claim of the NPU
    prepared, then with that claim released. *)
Definition driverBoot : Driver := bootOf mockState startMock.1.

Definition driverStart : Driver := boot_done true (Resources mockState) driverBoot.

Definition preparedRun := run (Prepare mockState (npuClaim "uid-1"))
  (repeat (fine emptyFS []) 20) startMock.1.

Definition driverPrepared : Driver :=
  prepare_returned 0 0 (prepareResult (npuClaim "uid-1") (default (Err EJSON) preparedRun.2))
    preparedRun.1 driverStart.

Definition releasedRun := run (Unprepare mockState "uid-1")
  (repeat (fine emptyFS []) 20) (dr_disk driverPrepared).

Definition driverReleased : Driver := released_claim 1 0 releasedRun.1 driverPrepared.

Lemma bootOf_init f s w answers :
  run (NewDeviceState f) answers emptyWorld = (w, Some (Ok s)) →
  Forall answer_ok answers → driver_init f (bootOf s w).
Proof.
  intros Hrun Hans. exists (mkSys None emptyWorld), answers.
  split; [apply emptyWorld_reachable|].
  split_and!; [done|exact Hans|exact Hrun|reflexivity..| |reflexivity|reflexivity|reflexivity].
  exists noMetrics. split; [apply noMetrics_fresh|by_vm].
Qed.

Lemma driverBoot_init : driver_init mockFlags driverBoot.
Proof. apply (bootOf_init _ _ _ (repeat (fine emptyFS []) 20)); [by_vm|apply fine_all, emptyFS_ok]. Qed.

Lemma run_completes {A} (p : prog A) answers w (d : A) :
  is_Some (run p answers w).2 →
  run p answers w = ((run p answers w).1, Some (default d (run p answers w).2)).
Proof. destruct (run p answers w) as [w' r]. by intros [? Hr]; cbn in *; subst. Qed.

Lemma driverStart_step : driver_step driverBoot driverStart.
Proof. by apply st_background, st_boot. Qed.

Lemma driverPrepared_step : driver_step driverStart driverPrepared.
Proof.
  eapply st_call, (kc_prepare _ 0 0 (npuClaim "uid-1") (repeat (fine emptyFS []) 20));
    [done|by_vm|apply fine_all, emptyFS_ok|by_vm].
Qed.

Lemma driverReleased_step : driver_step driverPrepared driverReleased.
Proof.
  eapply st_call, (kc_unprepare _ 1 0 "uid-1" (repeat (fine emptyFS []) 20));
    [by_vm|apply fine_all, emptyFS_ok|by_vm].
Qed.

Lemma driverStart_reachable : driver_reachable mockFlags driverStart.
Proof. exists driverBoot. split; [exact driverBoot_init|apply rtc_once, driverStart_step]. Qed.

Lemma driver_reachable_more f d d' : driver_reachable f d → rtc driver_step d d' → driver_reachable f d'.
Proof. intros (d0 & Hinit & Hsteps) Hmore. exists d0. split; [done|by etrans]. Qed.

Lemma driverPrepared_reachable : driver_reachable mockFlags driverPrepared.
Proof. eapply driver_reachable_more; [exact driverStart_reachable|apply rtc_once, driverPrepared_step]. Qed.

Lemma driverReleased_reachable : driver_reachable mockFlags driverReleased.
Proof. eapply driver_reachable_more; [exact driverPrepared_reachable|apply rtc_once, driverReleased_step]. Qed.

Lemma driver_refines_system_witness :
  isPrepared (default (mkCheckpoint None)
    (checkpointOn (cpPathOf mockFlags) (dr_disk driverPrepared))) "uid-1" ∧
  reachable mockFlags (mkSys (Some (dr_state driverPrepared)) (dr_disk driverPrepared)).
Proof.
  split; [by_compute|].
  apply (driver_refines_system mockFlags driverPrepared); [by_compute|exact driverPrepared_reachable].
Defined.

Lemma driver_coherent_witness :
  driver_reachable mockFlags driverPrepared ∧
  is_tracked (dr_state driverPrepared) "npu-0" ∧
  same_published (dr_published driverPrepared) (Resources (dr_state driverPrepared)).
Proof.
  pose proof driverPrepared_reachable as Hr.
  destruct (driver_coherent mockFlags driverPrepared) as [Hclaims Hpub]; [by_compute|exact Hr|].
  split; [exact Hr|]. split; [|apply Hpub; [reflexivity|exact I]].
  refine (Hclaims (mkCheckpoint (Some ["uid-1"]))
    (default (mkClaimDevicesFile ∅) (claimsOn (clPathOf mockFlags) (dr_disk driverPrepared)))
    "uid-1" "npu-0" _ _ _ _ _); [by_vm|by_vm|left|by_compute|done].
Defined.

Lemma no_lost_wakeup_witness :
  g_released driverReleased = true ∧
  (dr_reconcileNow driverReleased = Some true ∨ dr_loop driverReleased = LEnumerate ∨
   (∃ found, dr_loop driverReleased = LLock found) ∨
   ∃ i start, dr_threads driverReleased !! i = Some (TKick start)).
Proof.
  assert (Hg : g_released driverReleased = true) by reflexivity. split; [exact Hg|].
  refine (proj1 (no_lost_wakeup mockFlags driverReleased _ _) Hg);
    [by_compute|exact driverReleased_reachable].
Defined.

(** A mock NPU changes nothing: the rediscovery after the failed publication finds
    the same devices. *)
Lemma failed_publish_not_retried_witness :
  let d := set_loop (LPublish (mkResources ∅)) driverStart in
  let out := run (applyDiscoveryLocked mockState (Enumerate emptyFS (ds_discCfg mockState)))
               (repeat (fine emptyFS []) 20) startMock.1 in
  let s' := match out.2 with Some (Ok (s', _)) => s' | _ => blankState end in
  let res := match out.2 with
             | Some (Ok (_, res)) => res
             | _ => mkReconcile true true (mkResources ∅)
             end in
  dr_loop (notified res (applied s' res out.1 (publish_done false (mkResources ∅) d))) = LWaiting.
Proof.
  intros d out s' res.
  refine (proj1 (proj2 (failed_publish_not_retried d (mkResources ∅)
    (Enumerate emptyFS (ds_discCfg mockState)) (repeat (fine emptyFS []) 20) out.1 s' res _ _ _)));
    [reflexivity|by_vm|by_vm].
Defined.

(** One claim that succeeds and one that is not allocated. *)
Lemma PrepareResourceClaims_answers_witness :
  let claims := [npuClaim "uid-1"; mkClaim "uid-2" None] in
  let out := run (PrepareResourceClaims mockState claims startMetrics)
               (repeat (fine emptyFS []) 40) emptyWorld in
  let m' := (default (startMetrics, ∅) out.2).1 in
  counted m' PrepareClaimsTotal resultSuccess = 1 ∧ counted m' PrepareClaimsTotal resultError = 1 ∧
  size (default (startMetrics, ∅) out.2).2 = 2.
Proof.
  intros claims out m'. split; [by_vm|]. split; [by_vm|].
  refine (proj2 (proj2 (proj2 (PrepareResourceClaims_answers mockState claims startMetrics
    (repeat (fine emptyFS []) 40) emptyWorld out.1 m' (default (startMetrics, ∅) out.2).2 _
    startMetrics_ok _))));
    [by_compute|by_vm].
Defined.

Lemma UnprepareResourceClaims_answers_witness :
  let out := run (UnprepareResourceClaims mockState ["uid-1"; "uid-2"] startMetrics)
               (repeat (fine emptyFS []) 40) afterPrepare in
  let m' := (default (startMetrics, ∅) out.2).1 in
  counted m' UnprepareClaimsTotal resultSuccess = 2 ∧
  size (default (startMetrics, ∅) out.2).2 = 2.
Proof.
  intros out m'. split; [by_vm|].
  refine (proj2 (proj2 (proj2 (UnprepareResourceClaims_answers mockState ["uid-1"; "uid-2"]
    startMetrics (repeat (fine emptyFS []) 40) afterPrepare out.1 m'
    (default (startMetrics, ∅) out.2).2 mockState_ok _ startMetrics_ok _))));
    [by_compute|by_vm].
Defined.

(** The rest of the two calls, and a fatal error from the helper: counted, then cancelled. *)
Definition observedAt (i : nat) (op : claim_op) (d : Driver) : Driver :=
  latency_observed i op "success" (Since 0 5) (claim_counted i op 0 5 None d).

Definition driverIdle : Driver :=
  observedAt 1 Unpreparing (kicked 1 0 (observedAt 0 Preparing driverReleased)).

Definition driverFatal : Driver :=
  fatal_cancelled 2 (EText "boom") (fatal_counted 2 (EText "boom") driverIdle).

Lemma observedAt_steps i op d :
  dr_threads d !! i = Some (TObserve op 0 None) → rtc driver_step d (observedAt i op d).
Proof.
  intros Hi. eapply rtc_l; [by apply st_background, (st_count d i op 0 None 5)|].
  apply rtc_once. apply st_background, st_latency. apply lookup_insert_eq.
Qed.

Lemma driverFatal_reachable : driver_reachable mockFlags driverFatal.
Proof.
  eapply driver_reachable_more; [exact driverReleased_reachable|].
  etrans; [apply (observedAt_steps 0 Preparing); by_vm|].
  eapply rtc_l; [apply st_background, (st_kick _ 1 0); by_vm|].
  etrans; [apply (observedAt_steps 1 Unpreparing); by_vm|]. fold driverIdle.
  eapply rtc_l; [apply st_background, (st_handle_error driverIdle 2 (EText "boom")); by_vm|].
  apply rtc_once. apply st_background, st_cancel. by_vm.
Qed.

(** A latency of each call, and a cancelled context. *)
Lemma driver_monitored_cancelled_witness :
  let observed o := length (observations (dr_metrics driverFatal) o ["success"]) in
  observed PrepareClaimDurationSeconds = 1 ∧ observed UnprepareClaimDurationSeconds = 1 ∧
  fatalErrors (dr_metrics driverFatal) = 1 ∧
  (is_Some (dr_cause driverFatal) ∨ ∃ i err, dr_threads driverFatal !! i = Some (TCancel err)).
Proof.
  intros observed. split; [by_vm|]. split; [by_vm|].
  assert (Hf : fatalErrors (dr_metrics driverFatal) = 1) by by_vm. split; [exact Hf|].
  apply (driver_monitored_cancelled mockFlags driverFatal); [exact driverFatal_reachable|by rewrite Hf].
Defined.

(** A driver that is stopped by a signal, step by step. *)
Definition stopped0 : Driver := cancelled_by (signalError SIGTERM) driverStart.
Definition stopped1 : Driver := set_loop LReturn stopped0.
Definition stopped2 : Driver := loop_closed stopped1.
Definition stopped3 : Driver := set_main MStopping stopped2.
Definition stopped4 : Driver := set_main MStopHelper stopped3.
Definition stopped5 : Driver := set_main MReturned stopped4.

Definition stopping (i : nat) : Driver :=
  match i with
  | 0 => stopped0
  | 1 => stopped1
  | 2 => stopped2
  | 3 => stopped3
  | 4 => stopped4
  | _ => stopped5
  end.

Lemma stopping_execution : execution driver_step stopping.
Proof.
  intros [|[|[|[|[|i]]]]]; [right; apply st_background..|by left].
  - apply st_stop; [done|by eexists].
  - by apply st_close.
  - apply st_done; [done|by eexists].
  - by apply st_waited.
  - by apply st_stop_helper.
Qed.

Lemma stopped0_reachable : driver_reachable mockFlags stopped0.
Proof.
  eapply driver_reachable_more; [exact driverStart_reachable|].
  apply rtc_once, st_background, st_signal.
Qed.

(** At its end nothing of the two goroutines moves. *)
Lemma stopping_fair : fair driver_step dr_loop stopping ∧ fair driver_step dr_main stopping.
Proof.
  split; intros i; exists (5 + i); (split; [lia|]); left; intros (d' & Hs & Hne).
  - destruct (loop_step _ _ Hs) as [?|[Hlt|[Hw _]]]; [done|cbn in Hlt; lia|done].
  - destruct (main_step _ _ (execution_phased mockFlags stopping stopped0_reachable
      stopping_execution (5 + i)) Hs) as [?|Hlt]; [done|cbn in Hlt; lia].
Qed.

Lemma Shutdown_returns_witness :
  dr_cause (stopping 0) = Some (EText "terminated signal received") ∧
  ∃ j, 0 ≤ j ∧ (dr_main (stopping j) = MReturned ∨
    (dr_main (stopping j) = MFailed ∧ dr_publishFailed (stopping j) = true)).
Proof.
  split; [reflexivity|]. destruct stopping_fair as [Hloop Hmain].
  refine (proj1 (Shutdown_returns mockFlags stopping 0 stopped0_reachable stopping_execution
    Hloop Hmain _ _)).
  - right. exists 0. by split.
  - by eexists.
Defined.

(** ** Two health streams

    On sysfs, with two streams waiting: the NPU's node disappears, the loop sends one
    token, and the first stream takes it. *)
Definition reportRun (d : Driver) : list DeviceHealth :=
  default [] (run (healthReport (dr_state d)) (repeat (fine npuFS []) 2) (dr_disk d)).2.

(** A stream is opened, sends its first report and waits. *)
Definition opened (i : nat) (d : Driver) : Driver :=
  let d1 := connected i d in
  set_watch i (mkWatcher WWait false) (reported i (reportRun d1) d1).

Lemma opened_steps i d :
  dr_watch d !! i = None →
  is_Some (run (healthReport (dr_state d)) (repeat (fine npuFS []) 2) (dr_disk d)).2 →
  rtc driver_step d (opened i d).
Proof.
  intros Hi Hr. set (d1 := connected i d).
  assert (Hd1 : dr_watch d1 = <[i := mkWatcher WReport true]> (dr_watch d)) by done.
  eapply rtc_l; [by apply st_background, (st_connect d i)|]. eapply rtc_l.
  - eapply st_background, (st_report d1 i true (repeat (fine npuFS []) 2) (reportRun d1)
      (run (healthReport (dr_state d1)) (repeat (fine npuFS []) 2) (dr_disk d1)).1).
    + by rewrite Hd1, lookup_insert_eq.
    + by apply run_completes.
  - apply rtc_once. apply st_background, (st_send (reported i (reportRun d1) d1) i (reportRun d1) false).
    change (dr_watch (reported i (reportRun d1) d1)) with
      (<[i := mkWatcher (WSend (reportRun d1)) false]> (dr_watch d1)).
    by rewrite lookup_insert_eq.
Qed.

Definition realBoot : Driver := bootOf realState startReal.1.

Definition twoStreams : Driver := opened 1 (opened 0 (boot_done true (Resources realState) realBoot)).

Definition npuFound : list Device := Enumerate npuFS (ds_discCfg realState).

Definition nodeGone : World * option (result error (DeviceState * reconcileResult)) :=
  run (applyDiscoveryLocked realState npuFound) (repeat (fine npuFS []) 20) startReal.1.

Definition goneState : DeviceState := match nodeGone.2 with Some (Ok (s, _)) => s | _ => realState end.
Definition goneResult : reconcileResult :=
  match nodeGone.2 with Some (Ok (_, r)) => r | _ => mkReconcile false false (mkResources ∅) end.

(** The loop finds the change and publishes it; the first stream is woken in between. *)
Definition firstWoken : Driver :=
  let d := set_loop (LLock npuFound) (set_loop LEnumerate twoStreams) in
  let d := notified goneResult (applied goneState goneResult nodeGone.1 d) in
  publish_done true (rr_Resources goneResult) (set_watch 0 (mkWatcher WReport true) (take_health d)).

(** A change of health wakes one stream only: with two of them open, the second can be left
    waiting, with nothing on its way to it but the resend ticker. *)
Theorem second_stream_unwoken :
  ∃ d, driver_reachable realFlags d ∧ dr_loop d = LWaiting ∧ dr_healthChanged d = Some false ∧
    dr_watch d !! 1 = Some (mkWatcher WWait true).
Proof.
  exists firstWoken. split; [|split_and!; by_vm]. exists realBoot. split.
  { apply (bootOf_init _ _ _ (repeat (fine npuFS ["/dev/accel/accel0"]) 20));
      [by_vm|apply fine_all, npuFS_ok]. }
  eapply rtc_l; [by apply st_background, (st_boot realBoot (Resources realState) true)|].
  etrans; [apply (opened_steps 0); [done|by_compute]|].
  etrans; [apply (opened_steps 1); [by_vm|by_compute]|]. fold twoStreams.
  eapply rtc_l; [by apply st_background, st_tick|].
  eapply rtc_l; [apply st_background, (st_enumerate (set_loop LEnumerate twoStreams) npuFS); [done|apply npuFS_ok]|].
  eapply rtc_l; [apply st_background, (st_apply _ npuFound (repeat (fine npuFS []) 20) goneState goneResult nodeGone.1);
    [done|apply fine_all, npuFS_ok|by_vm]|].
  eapply rtc_l; [by apply st_background, st_notify|].
  eapply rtc_l; [apply st_background, (st_changed _ 0 true); by_vm|].
  apply rtc_once. apply st_background, st_publish. by_vm.
Qed.
