(* ===== verification/MainProps.v ===== *)
(** Properties of the life of the process: what [RunPlugin] opens it closes, in the right
    order, but for the helper when the first publication fails; and the driver it starts
    is the one of [Driver.v]. *)

From Stdlib Require Import ZArith.
From stdpp Require Import options.
From S2P Require Import Prelude GoStrings GoPath GoSort Consts Types Sysfs Enumerate.
From S2P Require Import Codec Ranges Effects Health Resources Cdi Checkpoint Flags.
From S2P Require Import State StateLemmas StateInv System GoFloat Metrics Driver DriverInv Main Fixture.

Section props.
Context `{QuantityAPI} `{GoSort} `{CDIAPI} `{!ResourceJSON} `{MetricsAPI} `{KubeletPlugin}.

(** The directories made first are no other event. *)
Lemma prepared_dirs_only h f e : e ∈ prepared_dirs h f → ∃ p, e = MkdirAll p.
Proof. unfold prepared_dirs. case_match; set_solver. Qed.

Lemma after_dirs h f l e :
  (∀ p, e ≠ MkdirAll p) → e ∈ prepared_dirs h f ++ l ↔ e ∈ l.
Proof.
  intros He. rewrite elem_of_app. split; [|by right].
  intros [[p ->]%prepared_dirs_only|]; [by destruct (He p)|done].
Qed.

Lemma listen_after_dirs h f l :
  (∃ addr, Listen addr ∈ prepared_dirs h f ++ l) ↔ ∃ addr, Listen addr ∈ l.
Proof. split; intros [addr Ha]; exists addr; revert Ha; by rewrite after_dirs. Qed.

Ltac events := repeat setoid_rewrite elem_of_cons; try setoid_rewrite elem_of_nil; naive_solver.

(** The end of a trace. *)
Ltac tail := repeat first [reflexivity|apply suffix_nil|apply suffix_app_r|apply suffix_cons_r].

(** C30: [RunPlugin] returns without an error exactly when the rediscovery loop was
    started.  Then the loop ends before the helper is stopped, and both before the
    metrics server is shut down.  Whatever happens, short of a kill, the metrics server
    is shut down if and only if it was opened, as the last step, and waited for unless
    shutting it down fails.  A helper is stopped exactly when the loop was started: a
    helper that was started is left running when, and only when, the first publication
    failed. *)
Theorem RunPlugin_lifecycle h f w :
  let '((tr, w'), r) := RunPlugin h f ([], w) in
  (r = Some None ↔ StartLoop ∈ tr) ∧
  (StartLoop ∈ tr → ∃ pre s, tr = pre ++
     [StartHelper; Publish (Resources s); StartLoop; Done; LoopDone; StopHelper] ++ closing h f) ∧
  (r ≠ None →
   ((∃ addr, Listen addr ∈ tr) ↔ ShutdownServer ∈ tr) ∧
   (ShutdownServer ∈ tr → closing h f `suffix_of` tr) ∧
   (ServerDone ∈ tr ↔ ShutdownServer ∈ tr ∧ h_shutdown h = None)) ∧
  (StopHelper ∈ tr ↔ StartLoop ∈ tr) ∧
  (StartHelper ∈ tr → StopHelper ∈ tr ∨
   ∃ s e, h_publish h (Resources s) = Some e ∧ r = Some (Some e)).
Proof.
  destruct (RunPlugin_cases h f w) as [Hready|(tr & e & -> & Hpre)].
  - rewrite RunPlugin_spec by done. unfold starting, start_error, listening, closing.
    destruct (run (NewDeviceState f) (h_answers h) w) as [w' [[s|e]|]];
      [destruct (h_start h) as [e|]; [|destruct (h_publish h (Resources s)) as [e|] eqn:Hp]|..];
      destruct (metricsPort f <? 0)%Z, (h_shutdown h) as [e'|] eqn:Hsh; cbn zeta;
      rewrite <-?app_assoc; rewrite ?listen_after_dirs, !after_dirs by done; cbn [app].
    all: split_and!; try events.
    all: intros _; first [by eexists _, s|eexists (_ ++ [_]), s; by rewrite <-app_assoc|idtac].
    all: split_and!; try events; intros _; tail.
  - assert (Hdirs : ∀ x, x ∈ tr → x ∈ prepared_dirs h f)
      by (destruct Hpre as [k ->]; set_solver).
    assert (Hno : ∀ x, x ∈ tr → ∃ p, x = MkdirAll p)
      by (intros x Hx; by eapply prepared_dirs_only, Hdirs).
    split_and!.
    + split; [done|]. by intros [? ?]%Hno.
    + by intros [? ?]%Hno.
    + intros _. split; [split; [by intros [? [? ?]%Hno]|by intros [? ?]%Hno]|].
      split; [by intros [? ?]%Hno|]. split; [by intros [? ?]%Hno|by intros [[? ?]%Hno _]].
    + split; by intros [? ?]%Hno.
    + by intros [? ?]%Hno.
Qed.

(** When [RunPlugin] starts the helper, the driver is in an initial state of
    [Driver.v], on any disk earlier runs left; the directories and the listener are
    ready.  When it goes on to start the rediscovery loop, the resources of the state
    just built have been published, and that driver is reachable: what is proved of
    reachable drivers holds from there on. *)
Theorem RunPlugin_starts_driver h f σ tr w' r m0 m :
  fresh_registry m0 → init m0 = Some m →
  reachable f σ → proc σ = None → Forall answer_ok (h_answers h) →
  RunPlugin h f ([], disk σ) = ((tr, w'), r) → StartHelper ∈ tr →
  host_ready h f ∧ ∃ s, driver_init f (startedDriver s w' m) ∧
    (StartLoop ∈ tr → Publish (Resources s) ∈ tr ∧
       driver_reachable f (boot_done true (Resources s) (startedDriver s w' m))).
Proof. apply RunPlugin_driver. Qed.

End props.

(** ** Witness *)

(** A machine where everything works, and the plugin with a metrics server. *)
Definition fineHost : Host :=
  mkHost (λ _, None) (λ _, Err ErrNotExist) (λ _, None) (repeat (fine emptyFS []) 20) None
    (λ _, None) None.

Lemma RunPlugin_starts_driver_witness :
  let out := RunPlugin fineHost mockFlags ([], emptyWorld) in
  length out.1.1 = 8 ∧ host_ready fineHost mockFlags ∧
  ∃ s, driver_init mockFlags (startedDriver s out.1.2 startMetrics) ∧
    (StartLoop ∈ out.1.1 → Publish (Resources s) ∈ out.1.1 ∧
       driver_reachable mockFlags (boot_done true (Resources s) (startedDriver s out.1.2 startMetrics))).
Proof.
  intros out. split; [by_vm|].
  refine (RunPlugin_starts_driver fineHost mockFlags (mkSys None emptyWorld) out.1.1 out.1.2
    (Some None) noMetrics startMetrics noMetrics_fresh _ _ _ _ _ _).
  - by_vm.
  - apply emptyWorld_reachable.
  - reflexivity.
  - apply fine_all, emptyFS_ok.
  - by_vm.
  - assert (Hs : out.1.1 !! 2 = Some StartHelper) by by_vm.
    by eapply list_elem_of_lookup_2.
Defined.
