(* ===== verification/CliProps.v ===== *)
(** Properties of the command line: what [main] does with every command line and
    environment, the defaults, and the names of the flags. *)

From Stdlib Require Import Ascii ZArith SpecFloat.
From coqutil Require Import Datatypes.RecordSetters.
From stdpp Require Import options.
From S2P Require Import Prelude GoStrings GoPath GoSort GoFloat Consts Types Sysfs Enumerate.
From S2P Require Import Codec Effects Health Resources Cdi Flags State StateInv System.
From S2P Require Import Metrics Driver DriverInv PkgFlags Main Cli Fixture MainProps.

Import DoubleBraceUpdate.

Section props.
Context `{QuantityAPI} `{GoSort} `{CDIAPI} `{!ResourceJSON} `{LogsAPI} `{ClientSource} `{CLIAPI}.
Context (KubeletRegistryDir KubeletPluginsDir : string).

Abbreviation app_main := (Cli.main KubeletRegistryDir KubeletPluginsDir).
Abbreviation app_flags := (Cli.cliFlags KubeletRegistryDir KubeletPluginsDir).
Abbreviation app_configured := (Cli.configured_flags KubeletRegistryDir KubeletPluginsDir).

(** What [main] exits with, in terms of [RunPlugin]. *)
Lemma main_trace h args env w tr w' code :
  app_main h args env ([], w) = ((tr, w'), code) →
  tr = [] ∧ w' = w ∧ (code = Some 0%Z → parse app_flags args env = ShowHelp) ∨
  ∃ given core r, parse app_flags args env = Parsed given [] ∧
     NewClientSets (configured_kube given) = Ok core ∧
     RunPlugin h (app_configured given) ([], w) = ((tr, w'), r) ∧
     (code = Some 0%Z ↔ StartLoop ∈ tr).
Proof.
  intros Hmain. destruct (main_cases KubeletRegistryDir KubeletPluginsDir h args env w)
    as [(c & Hm & Hc)|(given & core & Hp & Hcore & Hm)]; rewrite Hmain in Hm.
  - simplify_eq. left. split_and!; [done..|]. by intros [_ ?]%Hc.
  - destruct (RunPlugin h (app_configured given) ([], w)) as [[tr1 w1] r] eqn:Hrun.
    simplify_eq. right. exists given, core, r. split_and!; [done..|].
    rewrite <-(RunPlugin_loop _ _ _ _ _ _ Hrun). destruct r as [[e|]|]; split; done.
Qed.

(** C9: from the command line to the driver.  Unless it is asked for help, the process
    exits with status 0 exactly when the rediscovery loop was started.  It touches
    nothing, not even a directory, unless the command line parses with a node name and no
    other argument, and the client can be built.  A loop it starts belongs to a
    reachable driver whose flags are those given, with Go's ranges: what is proved of
    reachable drivers holds, whatever the command line, the environment and the disk
    earlier runs left. *)
Theorem main_driver `{!MetricsAPI} `{!KubeletPlugin} h args env w tr w' code m0 m :
  fresh_registry m0 → init m0 = Some m → Forall answer_ok (h_answers h) →
  app_main h args env ([], w) = ((tr, w'), code) →
  (parse app_flags args env ≠ ShowHelp → code = Some 0%Z ↔ StartLoop ∈ tr) ∧
  (tr ≠ [] ∨ w' ≠ w → ∃ given, parse app_flags args env = Parsed given [] ∧
     is_Some (given KString "node-name") ∧ is_ok (NewClientSets (configured_kube given)) = true) ∧
  (StartLoop ∈ tr → ∃ given, parse app_flags args env = Parsed given [] ∧
     config_in_range (discoveryConfig (app_configured given)) ∧
     (reachable (app_configured given) (mkSys None w) →
      ∃ d, driver_reachable (app_configured given) d ∧ dr_disk d = w' ∧ dr_loop d = LWaiting ∧
        Publish (Resources (dr_state d)) ∈ tr)).
Proof.
  intros Hm0 Hm Hans Hmain.
  apply main_trace in Hmain as [(-> & -> & Hcode)|(given & core & r & Hp & Hcore & Hrun & Hcode)].
  { split; [|split; [by intros []|by intros ?%elem_of_nil]].
    intros Hh. split; [by intros ?%Hcode|by intros ?%elem_of_nil]. }
  split; [done|]. split.
  - intros _. exists given. split_and!; [done| |by rewrite Hcore].
    eapply (parse_required app_flags _ _ _ _
      (lift as_flags (λ f s, s {{ as_flags := f }}) (nth 0 (newAppFlags KubeletRegistryDir
         KubeletPluginsDir) (BoolFlag "" false (λ _ f, f) ""))) Hp); [by left|done].
  - intros Hloop. exists given. split; [done|]. split; [by eapply parsed_in_range|].
    intros Hr. pose proof (StartLoop_StartHelper _ _ _ _ _ _ Hrun Hloop) as Hhelper.
    destruct (RunPlugin_driver h (app_configured given) (mkSys None w) tr w' r m0 m)
      as (_ & s & _ & Hd); [done..|]. destruct (Hd Hloop) as [Hpub Hreach].
    by eexists.
Qed.

(** With only [--node-name] given, the plugin runs with its documented defaults: every
    device type, the kubelet's directories, no metrics server, a rediscovery every
    [defaultDiscoveryInterval]; and it talks to the API server from inside the cluster,
    with exactly 5 queries per second in 32 bits and bursts of 10. *)
Theorem default_configuration (given : Given) node :
  given KString "node-name" = Some node →
  (∀ k n, n ≠ "node-name" → given k n = None) →
  app_configured given = defaultFlags node KubeletRegistryDir KubeletPluginsDir ∧
  effectiveInterval (app_configured given) = defaultDiscoveryInterval ∧
  (metricsPort (app_configured given) < 0)%Z ∧
  NewClientSetConfig (configured_kube given) =
    match InClusterConfig with
    | Ok c => Ok (mkRest _ (binary_normalize 24 128 5 0 false) 10 (rest_Other c))
    | Err e => Err (EWrap "create in-cluster client configuration" e)
    end.
Proof.
  intros Hnode Hnone.
  assert (Heq : app_configured given = defaultFlags node KubeletRegistryDir KubeletPluginsDir).
  { unfold Cli.configured_flags. rewrite Hnode, !Hnone by done. reflexivity. }
  rewrite Heq. split_and!; [done..|].
  unfold configured_kube, NewClientSetConfig. rewrite !Hnone by done. cbn -[float32_of].
  by destruct InClusterConfig as [c|e].
Qed.

(** C40: no two flags of the plugin share a name or an environment variable, and every
    flag's variable is its name in upper case with underscores, by the one convention
    of [pflagToCLI], as long as component-base's own flags have plain and distinct
    names that are not the plugin's. *)
Theorem flag_names_distinct :
  NoDup (pf_Name <$> AddFlags) →
  Forall (λ n, plain_name n = true ∧ n ∉ ownNames KubeletRegistryDir KubeletPluginsDir)
    (pf_Name <$> AddFlags) →
  NoDup (fl_Name <$> app_flags) ∧
  NoDup (concat (fl_EnvVars <$> app_flags)) ∧
  Forall (λ fl, fl_EnvVars fl = [envName (fl_Name fl)]) app_flags.
Proof.
  intros Hnd Hother. rewrite Forall_forall in Hother.
  assert (Hnames : NoDup (fl_Name <$> app_flags)).
  { rewrite cliFlags_names. apply NoDup_app. split_and!; [apply ownNames_NoDup| |done].
    intros n Hn Hin. by apply Hother in Hin as [_ ?]. }
  pose proof (cliFlags_env KubeletRegistryDir KubeletPluginsDir) as Henv.
  split_and!; [done| |done].
  assert (Hplain : Forall (λ n, plain_name n = true) (fl_Name <$> app_flags)).
  { rewrite cliFlags_names. apply Forall_app. split; [apply ownNames_plain|].
    apply Forall_forall. intros n Hn. by apply Hother in Hn as [? _]. }
  assert (Hc : concat (fl_EnvVars <$> app_flags) = envName <$> (fl_Name <$> app_flags)).
  { clear -Henv. induction app_flags as [|fl fls IH]; [done|].
    apply Forall_cons in Henv as [Hfl Henv]. cbn. rewrite Hfl. cbn. by rewrite <-IH. }
  rewrite Hc. rewrite Forall_forall in Hplain. apply NoDup_fmap_2_strong; [|done].
  intros a b Ha Hb. by apply envName_inj; apply Hplain.
Qed.

(** [--healthcheck-port] has no effect: no service is started, whatever its value. *)
Theorem healthcheck_port_unused h f port σ :
  RunPlugin h (f {{ healthcheckPort := port }}) σ = RunPlugin h f σ.
Proof. reflexivity. Qed.

End props.

(** ** Witnesses

    component-base with two flags, a client that is always built, and a parser of
    [--name=value]. *)
#[export] Program Instance plainLogs : LogsAPI := {|
  LoggingConfiguration := list (string * string);
  FeatureGate := list string;
  NewLoggingConfiguration := [];
  NewFeatureGate := [];
  AddFeatureGates g := Ok g;
  SetFromMap m g := Ok (map fst m ++ g);
  ContextualLogging := "ContextualLogging";
  SetGates v g := v :: g;
  AddFlags := [mkPflag "v" (λ v c, ("v", v) :: c); mkPflag "logging-format" (λ v c, ("format", v) :: c)];
  ValidateAndApply _ _ := None;
  VisitAll _ l := l
|}.
Next Obligation. done. Qed.

#[export] Instance plainClient : ClientGo := {| restOther := unit; Interface := float32 * Z |}.

#[export] Instance plainSource : ClientSource := {|
  InClusterConfig := Ok (mkRest _ (S754_zero false) 0 tt);
  BuildConfigFromFlags _ _ := Err (EText "no such file");
  NewForConfig c := Ok (QPS c, Burst c)
|}.

Definition plainValue (k : flagKind) (text : string) : option (denote k) :=
  match k return option (denote k) with
  | KString | KGeneric => Some text
  | KBool => Some (bool_decide (text = "true"))
  | KInt => match Atoi text with
            | Some z => if is_int64 z then Some z else None
            | None => None
            end
  | KFloat64 | KDuration => None
  end.

Definition plainText (args : list string) (env : string → option string) (name : string) (vars : list string)
    : option string :=
  match omap (CutPrefix ("--" +:+ name +:+ "=")) args ++ omap env vars with
  | [] => None
  | text :: _ => Some text
  end.

Definition plainGiven {S} (fls : list (Flag S)) args env : Given := λ k name,
  match omap (λ fl, if bool_decide (fl_Name fl = name) then plainText args env name (fl_EnvVars fl)
                    else None) fls with
  | [] => None
  | text :: _ => plainValue k text
  end.

#[export] Program Instance plainCLI : CLIAPI := {|
  parse S fls args env :=
    let given := plainGiven fls args env in
    if bool_decide ("--help" ∈ args) then ShowHelp
    else if forallb (λ fl, negb (fl_Required fl) || bool_decide (is_Some (given (fl_Kind fl) (fl_Name fl)))) fls
    then Parsed given (filter (λ a, HasPrefix a "--" = false) args)
    else ParseError (EText "Required flag not set")
|}.
Next Obligation.
  intros S fls args env given rest fl. cbn. case_bool_decide; [done|]. case_match eqn:Hall; intros [= <- _] Hin Hreq.
  rewrite forallb_forall in Hall. specialize (Hall fl). rewrite <-list_elem_of_In in Hall.
  specialize (Hall Hin). rewrite Hreq in Hall. by apply bool_decide_eq_true in Hall.
Qed.
Next Obligation.
  intros S fls args env given rest name z. cbn. case_bool_decide; [done|]. case_match; intros [= <- _].
  unfold plainGiven, plainValue. repeat case_match; by intros [= ->].
Qed.

(** [kubeletplugin --node-name=node1], with [MOCK_DEVICES=true]. *)
Definition mockEnv (v : string) : option string :=
  if bool_decide (v = "MOCK_DEVICES") then Some "true" else None.

Definition nodeArgs : list string := ["--node-name=node1"].

Definition kubeletRegistry := "/var/lib/kubelet/plugins_registry".
Definition kubeletPlugins := "/var/lib/kubelet/plugins".

Definition isHelp (p : parsed) : bool := match p with ShowHelp => true | _ => false end.

(** A triple is its components.  Evaluating it for this would be slow. *)
Lemma triple_eta {A B C} (o : A * B * C) : o = (o.1.1, o.1.2, o.2).
Proof. by destruct o as [[??]?]. Qed.

Lemma main_driver_witness :
  let out := Cli.main kubeletRegistry kubeletPlugins fineHost nodeArgs mockEnv ([], emptyWorld) in
  let parsed := parse (Cli.cliFlags kubeletRegistry kubeletPlugins) nodeArgs mockEnv in
  out.2 = Some 0%Z ∧
  match parsed with
  | Parsed given _ => mockDevices (Cli.configured_flags kubeletRegistry kubeletPlugins given)
  | _ => false
  end = true ∧
  ∃ given, parsed = Parsed given [] ∧
    ∃ d, driver_reachable (Cli.configured_flags kubeletRegistry kubeletPlugins given) d ∧
      dr_disk d = out.1.2.
Proof.
  intros out parsed. assert (Hcode : out.2 = Some 0%Z) by by_vm. split; [exact Hcode|].
  split; [by_vm|].
  destruct (main_driver kubeletRegistry kubeletPlugins fineHost nodeArgs mockEnv emptyWorld
    out.1.1 out.1.2 out.2 noMetrics startMetrics) as (Hloop & _ & Hd);
    [apply noMetrics_fresh|by_vm|apply fine_all, emptyFS_ok|apply triple_eta|].
  assert (Hhelp : isHelp parsed = false) by by_vm.
  assert (Hl : StartLoop ∈ out.1.1).
  { apply Hloop; [|exact Hcode]. intros Hp. fold parsed in Hp. by rewrite Hp in Hhelp. }
  destruct (Hd Hl) as (given & Hp & _ & Hreach). exists given.
  split; [exact Hp|].
  destruct (Hreach (emptyWorld_reachable _)) as (d & Hr & Hdisk & _).
  exists d. exact (conj Hr Hdisk).
Defined.

Lemma default_configuration_witness :
  let given : Given := λ k name,
    match k return option (denote k) with
    | KString => if bool_decide (name = "node-name") then Some "node1" else None
    | _ => None
    end in
  Cli.configured_flags kubeletRegistry kubeletPlugins given = realFlags ∧
  is_ok (NewClientSetConfig (configured_kube given)) = true.
Proof.
  intros given.
  destruct (default_configuration kubeletRegistry kubeletPlugins given "node1") as (Hf & _ & _ & Hc).
  - reflexivity.
  - intros [] n Hn; [|reflexivity..]. unfold given. by rewrite bool_decide_eq_false_2.
  - split; [exact Hf|]. by rewrite Hc.
Defined.

Lemma flag_names_distinct_witness :
  length (Cli.cliFlags kubeletRegistry kubeletPlugins) = 25 ∧
  NoDup (concat (fl_EnvVars <$> Cli.cliFlags kubeletRegistry kubeletPlugins)).
Proof.
  split; [by_vm|].
  apply (flag_names_distinct kubeletRegistry kubeletPlugins); [by_compute|].
  repeat constructor; by_compute.
Defined.
