(* ===== verification/NodeProps.v ===== *)
(** Properties of the life of a node: what the kubelet was told stays true through
    kills, restarts and changes of the command line, and the plugin can be started
    again. *)

From Stdlib Require Import ZArith.
From stdpp Require Import options.
From S2P Require Import Prelude GoStrings GoPath GoSort Consts Types Sysfs Enumerate.
From S2P Require Import Json JsonRound Codec Ranges Effects Health Resources Cdi Checkpoint Flags.
From S2P Require Import State StateLemmas StateInv System Store GoFloat Metrics Driver DriverInv.
From S2P Require Import PkgFlags Main Cli Node Fixture Returns Accepts MainProps CliProps.

Section props.
Context `{QuantityAPI} `{GoSort} `{CDIAPI} `{!ResourceJSON} `{MetricsAPI} `{KubeletPlugin}.
Context `{LogsAPI} `{ClientSource} `{CLIAPI}.
Context (KubeletRegistryDir KubeletPluginsDir path : string).

Abbreviation step := (node_step KubeletRegistryDir KubeletPluginsDir path).
Abbreviation reached := (node_reachable KubeletRegistryDir KubeletPluginsDir path).
Abbreviation stored := (nodeStore path).

(** C4: whatever happens to the node, starts from any command line, every interleaving
    of the plugin's goroutines, kills inside any operation, reboots, the two files
    implement the abstract store: it changes by what the kubelet asks for and is told, as
    [spec_step] says, and by nothing else.  A driver that is up is one of [Driver.v],
    with flags in Go's ranges, so everything proved of reachable drivers holds of it. *)
Theorem node_refines_store tr n n' :
  reached n → runs step tr n n' →
  runs spec_step tr (stored n) (stored n') ∧
  match n' with
  | Down _ => True
  | Up f d => DriverPluginPath f = path ∧ config_in_range (discoveryConfig f) ∧ driver_reachable f d
  end.
Proof.
  intros Hn%node_reachable_inv Hruns.
  destruct (node_runs_spec _ _ _ _ _ _ Hn Hruns) as [Hinv Hspec]. split; [done|].
  by destruct n'.
Qed.

(** C1: what the kubelet was told is durable.  After a successful answer about a claim,
    through any steps that are not about this claim, kills, restarts with other flags
    and reboots included, the store still says what was answered: the claim with the
    devices the kubelet was given, each tracked and published whenever the plugin is up;
    or that the claim is released.  The only exception is a checkpoint broken by a
    call that failed or was killed while rewriting it. *)
Theorem answers_durable e uid tr n1 n2 n3 :
  reached n1 → step e n1 n2 → event_of uid e → event_ok e = true →
  runs step tr n2 n3 → Forall (λ e, ¬ event_of uid e) tr →
  (stored n3 = Broken ∧ ∃ e', e' ∈ tr ∧ interrupted e') ∨
  ∃ m, stored n3 = Holds m ∧
    match e with
    | EvPrepare _ (Some (Ok devices)) =>
        Name <$> default [] (m !! uid) = kd_DeviceName <$> devices ∧ is_Some (m !! uid) ∧
        match n3 with
        | Down _ => True
        | Up f d => ∀ n, n ∈ kd_DeviceName <$> devices →
            is_tracked (dr_state d) n ∧
            n ∈ rd_Name <$> published (Resources (dr_state d)) (nodeName f)
        end
    | _ => m !! uid = None
    end.
Proof.
  intros Hn1%node_reachable_inv Hstep He Hok Hruns Htr.
  pose proof (node_step_spec _ _ _ _ _ _ Hn1 Hstep) as Hs.
  pose proof (node_inv_step _ _ _ _ _ _ Hn1 Hstep) as Hn2.
  destruct (node_runs_spec _ _ _ _ _ _ Hn2 Hruns) as [Hn3 Hspec].
  destruct (spec_answered _ _ _ Hs Hok) as (m1 & m2 & _ & Hm2 & Heff). rewrite Hm2 in Hspec. apply (spec_runs_keep tr uid) in Hspec as [?|(m & Hm & Hsame)]; [by left| |done].
  right. exists m. split; [done|].
  destruct e as [u [[devices|]|]|u [[[]|]|]|]; try done; cbn in He, Heff; subst u.
  - destruct Heff as (devs & -> & Hdevs). destruct (Hdevs devices eq_refl) as [Hnames Hne].
    rewrite lookup_insert_eq in Hsame. rewrite Hsame. split; [done|]. split; [done|].
    destruct n3 as [w|f d]; [done|]. intros n Hin. destruct Hn3 as (Hpath & Hf & Hr).
    rewrite <-Hnames in Hin.
    eapply (store_published f); [apply (di_sys f d (driver_reachable_inv f d Hf Hr))| |done..|by intros ->].
    unfold cpPathOf, clPathOf. rewrite Hpath. exact Hm.
  - subst m2. by rewrite lookup_delete_eq in Hsame.
Qed.

(** C5: a broken store is final.  Once a call was interrupted while it rewrote the
    checkpoint, no call of the kubelet is ever answered without an error again; and once the
    process has ended, no new one gets so far as to start its helper, whatever its
    command line. *)
Theorem broken_is_final tr n n' :
  reached n → stored n = Broken → runs step tr n n' →
  stored n' = Broken ∧ Forall (λ e, event_ok e = false) tr ∧
  (∀ w, n = Down w → ∃ w', n' = Down w').
Proof.
  intros Hn%node_reachable_inv Hst Hruns.
  destruct (node_runs_spec _ _ _ _ _ _ Hn Hruns) as [_ Hspec].
  pose proof Hspec as Hall. rewrite Hst in Hall. apply spec_runs_broken in Hall as [Hst' Hall].
  split; [done|]. split; [done|]. clear Hspec Hst' Hall. intros w Hdown.
  revert w Hdown Hn Hst. induction Hruns as [n|e tr n1 n2 n3 Hstep _ IH]; intros w -> Hn Hst; [by exists w|].
  pose proof (node_inv_step _ _ _ _ _ _ Hn Hstep) as Hn2.
  pose proof (node_step_spec _ _ _ _ _ _ Hn Hstep) as Hs. rewrite Hst in Hs.
  apply spec_broken in Hs as [Hst2 _].
  assert (Hd : ∃ w', n2 = Down w').
  { inversion Hstep; subst; [by eapply boots_broken|by eexists]. }
  destruct Hd as [w' ->]. by eapply IH.
Qed.

End props.

Section restart.
Context `{QuantityAPI} `{GoSort} `{CDIAPI} `{!ResourceJSON}.

(** C3: the plugin recovers.  On any disk its past left, when the host is ready and no
    call fails, a new process starts its loop exactly when the store is not broken; then
    it has kept the store, and the resources it publishes first have every device of
    every prepared claim.  On a broken store it exits with an error and serves
    nothing. *)
Theorem restart_recovers h f a answers w :
  config_in_range (discoveryConfig f) → left_disk (DriverPluginPath f) w →
  host_ready h f → h_start h = None → (∀ r, h_publish h r = None) →
  is_ok (NewCDIHandler (cdiRoot f) (flagDriverName f) (mockDevices f)) = true →
  h_answers h = a :: answers →
  Forall (λ a, answer_ok a ∧ working (clPathOf f) w a) (a :: answers) →
  11 + 2 * length (Enumerate (ans_sysfs a) (discoveryConfig f)) +
    snapshotsOn (clPathOf f) w ≤ length answers →
  let '((tr, w'), r) := RunPlugin h f ([], w) in
  storeOn (cpPathOf f) (clPathOf f) w' = storeOn (cpPathOf f) (clPathOf f) w ∧
  match storeOn (cpPathOf f) (clPathOf f) w with
  | Broken => is_Some r ∧ r ≠ Some None ∧ StartHelper ∉ tr
  | Holds m =>
      r = Some None ∧ StartLoop ∈ tr ∧
      ∃ rs, Publish rs ∈ tr ∧ ∀ uid devs n, m !! uid = Some devs → n ∈ Name <$> devs → n ≠ "" →
        n ∈ rd_Name <$> published rs (nodeName f)
  end.
Proof.
  intros Hf Hw Hready Hstart Hpub Hcdi Hans Hok Hlen.
  destruct (NewCDIHandler _ _ _) as [cdi|] eqn:Hh; [|done]. clear Hcdi.
  apply Forall_and in Hok as [Hok1 Hok2]. rewrite RunPlugin_spec, Hans by done.
  pose proof (returns_start_run f a answers w Hlen) as Hret.
  destruct (run (NewDeviceState f) (a :: answers) w) as [w' r] eqn:Hrun.
  pose proof (store_start f _ _ _ _ Hf Hok1 Hrun) as Hst. apply store_step_same in Hst.
  destruct Hret as [x Hx]. cbn in Hx. subst r.
  destruct (left_covered _ _ Hw) as (fl & Hfl & _). fold (clPathOf f) in Hfl.
  destruct (checkpointOn (cpPathOf f) w) as [c|] eqn:Hc.
  - destruct (start_accepts f cdi a answers w) as (w1 & s & Hs); [done|by split; eexists|done..|].
    rewrite Hrun in Hs. injection Hs as -> ->. unfold start_error, starting.
    rewrite Hstart, Hpub. split; [done|].
    assert (Hold : storeOn (cpPathOf f) (clPathOf f) w = Holds (held c fl))
      by (unfold storeOn; by rewrite Hc, Hfl).
    rewrite Hold. split; [done|]. split; [set_solver|].
    exists (Resources s). split; [set_solver|]. intros uid devs n Hm Hn Hne.
    apply (start_inv f) in Hrun; [|done..|by apply left_covered].
    eapply (store_published f _ _ (held c fl)); [exact Hrun| |done..]. congruence.
  - destruct (wp_run _ _ _ _ _ _ (wp_start_broken (λ _, True) f w Hc) (Forall_true _ _ (λ _, I)) Hrun)
      as [_ Hr]. destruct x as [s|e]; [done|]. split; [done|].
    assert (storeOn (cpPathOf f) (clPathOf f) w = Broken) as -> by (unfold storeOn; by rewrite Hc).
    split_and!; [done..|]. unfold prepared_dirs, listening, closing. repeat case_match; set_solver.
Qed.

End restart.

(** ** Witness: a node with mock devices

    The plugin starts, prepares a claim, is killed while it releases another one, and is
    started again with the NPUs disabled. *)

Definition demoPath : string := "/var/lib/kubelet/plugins/" +:+ DriverName.

Abbreviation demoTable := (Cli.cliFlags kubeletRegistry kubeletPlugins).
Abbreviation demoStep := (node_step kubeletRegistry kubeletPlugins demoPath).

Definition givenOf (args : list string) : Given :=
  match parse demoTable args mockEnv with Parsed given _ => given | _ => λ _ _, None end.

Definition flagsOf (args : list string) : Flags :=
  Cli.configured_flags kubeletRegistry kubeletPlugins (givenOf args).

Definition noNpuArgs : list string := nodeArgs ++ ["--npu-enabled=false"].

(** The state that is built on the disk [w]. *)
Definition startOn (args : list string) (w : World) : World * option (result error DeviceState) :=
  run (NewDeviceState (flagsOf args)) (h_answers fineHost) w.

Definition startState args w : DeviceState := resultOr blankState (startOn args w).2.

Definition demoState : DeviceState := startState nodeArgs emptyWorld.

Definition demoUp : Driver :=
  boot_done true (Resources demoState)
    (startedDriver demoState (startOn nodeArgs emptyWorld).1 startMetrics).

Definition demoPrepare : World * option (result error (list preparedDevice)) :=
  run (Prepare (dr_state demoUp) (npuClaim "uid-1")) (repeat (fine emptyFS []) 20) (dr_disk demoUp).

Definition demoAnswer : PrepareResult :=
  prepareResult (npuClaim "uid-1") (default (Err EJSON) demoPrepare.2).

Definition demoDevices : list KubeletDevice := match demoAnswer with Ok l => l | Err _ => [] end.

Definition demoPrepared : Driver := prepare_returned 0 0 demoAnswer demoPrepare.1 demoUp.

(** It is killed before it truncates the checkpoint. *)
Definition demoKill : World * option (result error unit) :=
  run (Unprepare (dr_state demoPrepared) "uid-2") (repeat (fine emptyFS []) 2) (dr_disk demoPrepared).

Definition demoAgain : Driver :=
  startedDriver (startState noNpuArgs demoKill.1) (startOn noNpuArgs demoKill.1).1 startMetrics.

Definition demoRest : list observation := [EvUnprepare "uid-2" None; Silent].

(** Evaluated are only the shapes of the results. *)
Lemma start_shape (x : World * option (result error DeviceState)) d :
  match x.2 with Some (Ok _) => true | _ => false end = true → x = (x.1, Some (Ok (resultOr d x.2))).
Proof. by destruct x as [w [[s|]|]]. Qed.

Lemma prepare_shape (x : World * option (result error (list preparedDevice))) d :
  match x.2 with Some (Ok _) => true | _ => false end = true → x = (x.1, Some (default d x.2)).
Proof. by destruct x as [w [[l|]|]]. Qed.

Lemma killed_shape {A} (x : World * option A) :
  match x.2 with Some _ => false | None => true end = true → x = (x.1, None).
Proof. by destruct x as [w [a|]]. Qed.

Definition no_rest (p : parsed) : bool := match p with Parsed _ [] => true | _ => false end.

Lemma parsed_shape args :
  no_rest (parse demoTable args mockEnv) = true →
  parse demoTable args mockEnv = Parsed (givenOf args) [].
Proof. unfold givenOf. by destruct (parse demoTable args mockEnv) as [| |given []]. Qed.

Lemma demo_boots args w :
  no_rest (parse demoTable args mockEnv) = true →
  DriverPluginPath (flagsOf args) = demoPath →
  (Cli.main kubeletRegistry kubeletPlugins fineHost args mockEnv ([], w)).1.1 !! 2 = Some StartHelper →
  match (startOn args w).2 with Some (Ok _) => true | _ => false end = true →
  init noMetrics = Some startMetrics →
  demoStep Silent (Down w)
    (Up (flagsOf args) (startedDriver (startState args w) (startOn args w).1 startMetrics)).
Proof.
  intros Hp%parsed_shape Hpath Htr Hs Hm. apply nd_boot.
  destruct (Cli.main kubeletRegistry kubeletPlugins fineHost args mockEnv ([], w)) as [[tr w1] code] eqn:Hmain.
  pose proof (list_elem_of_lookup_2 _ _ _ Htr) as Hin. apply (start_shape _ blankState) in Hs.
  destruct (main_starts _ _ _ _ _ _ _ _ _ _ Hp Hmain Hin) as [s Hrun].
  assert (Heq : (w1, Some (Ok s)) = ((startOn args w).1, Some (Ok (startState args w))))
    by (transitivity (startOn args w); [symmetry; exact Hrun|exact Hs]). injection Heq as -> ->.
  exact (boot_up _ _ _ _ fineHost args mockEnv (givenOf args) tr _ code _ noMetrics _
    (fine_all _ _ _ emptyFS_ok) Hp Hpath Hmain Hin Hrun noMetrics_fresh Hm).
Qed.

Lemma demo_loop f s w m :
  demoStep Silent (Up f (startedDriver s w m)) (Up f (boot_done true (Resources s) (startedDriver s w m))).
Proof. apply nd_background. by apply st_boot. Qed.

Lemma demo_first : runs demoStep [Silent; Silent] (Down emptyWorld) (Up (flagsOf nodeArgs) demoUp).
Proof. eapply runs_cons; [apply demo_boots; by_vm|]. apply runs_once, demo_loop. Qed.

Lemma demo_prepare :
  demoStep (EvPrepare "uid-1" (Some (Ok demoDevices))) (Up (flagsOf nodeArgs) demoUp)
    (Up (flagsOf nodeArgs) demoPrepared).
Proof.
  apply nd_call.
  assert (Hok : match demoPrepare.2 with Some (Ok _) => true | _ => false end = true) by by_vm.
  assert (Heq : prepareResult (npuClaim "uid-1") (default (Err EJSON) demoPrepare.2) = Ok demoDevices).
  { unfold demoDevices, demoAnswer. by destruct demoPrepare.2 as [[]|]. }
  rewrite <-Heq.
  refine (kc_prepare demoUp 0 0 (npuClaim "uid-1") (repeat (fine emptyFS []) 20)
    (default (Err EJSON) demoPrepare.2) demoPrepare.1 _ _ (fine_all 20 emptyFS [] emptyFS_ok) _);
    [reflexivity|by_vm|]. by apply (prepare_shape demoPrepare).
Qed.

Lemma demo_kill :
  demoStep (EvUnprepare "uid-2" None) (Up (flagsOf nodeArgs) demoPrepared) (Down demoKill.1).
Proof.
  apply nd_kill. refine (killed_unprepare demoPrepared "uid-2" (repeat (fine emptyFS []) 2) demoKill.1
    (fine_all 2 emptyFS [] emptyFS_ok) _).
  apply (killed_shape demoKill). by_vm.
Qed.

Lemma demo_rest :
  runs demoStep demoRest (Up (flagsOf nodeArgs) demoPrepared) (Up (flagsOf noNpuArgs) demoAgain).
Proof. eapply runs_cons; [exact demo_kill|]. apply runs_once, demo_boots; by_vm. Qed.

Lemma demo_new : node_reachable kubeletRegistry kubeletPlugins demoPath (Down emptyWorld).
Proof. exists emptyWorld, []. split; [by apply left_never|constructor]. Qed.

Lemma demo_reached : node_reachable kubeletRegistry kubeletPlugins demoPath (Up (flagsOf nodeArgs) demoUp).
Proof. exists emptyWorld, [Silent; Silent]. split; [by apply left_never|apply demo_first]. Qed.

Definition showStore (S : store) : list (string * list string) :=
  match S with
  | Broken => []
  | Holds m => map (λ p, (p.1, map Name p.2)) (map_to_list m)
  end.

Lemma node_refines_store_witness :
  let tr := [Silent; Silent] ++ EvPrepare "uid-1" (Some (Ok demoDevices)) :: demoRest in
  showStore (nodeStore demoPath (Down emptyWorld)) = [] ∧
  showStore (nodeStore demoPath (Up (flagsOf noNpuArgs) demoAgain)) = [("uid-1", ["npu-0"])] ∧
  runs spec_step tr (nodeStore demoPath (Down emptyWorld))
    (nodeStore demoPath (Up (flagsOf noNpuArgs) demoAgain)) ∧
  driver_reachable (flagsOf noNpuArgs) demoAgain.
Proof.
  intros tr. split; [by_vm|]. split; [by_vm|].
  destruct (node_refines_store kubeletRegistry kubeletPlugins demoPath tr (Down emptyWorld)
    (Up (flagsOf noNpuArgs) demoAgain)) as [Hspec (_ & _ & Hr)].
  - exact demo_new.
  - eapply runs_app; [exact demo_first|]. eapply runs_cons; [exact demo_prepare|exact demo_rest].
  - exact (conj Hspec Hr).
Defined.

(** The device stays published although its type was disabled. *)
Lemma answers_durable_witness :
  map kd_DeviceName demoDevices = ["npu-0"] ∧ npuEnabled (flagsOf noNpuArgs) = false ∧
  ∃ m, nodeStore demoPath (Up (flagsOf noNpuArgs) demoAgain) = Holds m ∧
    ∀ n, n ∈ kd_DeviceName <$> demoDevices →
      is_tracked (dr_state demoAgain) n ∧
      n ∈ rd_Name <$> published (Resources (dr_state demoAgain)) (nodeName (flagsOf noNpuArgs)).
Proof.
  split; [by_vm|]. split; [by_vm|].
  destruct (answers_durable kubeletRegistry kubeletPlugins demoPath
    (EvPrepare "uid-1" (Some (Ok demoDevices))) "uid-1" demoRest _ _ _ demo_reached demo_prepare
    eq_refl eq_refl demo_rest) as [[Hb _]|(m & Hm & _ & _ & Hn)].
  - constructor; [discriminate|constructor; [intros []|constructor]].
  - exfalso. assert (Hs : showStore (nodeStore demoPath (Up (flagsOf noNpuArgs) demoAgain)) =
      [("uid-1", ["npu-0"])]) by by_vm. by rewrite Hb in Hs.
  - exact (ex_intro _ m (conj Hm Hn)).
Defined.

(** A restart on the disk of the node that was killed, and one where the checkpoint was
    cut short. *)
Definition recoverHost : Host :=
  mkHost (λ _, None) (λ _, Err ErrNotExist) (λ _, None) (repeat (fine emptyFS []) 60) None
    (λ _, None) None.

Lemma restart_recovers_witness :
  let out := RunPlugin recoverHost (flagsOf noNpuArgs) ([], demoKill.1) in
  out.2 = Some None ∧ StartLoop ∈ out.1.1.
Proof.
  intros out.
  pose proof (restart_recovers recoverHost (flagsOf noNpuArgs) (fine emptyFS [])
    (repeat (fine emptyFS []) 59) demoKill.1) as Hrec.
  assert (Hst : match storeOn (cpPathOf (flagsOf noNpuArgs)) (clPathOf (flagsOf noNpuArgs)) demoKill.1 with
                | Broken => false | Holds _ => true end = true) by by_vm.
  assert (Hleft : left_disk (DriverPluginPath (flagsOf noNpuArgs)) demoKill.1).
  { assert (Hpath : DriverPluginPath (flagsOf noNpuArgs) = demoPath) by by_vm. rewrite Hpath.
    apply (node_reachable_inv kubeletRegistry kubeletPlugins demoPath (Down demoKill.1)).
    exists emptyWorld, ([Silent; Silent] ++ [EvPrepare "uid-1" (Some (Ok demoDevices)); EvUnprepare "uid-2" None]).
    split; [by apply left_never|]. eapply runs_app; [exact demo_first|].
    eapply runs_cons; [exact demo_prepare|]. apply runs_once, demo_kill. }
  assert (Hfresh : files demoKill.1 !! temp_name (Dir (clPathOf (flagsOf noNpuArgs)))
    (tempPrefix (clPathOf (flagsOf noNpuArgs))) 7 = None) by by_vm.
  fold out in Hrec. destruct out as [[tr w'] r]. cbn [fst snd].
  destruct Hrec as [_ Hrec]; [by_compute|exact Hleft|..].
  - split; [reflexivity|]. split; [reflexivity|]. left. by_vm.
  - reflexivity.
  - reflexivity.
  - by_vm.
  - reflexivity.
  - assert (Hb : answer_ok (fine emptyFS []) ∧ working (clPathOf (flagsOf noNpuArgs)) demoKill.1
      (fine emptyFS [])).
    { split; [apply fine_ok, emptyFS_ok|]. split; [reflexivity|]. split; [discriminate|exact Hfresh]. }
    constructor; [exact Hb|]. apply Forall_forall. intros b ->%list_elem_of_In%repeat_spec. exact Hb.
  - by_compute.
  - revert Hst Hrec. generalize (storeOn (cpPathOf (flagsOf noNpuArgs)) (clPathOf (flagsOf noNpuArgs)) demoKill.1).
    intros [|m] Hst Hrec; [discriminate Hst|].
    destruct Hrec as (Hr & Hl & _). exact (conj Hr Hl).
Defined.

(** The plugin is killed one step later, when it has truncated the checkpoint. *)
Definition demoTorn : World :=
  (run (Unprepare (dr_state demoPrepared) "uid-2") (repeat (fine emptyFS []) 3)
    (dr_disk demoPrepared)).1.

Lemma demo_tear :
  demoStep (EvUnprepare "uid-2" None) (Up (flagsOf nodeArgs) demoPrepared) (Down demoTorn).
Proof.
  apply nd_kill. refine (killed_unprepare demoPrepared "uid-2" (repeat (fine emptyFS []) 3) demoTorn
    (fine_all 3 emptyFS [] emptyFS_ok) _).
  apply (killed_shape (run _ _ _)). by_vm.
Qed.

Lemma broken_is_final_witness :
  (∃ tr, runs demoStep tr (Down emptyWorld) (Down demoTorn)) ∧
  nodeStore demoPath (Down demoTorn) = Broken ∧
  ∀ tr n, runs demoStep tr (Down demoTorn) n → ∃ w, n = Down w.
Proof.
  assert (Hruns : runs demoStep ([Silent; Silent] ++
    [EvPrepare "uid-1" (Some (Ok demoDevices)); EvUnprepare "uid-2" None]) (Down emptyWorld) (Down demoTorn)).
  { eapply runs_app; [exact demo_first|]. eapply runs_cons; [exact demo_prepare|].
    apply runs_once, demo_tear. }
  assert (Hb : nodeStore demoPath (Down demoTorn) = Broken) by by_vm.
  split; [exact (ex_intro _ _ Hruns)|]. split; [exact Hb|]. intros tr n Hn.
  refine (proj2 (proj2 (broken_is_final kubeletRegistry kubeletPlugins demoPath tr (Down demoTorn) n
    _ Hb Hn)) demoTorn eq_refl).
  exists emptyWorld, ([Silent; Silent] ++
    [EvPrepare "uid-1" (Some (Ok demoDevices)); EvUnprepare "uid-2" None]).
  split; [by apply left_never|exact Hruns].
Defined.
